(* ===== verification/_CoqProject ===== *)
-Q . S2P
Prelude.v
Types.v
State.v
Handle.v
Refs.v
Allocator.v
Image.v
Capture.v
Queue.v
CaptureSync.v
Keep.v
SyncDirect.v
SyncLife.v
Usb.v
UsbStream.v
UsbCommand.v
UsbTransfer.v
UsbStop.v
UsbDevice.v
UsbClient.v
ColorMcu.v
Color.v
Uvc.v
UvcMetadata.v
UvcControl.v
UvcFrame.v
UvcLife.v
Mf.v
MfControl.v
MfStream.v
MfOpen.v
MfSample.v
Device.v
ColorPath.v
ComCommand.v
Math.v
Logging.v
Wrapper.v
WrapperOwn.v
WrapperSdk.v
