(* ===== verification/Prelude.v ===== *)
(** * A verification of the camera SDK (src/src and src/include)

    The SDK opens depth/color cameras, reads their streams, pairs the images
    of the two sensors by time and hands captures to the application.  Its
    parts, from the bottom up: handles and locks; an allocator with leak
    counters; images and captures, which are counted; a bounded queue of
    captures; the synchroniser, which owns three queues; the USB module, which
    sends commands and streams images through libusb, with the controller of
    the color camera above it; the reader of the camera's frames, on top of
    libuvc (on Windows, of Media Foundation), and the color module over it; the
    device, which composes them; and C++ classes over the C interface.
    Handlers call downwards; images come upwards through callbacks; the
    application's threads and the SDK's meet at the queues.

    This file holds the shared machinery: C integers at their width, the
    state-and-fault monad in which every handler is written, its total weakest
    precondition with the rules the proofs use, record update, and generic
    lemmas on sums over finite maps and on lists.

    ** How the code is modelled

    A handler is a function [world -> outcome] in the monad [M]: it returns a
    value and a new world, or it ends in a [fault], an execution the C standard
    gives no meaning to (null, freed or uninitialised memory, an access out of
    bounds, a failed assertion), or one that never returns (a thread that waits
    for a lock it holds itself).  [wp m Q s] is total correctness: no fault,
    and [Q] of what is returned.  [wp_or] allows some faults.

    The [world] (State.v) is a heap of context structures by address, the
    globals of the allocator, and a trace of the calls that leave the SDK.  A
    structure is a record with the field names of the code behind a prefix
    ([img_], [cap_], [q_], [sy_], [uc_], ...), so [r <| f := v |>] reads as
    [r->f = v].  Handles are addresses; use after free and reading a handle of
    another type behave as in handle.h.  Integers are [Z] with the wrap-around
    written out ([u32], [s64], ...) where the code computes at a width.

    Code outside the repository is a parameter: the typeclasses [Platform] (the
    C allocator, locks, conditions, the clock, the environment, what other
    threads do while this one waits), [Usb] (libusb, whose answers may depend
    on all calls before), [StreamClient] (the callback that takes images),
    [Uvc] (libuvc and the MJPEG decoder), [MediaFoundation] (Media Foundation,
    the kernel streaming control and cfgmgr32), [ReaderClient] (the callback that
    takes frames), [LogPlatform] and [LogClient] (spdlog, the environment, the
    application's log callback), [ZsaApi] and [ZsaApiOk] (the C functions the C++
    classes call, and the books they keep), [UsbOk], [UvcOk], [DecoderOk], [KsStores] and
    [UnlockOk] (what the code relies on in them), and, for color.cpp alone, the
    camera reader and tick counter of Color.v.  Hypotheses on them are named at their use, and every
    theorem that has hypotheses is applied to concrete instances by the lemma
    [..._witness] that follows it.

    ** Files

    - Prelude: this file.
    - Types: include/zsa/zsatypes.h, the conversions of zsainternal/common.h.
    - State: the context structures, the heap, the globals, [Platform].
    - Handle: zsainternal/handle.h, Lock/Unlock, rwlock/rwlock_linux.c.
    - Refs: the accounting.  [Inv busy ext w] says that every reference count
      of [w] is the number of references stored in the heap plus those in the
      ledger [ext] held outside, that nothing outlives its count, and that
      every lock is free, but for the handles in [busy]; with the lemmas by
      which allocation, stores and deletions keep it.
    - Allocator, Image, Capture: allocator/allocator.c, global/global.c,
      image/image.c.
    - Queue: queue/queue.c, and an abstract bounded queue that it refines.
    - CaptureSync, SyncLife: capturesync/capturesync.c; the first holds all its
      operations and the pairing of samples, the second creation, starting and
      stopping.
    - Keep, SyncDirect: what the synchroniser leaves alone, proved operation by
      operation, and what it does when there is nothing to synchronise.
    - Usb: usbcommand/usb_cmd_priv.h, libusb's interface, and the resources
      libusb hands out, counted from the trace.
    - UsbStream: usbcommand/usbstreaming.c, its operations.
    - UsbCommand: usbcommand/usbcommand.c, its operations, the packet format
      and the command protocol.
    - UsbTransfer, UsbStop: the transfers of a stream: who owns their memory,
      and how a stream ends.
    - UsbDevice, UsbClient: finding, opening, counting and closing devices; any
      sequence of calls on an open one.
    - ColorMcu: color_mcu/color_mcu.c.  Color: color/color.cpp.
    - Uvc: color/uvc_camerareader.cpp and .h, color_priv.h and ksmetadata.h, all
      operations of the reader; UvcMetadata: the parser of the frame metadata;
      UvcControl: exposure times and camera controls; UvcFrame: what becomes of
      a frame; UvcLife: the reader as an automaton that owns libuvc's resources.
    - Mf: color/mfcamerareader.cpp and .h, the reader of Windows, all its
      operations, over a state of its own beside the [world]; MfControl: its
      camera controls; MfStream: stopping and flushing; MfOpen: finding the
      camera and starting it; MfSample: what becomes of a sample.
    - Device: sdk/zsa.c.
    - ColorPath: a frame on its way from libuvc through the reader, the color
      module, the device and the synchroniser to the application.
    - ComCommand: comcommand/comcommand.c and comstreaming.c.
    - Logging: logging/logging.cpp and the functions of zsainternal/logging.h,
      over a state of their own, and the abstract logger they refine.
    - Wrapper: include/zsa/zsa.hpp, its classes over [ZsaApi]; WrapperOwn: the
      books of handles, [ZsaApiOk], and the methods' effects on them; WrapperSdk:
      the functions of image.c, allocator.c and zsa.c as a [ZsaApi] that keeps
      its promises.
    - Math: math/math.c, over binary32 numbers and a memory in which arrays
      may overlap.

    An operation keeps its name in the code.  Where a long function is cut
    into several definitions (a loop, a switch, one phase), the parts are
    named after what they do and the whole is composed of them.

    ** What the theorems show

    - Memory: a block goes back once, by the callback it came from
      ([alloc_set_free]); sizes do not wrap but for one format
      ([image_buffer_size_exact], [image_create_custom_overflow]); images and
      captures live exactly as long as their references ([image_create_spec],
      [image_lifetime], [capture_set_get], [capture_lifetime]), and where a
      concurrent setter breaks that ([capture_get_image_race]).
    - The queue is a bounded FIFO that drops its oldest entry, with exact
      ownership ([queue_refines]), and disabling it returns once the consumers
      have left ([queue_disable_returns]); a wake-up without data is fatal
      ([queue_pop_spurious_wakeup]).
    - The synchroniser decides as the time window over the integers does and
      drops only what cannot match any more ([sync_decision_exact],
      [sync_drop_safe]); adding a capture keeps its invariant and its loop ends
      ([capturesync_add_capture_spec], [..._failed], [..._null_handle]); it can
      be created, started and stopped ([capturesync_create_spec],
      [capturesync_start_stop]).
    - USB: the packet format and the text of ids round-trip
      ([packet_round_trip], [uuid_round_trip]); a command succeeds exactly when
      the device answered it ([usb_cmd_io_protocol], [usb_session_ids]);
      opening, closing and counting devices return all that libusb handed out,
      or where they do not ([usb_cmd_create_spec], [usb_cmd_create_destroy],
      [usb_cmd_get_device_count_spec], [..._leak]); the serial number
      ([usb_serial_number_two_calls]); a completed transfer has one owner
      ([usb_cmd_libusb_cb_owned]); a stream that is stopped ends and gives
      everything back ([usb_stream_winds_down]); the context keeps its type
      under any calls ([usb_context_typed]).
    - The camera's reader: metadata reads back as what was written, and where
      the parser leaves its buffer ([metadata_round_trip],
      [metadata_parse_bounds]); exposure times and controls read back as they
      were set ([exposure_round_trip], [control_round_trip]); a frame becomes
      one capture with its bytes and settings, or a failure
      ([uvc_frame_callback]); the reader is a three-state automaton that takes
      from libuvc and gives back exactly what its members say
      ([uvc_reader_refines], [uvc_reader_returns_all]).
    - The reader of Windows: it finds the camera with the container id, and
      frees every string and device on the way ([mf_find_camera]); it starts
      with the first media type that fits, or fails and is as it was
      ([mf_start_mode]); a sample goes to the client once, as a capture over
      Media Foundation's buffer ([mf_sample_delivered]), and comes back with the
      buffer unlocked and the books balanced ([mf_sample_returned]); stopping
      returns when the flush is reported, and never when it was refused
      ([mf_stop_flush]); controls read back as they were set
      ([mf_control_round_trip]).
    - The composition: a frame leaves reader, color module, device and
      synchroniser at rest ([color_frame_path]), and is what the application
      gets ([color_frame_reaches_application]).
    - Devices: what color_start and the controller send and when they succeed
      ([color_start_spec], [colormcu_set_multi_device_mode_spec],
      [usec_ticks_bounds]); that opening a device always fails and undoes what
      it did ([zsa_device_open_fails]); that starting twice stops
      ([zsa_device_start_twice]); the unfinished serial module
      ([com_cmd_status_uninitialised]).
    - The logger sends every message to whom it must go and replaces no
      callback ([logger_refines]), is set up as the environment says or reads
      outside of a path ([logger_init_spec]), and does not return from a
      callback that registers another ([logger_callback_deadlock]).
    - The C++ classes own their handles: one reference per object that is not
      null, after any calls and any exceptions, and none at the end
      ([wrapper_owns]); their casts clamp ([clamp_cast_exact]), strings come
      without their terminator ([get_serialnum_spec]), the raw calibration cannot
      be read ([get_raw_calibration_undefined]), and opening a device throws
      ([device_open_throws]).
    - The matrix routines compute what their names say, aliasing included
      ([math_transpose_spec], [math_affine_transform_spec],
      [math_mult_AB_spec], [math_quadratic_transform_spec]).

    ** Loops and their bounds

    Most loops are structural.  [queue_drain] takes the size of the array as
    fuel and every turn takes an entry out.  [sync_loop] runs with [sync_fuel],
    twice the number of entries of a queue: every turn consumes a sample of the
    finite stock, and [capturesync_add_capture_spec] proves it never runs out.
    [wait_not_blocked] polls [patience] times, which [queue_disable_returns]
    relates to the consumers still inside.  [service_stream] takes its fuel as
    an argument; [usb_stream_winds_down] proves that the time by which the
    other threads stop the stream, and one more, is enough.  [metadata_loop]
    has one turn more than the metadata has bytes, and
    [metadata_parse_bounds] proves that it never needs more.  [find_media_type]
    takes its fuel as an argument, and [mf_start_mode] lets it be anything above
    the number of media types the camera has; the wait of Stop takes the number
    of time-outs it may see, and [mf_stop_flush] says for which numbers it
    returns and that no number is enough after a refused flush.

    ** Not modelled

    Concurrency is modelled where a handler waits or sleeps (what the others do
    is an answer), not at every instruction.  The
    modules above the logger are modelled without their log calls, but for one
    that reads memory, since no result depends on what is logged; the text that
    spdlog and printf make of a message is not modelled.  In Mf the reference
    counts that smart pointers keep of COM objects are left out.  In Wrapper an
    allocation of the C++ library never fails, and what a method writes through
    a pointer before it throws is left out.  rwlock_win32.c wraps the locks of Windows
    in the operations of rwlock_linux.c, and dll_main.c loads a library;
    laser_mcu/color_mcu.c is byte for byte color_mcu/color_mcu.c; src/extern and
    the headers astra* are third-party. *)

From stdpp Require Export base numbers list gmap fin_maps.
From Stdlib Require Export ZArith Lia.

#[export] Set Default Goal Selector "!".
#[global] Open Scope Z_scope.

(** * Machine integers *)

Definition u8 (x : Z) : Z := x mod 2 ^ 8.
Definition u16 (x : Z) : Z := x mod 2 ^ 16.
Definition u32 (x : Z) : Z := x mod 2 ^ 32.
Definition u64 (x : Z) : Z := x mod 2 ^ 64.

(** Two's complement reinterpretation of a value. *)
Definition s32 (x : Z) : Z := (x + 2 ^ 31) mod 2 ^ 32 - 2 ^ 31.
Definition s64 (x : Z) : Z := (x + 2 ^ 63) mod 2 ^ 64 - 2 ^ 63.

Definition INT32_MAX : Z := 2 ^ 31 - 1.
Definition UINT64_MAX : Z := 2 ^ 64 - 1.

Lemma u32_range x : 0 <= u32 x < 2 ^ 32.
Proof. apply Z.mod_pos_bound. lia. Qed.

Lemma u64_range x : 0 <= u64 x < 2 ^ 64.
Proof. apply Z.mod_pos_bound. lia. Qed.

Lemma u32_id x : 0 <= x < 2 ^ 32 -> u32 x = x.
Proof. apply Z.mod_small. Qed.

Lemma u64_id x : 0 <= x < 2 ^ 64 -> u64 x = x.
Proof. apply Z.mod_small. Qed.

Lemma s64_id x : - 2 ^ 63 <= x < 2 ^ 63 -> s64 x = x.
Proof. intros H. unfold s64. rewrite Z.mod_small; lia. Qed.

Lemma s32_id x : - 2 ^ 31 <= x < 2 ^ 31 -> s32 x = x.
Proof. intros H. unfold s32. rewrite Z.mod_small; lia. Qed.

Create HintDb machine.
Create Rewrite HintDb machine_rw.
#[export] Hint Rewrite u32_id u64_id s32_id s64_id using lia : machine_rw.
#[export] Hint Resolve u32_range u64_range : machine.

(** * The monad *)

(** Why an execution is not one the C standard gives a meaning to, or one
    that never returns. *)
Inductive fault : Set :=
| NullDeref          (** a member access through a null pointer *)
| UseAfterFree       (** an access to memory that is not (or no longer) allocated *)
| OutOfBounds        (** an access past the end of an allocation *)
| Uninitialised      (** a read of memory that was never written *)
| DivideByZero       (** a remainder by 0 *)
| SignedOverflow     (** a result outside a signed type *)
| AssertFailed       (** an [assert] that does not hold, in a build that checks them *)
| SelfDeadlock       (** the thread acquires a lock it already holds *)
| OutOfFuel.         (** a bounded loop of the model ran out of iterations *)

#[export] Instance fault_eq_dec : EqDecision fault.
Proof. solve_decision. Defined.

Inductive outcome (S A : Type) : Type :=
| Done (a : A) (s : S)
| Fault (f : fault).
Arguments Done {S A} a s.
Arguments Fault {S A} f.

Definition M (S A : Type) : Type := S -> outcome S A.

#[export] Instance M_ret S : MRet (M S) := fun A a s => Done a s.
#[export] Instance M_bind S : MBind (M S) := fun A B f m s =>
  match m s with Done a s' => f a s' | Fault e => Fault e end.

Definition get_state {S} : M S S := fun s => Done s s.
Definition gets {S A} (f : S -> A) : M S A := fun s => Done (f s) s.
Definition modify {S} (f : S -> S) : M S unit := fun s => Done tt (f s).
Definition throw {S A} (f : fault) : M S A := fun _ => Fault f.

(** [if (b) { m }] *)
Definition when {S} (b : bool) (m : M S unit) : M S unit :=
  if b then m else mret tt.

(** The value of an expression whose evaluation may be undefined. *)
Definition need {S A} (f : fault) (o : option A) : M S A :=
  match o with Some a => mret a | None => throw f end.

(** [m] repeated. *)
Fixpoint times {S} (n : nat) (m : M S unit) : M S unit :=
  match n with O => mret tt | Datatypes.S n => m;; times n m end.

(** A [for] loop over a fixed range. *)
Fixpoint for_each {S A} (l : list A) (f : A -> M S unit) : M S unit :=
  match l with [] => mret tt | x :: l => f x;; for_each l f end.

(** The state after an execution that does not fault. *)
Definition final {S A} (m : M S A) (s : S) : S := match m s with Done _ s' => s' | Fault _ => s end.

(** What an execution returns. *)
Definition value_of {S A} (m : M S A) (s : S) : option A := match m s with Done a _ => Some a | Fault _ => None end.

(** * Total weakest precondition *)

(** [wp m Q s]: started in [s], [m] returns without a fault and [Q] holds of
    the value and the state it returns. *)
Definition wp {S A} (m : M S A) (Q : A -> S -> Prop) (s : S) : Prop :=
  match m s with Done a s' => Q a s' | Fault _ => False end.

Section wp_rules.
Context {S : Type}.
Implicit Types s : S.

Lemma wp_ret {A} (a : A) (Q : A -> S -> Prop) s : Q a s -> wp (mret a) Q s.
Proof. done. Qed.

Lemma wp_bind {A B} (m : M S A) (f : A -> M S B) Q s :
  wp m (fun a => wp (f a) Q) s -> wp (m ≫= f) Q s.
Proof. unfold wp, mbind, M_bind. destruct (m s); done. Qed.

Lemma wp_mono {A} (m : M S A) (P Q : A -> S -> Prop) s :
  wp m P s -> (forall a s', P a s' -> Q a s') -> wp m Q s.
Proof. unfold wp. destruct (m s); naive_solver. Qed.

Lemma wp_gets {A} (f : S -> A) (Q : A -> S -> Prop) s : Q (f s) s -> wp (gets f) Q s.
Proof. done. Qed.

Lemma wp_modify (f : S -> S) (Q : unit -> S -> Prop) s : Q tt (f s) -> wp (modify f) Q s.
Proof. done. Qed.

Lemma wp_need {A} (f : fault) (o : option A) a Q s :
  o = Some a -> Q a s -> wp (need f o) Q s.
Proof. intros ->. done. Qed.

Lemma wp_when (b : bool) (m : M S unit) (Q : unit -> S -> Prop) s :
  (b = true -> wp m Q s) -> (b = false -> Q tt s) -> wp (when b m) Q s.
Proof. destruct b; intros H1 H2; [by apply H1 | by apply wp_ret, H2]. Qed.

Lemma wp_run {A} (m : M S A) Q s : wp m Q s <-> exists a s', m s = Done a s' /\ Q a s'.
Proof. unfold wp. destruct (m s); naive_solver. Qed.

Lemma wp_final {A} (m : M S A) Q s : wp m Q s -> exists a, m s = Done a (final m s) /\ Q a (final m s).
Proof. unfold wp, final. destruct (m s) as [a s'|]; [|done]. by exists a. Qed.

(** Two specifications of one execution, one of them under a condition. *)
Lemma wp_and_if {A} (C : Prop) (m : M S A) P Q s :
  wp m P s -> (C -> wp m Q s) -> wp m (fun a s' => P a s' /\ (C -> Q a s')) s.
Proof. unfold wp. destruct (m s); naive_solver. Qed.

Lemma bind_assoc {A B C} (m : M S A) (f : A -> M S B) (g : B -> M S C) s :
  ((m ≫= f) ≫= g) s = (m ≫= (fun a => f a ≫= g)) s.
Proof. unfold mbind, M_bind. by destruct (m s). Qed.

(** A specification, at a value found by evaluation. *)
Lemma wp_eval {A} (m : M S A) Q s a :
  wp m Q s -> value_of m s = Some a -> exists s', m s = Done a s' /\ Q a s'.
Proof. unfold wp, value_of. destruct (m s) as [a' s'|]; [|done]. intros HQ [= ->]. by exists s'. Qed.

(** Consequence, in the form in which a callee's specification is used. *)
Lemma wp_call {A B} (m : M S A) (f : A -> M S B) P Q s :
  wp m P s -> (forall a s', P a s' -> wp (f a) Q s') -> wp (m ≫= f) Q s.
Proof. intros H1 H2. apply wp_bind. eapply wp_mono; eauto. Qed.
End wp_rules.

(** [wp_or E m Q s]: the same, or [m] ends with a fault that [E] allows. *)
Definition wp_or {S A} (E : fault -> Prop) (m : M S A) (Q : A -> S -> Prop) (s : S) : Prop :=
  match m s with Done a s' => Q a s' | Fault f => E f end.

Section wp_or_rules.
Context {S : Type}.
Implicit Types s : S.

Lemma wp_or_wp {A} E (m : M S A) Q s : wp m Q s -> wp_or E m Q s.
Proof. unfold wp, wp_or. by destruct (m s). Qed.

Lemma wp_or_bind {A B} E (m : M S A) (f : A -> M S B) Q s :
  wp_or E m (fun a => wp_or E (f a) Q) s -> wp_or E (m ≫= f) Q s.
Proof. unfold wp_or, mbind, M_bind. destruct (m s); done. Qed.

Lemma wp_or_mono {A} E (m : M S A) (P Q : A -> S -> Prop) s :
  wp_or E m P s -> (forall a s', P a s' -> Q a s') -> wp_or E m Q s.
Proof. unfold wp_or. destruct (m s); naive_solver. Qed.

Lemma wp_or_call {A B} E (m : M S A) (f : A -> M S B) P Q s :
  wp m P s -> (forall a s', P a s' -> wp_or E (f a) Q s') -> wp_or E (m ≫= f) Q s.
Proof. intros H1 H2. apply wp_or_bind, wp_or_wp. eapply wp_mono; eauto. Qed.

Lemma wp_or_fault {A} E (m : M S A) (Q : A -> S -> Prop) s f : m s = Fault f -> E f -> wp_or E m Q s.
Proof. unfold wp_or. by intros ->. Qed.
End wp_or_rules.

(** Execution of a sequence, by what its first command does. *)
Lemma bind_done {S A B} (m : M S A) (f : A -> M S B) s a s' :
  m s = Done a s' -> (m ≫= f) s = f a s'.
Proof. intros E. unfold mbind, M_bind. by rewrite E. Qed.

(** Any claim about the outcome may be carried past a command whose
    specification is known. *)
Lemma outcome_bind {S A B} (m : M S A) (f : A -> M S B) (P : outcome S B -> Prop) Q s :
  wp m Q s -> (forall a s', Q a s' -> P (f a s')) -> P ((m ≫= f) s).
Proof. unfold wp, mbind, M_bind. destruct (m s) as [a s'|]; [|done]. auto. Qed.

Lemma bind_fault {S A B} (m : M S A) (f : A -> M S B) s e :
  m s = Fault e -> (m ≫= f) s = Fault e.
Proof. intros E. unfold mbind, M_bind. by rewrite E. Qed.

(** One step of symbolic execution. *)
Ltac wp_step :=
  lazymatch goal with
  | |- wp (mret _) _ _ => apply wp_ret
  | |- wp (_ ≫= _) _ _ => apply wp_bind
  | |- wp (gets _) _ _ => apply wp_gets
  | |- wp (modify _) _ _ => apply wp_modify
  | |- wp (need _ (Some _)) _ _ => apply wp_ret
  end.

(** * Sums over finite maps *)

Section map_sum.
Context {A : Type} (f : A -> Z).

Definition map_sum (m : gmap Z A) : Z := map_fold (fun _ a acc => f a + acc) 0 m.

Lemma map_sum_empty : map_sum ∅ = 0.
Proof. unfold map_sum. by rewrite map_fold_empty. Qed.

Lemma map_sum_insert_new m k a : m !! k = None -> map_sum (<[k := a]> m) = f a + map_sum m.
Proof. intros H. unfold map_sum. rewrite map_fold_insert_L; [done | lia | done]. Qed.

Lemma map_sum_delete m k a : m !! k = Some a -> map_sum (delete k m) = map_sum m - f a.
Proof.
  intros H. rewrite <- (insert_delete_id m k a) at 2 by done.
  rewrite map_sum_insert_new by apply lookup_delete_eq. lia.
Qed.

Lemma map_sum_insert m k a b :
  m !! k = Some a -> map_sum (<[k := b]> m) = map_sum m - f a + f b.
Proof.
  intros H. rewrite <- insert_delete_eq.
  rewrite map_sum_insert_new by apply lookup_delete_eq.
  rewrite (map_sum_delete m k a) by done. lia.
Qed.

Lemma map_sum_nonneg m : (forall a, 0 <= f a) -> 0 <= map_sum m.
Proof.
  intros Hf. induction m as [|k a m Hk IH] using map_ind.
  - by rewrite map_sum_empty.
  - rewrite map_sum_insert_new by done. specialize (Hf a). lia.
Qed.

Lemma map_sum_ge m k a : (forall a, 0 <= f a) -> m !! k = Some a -> f a <= map_sum m.
Proof.
  intros Hf Hk. pose proof (map_sum_nonneg (delete k m) Hf).
  rewrite (map_sum_delete m k a) in H by done. lia.
Qed.
End map_sum.

(** * Lists *)

Lemma omap_fmap {A B C} (f : B -> option C) (g : A -> B) (l : list A) :
  omap f (g <$> l) = omap (fun x => f (g x)) l.
Proof.
  induction l as [|x l IH]; [done|]. change (g <$> x :: l) with (g x :: (g <$> l)). cbn in *. by rewrite IH.
Qed.

Lemma omap_app {A B} (f : A -> option B) (l1 l2 : list A) : omap f (l1 ++ l2) = omap f l1 ++ omap f l2.
Proof. induction l1 as [|x l IH]; [done|]. cbn. rewrite IH. by destruct (f x). Qed.

Lemma omap_all {A B} (f : A -> option B) (l : list A) :
  (forall x, x ∈ l -> is_Some (f x)) -> length (omap f l) = length l.
Proof.
  induction l as [|x l IH]; intros Hf; [done|]. cbn.
  destruct (Hf x) as [b ->]; [set_solver|]. cbn. f_equal. apply IH. set_solver.
Qed.

Lemma omap_seqZ_shift {A} (f : Z -> option A) m n d :
  omap f (seqZ (m + d) n) = omap (fun k => f (k + d)) (seqZ m n).
Proof.
  replace (seqZ (m + d) n) with (Z.add d <$> seqZ m n).
  - rewrite omap_fmap. apply list_omap_ext, Forall_Forall2_diag, Forall_forall.
    intros k _. f_equal. lia.
  - rewrite fmap_add_seqZ. f_equal. lia.
Qed.

(** * Words in memory, least significant byte first *)

Definition le32 (x : Z) : list Z := [x mod 256; x / 256 mod 256; x / 65536 mod 256; x / 16777216 mod 256].

Definition of_le32 (l : list Z) : option Z :=
  match l with
  | [a; b; c; d] => Some (a + 256 * b + 65536 * c + 16777216 * d)
  | _ => None
  end.

(** The word at byte offset [i]. *)
Definition word_at (i : nat) (l : list Z) : option Z := of_le32 (take 4 (drop i l)).

(** Double words. *)
Definition le64 (x : Z) : list Z := le32 (x mod 2 ^ 32) ++ le32 (x / 2 ^ 32).
Definition dword_at (i : nat) (l : list Z) : option Z :=
  lo ← word_at i l; hi ← word_at (4 + i) l; Some (lo + 2 ^ 32 * hi).

Definition is_u32 (x : Z) : Prop := 0 <= x < 2 ^ 32.
Definition is_byte (x : Z) : Prop := 0 <= x < 256.

Lemma of_le32_le32 x : is_u32 x -> of_le32 (le32 x) = Some x.
Proof.
  intros Hx. unfold is_u32 in Hx. cbn. f_equal.
  pose proof (Z.div_mod x 256 ltac:(lia)). pose proof (Z.div_mod (x / 256) 256 ltac:(lia)).
  pose proof (Z.div_mod (x / 256 / 256) 256 ltac:(lia)).
  change 65536 with (256 * 256). change 16777216 with (256 * 256 * 256). rewrite <- !Z.div_div by lia.
  assert (0 <= x / 256 / 256 / 256 < 256).
  { rewrite !Z.div_div by lia. split; [apply Z.div_pos; lia|apply Z.div_lt_upper_bound; lia]. }
  rewrite (Z.mod_small (x / 256 / 256 / 256)) by done. lia.
Qed.

Lemma word_at_0 x l : is_u32 x -> word_at 0 (le32 x ++ l) = Some x.
Proof. intros Hx. unfold word_at. cbn -[le32]. by apply of_le32_le32. Qed.

Lemma word_at_skip n x l : word_at (S (S (S (S n)))) (le32 x ++ l) = word_at n l.
Proof. done. Qed.

Lemma dword_at_0 x l : 0 <= x < 2 ^ 64 -> dword_at 0 (le64 x ++ l) = Some x.
Proof.
  intros Hx. unfold dword_at, le64. rewrite <- app_assoc.
  pose proof (Z.div_mod x (2 ^ 32) ltac:(lia)). pose proof (Z.mod_pos_bound x (2 ^ 32) ltac:(lia)).
  rewrite word_at_0 by (unfold is_u32; lia). cbn [mbind option_bind Nat.add]. rewrite word_at_skip, word_at_0.
  - cbn. f_equal. lia.
  - unfold is_u32. split; [apply Z.div_pos; lia|apply Z.div_lt_upper_bound; lia].
Qed.

Lemma dword_at_skip n x l : dword_at (S (S (S (S n)))) (le32 x ++ l) = dword_at n l.
Proof. done. Qed.

(** * Record update *)

(** [eta] rebuilds a record from its own projections; the update of one
    field is obtained by abstracting that projection in it, so the
    definitions can say [r <| field := v |>] as the code says
    [r->field = v]. *)
Class RecordEta (R : Type) : Type := eta : R -> R.
Class FieldUpdate {R F : Type} (p : R -> F) : Type := update_field : F -> R -> R.

Ltac derive_update :=
  lazymatch goal with
  | |- @FieldUpdate ?R ?F ?p =>
      let inst := constr:(_ : RecordEta R) in
      let e := eval red in inst in
      lazymatch eval pattern p in e with
      | ?body _ => let b := eval cbv beta in (fun (v : F) => body (fun _ : R => v)) in exact b
      end
  end.

#[export] Hint Extern 1 (FieldUpdate _) => derive_update : typeclass_instances.

Notation "r <| f := v |>" := (update_field (p := f) v r)
  (at level 1, left associativity, f at next level, v at level 200,
   format "r  <|  f  :=  v  |>").

Arguments update_field {R F} p {_} v r /.
