(* ===== verification/Types.v ===== *)
(** The public vocabulary of the SDK: the result codes, enumerations and the
    device configuration of include/zsa/zsatypes.h, and the conversions of
    include/zsainternal/common.h that need no platform.

    A result code only ever holds one of its enumerators, so it is an
    inductive type.  An enumeration that the code range-checks, or switches
    over with a [default:], can hold any int, so it is a [Z] with one constant
    per enumerator. *)

From S2P Require Import Prelude.

(** * Result codes *)

Inductive zsa_result_t : Set := ZSA_RESULT_SUCCEEDED | ZSA_RESULT_FAILED.

Inductive zsa_buffer_result_t : Set :=
| ZSA_BUFFER_RESULT_SUCCEEDED
| ZSA_BUFFER_RESULT_FAILED
| ZSA_BUFFER_RESULT_TOO_SMALL.

Inductive zsa_wait_result_t : Set :=
| ZSA_WAIT_RESULT_SUCCEEDED
| ZSA_WAIT_RESULT_FAILED
| ZSA_WAIT_RESULT_TIMEOUT.

#[export] Instance zsa_result_eq_dec : EqDecision zsa_result_t.
Proof. solve_decision. Defined.
#[export] Instance zsa_buffer_result_eq_dec : EqDecision zsa_buffer_result_t.
Proof. solve_decision. Defined.
#[export] Instance zsa_wait_result_eq_dec : EqDecision zsa_wait_result_t.
Proof. solve_decision. Defined.

Definition ZSA_SUCCEEDED (r : zsa_result_t) : bool :=
  match r with ZSA_RESULT_SUCCEEDED => true | ZSA_RESULT_FAILED => false end.

Definition ZSA_FAILED (r : zsa_result_t) : bool := negb (ZSA_SUCCEEDED r).

(** The value of ZSA_RESULT_FROM_BOOL of include/zsainternal/logging.h (the
    trace line it logs is not modelled). *)
Definition ZSA_RESULT_FROM_BOOL (b : bool) : zsa_result_t :=
  if b then ZSA_RESULT_SUCCEEDED else ZSA_RESULT_FAILED.

(** * Enumerations that may hold any int *)

Definition ZSA_IMAGE_FORMAT_COLOR_MJPG : Z := 0.
Definition ZSA_IMAGE_FORMAT_COLOR_NV12 : Z := 1.
Definition ZSA_IMAGE_FORMAT_COLOR_YUY2 : Z := 2.
Definition ZSA_IMAGE_FORMAT_COLOR_BGRA32 : Z := 3.
Definition ZSA_IMAGE_FORMAT_DEPTH16 : Z := 4.
Definition ZSA_IMAGE_FORMAT_IR16 : Z := 5.
Definition ZSA_IMAGE_FORMAT_CUSTOM8 : Z := 6.
Definition ZSA_IMAGE_FORMAT_CUSTOM16 : Z := 7.
Definition ZSA_IMAGE_FORMAT_CUSTOM : Z := 8.

Definition ZSA_FRAMES_PER_SECOND_5 : Z := 0.
Definition ZSA_FRAMES_PER_SECOND_15 : Z := 1.
Definition ZSA_FRAMES_PER_SECOND_30 : Z := 2.

Definition ZSA_COLOR_RESOLUTION_OFF : Z := 0.
Definition ZSA_COLOR_RESOLUTION_720P : Z := 1.
Definition ZSA_COLOR_RESOLUTION_1080P : Z := 2.
Definition ZSA_COLOR_RESOLUTION_1440P : Z := 3.
Definition ZSA_COLOR_RESOLUTION_1536P : Z := 4.
Definition ZSA_COLOR_RESOLUTION_2160P : Z := 5.
Definition ZSA_COLOR_RESOLUTION_3072P : Z := 6.

Definition ZSA_DEPTH_MODE_OFF : Z := 0.
Definition ZSA_DEPTH_MODE_NFOV_2X2BINNED : Z := 1.
Definition ZSA_DEPTH_MODE_NFOV_UNBINNED : Z := 2.
Definition ZSA_DEPTH_MODE_WFOV_2X2BINNED : Z := 3.
Definition ZSA_DEPTH_MODE_WFOV_UNBINNED : Z := 4.
Definition ZSA_DEPTH_MODE_PASSIVE_IR : Z := 5.

Definition ZSA_WIRED_SYNC_MODE_STANDALONE : Z := 0.
Definition ZSA_WIRED_SYNC_MODE_MASTER : Z := 1.
Definition ZSA_WIRED_SYNC_MODE_SUBORDINATE : Z := 2.

(** allocation_source_t of include/zsainternal/allocator.h *)
Definition ALLOCATION_SOURCE_USER : Z := 0.
Definition ALLOCATION_SOURCE_DEPTH : Z := 1.
Definition ALLOCATION_SOURCE_COLOR : Z := 2.
Definition ALLOCATION_SOURCE_IMU : Z := 3.
Definition ALLOCATION_SOURCE_USB_DEPTH : Z := 4.
Definition ALLOCATION_SOURCE_USB_IMU : Z := 5.
Definition ALLOCATION_SOURCE_COM_DEPTH : Z := 6.
Definition ALLOCATION_SOURCE_COM_IMU : Z := 7.

(** * Device configuration *)

Record zsa_device_configuration_t : Type := mkConfig {
  color_format : Z;
  color_resolution : Z;
  depth_mode : Z;
  camera_fps : Z;
  synchronized_images_only : bool;
  depth_delay_off_color_usec : Z;         (* int32_t *)
  wired_sync_mode : Z;
  subordinate_delay_off_master_usec : Z;  (* uint32_t *)
  disable_streaming_indicator : bool
}.

Definition ZSA_DEVICE_CONFIG_INIT_DISABLE_ALL : zsa_device_configuration_t := {|
  color_format := ZSA_IMAGE_FORMAT_COLOR_MJPG;
  color_resolution := ZSA_COLOR_RESOLUTION_OFF;
  depth_mode := ZSA_DEPTH_MODE_OFF;
  camera_fps := ZSA_FRAMES_PER_SECOND_30;
  synchronized_images_only := false;
  depth_delay_off_color_usec := 0;
  wired_sync_mode := ZSA_WIRED_SYNC_MODE_STANDALONE;
  subordinate_delay_off_master_usec := 0;
  disable_streaming_indicator := false
|}.

Definition ZSA_WAIT_INFINITE : Z := -1.

(** * Conversions of include/zsainternal/common.h *)

(** ZSA_90K_HZ_TICK_TO_USEC: [(uint64_t)(x) * 100 / 9]. *)
Definition ZSA_90K_HZ_TICK_TO_USEC (x : Z) : Z := u64 (u64 x * 100) / 9.

(** ZSA_USEC_TO_90K_HZ_TICK: [(x) * 9 / 100], at the width of its argument:
    unsigned 32 bit, and signed 32 bit (whose overflow the compiler may treat
    as undefined; the two's complement value is written out). *)
Definition ZSA_USEC_TO_90K_HZ_TICK_u32 (x : Z) : Z := u32 (x * 9) / 100.
Definition ZSA_USEC_TO_90K_HZ_TICK_s32 (x : Z) : Z := Z.quot (s32 (x * 9)) 100.

(** The [switch] of zsa_convert_resolution_to_width_height: [None] is the
    [return false] of its [default:]. *)
Definition zsa_convert_resolution_to_width_height (resolution : Z) : option (Z * Z) :=
  if resolution =? ZSA_COLOR_RESOLUTION_720P then Some (1280, 720)
  else if resolution =? ZSA_COLOR_RESOLUTION_1080P then Some (1920, 1080)
  else if resolution =? ZSA_COLOR_RESOLUTION_1440P then Some (2560, 1440)
  else if resolution =? ZSA_COLOR_RESOLUTION_1536P then Some (2048, 1536)
  else if resolution =? ZSA_COLOR_RESOLUTION_2160P then Some (3840, 2160)
  else if resolution =? ZSA_COLOR_RESOLUTION_3072P then Some (4096, 3072)
  else None.

Definition zsa_convert_depth_mode_to_width_height (mode : Z) : option (Z * Z) :=
  if mode =? ZSA_DEPTH_MODE_NFOV_2X2BINNED then Some (320, 288)
  else if mode =? ZSA_DEPTH_MODE_NFOV_UNBINNED then Some (640, 576)
  else if mode =? ZSA_DEPTH_MODE_WFOV_2X2BINNED then Some (512, 512)
  else if mode =? ZSA_DEPTH_MODE_WFOV_UNBINNED then Some (1024, 1024)
  else if mode =? ZSA_DEPTH_MODE_PASSIVE_IR then Some (1024, 1024)
  else None.
