(* ===== verification/State.v ===== *)
(** The memory the SDK's components share: the context structures of every
    component, the heap of handles, the process-wide globals of the allocator,
    and the platform the code calls (the C allocator, locks, the clock, the
    environment, other threads) as a typeclass of answers.

    A handle is the address of a context; [NULL] is 0.  The wrapper of
    include/zsainternal/handle.h that carries the handle's type is the
    constructor of [obj]. *)

From Stdlib Require Export SpecFloat.
From S2P Require Export Prelude Types.

Definition NULL : Z := 0.

(** * Locks *)

(** A LOCK_HANDLE of the azure shared utility: [Lock_Init] failed, or a mutex
    that is free or held by the running thread. *)
Inductive LOCK_HANDLE : Set := LockNull | LockFree | LockHeld.

(** A pthread_rwlock_t as the running thread sees it. *)
Inductive zsa_rwlock_t : Set := RwUnset | RwIdle | RwReaders (n : positive) | RwWriter.

#[export] Instance lock_handle_eq_dec : EqDecision LOCK_HANDLE.
Proof. solve_decision. Defined.
#[export] Instance rwlock_eq_dec : EqDecision zsa_rwlock_t.
Proof. solve_decision. Defined.

(** * Allocator data (src/allocator/allocator.c) *)

(** Values of zsa_memory_allocate_cb_t and zsa_memory_destroy_cb_t: the
    default function, or one registered by the application. *)
Inductive zsa_memory_allocate_cb_t : Set := default_alloc | user_alloc_cb (id : Z).
Inductive zsa_memory_destroy_cb_t : Set := default_free | user_free_cb (id : Z).

Record allocator_global_t : Type := mkAllocatorGlobal {
  ag_lock : zsa_rwlock_t;
  ag_alloc : zsa_memory_allocate_cb_t;
  ag_free : zsa_memory_destroy_cb_t
}.

Record allocation_context_t : Type := mkAllocationContext {
  ac_source : Z;
  ac_free : zsa_memory_destroy_cb_t;
  ac_free_context : Z
}.

(** [sizeof(allocation_context_t)]: the union is padded to 32 bytes. *)
Definition sizeof_allocation_context_t : Z := 32.

(** A block of memory got from an allocate callback: its size, the header that
    allocator_alloc copies to its start, and the bytes that the SDK copied
    behind the header, from the first one on. *)
Record block_t : Type := mkBlock {
  blk_size : Z;
  blk_header : option allocation_context_t;
  blk_data : list Z
}.

Record image_counts_t : Type := mkCounts {
  g_allocated_image_count_user : Z;
  g_allocated_image_count_color : Z;
  g_allocated_image_count_depth : Z;
  g_allocated_image_count_imu : Z;
  g_allocated_image_count_usb_depth : Z;
  g_allocated_image_count_usb_imu : Z
}.

(** * Images (src/image/image.c) *)

(** Values of image_destroy_cb_t*: null, image_default_free_function, the
    function that uvc_camerareader.cpp passes to image_create_from_buffer, or a
    function of another caller. *)
Inductive image_destroy_cb_t : Set :=
| image_cb_null
| image_default_free_function_cb
| uvc_camerareader_free_allocation_cb
| image_cb_user (id : Z).

(** Those that hand the buffer to allocator_free. *)
Definition frees_block (cb : image_destroy_cb_t) : bool :=
  match cb with image_default_free_function_cb | uvc_camerareader_free_allocation_cb => true | _ => false end.

Record image_context_t : Type := mkImage {
  img_ref_count : Z;
  img_lock : LOCK_HANDLE;
  img_buffer : Z;
  img_buffer_size : Z;
  img_format : Z;
  img_width_pixels : Z;
  img_height_pixels : Z;
  img_stride_bytes : Z;
  img_dev_timestamp_usec : Z;
  img_sys_timestamp_nsec : Z;
  img_exposure_time_usec : Z;
  img_size_allocated : Z;
  img_memory_free_cb : image_destroy_cb_t;
  img_memory_free_cb_context : Z;
  img_white_balance : Z;
  img_iso_speed : Z
}.

(** * Captures (src/allocator/allocator.c) *)

Record capture_context_t : Type := mkCapture {
  cap_ref_count : Z;
  cap_lock : zsa_rwlock_t;
  cap_color : Z;       (* image[IMAGE_TYPE_COLOR] *)
  cap_depth : Z;       (* image[IMAGE_TYPE_DEPTH] *)
  cap_ir : Z;          (* image[IMAGE_TYPE_IR] *)
  cap_temperature_c : spec_float
}.

(** * Queues (src/queue/queue.c) *)

Record queue_context_t : Type := mkQueue {
  q_enabled : bool;
  q_stopped : bool;
  q_queue_pop_blocked : Z;
  q_read_location : Z;
  q_write_location : Z;
  q_queue : option (list (option Z));  (* the array; an entry is None until written *)
  q_depth : Z;
  q_dropped_count : Z;
  q_lock : LOCK_HANDLE;
  q_condition : bool                   (* Condition_Init succeeded *)
}.

(** * Capture synchronisation (src/capturesync/capturesync.c) *)

(** The two values of pfn_get_typed_image_t that are ever stored. *)
Inductive pfn_get_typed_image_t : Set := fn_capture_get_color_image | fn_capture_get_ir_image.

Record frame_info_t : Type := mkFrame {
  fi_get_typed_image : pfn_get_typed_image_t;
  fi_color_capture : bool;
  fi_queue : Z;
  fi_capture : Z;
  fi_image : Z;
  fi_ts : Z
}.

Record capturesync_context_t : Type := mkSync {
  sy_sync_queue : Z;
  sy_color : frame_info_t;
  sy_depth_ir : frame_info_t;
  sy_fps_period : Z;
  sy_fps_1_quarter_period : Z;
  sy_sync_captures : bool;
  sy_synchronized_images_only : bool;
  sy_waiting_for_clean_depth_ts : bool;
  sy_depth_captures_dropped : Z;
  sy_disable_sync : bool;
  sy_enable_ts_logging : bool;
  sy_depth_delay_off_color_usec : Z;
  sy_running : bool;
  sy_lock : LOCK_HANDLE
}.

(** * USB commands and streams (src/usbcommand) *)

(** Values of usb_cmd_stream_cb_t*: null, or a function of the client. *)
Inductive usb_cmd_stream_cb_t : Set := stream_cb_null | stream_cb_client (id : Z).

Record usbcmd_context_t : Type := mkUsb {
  uc_source : Z;
  uc_libusb : Z;                     (* libusb_device_handle* *)
  uc_libusb_context : Z;
  uc_libusb_verbosity : Z;
  uc_index : Z;
  uc_pid : Z;
  uc_interface : Z;
  uc_cmd_tx_endpoint : Z;
  uc_cmd_rx_endpoint : Z;
  uc_stream_endpoint : Z;
  uc_transaction_id : Z;
  uc_serial_number : list Z;
  uc_container_id : list Z;
  uc_callback : usb_cmd_stream_cb_t;
  uc_stream_context : Z;
  uc_stream_going : bool;
  uc_transfer_list : list Z;
  uc_stream_size : Z;
  uc_lock : LOCK_HANDLE;
  uc_stream_handle : Z               (* THREAD_HANDLE *)
}.

Record usb_async_transfer_data_t : Type := mkTransfer {
  ut_usbcmd : Z;
  ut_bulk_transfer : Z;
  ut_image : Z;
  ut_list_index : Z
}.

(** The members of libusb's own struct libusb_transfer that the code touches. *)
Record libusb_transfer : Type := mkBulk {
  lt_dev_handle : Z;
  lt_endpoint : Z;
  lt_buffer : Z;
  lt_length : Z;
  lt_user_data : Z;
  lt_timeout : Z;
  lt_status : Z;
  lt_actual_length : Z
}.

(** * The modules above them *)

(** src/color_mcu/color_mcu.c *)
Record colormcu_context_t : Type := mkColorMcu { cm_usb_cmd : Z }.

(** src/color/color.cpp: the capabilities of a control, the callback (null,
    or the one zsa_device_open passes), and whether there is a camera
    reader. *)
Record color_control_cap_t : Type := mkCap {
  cap_minValue : Z;
  cap_maxValue : Z;
  cap_stepValue : Z;
  cap_defaultValue : Z;
  cap_defaultMode : Z;
  cap_supportAuto : bool;
  cap_valid : bool
}.

Inductive color_cb_streaming_capture_t : Set := color_cb_null | color_capture_ready_cb.

Record color_context_t : Type := mkColor {
  cl_tick : Z;
  cl_capture_ready_cb : color_cb_streaming_capture_t;
  cl_capture_ready_cb_context : Z;
  cl_sensor_start_time_tick : Z;
  cl_control_cap : list color_control_cap_t;
  cl_m_spCameraReader : bool
}.

(** src/comcommand/com_cmd_priv.h *)
Record comcmd_context_t : Type := mkCom {
  cc_source : Z;
  cc_index : Z;
  cc_pid : Z;
  cc_interface : Z;
  cc_cmd_tx_endpoint : Z;
  cc_cmd_rx_endpoint : Z;
  cc_stream_endpoint : Z;
  cc_transaction_id : Z;
  cc_serial_number : list Z;
  cc_container_id : list Z;
  cc_callback : usb_cmd_stream_cb_t;
  cc_stream_context : Z;
  cc_stream_going : bool;
  cc_transfer_list : list Z;
  cc_stream_size : Z;
  cc_lock : LOCK_HANDLE;
  cc_stream_handle : Z
}.

(** src/sdk/zsa.c *)
Record zsa_context_t : Type := mkDevice {
  zd_tick_handle : Z;
  zd_colormcu : Z;
  zd_capturesync : Z;
  zd_color : Z;
  zd_color_started : bool
}.

(** src/color/uvc_camerareader.h *)
Inductive color_cb_stream_t : Set := stream_callback_null | stream_callback (id : Z).

Record UVCCameraReader : Type := mkUvc {
  uv_mutex : LOCK_HANDLE;
  uv_pContext : Z;
  uv_pDevice : Z;
  uv_pDeviceHandle : Z;
  uv_streaming : bool;
  uv_using_60hz_power : bool;
  uv_width_pixels : Z;
  uv_height_pixels : Z;
  uv_input_image_format : Z;
  uv_output_image_format : Z;
  uv_pCallback : color_cb_stream_t;
  uv_pCallbackContext : Z;
  uv_decoder : Z
}.

#[export] Instance allocator_global_eta : RecordEta allocator_global_t := fun r =>
  mkAllocatorGlobal (ag_lock r) (ag_alloc r) (ag_free r).
#[export] Instance block_eta : RecordEta block_t := fun r => mkBlock (blk_size r) (blk_header r) (blk_data r).
#[export] Instance counts_eta : RecordEta image_counts_t := fun r =>
  mkCounts (g_allocated_image_count_user r) (g_allocated_image_count_color r)
    (g_allocated_image_count_depth r) (g_allocated_image_count_imu r)
    (g_allocated_image_count_usb_depth r) (g_allocated_image_count_usb_imu r).
#[export] Instance image_eta : RecordEta image_context_t := fun r =>
  mkImage (img_ref_count r) (img_lock r) (img_buffer r) (img_buffer_size r) (img_format r)
    (img_width_pixels r) (img_height_pixels r) (img_stride_bytes r) (img_dev_timestamp_usec r)
    (img_sys_timestamp_nsec r) (img_exposure_time_usec r) (img_size_allocated r)
    (img_memory_free_cb r) (img_memory_free_cb_context r) (img_white_balance r) (img_iso_speed r).
#[export] Instance capture_eta : RecordEta capture_context_t := fun r =>
  mkCapture (cap_ref_count r) (cap_lock r) (cap_color r) (cap_depth r) (cap_ir r)
    (cap_temperature_c r).
#[export] Instance queue_eta : RecordEta queue_context_t := fun r =>
  mkQueue (q_enabled r) (q_stopped r) (q_queue_pop_blocked r) (q_read_location r)
    (q_write_location r) (q_queue r) (q_depth r) (q_dropped_count r) (q_lock r) (q_condition r).
#[export] Instance frame_eta : RecordEta frame_info_t := fun r =>
  mkFrame (fi_get_typed_image r) (fi_color_capture r) (fi_queue r) (fi_capture r) (fi_image r)
    (fi_ts r).
#[export] Instance sync_eta : RecordEta capturesync_context_t := fun r =>
  mkSync (sy_sync_queue r) (sy_color r) (sy_depth_ir r) (sy_fps_period r)
    (sy_fps_1_quarter_period r) (sy_sync_captures r) (sy_synchronized_images_only r)
    (sy_waiting_for_clean_depth_ts r) (sy_depth_captures_dropped r) (sy_disable_sync r)
    (sy_enable_ts_logging r) (sy_depth_delay_off_color_usec r) (sy_running r) (sy_lock r).
#[export] Instance usb_eta : RecordEta usbcmd_context_t := fun r =>
  mkUsb (uc_source r) (uc_libusb r) (uc_libusb_context r) (uc_libusb_verbosity r) (uc_index r)
    (uc_pid r) (uc_interface r) (uc_cmd_tx_endpoint r) (uc_cmd_rx_endpoint r)
    (uc_stream_endpoint r) (uc_transaction_id r) (uc_serial_number r) (uc_container_id r)
    (uc_callback r) (uc_stream_context r) (uc_stream_going r) (uc_transfer_list r)
    (uc_stream_size r) (uc_lock r) (uc_stream_handle r).
#[export] Instance transfer_eta : RecordEta usb_async_transfer_data_t := fun r =>
  mkTransfer (ut_usbcmd r) (ut_bulk_transfer r) (ut_image r) (ut_list_index r).
#[export] Instance bulk_eta : RecordEta libusb_transfer := fun r =>
  mkBulk (lt_dev_handle r) (lt_endpoint r) (lt_buffer r) (lt_length r) (lt_user_data r)
    (lt_timeout r) (lt_status r) (lt_actual_length r).
#[export] Instance colormcu_eta : RecordEta colormcu_context_t := fun r =>
  mkColorMcu (cm_usb_cmd r).
#[export] Instance color_eta : RecordEta color_context_t := fun r =>
  mkColor (cl_tick r) (cl_capture_ready_cb r) (cl_capture_ready_cb_context r) (cl_sensor_start_time_tick r)
    (cl_control_cap r) (cl_m_spCameraReader r).
#[export] Instance com_eta : RecordEta comcmd_context_t := fun r =>
  mkCom (cc_source r) (cc_index r) (cc_pid r) (cc_interface r) (cc_cmd_tx_endpoint r)
    (cc_cmd_rx_endpoint r) (cc_stream_endpoint r) (cc_transaction_id r) (cc_serial_number r)
    (cc_container_id r) (cc_callback r) (cc_stream_context r) (cc_stream_going r)
    (cc_transfer_list r) (cc_stream_size r) (cc_lock r) (cc_stream_handle r).
#[export] Instance device_eta : RecordEta zsa_context_t := fun r =>
  mkDevice (zd_tick_handle r) (zd_colormcu r) (zd_capturesync r) (zd_color r)
    (zd_color_started r).

#[export] Instance uvc_eta : RecordEta UVCCameraReader := fun r =>
  mkUvc (uv_mutex r) (uv_pContext r) (uv_pDevice r) (uv_pDeviceHandle r) (uv_streaming r)
    (uv_using_60hz_power r) (uv_width_pixels r) (uv_height_pixels r) (uv_input_image_format r)
    (uv_output_image_format r) (uv_pCallback r) (uv_pCallbackContext r) (uv_decoder r).

(** * The heap *)

(** The contexts of the modules that talk to the device, and the transfers of
    a USB stream. *)
Inductive module_t : Type :=
| MUsb (u : usbcmd_context_t)
| MTransfer (t : usb_async_transfer_data_t)
| MBulk (b : libusb_transfer)
| MColorMcu (c : colormcu_context_t)
| MColor (c : color_context_t)
| MCom (c : comcmd_context_t)
| MDevice (d : zsa_context_t)
| MUvc (r : UVCCameraReader).

(** What lives at an address: a context with the type of its handle, or a
    block of image memory. *)
Inductive obj : Type :=
| OBlock (b : block_t)
| OImage (i : image_context_t)
| OCapture (c : capture_context_t)
| OQueue (q : queue_context_t)
| OSync (s : capturesync_context_t)
| OModule (m : module_t).

(** Calls into libusb, with the answers they got. *)
Inductive usb_event : Type :=
| U_init (err ctx : Z)
| U_exit (ctx : Z)
| U_set_option (ctx level err : Z)
| U_get_device_list (ctx count : Z) (devs : list Z)
| U_free_device_list (devs : list Z)
| U_get_device_descriptor (dev err : Z)
| U_open (dev err handle : Z)
| U_close (handle : Z)
| U_get_bos_descriptor (handle err : Z)
| U_free_bos_descriptor (handle : Z)
| U_get_container_id_descriptor (err : Z)
| U_get_string_descriptor (handle index err : Z)
| U_get_configuration (handle err : Z)
| U_set_configuration (handle configuration err : Z)
| U_detach_kernel_driver (handle interface err : Z)
| U_claim_interface (handle interface err : Z)
| U_release_interface (handle interface err : Z)
| U_bulk (handle endpoint : Z) (sent : list Z) (length err count : Z) (received : list Z)
| U_submit_transfer (bulk_transfer err : Z)
| U_cancel_transfer (bulk_transfer : Z)
| U_handle_events (ctx err : Z).

(** The controls that libuvc has a getter and a setter for, and what a getter
    asks for. *)
Inductive uvc_control : Set :=
| UVC_ae_mode | UVC_exposure_abs | UVC_brightness | UVC_contrast | UVC_saturation | UVC_sharpness
| UVC_white_balance_temperature_auto | UVC_white_balance_temperature | UVC_backlight_compensation | UVC_gain
| UVC_power_line_frequency.
Inductive uvc_req_code : Set := UVC_GET_CUR | UVC_GET_MIN | UVC_GET_MAX | UVC_GET_RES | UVC_GET_DEF.

(** Calls into libuvc and the MJPEG decoder, with their answers. *)
Inductive uvc_event : Type :=
| V_init (err ctx : Z)
| V_exit (ctx : Z)
| V_find_device (ctx vid pid err dev : Z)
| V_unref_device (dev : Z)
| V_open (dev err handle : Z)
| V_close (handle : Z)
| V_get_stream_ctrl (handle format width height fps err : Z)
| V_start_streaming (handle err : Z)
| V_stop_streaming (handle : Z)
| V_get (handle : Z) (control : uvc_control) (req : uvc_req_code) (err value : Z)
| V_set (handle : Z) (control : uvc_control) (value err : Z)
| V_decoder_init (decoder : Z)
| V_decode (decoder : Z) (input : list Z) (width height status : Z)
| V_decoder_destroy (decoder : Z).

(** Calls of the camera reader's methods, and of the tick counter. *)
Inductive reader_event : Type :=
| R_init (result : zsa_result_t)
| R_start (width height fps color_format : Z) (result : zsa_result_t)
| R_stop
| R_shutdown
| R_capabilities (command : Z) (result : zsa_result_t)
| R_get_control (command : Z) (result : zsa_result_t)
| R_set_control (command mode value : Z) (result : zsa_result_t)
| T_create (tick_handle : Z)
| T_destroy (tick_handle : Z)
| T_current_ms (tick_handle : Z) (err : Z).

(** Calls into code outside the SDK's own components: callbacks of the
    application, libusb, libuvc, and the color camera's reader. *)
Inductive event : Type :=
| EUserFree (id : Z) (full_buffer : Z) (context : Z)
| EImageCb (id : Z) (buffer : Z) (context : Z)
| EUsb (e : usb_event)
| EReader (e : reader_event)
| EUvc (e : uvc_event).

Record world : Type := mkWorld {
  heap : gmap Z obj;
  fresh : Z;                              (* the lowest address never handed out *)
  tick : nat;                             (* number of platform answers consumed *)
  g_allocator : option allocator_global_t; (* None: global_init_once has not run *)
  g_counts : image_counts_t;
  g_allocator_sessions : Z;
  trace : list event
}.

#[export] Instance world_eta : RecordEta world := fun r =>
  mkWorld (heap r) (fresh r) (tick r) (g_allocator r) (g_counts r) (g_allocator_sessions r)
    (trace r).

Definition zero_counts : image_counts_t := mkCounts 0 0 0 0 0 0.

(** The state of a process that has loaded the library. *)
Definition init_world : world := mkWorld ∅ 1 0 None zero_counts 0 [].

Abbreviation Mw := (M world).

(** [if (ZSA_SUCCEEDED(result)) { result = next }] *)
Definition and_then (result : zsa_result_t) (next : Mw zsa_result_t) : Mw zsa_result_t :=
  if ZSA_SUCCEEDED result then next else mret result.

(** * The platform *)

Inductive COND_RESULT : Set := COND_OK | COND_TIMEOUT | COND_INVALID_ARG | COND_ERROR.

Inductive env_var : Set := 
| ENV_ZSA_DISABLE_SYNCHRONIZATION | ENV_ZSA_ENABLE_TS_LOGGING | ENV_ZSA_MAX_LIBUSB_POOL.

(** The answers of code outside the repository's own components.  The [nat]
    is the number of answers given before, so an answer may change from call
    to call. *)
Class Platform : Type := {
  ndebug : bool;                              (* asserts are compiled out *)
  calloc_ok : nat -> bool;                    (* calloc and malloc return memory *)
  Lock_Init_ok : nat -> bool;
  Condition_Init_ok : nat -> bool;
  user_alloc : nat -> Z -> Z -> bool * Z;     (* callback id, size: did it allocate, context *)
  clock_gettime : nat -> Z * (Z * Z);         (* return code, tv_sec, tv_nsec *)
  environment : env_var -> option (list Z);   (* characters before the NUL *)
  others : nat -> world -> world;             (* the other threads while this one sleeps *)
  Condition_Wait_others : nat -> Z -> world -> COND_RESULT * world;
  patience : nat                              (* polls of queue_disable that are unrolled *)
}.

Section platform.
Context `{Platform}.

Definition ask {A} (f : nat -> A) : Mw A := fun w =>
  Done (f (tick w)) (w <| tick := S (tick w) |>).

(** ThreadAPI_Sleep: the other threads run. *)
Definition ThreadAPI_Sleep : Mw unit := fun w =>
  Done tt ((others (tick w) w) <| tick := S (tick w) |>).

Definition c_assert (b : bool) : Mw unit :=
  if b || ndebug then mret tt else throw AssertFailed.

(** zsa_convert_fps_to_uint of include/zsainternal/common.h *)
Definition zsa_convert_fps_to_uint (fps : Z) : Mw Z :=
  if fps =? ZSA_FRAMES_PER_SECOND_5 then mret 5
  else if fps =? ZSA_FRAMES_PER_SECOND_15 then mret 15
  else if fps =? ZSA_FRAMES_PER_SECOND_30 then mret 30
  else c_assert false;; mret 0.
End platform.
