(* ===== verification/Handle.v ===== *)
(** include/zsainternal/handle.h and the locks: creating, checking and
    destroying handles, generically over the context type (the code generates
    one copy per type with ZSA_DECLARE_CONTEXT), member accesses through a
    context pointer, Lock/Unlock of the azure shared utility and the
    readers-writer lock of src/rwlock/rwlock_linux.c. *)

From S2P Require Export State.

(** What ZSA_DECLARE_CONTEXT knows of a context type: the wrapper's
    handleType tag (here a constructor of [obj]) and the zeroed context that
    calloc gives. *)
Class Context (T : Type) : Type := {
  to_obj : T -> obj;
  of_obj : obj -> option T;
  zeroed : T;
  of_to_obj : forall x, of_obj (to_obj x) = Some x;
  to_of_obj : forall o x, of_obj o = Some x -> o = to_obj x
}.

Ltac tag_inj := let o := fresh in intros o ?; by destruct o; intros; simplify_eq.
Ltac module_inj := intros [ | | | | | m] ?; try (intros; discriminate); destruct m; intros; by simplify_eq.

#[export] Instance image_Context : Context image_context_t := {
  to_obj := OImage;
  of_obj := fun o => match o with OImage i => Some i | _ => None end;
  of_to_obj := fun _ => eq_refl;
  to_of_obj := ltac:(tag_inj);
  zeroed := mkImage 0 LockNull NULL 0 0 0 0 0 0 0 0 0 image_cb_null 0 0 0
}.
#[export] Instance capture_Context : Context capture_context_t := {
  to_obj := OCapture;
  of_obj := fun o => match o with OCapture c => Some c | _ => None end;
  of_to_obj := fun _ => eq_refl;
  to_of_obj := ltac:(tag_inj);
  zeroed := mkCapture 0 RwUnset NULL NULL NULL (S754_zero false)
}.
#[export] Instance queue_Context : Context queue_context_t := {
  to_obj := OQueue;
  of_obj := fun o => match o with OQueue q => Some q | _ => None end;
  of_to_obj := fun _ => eq_refl;
  to_of_obj := ltac:(tag_inj);
  zeroed := mkQueue false false 0 0 0 None 0 0 LockNull false
}.
(** A zeroed get_typed_image is a null function pointer; capturesync_create
    stores both pointers before anything reads them. *)
#[export] Instance sync_Context : Context capturesync_context_t := {
  to_obj := OSync;
  of_obj := fun o => match o with OSync s => Some s | _ => None end;
  of_to_obj := fun _ => eq_refl;
  to_of_obj := ltac:(tag_inj);
  zeroed :=
    let f := mkFrame fn_capture_get_ir_image false NULL NULL NULL 0 in
    mkSync NULL f f 0 0 false false false 0 false false 0 false LockNull
}.

Section handles.
Context `{Platform}.
Context {T : Type} `{!Context T}.

(** [handle##_create]: a zeroed wrapper, or NULL when calloc fails. *)
Definition handle_create : Mw Z :=
  ok ← ask calloc_ok;
  if (ok : bool) then
    h ← gets fresh;
    modify (fun w => w <| heap := <[h := to_obj zeroed]> (heap w) |> <| fresh := h + 1 |>);;
    mret h
  else mret NULL.

(** [handle##_get_context]: NULL for a null handle or one of another type;
    a handle that was freed is read after free. *)
Definition handle_get_context (h : Z) : Mw (option T) :=
  if h =? NULL then mret None
  else
    w ← get_state;
    o ← need UseAfterFree (heap w !! h);
    mret (of_obj o).

(** [handle##_destroy] *)
Definition handle_destroy (h : Z) : Mw unit :=
  _ ← handle_get_context h;
  if h =? NULL then throw NullDeref
  else modify (fun w => w <| heap := delete h (heap w) |>).

(** [RETURN_VALUE_IF_HANDLE_INVALID(v, type, h)] before the rest of a
    handler: the whole handler when [h] is invalid is [return v]. *)
Definition if_handle_valid {A} (v : A) (h : Z) (rest : Mw A) : Mw A :=
  c ← handle_get_context h;
  match c with None => mret v | Some _ => rest end.

(** A member access through the context pointer of [h]. *)
Definition load (h : Z) : Mw T :=
  c ← handle_get_context h;
  need NullDeref c.

Definition update (h : Z) (f : T -> T) : Mw unit :=
  c ← load h;
  modify (fun w => w <| heap := <[h := to_obj (f c)]> (heap w) |>).
End handles.
Arguments handle_create {_} T {_}.
Arguments handle_get_context T {_} h.
Arguments handle_destroy T {_} h.
Arguments if_handle_valid T {_} {A} v h rest.
Arguments load T {_} h.

(** * Mutexes *)

(** [Lock(handle)]: LOCK_ERROR, which no caller looks at, when the handle is
    null; the thread blocks for ever on a mutex it holds. *)
Definition lock_acquire (l : LOCK_HANDLE) : option LOCK_HANDLE :=
  match l with LockNull => Some LockNull | LockFree => Some LockHeld | LockHeld => None end.

Definition lock_release (l : LOCK_HANDLE) : LOCK_HANDLE :=
  match l with LockNull => LockNull | _ => LockFree end.

(** * The readers-writer lock *)

(** The loops of rwlock_linux.c retry while the pthread function fails; on a
    lock in one of these states it succeeds at once, except that an
    acquisition never returns while the running thread itself stands in the
    way. *)
Definition rwlock_init (l : zsa_rwlock_t) : zsa_rwlock_t := RwIdle.
Definition rwlock_deinit (l : zsa_rwlock_t) : zsa_rwlock_t := RwUnset.

Definition rwlock_acquire_read (l : zsa_rwlock_t) : option zsa_rwlock_t :=
  match l with
  | RwIdle => Some (RwReaders 1)
  | RwReaders n => Some (RwReaders (n + 1))
  | RwWriter | RwUnset => None
  end.

Definition rwlock_acquire_write (l : zsa_rwlock_t) : option zsa_rwlock_t :=
  match l with RwIdle => Some RwWriter | _ => None end.

Definition rwlock_try_acquire_read (l : zsa_rwlock_t) : bool * zsa_rwlock_t :=
  match rwlock_acquire_read l with Some l' => (true, l') | None => (false, l) end.

Definition rwlock_try_acquire_write (l : zsa_rwlock_t) : bool * zsa_rwlock_t :=
  match rwlock_acquire_write l with Some l' => (true, l') | None => (false, l) end.

(** rwlock_release_read and rwlock_release_write: pthread_rwlock_unlock. *)
Definition rwlock_release (l : zsa_rwlock_t) : zsa_rwlock_t :=
  match l with
  | RwReaders n => if (n =? 1)%positive then RwIdle else RwReaders (n - 1)
  | RwWriter => RwIdle
  | l => l
  end.

Section lock_ops.
Context {T : Type} `{!Context T}.

(** [Lock(ctx->lock)] and [Unlock(ctx->lock)] for the lock at field [get]. *)
Definition Lock (get : T -> LOCK_HANDLE) `{!FieldUpdate get} (h : Z) : Mw unit :=
  c ← load T h;
  l ← need SelfDeadlock (lock_acquire (get c));
  update h (update_field get l).

Definition Unlock (get : T -> LOCK_HANDLE) `{!FieldUpdate get} (h : Z) : Mw unit :=
  c ← load T h;
  update h (update_field get (lock_release (get c))).
End lock_ops.

(** * Rules *)

Section handle_wp.
Context `{Platform}.
Context {T : Type} `{!Context T}.
Implicit Types w : world.

(** [h] is a live handle whose context is [c]. *)
Definition has w (h : Z) (c : T) : Prop := h <> NULL /\ heap w !! h = Some (to_obj c).

Lemma has_inj w h c c' : has w h c -> has w h c' -> c = c'.
Proof.
  intros [_ H1] [_ H2]. rewrite H1 in H2. injection H2 as H2.
  apply (f_equal of_obj) in H2. rewrite !of_to_obj in H2. congruence.
Qed.

Lemma wp_get_context h c w (Q : option T -> world -> Prop) :
  has w h c -> Q (Some c) w -> wp (handle_get_context T h) Q w.
Proof.
  intros [Hn Hh] HQ. unfold handle_get_context. rewrite (proj2 (Z.eqb_neq h NULL)) by done.
  unfold wp, mbind, M_bind, get_state. rewrite Hh. simpl. by rewrite of_to_obj.
Qed.

Lemma wp_get_context_null w (Q : option T -> world -> Prop) :
  Q None w -> wp (handle_get_context T NULL) Q w.
Proof. done. Qed.

Lemma wp_if_handle_valid {A} (v : A) h c rest w Q :
  has w h c -> wp rest Q w -> wp (if_handle_valid T v h rest) Q w.
Proof. intros Hh HQ. apply wp_bind. by eapply wp_get_context. Qed.

Lemma wp_if_handle_null {A} (v : A) rest w Q :
  Q v w -> wp (if_handle_valid T v NULL rest) Q w.
Proof. done. Qed.

Lemma wp_load h c w (Q : T -> world -> Prop) : has w h c -> Q c w -> wp (load T h) Q w.
Proof. intros Hh HQ. apply wp_bind. eapply wp_get_context; done. Qed.

Lemma wp_update h c f w (Q : unit -> world -> Prop) :
  has w h c ->
  Q tt (w <| heap := <[h := to_obj (f c)]> (heap w) |>) ->
  wp (update h f) Q w.
Proof. intros Hh HQ. apply wp_bind. eapply wp_load; done. Qed.

Lemma wp_destroy h c w (Q : unit -> world -> Prop) :
  has w h c -> Q tt (w <| heap := delete h (heap w) |>) -> wp (handle_destroy T h) Q w.
Proof.
  intros Hh HQ. apply wp_bind. eapply wp_get_context; [done|].
  destruct Hh as [Hn _]. by rewrite (proj2 (Z.eqb_neq h NULL)).
Qed.

Lemma wp_Lock get `{!FieldUpdate get} h c l w (Q : unit -> world -> Prop) :
  has w h c -> lock_acquire (get c) = Some l ->
  Q tt (w <| heap := <[h := to_obj (update_field get l c)]> (heap w) |>) ->
  wp (Lock get h) Q w.
Proof.
  intros Hh Hl HQ. apply wp_bind. eapply wp_load; [done|]. rewrite Hl.
  apply wp_bind, wp_ret. eapply wp_update; done.
Qed.

Lemma wp_Unlock get `{!FieldUpdate get} h c w (Q : unit -> world -> Prop) :
  has w h c ->
  Q tt (w <| heap := <[h := to_obj (update_field get (lock_release (get c)) c)]> (heap w) |>) ->
  wp (Unlock get h) Q w.
Proof. intros Hh HQ. apply wp_bind. eapply wp_load; [done|]. eapply wp_update; done. Qed.

Lemma has_stored h (c : T) w : h <> NULL -> has (w <| heap := <[h := to_obj c]> (heap w) |>) h c.
Proof. intros Hn. split; [done|apply lookup_insert_eq]. Qed.
End handle_wp.

(** An invalid handle makes a checked handler return its failure value and
    touch nothing. *)
Lemma if_handle_invalid `{!Context T} {A} (v : A) h (rest : Mw A) w o :
  heap w !! h = Some o -> of_obj (T := T) o = None ->
  if_handle_valid T v h rest w = Done v w.
Proof.
  intros Ho Hn. unfold if_handle_valid, handle_get_context.
  destruct (h =? NULL); [done|].
  unfold mbind, M_bind, get_state. rewrite Ho. simpl. by rewrite Hn.
Qed.
