(* ===== verification/Refs.v ===== *)
(** Reference accounting.  Every object of the heap says which references it
    stores; every counted object has a count.  [Inv] states that each count is
    the number of references stored in the heap plus the references held
    outside it (a ledger), that no counted object outlives its count, and that
    every lock is free; the last two with the exception of the handles in
    [busy], those a handler is in the middle of working on.

    The counters of allocator.c fit the same equation: a live block is a
    reference to the counter of its source. *)

From S2P Require Export Handle.

Inductive okind : Set := KBlock | KImage | KCapture | KQueue | KSync | KModule | KSource.
#[export] Instance okind_eq_dec : EqDecision okind.
Proof. solve_decision. Defined.

(** A reference: the kind of the thing referred to, and its address (for
    [KSource], the allocation source). *)
Abbreviation ref := (okind * Z)%type.

Definition obj_kind (o : obj) : okind :=
  match o with
  | OBlock _ => KBlock | OImage _ => KImage | OCapture _ => KCapture
  | OQueue _ => KQueue | OSync _ => KSync | OModule _ => KModule
  end.

Definition nonnull (k : okind) (h : Z) : list ref := if h =? NULL then [] else [(k, h)].

(** The captures a queue holds, oldest first: the entries from the read
    location up to the write location, around the end of the array. *)
Definition queue_length (q : queue_context_t) : Z :=
  (q_write_location q - q_read_location q) mod q_depth q.
Definition queue_entry (q : queue_context_t) (i : Z) : option Z :=
  match q_queue q with
  | Some a => mjoin (a !! Z.to_nat (i mod q_depth q))
  | None => None
  end.
Definition queue_contents (q : queue_context_t) : list Z :=
  omap (fun k => queue_entry q (q_read_location q + k)) (seqZ 0 (queue_length q)).

Definition frame_refs (f : frame_info_t) : list ref :=
  nonnull KCapture (fi_capture f) ++ nonnull KImage (fi_image f).

(** A transfer of a USB stream owns its image. *)
Definition module_refs (m : module_t) : list ref :=
  match m with MTransfer t => nonnull KImage (ut_image t) | _ => [] end.

Definition module_idle (m : module_t) : Prop :=
  match m with MUsb u => uc_lock u <> LockHeld | MCom c => cc_lock c <> LockHeld
  | MUvc r => uv_mutex r <> LockHeld | _ => True end.

(** References an object stores. *)
Definition obj_refs (o : obj) : list ref :=
  match o with
  | OBlock b => match blk_header b with Some a => [(KSource, ac_source a)] | None => [] end
  | OImage i =>
      if frees_block (img_memory_free_cb i) then [(KBlock, img_buffer i - sizeof_allocation_context_t)] else []
  | OCapture c => nonnull KImage (cap_color c) ++ nonnull KImage (cap_depth c) ++ nonnull KImage (cap_ir c)
  | OQueue q => map (pair KCapture) (queue_contents q)
  | OSync s => frame_refs (sy_color s) ++ frame_refs (sy_depth_ir s)
  | OModule m => module_refs m
  end.

(** The count an object carries; a block has exactly one owner. *)
Definition obj_rc (o : obj) : Z :=
  match o with
  | OBlock _ => 1
  | OImage i => img_ref_count i
  | OCapture c => cap_ref_count c
  | _ => 0
  end.

Definition counted (k : okind) : bool :=
  match k with KBlock | KImage | KCapture => true | _ => false end.

Definition obj_idle (o : obj) : Prop :=
  match o with
  | OBlock _ => True
  | OImage i => img_lock i <> LockHeld
  | OCapture c => cap_lock c = RwIdle
  | OQueue q => q_lock q = LockFree
  | OSync s => sy_lock s = LockFree
  | OModule m => module_idle m
  end.

(** The counter of an allocation source: the [switch] of allocator_alloc,
    allocator_free. *)
Definition get_count (c : image_counts_t) (source : Z) : option Z :=
  if source =? ALLOCATION_SOURCE_USER then Some (g_allocated_image_count_user c)
  else if source =? ALLOCATION_SOURCE_DEPTH then Some (g_allocated_image_count_depth c)
  else if source =? ALLOCATION_SOURCE_COLOR then Some (g_allocated_image_count_color c)
  else if source =? ALLOCATION_SOURCE_IMU then Some (g_allocated_image_count_imu c)
  else if source =? ALLOCATION_SOURCE_USB_DEPTH then Some (g_allocated_image_count_usb_depth c)
  else if source =? ALLOCATION_SOURCE_USB_IMU then Some (g_allocated_image_count_usb_imu c)
  else None.

Definition count_ref (r : ref) (l : list ref) : Z :=
  Z.of_nat (length (filter (fun x => x = r) l)).

(** The count of what [r] refers to, and the references to it in the heap. *)
Definition rc (w : world) (r : ref) : Z :=
  match r with
  | (KSource, s) => default 0 (get_count (g_counts w) s)
  | (k, h) =>
      match heap w !! h with
      | Some o => if decide (obj_kind o = k) then obj_rc o else 0
      | None => 0
      end
  end.
Definition slots (m : gmap Z obj) (r : ref) : Z := map_sum (fun o => count_ref r (obj_refs o)) m.

(** References held outside the heap. *)
Definition ledger : Type := ref -> Z.
Definition no_refs : ledger := fun _ => 0.
(** The outside never holds a negative number of references. *)
Definition nonneg (ext : ledger) : Prop := forall k h, k <> KSource -> 0 <= ext (k, h).
Definition gain (ext : ledger) (r : ref) : ledger := fun x => if decide (x = r) then ext x + 1 else ext x.
Definition lose (ext : ledger) (r : ref) : ledger := fun x => if decide (x = r) then ext x - 1 else ext x.

Definition lose_all (ext : ledger) (l : list ref) : ledger := fun r => ext r - count_ref r l.

(** A block has its header, from a known source, and the default free
    function is only paired with the null context of default_alloc. *)
Definition block_ok (b : block_t) : Prop :=
  exists a, blk_header b = Some a /\ 0 <= ac_source a <= 5 /\
    (ac_free a = default_free -> ac_free_context a = NULL).

Definition allocator_ok (g : allocator_global_t) : Prop :=
  ag_lock g = RwIdle /\ (ag_free g = default_free -> ag_alloc g = default_alloc).

Record Inv (busy : gset Z) (ext : ledger) (w : world) : Prop := mkInv {
  inv_account : forall r, rc w r = slots (heap w) r + ext r;
  inv_pos : forall h o, heap w !! h = Some o -> h ∉ busy -> counted (obj_kind o) = true -> 0 < obj_rc o;
  inv_range : forall h o, heap w !! h = Some o -> 0 < h < fresh w;
  inv_idle : forall h o, heap w !! h = Some o -> h ∉ busy -> obj_idle o;
  inv_blocks : forall h b, heap w !! h = Some (OBlock b) -> block_ok b;
  inv_allocator : forall g, g_allocator w = Some g -> allocator_ok g;
  inv_fresh : 0 < fresh w
}.

(** * Lemmas on counting *)

Lemma nonnull_live k h : h <> NULL -> nonnull k h = [(k, h)].
Proof. intros Hh. unfold nonnull. by rewrite (proj2 (Z.eqb_neq h NULL)). Qed.

Lemma count_ref_nil r : count_ref r [] = 0.
Proof. done. Qed.

Lemma count_ref_cons r x l : count_ref r (x :: l) = (if decide (x = r) then 1 else 0) + count_ref r l.
Proof. unfold count_ref. rewrite filter_cons. case_decide; simpl; lia. Qed.

Lemma count_ref_app r l1 l2 : count_ref r (l1 ++ l2) = count_ref r l1 + count_ref r l2.
Proof. unfold count_ref. rewrite filter_app, length_app. lia. Qed.

Lemma count_ref_nonneg r l : 0 <= count_ref r l.
Proof. unfold count_ref. lia. Qed.

Lemma count_ref_pos r l : r ∈ l -> 0 < count_ref r l.
Proof.
  induction l as [|x l IH]; [by rewrite elem_of_nil|].
  rewrite elem_of_cons, count_ref_cons. pose proof (count_ref_nonneg r l).
  intros [->|Hr]; [rewrite decide_True by done; lia|].
  specialize (IH Hr). case_decide; lia.
Qed.

Lemma count_ref_absent r l : r ∉ l -> count_ref r l = 0.
Proof.
  induction l as [|x l IH]; [done|]. rewrite not_elem_of_cons. intros [H1 H2].
  rewrite count_ref_cons, decide_False by congruence. rewrite IH by done. lia.
Qed.

Lemma slots_nonneg m r : 0 <= slots m r.
Proof. apply map_sum_nonneg. intros. apply count_ref_nonneg. Qed.

Lemma slots_ge (m : gmap Z obj) h o r : m !! h = Some o -> count_ref r (obj_refs o) <= slots m r.
Proof.
  intros Ho. apply (map_sum_ge (fun o => count_ref r (obj_refs o)) m h o); [|done].
  intros. apply count_ref_nonneg.
Qed.

Lemma slots_two (m : gmap Z obj) h1 h2 o1 o2 r :
  h1 <> h2 -> m !! h1 = Some o1 -> m !! h2 = Some o2 ->
  count_ref r (obj_refs o1) + count_ref r (obj_refs o2) <= slots m r.
Proof.
  intros Hn H1 H2. unfold slots.
  pose proof (map_sum_ge (fun o => count_ref r (obj_refs o)) (delete h1 m) h2 o2) as Hge.
  rewrite (map_sum_delete _ m h1 o1) in Hge by done.
  rewrite lookup_delete_ne in Hge by done. specialize (Hge ltac:(intros; apply count_ref_nonneg) H2). lia.
Qed.

Lemma slots_new (m : gmap Z obj) h o r :
  m !! h = None -> slots (<[h := o]> m) r = slots m r + count_ref r (obj_refs o).
Proof. intros. unfold slots. rewrite map_sum_insert_new by done. lia. Qed.

Lemma slots_insert (m : gmap Z obj) h o o' r :
  m !! h = Some o ->
  slots (<[h := o']> m) r = slots m r - count_ref r (obj_refs o) + count_ref r (obj_refs o').
Proof. intros. unfold slots. by rewrite (map_sum_insert _ _ _ o). Qed.

Lemma slots_delete (m : gmap Z obj) h o r :
  m !! h = Some o -> slots (delete h m) r = slots m r - count_ref r (obj_refs o).
Proof. intros. unfold slots. by rewrite (map_sum_delete _ _ _ o). Qed.

(** * Elementary changes of the heap *)

Lemma obj_kind_not_source o : obj_kind o <> KSource.
Proof. by destruct o. Qed.

Lemma rc_unfold w k h :
  k <> KSource ->
  rc w (k, h) = match heap w !! h with
                | Some o => if decide (obj_kind o = k) then obj_rc o else 0
                | None => 0
                end.
Proof. by destruct k. Qed.

Lemma rc_live w h o : heap w !! h = Some o -> rc w (obj_kind o, h) = obj_rc o.
Proof.
  intros Ho. rewrite rc_unfold by apply obj_kind_not_source. by rewrite Ho, decide_True.
Qed.

Lemma rc_insert w h o o' r :
  heap w !! h = Some o -> obj_kind o' = obj_kind o ->
  rc (w <| heap := <[h := o']> (heap w) |>) r =
  rc w r + (if decide (r = (obj_kind o, h)) then obj_rc o' - obj_rc o else 0).
Proof.
  intros Ho Hk. destruct r as [k h'].
  destruct (decide (k = KSource)) as [->|Hs].
  { rewrite decide_False; [simpl; lia|]. intros [= E _]. by apply (obj_kind_not_source o). }
  rewrite !rc_unfold by done. cbn.
  destruct (decide (h' = h)) as [->|Hn].
  - rewrite lookup_insert_eq, Ho, Hk.
    destruct (decide (obj_kind o = k)) as [<-|Hk'].
    + rewrite (decide_True (P := _ = _)) by done. lia.
    + rewrite (decide_False (P := _ = _)) by congruence. lia.
  - rewrite lookup_insert_ne by done. rewrite (decide_False (P := _ = (_, _))) by congruence. lia.
Qed.

Lemma rc_delete w h o r :
  heap w !! h = Some o ->
  rc (w <| heap := delete h (heap w) |>) r =
  rc w r - (if decide (r = (obj_kind o, h)) then obj_rc o else 0).
Proof.
  intros Ho. destruct r as [k h'].
  destruct (decide (k = KSource)) as [->|Hs].
  { rewrite decide_False; [simpl; lia|]. intros [= E _]. by apply (obj_kind_not_source o). }
  rewrite !rc_unfold by done. cbn.
  destruct (decide (h' = h)) as [->|Hn].
  - rewrite lookup_delete_eq, Ho.
    destruct (decide (obj_kind o = k)) as [<-|Hk'].
    + rewrite (decide_True (P := _ = _)) by done. lia.
    + rewrite (decide_False (P := _ = _)) by congruence. lia.
  - rewrite lookup_delete_ne by done. rewrite (decide_False (P := _ = (_, _))) by congruence. lia.
Qed.

(** Overwriting an object by one of its kind. *)
Lemma inv_store busy busy' ext ext' w h o o' :
  Inv busy ext w ->
  heap w !! h = Some o ->
  obj_kind o' = obj_kind o ->
  (forall r, ext' r = ext r + count_ref r (obj_refs o) - count_ref r (obj_refs o')
                   + (if decide (r = (obj_kind o, h)) then obj_rc o' - obj_rc o else 0)) ->
  (h ∉ busy' -> counted (obj_kind o) = true -> 0 < obj_rc o') ->
  (h ∉ busy' -> obj_idle o') ->
  (forall x, x <> h -> x ∉ busy' -> x ∉ busy) ->
  (forall b, o' = OBlock b -> block_ok b) ->
  Inv busy' ext' (w <| heap := <[h := o']> (heap w) |>).
Proof.
  intros HI Ho Hk Hext Hpos Hidle Hbusy Hblk. split.
  1: intros r; rewrite (rc_insert w h o) by done.
  all: cbn.
  - rewrite (slots_insert _ _ o) by done.
    rewrite Hext, (inv_account _ _ _ HI). lia.
  - intros h1 o1 [[<- <-]|[Hn H1]]%lookup_insert_Some Hb; [by rewrite Hk; apply Hpos|].
    eapply inv_pos; [done..|]. by apply Hbusy.
  - intros h1 o1 [[<- <-]|[Hn H1]]%lookup_insert_Some; by eapply inv_range.
  - intros h1 o1 [[<- <-]|[Hn H1]]%lookup_insert_Some Hb; [by apply Hidle|].
    eapply inv_idle; [done..|]. by apply Hbusy.
  - intros h1 b [[<- E]|[Hn H1]]%lookup_insert_Some; [by eapply Hblk|by eapply inv_blocks].
  - apply HI.
  - apply HI.
Qed.

(** Changing what carries no reference, in a context being worked on. *)
Lemma inv_touch busy ext w h o o' :
  Inv busy ext w -> h ∈ busy -> heap w !! h = Some o ->
  obj_kind o' = obj_kind o -> obj_kind o <> KBlock ->
  obj_refs o' = obj_refs o -> obj_rc o' = obj_rc o ->
  Inv busy ext (w <| heap := <[h := o']> (heap w) |>).
Proof.
  intros HI Hb Ho Hk Hkb Hrefs Hrc. eapply inv_store; [exact HI|exact Ho|done| |done|done|done|].
  - intros r. rewrite Hrefs, Hrc. case_decide; lia.
  - intros b ->. by destruct Hkb.
Qed.

(** Destroying an object. *)
Lemma inv_delete busy busy' ext ext' w h o :
  Inv busy ext w ->
  heap w !! h = Some o ->
  (forall x, x <> h -> x ∉ busy' -> x ∉ busy) ->
  (forall r, ext' r = ext r + count_ref r (obj_refs o)
                   - (if decide (r = (obj_kind o, h)) then obj_rc o else 0)) ->
  Inv busy' ext' (w <| heap := delete h (heap w) |>).
Proof.
  intros HI Ho Hbusy Hext. split.
  1: intros r; rewrite (rc_delete w h o) by done.
  all: cbn.
  - rewrite (slots_delete _ _ o) by done.
    rewrite Hext, (inv_account _ _ _ HI). lia.
  - intros h1 o1 [Hn H1]%lookup_delete_Some Hb. eapply inv_pos; [done..|]. by apply Hbusy.
  - intros h1 o1 [_ H1]%lookup_delete_Some. by eapply inv_range.
  - intros h1 o1 [Hn H1]%lookup_delete_Some Hb. eapply inv_idle; [done..|]. by apply Hbusy.
  - intros h1 b [_ H1]%lookup_delete_Some. by eapply inv_blocks.
  - apply HI.
  - apply HI.
Qed.

(** A counted object to which a reference exists is alive. *)
Lemma inv_live busy ext w k h :
  Inv busy ext w -> k <> KSource ->
  0 < slots (heap w) (k, h) + ext (k, h) ->
  h <> NULL /\ exists o, heap w !! h = Some o /\ obj_kind o = k.
Proof.
  intros HI Hs Hr. pose proof (inv_account _ _ _ HI (k, h)) as Ha.
  rewrite rc_unfold in Ha by done.
  destruct (heap w !! h) as [o|] eqn:Ho; [|lia].
  split; [apply (inv_range _ _ _ HI) in Ho; unfold NULL; lia|].
  exists o. split; [done|]. destruct (decide (obj_kind o = k)); [done|lia].
Qed.

(** * What reference counting may change *)

Definition same_but_count (o o' : obj) : Prop :=
  match o, o' with
  | OImage i, OImage i' => i' = i <| img_ref_count := img_ref_count i' |>
  | OCapture c, OCapture c' => c' = c <| cap_ref_count := cap_ref_count c' |>
  | _, _ => o = o'
  end.

(** At address [x], nothing has changed, or an object of one of the kinds
    [ks] has another count or has been destroyed. *)
Definition obj_step (ks : list okind) (w w' : world) (x : Z) : Prop :=
  heap w' !! x = heap w !! x \/
  exists o, heap w !! x = Some o /\ obj_kind o ∈ ks /\
    (heap w' !! x = None \/ exists o', heap w' !! x = Some o' /\ same_but_count o o').

(** Reference counting everywhere. *)
Definition rc_step (ks : list okind) (w w' : world) : Prop :=
  fresh w' = fresh w /\ forall h, obj_step ks w w' h.

(** Reference counting of captures and what they own, and any change at [h]. *)
Definition frame (h : Z) (w w' : world) : Prop :=
  fresh w' = fresh w /\ forall x, x <> h -> obj_step [KCapture; KImage; KBlock] w w' x.

Lemma same_but_count_refl o : same_but_count o o.
Proof. by destruct o as [ | [] | [] | | | ]. Qed.

Lemma same_but_count_trans o1 o2 o3 :
  same_but_count o1 o2 -> same_but_count o2 o3 -> same_but_count o1 o3.
Proof.
  destruct o1 as [ |i1|c1| | | ], o2 as [ |i2|c2| | | ]; try done;
    destruct o3 as [ |i3|c3| | | ]; try done; simpl; try congruence.
  - intros -> ->. by destruct i1.
  - intros -> ->. by destruct c1.
Qed.

Lemma same_but_count_kind o o' : same_but_count o o' -> obj_kind o' = obj_kind o.
Proof. destruct o, o'; simpl; congruence. Qed.

Lemma rc_step_refl ks w : rc_step ks w w.
Proof. split; [done|]. by left. Qed.

Lemma rc_step_trans ks w1 w2 w3 : rc_step ks w1 w2 -> rc_step ks w2 w3 -> rc_step ks w1 w3.
Proof.
  intros [F1 H1] [F2 H2]. split; [congruence|]. intros h.
  destruct (H1 h) as [E1|(o & Ho & Hk & H1')].
  { destruct (H2 h) as [E2|H2']; [left; congruence|right; by rewrite <- E1]. }
  right. exists o. split_and!; [done..|].
  destruct (H2 h) as [E2|(o2 & Ho2 & Hk2 & H2')]; [by rewrite E2|].
  destruct H1' as [E1|(o1 & Ho1 & Hs1)]; [congruence|].
  assert (o2 = o1) as -> by congruence.
  destruct H2' as [->|(o3 & -> & Hs3)]; [by left|right].
  exists o3. split; [done|]. by eapply same_but_count_trans.
Qed.

Lemma rc_step_weaken ks ks' w w' : rc_step ks w w' -> ks ⊆ ks' -> rc_step ks' w w'.
Proof.
  intros [F H] Hk. split; [done|]. intros h.
  destruct (H h) as [E|(o & Ho & Hok & Hr)]; [by left|right].
  exists o. split_and!; [done| |done]. by apply Hk.
Qed.

(** An object of another kind is untouched. *)
Lemma rc_step_other ks w w' h o :
  rc_step ks w w' -> heap w !! h = Some o -> obj_kind o ∉ ks -> heap w' !! h = Some o.
Proof.
  intros [_ H] Ho Hk. destruct (H h) as [E|(o' & Ho' & Hk' & _)]; [congruence|].
  rewrite Ho in Ho'. by injection Ho' as <-.
Qed.

(** No object is born, and a survivor differs at most by its count. *)
Lemma rc_step_back ks w w' h o' :
  rc_step ks w w' -> heap w' !! h = Some o' ->
  exists o, heap w !! h = Some o /\ same_but_count o o'.
Proof.
  intros [_ H] Ho'. destruct (H h) as [E|(o & Ho & _ & Hr)].
  - exists o'. split; [congruence|apply same_but_count_refl].
  - exists o. split; [done|]. destruct Hr as [Hr|(o2 & Ho2 & Hs)]; congruence.
Qed.

Lemma rc_step_store ks w h o o' :
  heap w !! h = Some o -> same_but_count o o' -> obj_kind o ∈ ks ->
  rc_step ks w (w <| heap := <[h := o']> (heap w) |>).
Proof.
  intros Ho Hs Hk. split; [done|]. intros x. unfold obj_step. cbn.
  destruct (decide (x = h)) as [->|]; [right|left; by rewrite lookup_insert_ne].
  exists o. split_and!; [done..|]. right. exists o'. by rewrite lookup_insert_eq.
Qed.

Lemma rc_step_delete ks w h o :
  heap w !! h = Some o -> obj_kind o ∈ ks ->
  rc_step ks w (w <| heap := delete h (heap w) |>).
Proof.
  intros Ho Hk. split; [done|]. intros x. unfold obj_step. cbn.
  destruct (decide (x = h)) as [->|]; [right|left; by rewrite lookup_delete_ne].
  exists o. split_and!; [done..|]. left. by rewrite lookup_delete_eq.
Qed.

(** Nothing of kind [k] is being worked on. *)
Definition unbusy (k : okind) (busy : gset Z) (w : world) : Prop :=
  forall x o, x ∈ busy -> heap w !! x = Some o -> obj_kind o <> k.

Lemma unbusy_empty k w : unbusy k ∅ w.
Proof. intros x o Hx. set_solver. Qed.

Lemma unbusy_step ks k busy w w' : unbusy k busy w -> rc_step ks w w' -> unbusy k busy w'.
Proof.
  intros Hb Hs x o Hx Ho. destruct (rc_step_back _ _ _ _ _ Hs Ho) as (o' & Ho' & Hsc).
  rewrite (same_but_count_kind _ _ Hsc). by eapply Hb.
Qed.

Lemma unbusy_free busy w h o : unbusy (obj_kind o) busy w -> heap w !! h = Some o -> h ∉ busy.
Proof. intros Hb Ho Hx. by apply (Hb _ _ Hx Ho). Qed.

Lemma unbusy_store k busy w h o o' :
  unbusy k busy w -> heap w !! h = Some o -> obj_kind o' = obj_kind o ->
  unbusy k busy (w <| heap := <[h := o']> (heap w) |>).
Proof.
  intros Hb Ho Hk x ox Hx. cbn. intros [[<- <-]|[_ Hox]]%lookup_insert_Some; [|by eapply Hb].
  rewrite Hk. by eapply Hb.
Qed.

Lemma unbusy_add k busy w h o :
  unbusy k busy w -> heap w !! h = Some o -> obj_kind o <> k -> unbusy k (busy ∪ {[h]}) w.
Proof.
  intros Hb Ho Hk x ox [Hx|Hx]%elem_of_union Hox; [by eapply Hb|].
  apply elem_of_singleton in Hx as ->. congruence.
Qed.

Lemma obj_step_refl ks w x : obj_step ks w w x.
Proof. by left. Qed.

Lemma obj_step_trans ks w1 w2 w3 x :
  obj_step ks w1 w2 x -> obj_step ks w2 w3 x -> obj_step ks w1 w3 x.
Proof.
  intros [E1|(o & Ho & Hk & H1)] H2; [|right].
  { destruct H2 as [E2|H2]; [left; congruence|right; by rewrite <- E1]. }
  exists o. split_and!; [done..|].
  destruct H2 as [E2|(o2 & Ho2 & Hk2 & H2)]; [by rewrite E2|].
  destruct H1 as [E1|(o1 & Ho1 & Hs1)]; [congruence|].
  assert (o2 = o1) as -> by congruence.
  destruct H2 as [->|(o3 & -> & Hs3)]; [by left|right].
  exists o3. split; [done|]. by eapply same_but_count_trans.
Qed.

Lemma frame_refl h w : frame h w w.
Proof. split; [done|]. intros. apply obj_step_refl. Qed.

Lemma frame_trans h w1 w2 w3 : frame h w1 w2 -> frame h w2 w3 -> frame h w1 w3.
Proof.
  intros [F1 H1] [F2 H2]. split; [congruence|]. intros x Hx. eapply obj_step_trans; eauto.
Qed.

Lemma frame_store h o w : frame h w (w <| heap := <[h := o]> (heap w) |>).
Proof. split; [done|]. intros x Hx. left. cbn. by rewrite lookup_insert_ne. Qed.

Lemma frame_rc_step ks h w w' : rc_step ks w w' -> ks ⊆ [KCapture; KImage; KBlock] -> frame h w w'.
Proof. intros Hs Hk. destruct (rc_step_weaken _ _ _ _ Hs Hk) as [F H]. split; [done|]. intros x _. apply H. Qed.

Lemma frame_other h w w' x o :
  frame h w w' -> x <> h -> heap w !! x = Some o -> counted (obj_kind o) = false -> heap w' !! x = Some o.
Proof.
  intros [_ H] Hx Ho Hk. destruct (H x Hx) as [E|(o' & Ho' & Hk' & _)]; [congruence|].
  rewrite Ho in Ho'. injection Ho' as <-.
  rewrite !elem_of_cons, elem_of_nil in Hk'. destruct Hk' as [E|[E|[E|[]]]]; by rewrite E in Hk.
Qed.

Lemma unbusy_frame k busy h w w' : unbusy k busy w -> h ∉ busy -> frame h w w' -> unbusy k busy w'.
Proof.
  intros Hb Hh [_ Hs] x o Hx Ho.
  destruct (Hs x) as [E|(o' & Ho' & _ & Hr)]; [by intros ->|eapply Hb; [done|congruence]|].
  destruct Hr as [Hr|(o2 & Ho2 & Hsc)]; [congruence|].
  assert (o2 = o) as -> by congruence. rewrite (same_but_count_kind _ _ Hsc). by eapply Hb.
Qed.

(** A live object is above the ones that do not exist yet. *)
Lemma inv_fresh_none busy ext w : Inv busy ext w -> heap w !! fresh w = None.
Proof.
  intros HI. destruct (heap w !! fresh w) as [o|] eqn:Ho; [|done].
  apply (inv_range _ _ _ HI) in Ho. lia.
Qed.

Lemma inv_above busy ext w h : Inv busy ext w -> fresh w <= h -> heap w !! h = None.
Proof.
  intros HI Hh. destruct (heap w !! h) as [o|] eqn:Ho; [|done].
  apply (inv_range _ _ _ HI) in Ho. lia.
Qed.

(** More handles may be worked on. *)
Lemma inv_busy busy busy' ext w : Inv busy ext w -> busy ⊆ busy' -> Inv busy' ext w.
Proof.
  intros [Ha Hp Hr Hi Hb Hg Hf] Hs. split; try done.
  - intros h o Ho Hx. apply (Hp h o Ho). set_solver.
  - intros h o Ho Hx. apply (Hi h o Ho). set_solver.
Qed.

(** What has a positive count is there. *)
Lemma rc_pos w k h :
  k <> KSource -> 0 < rc w (k, h) -> exists o, heap w !! h = Some o /\ obj_kind o = k /\ obj_rc o = rc w (k, h).
Proof.
  intros Hk. rewrite rc_unfold by done. destruct (heap w !! h) as [o|]; [|lia].
  case_decide; [|lia]. intros. by exists o.
Qed.

(** The references of an object are covered by counts. *)
Lemma inv_covers busy ext w h o r :
  Inv busy ext w -> 0 <= ext r -> heap w !! h = Some o -> count_ref r (obj_refs o) <= rc w r.
Proof.
  intros HI He Ho. rewrite (inv_account _ _ _ HI r). pose proof (slots_ge _ _ _ r Ho). lia.
Qed.

(** Two ledgers that agree are interchangeable. *)
#[export] Instance Inv_proper : Proper (eq ==> pointwise_relation _ eq ==> eq ==> iff) Inv.
Proof.
  intros b ? <- e e' He w ? <-.
  split; intros [Ha ? ? ? ? ? ?]; split; try done; intros r; rewrite Ha; by rewrite He.
Qed.

Lemma inv_ext busy ext ext' w :
  Inv busy ext w -> (forall r, ext' r = ext r) -> Inv busy ext' w.
Proof. intros HI He. eapply Inv_proper; [done| |done|exact HI]. exact He. Qed.

Create HintDb refs.
#[export] Hint Resolve frame_refl frame_store obj_step_refl unbusy_empty unbusy_step unbusy_store unbusy_add rc_step_refl same_but_count_refl count_ref_nonneg slots_nonneg : refs.
#[export] Hint Extern 1 (_ ∈ _ :: _) => set_solver : refs.

(** Ledger arithmetic: decide every equality of references. *)
Ltac ledger :=
  intros; unfold gain, lose, no_refs; cbn;
  rewrite ?count_ref_app, ?count_ref_cons, ?count_ref_nil;
  repeat case_decide; simplify_eq; try lia.
