(* ===== verification/Allocator.v ===== *)
(** The allocator half of src/allocator/allocator.c (and the one-time
    initialisation of src/global/global.c it uses): the allocation callbacks,
    the header in front of every block, the leak counters and the session
    count. *)

From S2P Require Export Refs.

(** * Operations *)

Section operations.
Context `{Platform}.

(** global_init_once, on a slot that is empty until it has run:
    pthread_once runs the function the first time. *)
Definition global_init_once {A} (slot : option A) (init : A) : A :=
  match slot with Some a => a | None => init end.

Definition allocator_global_init : allocator_global_t :=
  {| ag_lock := rwlock_init RwUnset; ag_alloc := default_alloc; ag_free := default_free |}.

(** allocator_global_t_get of ZSA_DECLARE_GLOBAL. *)
Definition allocator_global_t_get : Mw allocator_global_t :=
  slot ← gets g_allocator;
  let g := global_init_once slot allocator_global_init in
  modify (fun w => w <| g_allocator := Some g |>);;
  mret g.

Definition set_allocator_global (g : allocator_global_t) : Mw unit :=
  modify (fun w => w <| g_allocator := Some g |>).

Definition allocator_initialize : Mw unit :=
  modify (fun w => w <| g_allocator_sessions := g_allocator_sessions w + 1 |>).

Definition allocator_deinitialize : Mw unit :=
  modify (fun w => w <| g_allocator_sessions := g_allocator_sessions w - 1 |>).

(** The arguments are null or a function of the application. *)
Definition allocator_set_allocator (allocate free : option Z) : Mw zsa_result_t :=
  match allocate, free with
  | None, Some _ | Some _, None => mret ZSA_RESULT_FAILED
  | _, _ =>
      g ← allocator_global_t_get;
      l ← need SelfDeadlock (rwlock_acquire_write (ag_lock g));
      let a := match allocate with Some id => user_alloc_cb id | None => default_alloc end in
      let f := match free with Some id => user_free_cb id | None => default_free end in
      set_allocator_global (mkAllocatorGlobal (rwlock_release l) a f);;
      mret ZSA_RESULT_SUCCEEDED
  end.

(** Memory of [size] bytes at an address that was never used before. *)
Definition new_block (size : Z) : Mw Z :=
  h ← gets fresh;
  modify (fun w => w <| heap := <[h := OBlock (mkBlock size None [])]> (heap w) |>
                     <| fresh := h + Z.max 1 size |>);;
  mret h.

(** A call of an allocate callback: the memory and the context it sets. *)
Definition call_alloc (cb : zsa_memory_allocate_cb_t) (size : Z) : Mw (Z * Z) :=
  match cb with
  | default_alloc =>
      if size <? 0 then mret (NULL, NULL)
      else
        ok ← ask calloc_ok;
        if (ok : bool) then h ← new_block size; mret (h, NULL) else mret (NULL, NULL)
  | user_alloc_cb id =>
      r ← ask (A := bool * Z) (fun n => user_alloc n id size);
      if (fst r : bool) then h ← new_block size; mret (h, snd r) else mret (NULL, snd r)
  end.

(** [long *ref] selected by the [switch] on the source, and INC_REF_VAR or
    DEC_REF_VAR on it: [add_count source d]. *)
Definition update_count (source d : Z) (c : image_counts_t) : option image_counts_t :=
  if source =? ALLOCATION_SOURCE_USER then
    Some (c <| g_allocated_image_count_user := g_allocated_image_count_user c + d |>)
  else if source =? ALLOCATION_SOURCE_DEPTH then
    Some (c <| g_allocated_image_count_depth := g_allocated_image_count_depth c + d |>)
  else if source =? ALLOCATION_SOURCE_COLOR then
    Some (c <| g_allocated_image_count_color := g_allocated_image_count_color c + d |>)
  else if source =? ALLOCATION_SOURCE_IMU then
    Some (c <| g_allocated_image_count_imu := g_allocated_image_count_imu c + d |>)
  else if source =? ALLOCATION_SOURCE_USB_DEPTH then
    Some (c <| g_allocated_image_count_usb_depth := g_allocated_image_count_usb_depth c + d |>)
  else if source =? ALLOCATION_SOURCE_USB_IMU then
    Some (c <| g_allocated_image_count_usb_imu := g_allocated_image_count_usb_imu c + d |>)
  else None.

Definition add_count (source d : Z) : Mw unit :=
  c ← gets g_counts;
  match update_count source d c with
  | Some c' => modify (fun w => w <| g_counts := c' |>)
  | None => c_assert false;; throw NullDeref
  end.

Definition bad_source (source : Z) : bool :=
  (source <? ALLOCATION_SOURCE_USER) || (source >? ALLOCATION_SOURCE_USB_IMU).

(** [memcpy(full_buffer, &allocation_context, sizeof(allocation_context))] *)
Definition write_header (full_buffer : Z) (a : allocation_context_t) : Mw unit :=
  w ← get_state;
  match heap w !! full_buffer with
  | Some (OBlock b) =>
      if blk_size b <? sizeof_allocation_context_t then throw OutOfBounds
      else modify (fun w => w <| heap := <[full_buffer := OBlock (b <| blk_header := Some a |>)]> (heap w) |>)
  | _ => throw UseAfterFree
  end.

Definition allocator_alloc (source alloc_size : Z) : Mw Z :=
  _ ← allocator_global_t_get;
  if bad_source source then mret NULL
  else if alloc_size =? 0 then mret NULL
  else
    let required_bytes := u64 (alloc_size + sizeof_allocation_context_t) in
    if required_bytes >? INT32_MAX then mret NULL
    else
      add_count source 1;;
      g ← allocator_global_t_get;
      l ← need SelfDeadlock (rwlock_acquire_read (ag_lock g));
      set_allocator_global (g <| ag_lock := l |>);;
      r ← call_alloc (ag_alloc g) required_bytes;
      let full_buffer := fst r in
      let context := mkAllocationContext source (ag_free g) (snd r) in
      set_allocator_global (g <| ag_lock := rwlock_release l |>);;
      if full_buffer =? NULL then mret NULL
      else
        write_header full_buffer context;;
        mret (full_buffer + sizeof_allocation_context_t).

(** Reading the header back: undefined unless [full_buffer] is a block with
    a header. *)
Definition read_header (full_buffer : Z) : Mw allocation_context_t :=
  w ← get_state;
  match heap w !! full_buffer with
  | Some (OBlock b) => need UseAfterFree (blk_header b)
  | _ => throw UseAfterFree
  end.

Definition call_free (cb : zsa_memory_destroy_cb_t) (full_buffer context : Z) : Mw unit :=
  match cb with
  | default_free => c_assert (context =? NULL)
  | user_free_cb id =>
      modify (fun w => w <| trace := trace w ++ [EUserFree id full_buffer context] |>)
  end;;
  modify (fun w => w <| heap := delete full_buffer (heap w) |>).

Definition allocator_free (buffer : Z) : Mw unit :=
  let full_buffer := buffer - sizeof_allocation_context_t in
  a ← read_header full_buffer;
  if bad_source (ac_source a) then mret tt
  else if buffer =? NULL then mret tt
  else
    add_count (ac_source a) (-1);;
    call_free (ac_free a) full_buffer (ac_free_context a).

Definition allocator_test_for_leaks : Mw Z :=
  w ← get_state;
  if negb (g_allocator_sessions w =? 0) then mret 0
  else
    let c := g_counts w in
    c_assert (g_allocated_image_count_user c =? 0);;
    c_assert (g_allocated_image_count_color c =? 0);;
    c_assert (g_allocated_image_count_depth c =? 0);;
    c_assert (g_allocated_image_count_imu c =? 0);;
    c_assert (g_allocated_image_count_usb_depth c =? 0);;
    c_assert (g_allocated_image_count_usb_imu c =? 0);;
    mret (g_allocated_image_count_user c + g_allocated_image_count_depth c +
          g_allocated_image_count_color c + g_allocated_image_count_imu c +
          g_allocated_image_count_usb_depth c + g_allocated_image_count_usb_imu c).
End operations.

(** * Counters *)

Lemma bad_source_false source : bad_source source = false <-> 0 <= source <= 5.
Proof.
  unfold bad_source, ALLOCATION_SOURCE_USER, ALLOCATION_SOURCE_USB_IMU.
  rewrite orb_false_iff, Z.ltb_ge, Z.gtb_ltb, Z.ltb_ge. lia.
Qed.

Lemma source_cases s :
  0 <= s <= 5 -> s = 0 \/ s = 1 \/ s = 2 \/ s = 3 \/ s = 4 \/ s = 5.
Proof. lia. Qed.

Lemma get_count_other c s : ~ 0 <= s <= 5 -> get_count c s = None.
Proof.
  intros Hs. unfold get_count, ALLOCATION_SOURCE_USER, ALLOCATION_SOURCE_DEPTH,
    ALLOCATION_SOURCE_COLOR, ALLOCATION_SOURCE_IMU, ALLOCATION_SOURCE_USB_DEPTH,
    ALLOCATION_SOURCE_USB_IMU.
  by rewrite !(proj2 (Z.eqb_neq s _)) by lia.
Qed.

(** The [switch] reaches exactly one counter for each source that passes the
    range check. *)
Lemma update_count_spec source d c :
  bad_source source = false ->
  exists c', update_count source d c = Some c' /\
    forall s, default 0 (get_count c' s) =
              default 0 (get_count c s) + (if decide (s = source) then d else 0).
Proof.
  intros Hs%bad_source_false.
  destruct (source_cases source Hs) as [-> | [-> | [-> | [-> | [-> | ->]]]]];
    eexists; (split; [reflexivity|]); intros s;
    (destruct (decide (0 <= s <= 5)) as [Hs'|Hs'];
     [destruct (source_cases s Hs') as [-> | [-> | [-> | [-> | [-> | ->]]]]]; case_decide; try lia; cbn; lia|]);
    rewrite !get_count_other by done; rewrite decide_False by lia; done.
Qed.

(** * Invariant preservation *)

(** Changes to what [Inv] does not look at. *)
Lemma inv_frame busy ext w w' :
  Inv busy ext w ->
  heap w' = heap w -> fresh w' = fresh w -> g_counts w' = g_counts w ->
  (forall g, g_allocator w' = Some g -> allocator_ok g) ->
  Inv busy ext w'.
Proof.
  intros HI Eh Ef Ec Hg'. destruct w, w'; simpl in *; subst.
  destruct HI as [Ha Hp Hr Hi Hb Hg Hf]. split; [|done..].
  intros [k h]. pose proof (Ha (k, h)). by destruct k.
Qed.

(** Between [w] and [w'] only the heap and the clock moved. *)
Definition only_heap (w w' : world) : Prop :=
  w' = w <| heap := heap w' |> <| fresh := fresh w' |> <| tick := tick w' |> /\ fresh w <= fresh w'.

Lemma only_heap_refl w : only_heap w w.
Proof. split; [by destruct w|done]. Qed.

Lemma only_heap_trans w1 w2 w3 : only_heap w1 w2 -> only_heap w2 w3 -> only_heap w1 w3.
Proof. intros [E1 F1] [E2 F2]. split; [rewrite E2, E1; by destruct w3|lia]. Qed.

Lemma only_heap_set w m t f :
  fresh w <= f -> only_heap w (w <| heap := m |> <| fresh := f |> <| tick := t |>).
Proof. intros Hf. by split. Qed.

(** The books are right again when every object is again what it was. *)
Lemma inv_restored busy ext w w' :
  Inv busy ext w -> heap w' = heap w -> fresh w <= fresh w' -> g_counts w' = g_counts w ->
  g_allocator w' = g_allocator w -> Inv busy ext w'.
Proof.
  intros [Ha Hp Hr Hi Hb Hg Hf] Eh Ef Ec Eg. split; rewrite ?Eh, ?Eg; try done; [| |lia].
  - intros [k h]. specialize (Ha (k, h)). destruct k; cbn in *; by rewrite ?Eh, ?Ec.
  - intros h o Ho. specialize (Hr h o Ho). lia.
Qed.

Lemma inv_trace busy ext w es :
  Inv busy ext w -> Inv busy ext (w <| trace := trace w ++ es |>).
Proof. intros HI. apply (inv_frame _ _ w); try done. intros g Hg. by eapply inv_allocator. Qed.

Lemma inv_tick busy ext w t : Inv busy ext w -> Inv busy ext (w <| tick := t |>).
Proof. intros HI. apply (inv_frame _ _ w); try done. intros g Hg. by eapply inv_allocator. Qed.

Lemma inv_counts busy ext w source d c' :
  Inv busy ext w ->
  (forall s, default 0 (get_count c' s) =
             default 0 (get_count (g_counts w) s) + (if decide (s = source) then d else 0)) ->
  Inv busy (fun r => ext r + (if decide (r = (KSource, source)) then d else 0))
    (w <| g_counts := c' |>).
Proof.
  intros [Ha Hp Hr Hi Hb Hg Hf] Hc.
  split; [|done..].
  intros [k h]. pose proof (Ha (k, h)) as E.
  destruct k; try (rewrite decide_False by congruence; rewrite Z.add_0_r; exact E).
  simpl in *. rewrite Hc, E. destruct (decide (h = source)) as [->|Hn].
  - rewrite (decide_True (P := _ = (_, _))) by done. lia.
  - rewrite (decide_False (P := _ = (_, _))) by congruence. lia.
Qed.

(** A new object nothing refers to yet. *)
Lemma inv_new busy ext ext' w o n :
  Inv busy ext w ->
  0 < n ->
  (forall r, ext' r = ext r - count_ref r (obj_refs o)
                   + (if decide (r = (obj_kind o, fresh w)) then obj_rc o else 0)) ->
  (fresh w ∉ busy -> counted (obj_kind o) = true -> 0 < obj_rc o) ->
  (fresh w ∉ busy -> obj_idle o) ->
  (forall b, o = OBlock b -> block_ok b) ->
  Inv busy ext' (w <| heap := <[fresh w := o]> (heap w) |> <| fresh := fresh w + n |>).
Proof.
  intros HI Hn Hext Hpos Hidle Hblk. pose proof (inv_fresh_none _ _ _ HI) as Hnone.
  pose proof (inv_fresh _ _ _ HI) as Hf0.
  split; cbn.
  - intros [k h]. rewrite slots_new by done. rewrite Hext.
    pose proof (inv_account _ _ _ HI (k, h)) as E.
    destruct (decide (k = KSource)) as [->|Hk].
    { cbn in *. rewrite (decide_False (P := _ = (obj_kind o, _))); [lia|].
      intros [= E' _]. by apply (obj_kind_not_source o). }
    rewrite rc_unfold in * by done. cbn.
    destruct (decide (h = fresh w)) as [->|Hh].
    + rewrite lookup_insert_eq. rewrite Hnone in E.
      destruct (decide (obj_kind o = k)) as [<-|];
        [rewrite (decide_True (P := _ = _)) by done|rewrite (decide_False (P := _ = _)) by congruence]; lia.
    + rewrite lookup_insert_ne by done. rewrite (decide_False (P := _ = (_, _))) by congruence. lia.
  - intros h1 o1 [[<- <-]|[_ H1]]%lookup_insert_Some Hb; [by apply Hpos|by eapply inv_pos].
  - intros h1 o1 [[<- <-]|[_ H1]]%lookup_insert_Some; [lia|].
    apply (inv_range _ _ _ HI) in H1. lia.
  - intros h1 o1 [[<- <-]|[_ H1]]%lookup_insert_Some Hb; [by apply Hidle|by eapply inv_idle].
  - intros h1 b [[<- E]|[_ H1]]%lookup_insert_Some; [by eapply Hblk|by eapply inv_blocks].
  - apply HI.
  - lia.
Qed.

(** Changing what a module's context says about itself, not about images. *)
Lemma inv_module busy ext w h m m' :
  Inv busy ext w -> heap w !! h = Some (OModule m) -> module_refs m' = module_refs m -> (module_idle m -> module_idle m') ->
  Inv busy ext (w <| heap := <[h := OModule m']> (heap w) |>).
Proof.
  intros HI Hh Hr Hi. eapply inv_store; [exact HI|exact Hh|done| |done| |done|done].
  - intros r. cbn. rewrite Hr. case_decide; lia.
  - intros Hb. apply Hi. exact (inv_idle _ _ _ HI _ _ Hh Hb).
Qed.

(** One more idle context. *)
Definition add_object (m : module_t) (w : world) : world :=
  w <| heap := <[fresh w := OModule m]> (heap w) |> <| fresh := fresh w + 1 |>.

Lemma inv_add_module busy ext w m :
  Inv busy ext w -> module_refs m = [] -> module_idle m -> Inv busy ext (add_object m w).
Proof.
  intros HI Hr Hi. eapply inv_new; [exact HI|lia| |done|done|done].
  intros r. cbn. rewrite Hr, count_ref_nil. case_decide; lia.
Qed.

(** * Specifications *)

Section specs.
Context `{Platform}.

Definition current_allocator (w : world) : allocator_global_t :=
  global_init_once (g_allocator w) allocator_global_init.

Lemma current_ok busy ext w : Inv busy ext w -> allocator_ok (current_allocator w).
Proof.
  intros HI. unfold current_allocator.
  destruct (g_allocator w) eqn:E; [by eapply inv_allocator|done].
Qed.

Lemma wp_global_get w (Q : allocator_global_t -> world -> Prop) :
  Q (current_allocator w) (w <| g_allocator := Some (current_allocator w) |>) ->
  wp allocator_global_t_get Q w.
Proof. done. Qed.

Lemma wp_call_alloc cb size w (Q : Z * Z -> world -> Prop) :
  0 <= size ->
  (forall t ctx, Q (NULL, ctx) (w <| tick := t |>)) ->
  (forall t ctx, (cb = default_alloc -> ctx = NULL) -> Q (fresh w, ctx)
     (w <| tick := t |> <| heap := <[fresh w := OBlock (mkBlock size None [])]> (heap w) |>
        <| fresh := fresh w + Z.max 1 size |>)) ->
  wp (call_alloc cb size) Q w.
Proof.
  intros Hs HN HS. unfold wp. destruct cb as [|id]; cbn.
  - rewrite (proj2 (Z.ltb_ge size 0)) by done. unfold mbind, M_bind, ask.
    destruct (calloc_ok (tick w)); [by apply HS|apply HN].
  - unfold mbind, M_bind, ask.
    destruct (user_alloc (tick w) id size) as [[] ctx]; [by apply HS|apply HN].
Qed.

Lemma wp_add_count source d w (Q : unit -> world -> Prop) :
  bad_source source = false ->
  (forall c', (forall s, default 0 (get_count c' s) =
              default 0 (get_count (g_counts w) s) + (if decide (s = source) then d else 0)) ->
     Q tt (w <| g_counts := c' |>)) ->
  wp (add_count source d) Q w.
Proof.
  intros Hs HQ. destruct (update_count_spec source d (g_counts w) Hs) as (c' & Hc & Hs').
  unfold wp, add_count, mbind, M_bind, gets. rewrite Hc. by apply HQ.
Qed.

Lemma wp_write_header h b a w (Q : unit -> world -> Prop) :
  heap w !! h = Some (OBlock b) -> sizeof_allocation_context_t <= blk_size b ->
  Q tt (w <| heap := <[h := OBlock (b <| blk_header := Some a |>)]> (heap w) |>) ->
  wp (write_header h a) Q w.
Proof.
  intros Hh Hs HQ. unfold wp, write_header, mbind, M_bind, get_state. rewrite Hh.
  by rewrite (proj2 (Z.ltb_ge _ _)).
Qed.

(** What a successful or failed allocation does. *)
Definition alloc_post (busy : gset Z) (ext : ledger) (source size : Z) (w : world)
    (p : Z) (w' : world) : Prop :=
  (p = NULL /\ Inv busy (gain ext (KSource, source)) w' /\ heap w' = heap w /\ fresh w' = fresh w /\
   trace w' = trace w) \/
  (p = fresh w + sizeof_allocation_context_t /\
   Inv busy (gain ext (KBlock, fresh w)) w' /\
   fresh w' = fresh w + (size + sizeof_allocation_context_t) /\ trace w' = trace w /\
   exists ctx, heap w' = <[fresh w := OBlock (mkBlock (size + sizeof_allocation_context_t)
     (Some (mkAllocationContext source (ag_free (current_allocator w)) ctx)) [])]> (heap w)).

Lemma wp_allocator_alloc busy ext source size w :
  Inv busy ext w -> bad_source source = false ->
  0 < size -> size + sizeof_allocation_context_t <= INT32_MAX ->
  wp (allocator_alloc source size) (alloc_post busy ext source size w) w.
Proof.
  intros HI Hsrc Hpos Hmax. unfold sizeof_allocation_context_t, INT32_MAX in *.
  destruct (current_ok _ _ _ HI) as [Hidle Hpair]. pose proof (inv_fresh _ _ _ HI) as Hf.
  unfold allocator_alloc. apply wp_bind, wp_global_get.
  rewrite Hsrc, (proj2 (Z.eqb_neq size 0)) by lia. unfold sizeof_allocation_context_t.
  rewrite u64_id, Z.gtb_ltb, (proj2 (Z.ltb_ge _ _)) by (unfold INT32_MAX; lia).
  apply wp_bind, wp_add_count; [done|]. intros c' Hc. apply wp_bind, wp_global_get.
  cbn. rewrite Hidle. apply wp_bind. eapply wp_need; [done|]. apply wp_bind, wp_modify.
  pose proof (inv_counts _ _ _ _ _ _ HI Hc) as HIc.
  apply wp_bind, wp_call_alloc; [lia| |]; [intros t ctx|intros t ctx Hctx]; cbn; apply wp_bind, wp_modify; cbn.
  - apply wp_ret. left. split_and!; try done.
    apply (inv_frame _ _ (w <| g_counts := c' |>)); try done; [|by intros ? [= <-]; split].
    eapply inv_ext; [exact HIc|]. ledger.
  - rewrite (proj2 (Z.eqb_neq (fresh w) NULL)) by (unfold NULL; lia).
    apply wp_bind. eapply wp_write_header; [apply lookup_insert_eq|cbn; unfold sizeof_allocation_context_t; lia|].
    apply wp_ret. right. cbn. rewrite insert_insert_eq. split_and!; [done| |unfold sizeof_allocation_context_t; lia|done|by eexists].
    set (o := OBlock _).
    apply (inv_frame _ _ (w <| g_counts := c' |> <| heap := <[fresh w := o]> (heap w) |>
                            <| fresh := fresh w + (size + 32) |>)); try done.
    + refine (inv_new _ _ _ (w <| g_counts := c' |>) o (size + 32) HIc _ _ _ _ _); [lia| |done|done|].
      * ledger.
      * intros b [= <-]. eexists. split; [done|]. cbn. split; [by apply bad_source_false|].
        intros Hd. by apply Hctx, Hpair.
    + cbn. lia.
    + by intros ? [= <-]; split.
Qed.

(** Whether the callback an allocation goes to has memory. *)
Definition memory_lasts w : Prop :=
  (forall n, calloc_ok n = true) /\
  (ag_alloc (current_allocator w) = default_alloc \/ forall n id size, fst (user_alloc n id size) = true).

Lemma wp_call_alloc_ok size w w' :
  memory_lasts w -> 0 <= size -> fresh w' = fresh w -> heap w' = heap w ->
  wp (call_alloc (ag_alloc (current_allocator w)) size)
    (fun r w'' => fst r = fresh w /\ heap w'' = <[fresh w := OBlock (mkBlock size None [])]> (heap w)) w'.
Proof.
  intros [Hc Hu] Hs Ef Eh. unfold wp. destruct (ag_alloc (current_allocator w)) as [|id].
  - cbn. rewrite (proj2 (Z.ltb_ge size 0)) by done. unfold mbind, M_bind, ask. rewrite Hc. cbn. by rewrite Ef, Eh.
  - destruct Hu as [Hu|Hu]; [done|]. cbn. unfold mbind, M_bind, ask. specialize (Hu (tick w') id size).
    destruct (user_alloc (tick w') id size) as [[] ctx]; [|done]. cbn. by rewrite Ef, Eh.
Qed.

Lemma wp_alloc_ok busy ext source size w :
  memory_lasts w -> Inv busy ext w -> bad_source source = false -> 0 < size -> size + sizeof_allocation_context_t <= INT32_MAX ->
  wp (allocator_alloc source size) (fun p _ => p <> NULL) w.
Proof.
  intros Hm HI Hsrc Hpos Hmax. unfold sizeof_allocation_context_t, INT32_MAX in *.
  destruct (current_ok _ _ _ HI) as [Hidle _]. pose proof (inv_fresh _ _ _ HI) as Hf.
  unfold allocator_alloc. apply wp_bind, wp_global_get.
  rewrite Hsrc, (proj2 (Z.eqb_neq size 0)) by lia. unfold sizeof_allocation_context_t.
  rewrite u64_id, Z.gtb_ltb, (proj2 (Z.ltb_ge _ _)) by (unfold INT32_MAX; lia).
  apply wp_bind, wp_add_count; [done|]. intros c' _. apply wp_bind, wp_global_get.
  cbn. rewrite Hidle. apply wp_bind. eapply wp_need; [done|]. apply wp_bind, wp_modify. apply wp_bind.
  eapply wp_mono; [apply (wp_call_alloc_ok (size + 32) w); [done|lia|done|done]|]. intros [h ctx] w2 [Eh Ehp]. cbn in Eh, Ehp. subst h.
  apply wp_bind, wp_modify. cbn -[wp write_header]. rewrite (proj2 (Z.eqb_neq (fresh w) NULL)) by (unfold NULL; lia).
  apply wp_bind. eapply wp_write_header; [cbn; rewrite Ehp; apply lookup_insert_eq|cbn; unfold sizeof_allocation_context_t; lia|].
  apply wp_ret. unfold NULL. lia.
Qed.

Lemma wp_read_header h b a w (Q : allocation_context_t -> world -> Prop) :
  heap w !! h = Some (OBlock b) -> blk_header b = Some a -> Q a w -> wp (read_header h) Q w.
Proof.
  intros Hh Hb HQ. unfold wp, read_header, mbind, M_bind, get_state. by rewrite Hh, Hb.
Qed.

(** The header decides which function the memory goes back to, and with
    which context. *)
Definition free_event (a : allocation_context_t) (h : Z) : list event :=
  match ac_free a with
  | default_free => []
  | user_free_cb id => [EUserFree id h (ac_free_context a)]
  end.

Lemma wp_call_free a h w (Q : unit -> world -> Prop) :
  (ac_free a = default_free -> ac_free_context a = NULL) ->
  Q tt (w <| trace := trace w ++ free_event a h |> <| heap := delete h (heap w) |>) ->
  wp (call_free (ac_free a) h (ac_free_context a)) Q w.
Proof.
  intros Hctx HQ. unfold call_free, free_event in *. destruct (ac_free a) as [|id].
  - rewrite Hctx by done. cbn in *. rewrite app_nil_r in HQ. by destruct w.
  - exact HQ.
Qed.

Definition free_post (busy : gset Z) (ext : ledger) (h : Z) (a : allocation_context_t)
    (w w' : world) : Prop :=
  Inv busy (lose ext (KBlock, h)) w' /\ heap w' = delete h (heap w) /\ fresh w' = fresh w /\
  trace w' = trace w ++ free_event a h.

Lemma wp_allocator_free busy ext h b a w :
  Inv busy ext w -> heap w !! h = Some (OBlock b) -> blk_header b = Some a ->
  wp (allocator_free (h + sizeof_allocation_context_t))
     (fun _ => free_post busy ext h a w) w.
Proof.
  intros HI Hh Hb. destruct (inv_blocks _ _ _ HI _ _ Hh) as (a' & Ha' & Hsrc & Hctx).
  rewrite Hb in Ha'. injection Ha' as <-. pose proof (inv_range _ _ _ HI _ _ Hh) as Hr.
  unfold allocator_free. rewrite Z.add_simpl_r.
  apply wp_bind. eapply wp_read_header; [done..|].
  rewrite (proj2 (bad_source_false _)) by done.
  unfold sizeof_allocation_context_t. rewrite (proj2 (Z.eqb_neq _ NULL)) by (unfold NULL; lia).
  apply wp_bind, wp_add_count; [by apply bad_source_false|]. intros c' Hc.
  apply wp_call_free; [done|]. split_and!; try done.
  pose proof (inv_counts _ _ _ _ _ _ HI Hc) as HIc.
  apply (inv_frame _ _ (w <| g_counts := c' |> <| heap := delete h (heap w) |>)); try done;
    [|by intros g Hg; apply (inv_allocator _ _ _ HI)].
  apply (inv_delete _ _ _ _ (w <| g_counts := c' |>) h (OBlock b) HIc); [done..|].
  cbn. rewrite Hb. ledger.
Qed.

(** When adding the header wraps around, the header does not fit. *)
Lemma allocator_alloc_wrap source size w :
  bad_source source = false -> size <> 0 ->
  u64 (size + sizeof_allocation_context_t) < sizeof_allocation_context_t ->
  current_allocator w = allocator_global_init -> (forall n, calloc_ok n = true) -> fresh w <> NULL ->
  allocator_alloc source size w = Fault OutOfBounds.
Proof.
  intros Hsrc Hs Hreq Hg Hok Hfr. set (w1 := w <| g_allocator := Some allocator_global_init |>).
  assert (E1 : allocator_global_t_get w = Done allocator_global_init w1).
  { unfold allocator_global_t_get, get_state, mbind, M_bind. cbn.
    unfold current_allocator in Hg. by rewrite Hg. }
  unfold sizeof_allocation_context_t in *. pose proof (u64_range (size + 32)).
  unfold allocator_alloc. rewrite (bind_done _ _ _ _ _ E1), Hsrc, (proj2 (Z.eqb_neq size 0)) by done.
  unfold sizeof_allocation_context_t, INT32_MAX. rewrite Z.gtb_ltb, (proj2 (Z.ltb_ge _ _)) by lia.
  destruct (update_count_spec source 1 (g_counts w1) Hsrc) as (c' & Hc & _).
  erewrite bind_done; [|unfold add_count, gets, mbind, M_bind; by rewrite Hc].
  erewrite bind_done; [|by unfold allocator_global_t_get, gets, modify, mbind, M_bind].
  cbn [global_init_once]. do 2 (erewrite bind_done; [|reflexivity]).
  erewrite bind_done.
  2: { cbn -[u64]. rewrite (proj2 (Z.ltb_ge _ 0)) by lia. unfold mbind, M_bind, ask. by rewrite Hok. }
  erewrite bind_done; [|reflexivity]. cbn -[u64].
  rewrite (proj2 (Z.eqb_neq (fresh w) NULL)) by done.
  apply bind_fault. unfold write_header, get_state, mbind, M_bind. cbn -[u64].
  rewrite lookup_insert_eq. cbn -[u64]. by rewrite (proj2 (Z.ltb_lt _ 32)).
Qed.
End specs.

(** * Properties *)

(** Concrete answers used by the witnesses: everything succeeds. *)
#[export] Instance good_platform : Platform := {|
  ndebug := false;
  calloc_ok _ := true;
  Lock_Init_ok _ := true;
  Condition_Init_ok _ := true;
  user_alloc _ id _ := (true, id);
  clock_gettime _ := (0, (5, 7));
  environment _ := None;
  others _ w := w;
  Condition_Wait_others _ _ w := (COND_TIMEOUT, w);
  patience := 0
|}.

Lemma inv_init : Inv ∅ no_refs init_world.
Proof.
  split; cbn; try done; try lia.
  intros [k h]. unfold slots. rewrite map_sum_empty. unfold no_refs.
  destruct k; cbn; try done. unfold get_count.
  repeat (destruct (h =? _); [done|]). done.
Qed.

Section properties.
Context `{Platform}.

Lemma wp_set_allocator busy ext (a f : option Z) w :
  Inv busy ext w ->
  wp (allocator_set_allocator a f)
     (fun _ w' => (forall e, Inv busy e w -> Inv busy e w') /\ heap w' = heap w /\ fresh w' = fresh w /\
        trace w' = trace w) w.
Proof.
  intros HI. destruct (current_ok _ _ _ HI) as [Hidle Hpair].
  unfold allocator_set_allocator.
  destruct a as [a|], f as [f|]; try (apply wp_ret; by split_and!);
    apply wp_bind, wp_global_get; rewrite Hidle;
    apply wp_bind; (eapply wp_need; [done|]); apply wp_bind, wp_modify, wp_ret;
    (split_and!; [|done..]); intros e He; apply (inv_frame _ _ w); try done;
    by intros g [= <-]; split.
Qed.

End properties.

