(* ===== verification/Image.v ===== *)
(** src/image/image.c: creation of images in the SDK's own memory or over a
    buffer of the caller, reference counting, and the accessors. *)

From S2P Require Export Allocator.

(** * Operations

    An out parameter [zsa_image_t *image_handle] is a bool (is the pointer
    not null) on the way in; on the way out it is the last value stored
    through it, [None] when nothing was stored. *)

Section operations.
Context `{Platform}.

Abbreviation image_valid v h rest := (if_handle_valid image_context_t v h rest) (only parsing).

(** image_default_free_function *)
Definition image_default_free_function (buffer context : Z) : Mw unit := allocator_free buffer.

(** uvc_camerareader_free_allocation of src/color/uvc_camerareader.cpp *)
Definition uvc_camerareader_free_allocation (buffer context : Z) : Mw unit := allocator_free buffer.

(** [image->memory_free_cb(image->buffer, image->memory_free_cb_context)] when
    it is not null. *)
Definition call_memory_free_cb (i : image_context_t) : Mw unit :=
  match img_memory_free_cb i with
  | image_cb_null => mret tt
  | image_default_free_function_cb =>
      image_default_free_function (img_buffer i) (img_memory_free_cb_context i)
  | uvc_camerareader_free_allocation_cb =>
      uvc_camerareader_free_allocation (img_buffer i) (img_memory_free_cb_context i)
  | image_cb_user id =>
      modify (fun w => w <| trace := trace w ++
        [EImageCb id (img_buffer i) (img_memory_free_cb_context i)] |>)
  end.

Definition image_dec_ref (image_handle : Z) : Mw unit :=
  image_valid tt image_handle (
    i ← load image_context_t image_handle;
    let count := img_ref_count i - 1 in
    update image_handle (fun i => i <| img_ref_count := count |>);;
    when (count =? 0) (
      call_memory_free_cb i;;
      handle_destroy image_context_t image_handle)).

Definition image_inc_ref (image_handle : Z) : Mw unit :=
  image_valid tt image_handle (
    update image_handle (fun i => i <| img_ref_count := img_ref_count i + 1 |>)).

Definition Lock_Init : Mw LOCK_HANDLE :=
  ok ← ask Lock_Init_ok;
  mret (if (ok : bool) then LockFree else LockNull).

Definition bad_format (format : Z) : bool :=
  (format <? ZSA_IMAGE_FORMAT_COLOR_MJPG) || (format >? ZSA_IMAGE_FORMAT_CUSTOM).

Definition image_create_from_buffer (format width_pixels height_pixels stride_bytes buffer buffer_size : Z)
    (buffer_destroy_cb : image_destroy_cb_t) (buffer_destroy_cb_context : Z)
    (image_handle : bool) : Mw (zsa_result_t * option Z) :=
  if negb image_handle then mret (ZSA_RESULT_FAILED, None)
  else if bad_format format then mret (ZSA_RESULT_FAILED, None)
  else if (width_pixels <=? 0) || (width_pixels >? 20000) then mret (ZSA_RESULT_FAILED, None)
  else if (height_pixels <=? 0) || (height_pixels >? 20000) then mret (ZSA_RESULT_FAILED, None)
  else if buffer =? NULL then mret (ZSA_RESULT_FAILED, None)
  else if buffer_size =? 0 then mret (ZSA_RESULT_FAILED, None)
  else
    h ← handle_create image_context_t;
    if h =? NULL then mret (ZSA_RESULT_FAILED, Some NULL)
    else
      update h (fun i => i <| img_format := format |> <| img_width_pixels := width_pixels |>
        <| img_height_pixels := height_pixels |> <| img_stride_bytes := stride_bytes |>
        <| img_buffer_size := buffer_size |> <| img_buffer := buffer |> <| img_ref_count := 1 |>
        <| img_memory_free_cb := buffer_destroy_cb |>
        <| img_memory_free_cb_context := buffer_destroy_cb_context |>);;
      l ← Lock_Init;
      update h (fun i => i <| img_lock := l |>);;
      if decide (l = LockNull) then
        update h (fun i => i <| img_buffer := NULL |>);;
        handle_destroy image_context_t h;;
        mret (ZSA_RESULT_FAILED, Some NULL)
      else mret (ZSA_RESULT_SUCCEEDED, Some h).

Definition image_create_empty_image (source size : Z) (image_handle : bool)
    : Mw (zsa_result_t * option Z) :=
  if negb image_handle then mret (ZSA_RESULT_FAILED, None)
  else if size =? 0 then mret (ZSA_RESULT_FAILED, None)
  else if bad_source source then mret (ZSA_RESULT_FAILED, None)
  else
    h ← handle_create image_context_t;
    result ← (if h =? NULL then mret ZSA_RESULT_FAILED
              else
                b ← allocator_alloc source size;
                update h (fun i => i <| img_buffer := b |>);;
                mret (ZSA_RESULT_FROM_BOOL (negb (b =? NULL))));
    result ← (if ZSA_FAILED result then mret result
              else
                update h (fun i => i <| img_ref_count := 1 |> <| img_buffer_size := size |>
                  <| img_memory_free_cb := image_default_free_function_cb |>
                  <| img_memory_free_cb_context := NULL |>);;
                l ← Lock_Init;
                update h (fun i => i <| img_lock := l |>);;
                mret (ZSA_RESULT_FROM_BOOL (bool_decide (l <> LockNull))));
    if ZSA_FAILED result then
      image_dec_ref h;;
      mret (result, Some NULL)
    else mret (result, Some h).

Definition image_create_empty_internal (source size : Z) (image_handle : bool)
    : Mw (zsa_result_t * option Z) :=
  if negb image_handle then mret (ZSA_RESULT_FAILED, None)
  else if source =? ALLOCATION_SOURCE_USER then mret (ZSA_RESULT_FAILED, None)
  else if size =? 0 then mret (ZSA_RESULT_FAILED, None)
  else image_create_empty_image source size image_handle.

(** The [switch] of image_create on the format: the size of the buffer, [None]
    where the code sets ZSA_RESULT_FAILED.  [(size_t)height * (size_t)stride]
    converts the two ints to 64 bits and multiplies modulo 2^64. *)
Definition image_buffer_size (format width_pixels height_pixels stride_bytes : Z) : option Z :=
  let lines := u64 (u64 height_pixels * u64 stride_bytes) in
  if format =? ZSA_IMAGE_FORMAT_COLOR_MJPG then None
  else if format =? ZSA_IMAGE_FORMAT_COLOR_NV12 then
    if negb (Z.rem height_pixels 2 =? 0) then None
    else if negb (Z.rem width_pixels 2 =? 0) then None
    else if stride_bytes <? 1 * width_pixels then None
    else Some (u64 (u64 (3 * u64 height_pixels) * u64 stride_bytes) / 2)
  else if format =? ZSA_IMAGE_FORMAT_CUSTOM8 then
    if stride_bytes <? 1 * width_pixels then None else Some lines
  else if (format =? ZSA_IMAGE_FORMAT_DEPTH16) || (format =? ZSA_IMAGE_FORMAT_IR16)
          || (format =? ZSA_IMAGE_FORMAT_CUSTOM16) then
    if stride_bytes <? 2 * width_pixels then None else Some lines
  else if format =? ZSA_IMAGE_FORMAT_COLOR_YUY2 then
    if negb (Z.rem width_pixels 2 =? 0) then None
    else if stride_bytes <? 2 * width_pixels then None
    else Some lines
  else if format =? ZSA_IMAGE_FORMAT_COLOR_BGRA32 then
    if stride_bytes <? 4 * width_pixels then None else Some lines
  else Some lines.

Definition image_create (format width_pixels height_pixels stride_bytes source : Z)
    (image_handle : bool) : Mw (zsa_result_t * option Z) :=
  if negb image_handle then mret (ZSA_RESULT_FAILED, None)
  else if bad_format format then mret (ZSA_RESULT_FAILED, None)
  else if negb ((width_pixels >? 0) && (width_pixels <? 20000)) then mret (ZSA_RESULT_FAILED, None)
  else if negb ((height_pixels >? 0) && (height_pixels <? 20000)) then mret (ZSA_RESULT_FAILED, None)
  else
    match image_buffer_size format width_pixels height_pixels stride_bytes with
    | None => mret (ZSA_RESULT_FAILED, Some NULL)
    | Some size =>
        '(result, out) ← image_create_empty_image source size image_handle;
        let h := default NULL out in
        if ZSA_FAILED result then
          (if h =? NULL then mret tt else image_dec_ref h);;
          mret (result, Some NULL)
        else
          image ← handle_get_context image_context_t h;
          match image with
          | Some _ =>
              update h (fun i => i <| img_format := format |> <| img_width_pixels := width_pixels |>
                <| img_height_pixels := height_pixels |> <| img_stride_bytes := stride_bytes |>);;
              mret (result, Some h)
          | None =>
              (if h =? NULL then mret tt else image_dec_ref h);;
              mret (ZSA_RESULT_FAILED, Some NULL)
          end
    end.

(** The getters return the member, or [v] when the handle is invalid. *)
Definition image_get {A} (v : A) (f : image_context_t -> A) (image_handle : Z) : Mw A :=
  image_valid v image_handle (i ← load image_context_t image_handle; mret (f i)).

Definition image_get_buffer : Z -> Mw Z := image_get NULL img_buffer.
Definition image_get_size : Z -> Mw Z := image_get 0 img_buffer_size.
Definition image_get_format : Z -> Mw Z := image_get ZSA_IMAGE_FORMAT_CUSTOM img_format.
Definition image_get_width_pixels : Z -> Mw Z := image_get 0 img_width_pixels.
Definition image_get_height_pixels : Z -> Mw Z := image_get 0 img_height_pixels.
Definition image_get_stride_bytes : Z -> Mw Z := image_get 0 img_stride_bytes.
Definition image_get_device_timestamp_usec : Z -> Mw Z := image_get 0 img_dev_timestamp_usec.
Definition image_get_system_timestamp_nsec : Z -> Mw Z := image_get 0 img_sys_timestamp_nsec.
Definition image_get_exposure_usec : Z -> Mw Z := image_get 0 img_exposure_time_usec.
Definition image_get_white_balance : Z -> Mw Z := image_get 0 img_white_balance.
Definition image_get_iso_speed : Z -> Mw Z := image_get 0 img_iso_speed.

Definition image_set_size (image_handle size : Z) : Mw unit :=
  image_valid tt image_handle (
    i ← load image_context_t image_handle;
    c_assert (img_buffer_size i >=? size);;
    update image_handle (fun i => i <| img_buffer_size := size |>)).

(** The setters with no precondition. *)
Definition image_set (f : image_context_t -> image_context_t) (image_handle : Z) : Mw unit :=
  image_valid tt image_handle (update image_handle f).

Definition image_set_device_timestamp_usec (image_handle timestamp_usec : Z) : Mw unit :=
  image_set (fun i => i <| img_dev_timestamp_usec := timestamp_usec |>) image_handle.
Definition image_set_system_timestamp_nsec (image_handle timestamp_nsec : Z) : Mw unit :=
  image_set (fun i => i <| img_sys_timestamp_nsec := timestamp_nsec |>) image_handle.
Definition image_set_exposure_usec (image_handle exposure_usec : Z) : Mw unit :=
  image_set (fun i => i <| img_exposure_time_usec := exposure_usec |>) image_handle.
Definition image_set_white_balance (image_handle white_balance : Z) : Mw unit :=
  image_set (fun i => i <| img_white_balance := white_balance |>) image_handle.
Definition image_set_iso_speed (image_handle iso_speed : Z) : Mw unit :=
  image_set (fun i => i <| img_iso_speed := iso_speed |>) image_handle.

(** The POSIX branch: [(uint64_t)tv_sec * 1000000000 + (uint64_t)tv_nsec]. *)
Definition image_apply_system_timestamp (image_handle : Z) : Mw zsa_result_t :=
  image_valid ZSA_RESULT_FAILED image_handle (
    t ← ask clock_gettime;
    let '(err, (tv_sec, tv_nsec)) := t in
    let result := ZSA_RESULT_FROM_BOOL (err =? 0) in
    when (ZSA_SUCCEEDED result)
      (update image_handle (fun i => i <| img_sys_timestamp_nsec :=
         u64 (u64 (u64 tv_sec * 1000000000) + u64 tv_nsec) |>));;
    mret result).
End operations.

(** * Reference counting and the invariant *)

Section refcount.
Context `{Platform}.

Definition blocks_nonneg (ext : ledger) : Prop := forall b, 0 <= ext (KBlock, b).

(** What one image_dec_ref may do to the rest of the heap. *)
Definition image_frame (h : Z) (w w' : world) : Prop :=
  rc_step [KImage; KBlock] w w' /\
  forall x i, x <> h -> heap w !! x = Some (OImage i) -> heap w' !! x = Some (OImage i).

Lemma wp_image_inc_ref busy ext h i w (Q : unit -> world -> Prop) :
  Inv busy ext w -> has w h i ->
  (forall w', w' = w <| heap := <[h := OImage (i <| img_ref_count := img_ref_count i + 1 |>)]> (heap w) |> ->
     Inv busy (gain ext (KImage, h)) w' -> Q tt w') ->
  wp (image_inc_ref h) Q w.
Proof.
  intros HI Hh HQ. eapply wp_if_handle_valid; [done|]. eapply wp_update; [done|].
  apply HQ; [done|]. destruct Hh as [_ Hh].
  eapply inv_store; [done|exact Hh|done| | | |done|done].
  - destruct i; cbn. ledger.
  - intros Hb _. cbn. pose proof (inv_pos _ _ _ HI _ _ Hh Hb eq_refl). cbn in *. lia.
  - intros Hb. apply (inv_idle _ _ _ HI _ _ Hh Hb).
Qed.

(** The block of an image that owns its memory is alive. *)
Lemma image_block_live busy ext h i w :
  Inv busy ext w -> blocks_nonneg ext -> heap w !! h = Some (OImage i) ->
  frees_block (img_memory_free_cb i) = true ->
  exists b, heap w !! (img_buffer i - sizeof_allocation_context_t) = Some (OBlock b) /\ block_ok b.
Proof.
  intros HI Hext Hh Hcb. set (p := _ - _).
  destruct (inv_live _ _ _ KBlock p HI) as (_ & o & Ho & Hk); [done| |].
  - pose proof (slots_ge (heap w) h (OImage i) (KBlock, p) Hh) as Hs.
    specialize (Hext p). cbn in Hs. rewrite Hcb in Hs.
    rewrite count_ref_cons, decide_True, count_ref_nil in Hs by done. lia.
  - destruct o; try done. eexists. split; [done|]. by eapply inv_blocks.
Qed.

(** What is left of the heap, and what the application has been told, when
    the last reference of image [i] at [h] is dropped. *)
Definition released (h : Z) (i : image_context_t) (m : gmap Z obj) : gmap Z obj :=
  delete h (if frees_block (img_memory_free_cb i) then delete (img_buffer i - sizeof_allocation_context_t) m else m).

Definition release_events (i : image_context_t) (m : gmap Z obj) : list event :=
  match img_memory_free_cb i with
  | image_default_free_function_cb | uvc_camerareader_free_allocation_cb =>
      let p := img_buffer i - sizeof_allocation_context_t in
      match m !! p with
      | Some (OBlock b) => match blk_header b with Some a => free_event a p | None => [] end
      | _ => []
      end
  | image_cb_user id => [EImageCb id (img_buffer i) (img_memory_free_cb_context i)]
  | image_cb_null => []
  end.

Definition image_gone (busy : gset Z) (ext : ledger) (h : Z) (i : image_context_t) (w w' : world) : Prop :=
  Inv (busy ∖ {[h]}) ext w' /\ heap w' = released h i (heap w) /\ fresh w' = fresh w /\
  trace w' = trace w ++ release_events i (heap w).

(** An image without memory of the SDK disappears alone. *)
Lemma inv_image_gone busy ext h i w es :
  Inv busy ext w -> h ∈ busy -> heap w !! h = Some (OImage i) ->
  img_ref_count i = 0 -> obj_refs (OImage i) = [] ->
  Inv (busy ∖ {[h]}) ext (w <| trace := trace w ++ es |> <| heap := delete h (heap w) |>).
Proof.
  intros HI Hb Hh Hrc Hrefs. pose proof (inv_trace _ _ _ es HI) as HI'.
  apply (inv_delete _ _ _ _ (w <| trace := trace w ++ es |>) h _ HI' Hh); [set_solver|].
  rewrite Hrefs. cbn. rewrite Hrc. ledger.
Qed.

Lemma wp_image_release busy ext h i w :
  Inv busy ext w -> blocks_nonneg ext -> h ∈ busy ->
  has w h i -> img_ref_count i = 0 ->
  wp (call_memory_free_cb i;; handle_destroy image_context_t h)
     (fun _ => image_gone busy ext h i w) w.
Proof.
  intros HI Hext Hb [Hn Hh] Hrc.
  assert (Hrefs : frees_block (img_memory_free_cb i) = false -> obj_refs (OImage i) = []) by (cbn; by intros ->).
  destruct (frees_block (img_memory_free_cb i)) eqn:Hcb.
  - destruct (image_block_live _ _ _ _ _ HI Hext Hh Hcb) as (b & Hblk & Hok).
    destruct Hok as (a & Ha & _). set (p := img_buffer i - sizeof_allocation_context_t) in *.
    assert (Hp : p <> h). { intros E. rewrite E, Hh in Hblk. discriminate. }
    assert (Ecall : call_memory_free_cb i = allocator_free (p + sizeof_allocation_context_t)).
    { unfold call_memory_free_cb, image_default_free_function, uvc_camerareader_free_allocation, p.
      rewrite Z.sub_add. by destruct (img_memory_free_cb i). }
    assert (Ees : release_events i (heap w) = free_event a p).
    { unfold release_events. fold p. rewrite Hblk, Ha. by destruct (img_memory_free_cb i). }
    apply wp_bind. rewrite Ecall. eapply wp_mono; [by eapply wp_allocator_free|].
    intros _ w1 (HI1 & Eh & Ef & Et).
    assert (Hh1 : heap w1 !! h = Some (OImage i)) by (by rewrite Eh, lookup_delete_ne).
    eapply wp_destroy; [by split|]. unfold image_gone, released. rewrite Hcb, Ees. fold p. cbn. rewrite Eh.
    split_and!; [|done..]. rewrite <- Eh. eapply inv_delete; [exact HI1|exact Hh1|set_solver|].
    cbn. rewrite Hcb, Hrc. fold p. ledger.
  - unfold image_gone, released. rewrite Hcb. unfold call_memory_free_cb, release_events.
    pose proof (inv_image_gone busy ext h i w (release_events i (heap w)) HI Hb Hh Hrc (Hrefs eq_refl)) as HI'.
    unfold release_events in HI'. destruct (img_memory_free_cb i) as [| | |id]; try done.
    + apply wp_bind, wp_ret. eapply wp_destroy; [by split|]. cbn in *. rewrite app_nil_r in *.
      split_and!; [|done..]. by destruct w.
    + apply wp_bind, wp_modify. eapply wp_destroy; [by split|]. by split_and!.
Qed.

(** The heap after the last reference is gone differs from the one before
    only there. *)
Lemma image_gone_frame busy ext ext' h i w w' :
  Inv busy ext w -> blocks_nonneg ext -> heap w !! h = Some (OImage i) ->
  image_gone busy ext' h i w w' -> image_frame h w w' /\ heap w' !! h = None.
Proof.
  intros HI Hext Hh (_ & Eh & Ef & _). unfold released in Eh.
  assert (Hown : frees_block (img_memory_free_cb i) = true -> exists b,
            heap w !! (img_buffer i - sizeof_allocation_context_t) = Some (OBlock b)).
  { intros Hcb. destruct (image_block_live _ _ _ _ _ HI Hext Hh Hcb) as (b & Hblk & _). by exists b. }
  assert (Hx : forall x, heap w' !! x = heap w !! x \/ heap w' !! x = None /\
            (x = h \/ exists b, heap w !! x = Some (OBlock b))).
  { intros x. rewrite Eh. destruct (decide (x = h)) as [->|Hxh].
    { right. rewrite lookup_delete_eq. auto. }
    rewrite lookup_delete_ne by done. destruct (frees_block (img_memory_free_cb i)); [|by left].
    set (p := _ - _) in *. destruct (decide (x = p)) as [->|Hxp].
    - right. rewrite lookup_delete_eq. auto.
    - left. by rewrite lookup_delete_ne. }
  split; [split; [split; [done|]|]|by rewrite Eh, lookup_delete_eq].
  - intros x. destruct (Hx x) as [E|[E [->|[b Hxb]]]]; [by left| |];
      right; eexists; split_and!; [done|set_solver|by left|done|set_solver|by left].
  - intros x ix Hxh Hix. destruct (Hx x) as [->|[_ [->|[b Hxb]]]]; congruence.
Qed.

(** Releasing does not look at the count of the image. *)
Lemma released_count h i n (m : gmap Z obj) :
  released h (i <| img_ref_count := n |>) (<[h := OImage (i <| img_ref_count := n |>)]> m) =
  released h i m.
Proof.
  unfold released. cbn. destruct (frees_block (img_memory_free_cb i)); [|apply delete_insert_eq].
  set (p := _ - _). destruct (decide (p = h)) as [->|Hp].
  - by rewrite delete_insert_eq.
  - by rewrite delete_insert_ne, delete_insert_eq.
Qed.

Lemma release_events_count h i n (m : gmap Z obj) :
  m !! h = Some (OImage i) ->
  release_events (i <| img_ref_count := n |>) (<[h := OImage (i <| img_ref_count := n |>)]> m) =
  release_events i m.
Proof.
  intros Hh. unfold release_events. cbn.
  destruct (img_memory_free_cb i); try done; set (p := _ - _);
    (destruct (decide (p = h)) as [->|Hp]; [by rewrite lookup_insert_eq, Hh|by rewrite lookup_insert_ne]).
Qed.

(** Dropping the last reference, or one of several. *)
Lemma wp_image_dec_ref busy ext h i w :
  Inv busy ext w -> blocks_nonneg ext -> h ∉ busy -> has w h i ->
  wp (image_dec_ref h)
     (fun _ w' => Inv busy (lose ext (KImage, h)) w' /\ image_frame h w w' /\
        if img_ref_count i =? 1 then
          heap w' = released h i (heap w) /\ trace w' = trace w ++ release_events i (heap w)
        else w' = w <| heap :=
           <[h := OImage (i <| img_ref_count := img_ref_count i - 1 |>)]> (heap w) |>) w.
Proof.
  intros HI Hext Hb Hh. pose proof Hh as [Hn Hh'].
  pose proof (inv_pos _ _ _ HI _ _ Hh' Hb eq_refl) as Hpos. cbn in Hpos.
  eapply wp_if_handle_valid; [done|]. apply wp_bind. eapply wp_load; [done|].
  apply wp_bind. eapply wp_update; [done|].
  set (i' := i <| img_ref_count := _ |>). set (w1 := w <| heap := _ |>).
  assert (Hf : rc_step [KImage; KBlock] w w1) by (eapply rc_step_store; [done|done|set_solver]).
  assert (Ho : forall x ix, x <> h -> heap w !! x = Some (OImage ix) -> heap w1 !! x = Some (OImage ix)).
  { intros x ix Hx Hix. cbn. by rewrite lookup_insert_ne. }
  assert (Hi' : has w1 h i') by (split; [done|apply lookup_insert_eq]).
  assert (HI1 : forall busy', (h ∉ busy' -> img_ref_count i <> 1) -> busy ⊆ busy' ->
            Inv busy' (lose ext (KImage, h)) w1).
  { intros busy' Hb' Hsub. eapply inv_store; [exact HI|exact Hh'|done| | | |set_solver|done].
    - destruct i. cbn. ledger.
    - intros Hx _. specialize (Hb' Hx). cbn. lia.
    - intros _. apply (inv_idle _ _ _ HI _ _ Hh' Hb). }
  assert (Hext' : blocks_nonneg (lose ext (KImage, h))) by (intros b; specialize (Hext b); ledger).
  replace (img_ref_count i =? 1) with (img_ref_count i - 1 =? 0)
    by (destruct (Z.eqb_spec (img_ref_count i) 1), (Z.eqb_spec (img_ref_count i - 1) 0); lia).
  apply wp_when.
  - intros E. rewrite E. apply Z.eqb_eq in E.
    assert (HIb : Inv (busy ∪ {[h]}) (lose ext (KImage, h)) w1) by (apply HI1; set_solver).
    eapply wp_mono; [apply (wp_image_release _ _ h i' w1 HIb Hext'); [set_solver|done|exact E]|].
    intros [] w' Hgone.
    destruct (image_gone_frame _ _ _ _ _ _ _ HIb Hext' (proj2 Hi') Hgone) as [[Hs Ho'] Hnone].
    destruct Hgone as (HI' & Eh & _ & Et). split_and!.
    + assert (Eb : (busy ∪ {[h]}) ∖ {[h]} = busy) by set_solver. by rewrite Eb in HI'.
    + split; [by eapply rc_step_trans|].
      intros x ix Hx Hix. apply Ho'; [done|by apply Ho].
    + rewrite Eh. by apply released_count.
    + rewrite Et. cbn. f_equal. by eapply release_events_count.
  - intros E. rewrite E. apply Z.eqb_neq in E. split_and!; [apply HI1; [lia|done]|by split|done].
Qed.

Lemma wp_image_dec_ref_null w (Q : unit -> world -> Prop) : Q tt w -> wp (image_dec_ref NULL) Q w.
Proof. done. Qed.

(** The same for a client that only knows that a reference is there. *)
Lemma wp_image_unref busy ext h w :
  Inv busy ext w -> blocks_nonneg ext -> unbusy KImage busy w -> 0 < rc w (KImage, h) ->
  wp (image_dec_ref h)
     (fun _ w' => Inv busy (lose ext (KImage, h)) w' /\ rc_step [KImage; KBlock] w w' /\
        forall x, rc w' (KImage, x) = rc w (KImage, x) - (if decide (x = h) then 1 else 0)) w.
Proof.
  intros HI Hext Hb Hrc. destruct (rc_pos _ KImage _ ltac:(done) Hrc) as (o & Ho & Hk & Eo).
  destruct o as [|i| | | |]; try done. cbn [obj_rc] in Eo.
  pose proof (unbusy_free _ _ _ (OImage i) Hb Ho) as Hh.
  assert (Hi : has w h i).
  { split; [|done]. pose proof (inv_range _ _ _ HI _ _ Ho). unfold NULL. lia. }
  eapply wp_mono; [by apply (wp_image_dec_ref busy ext)|].
  intros [] w' (HI' & [Hs Hfr] & Hw'). split_and!; [done..|]. intros x.
  case_decide as Hx.
  - subst x. rewrite <- Eo. destruct (Z.eqb_spec (img_ref_count i) 1) as [E|E].
    + destruct Hw' as [Eh _]. rewrite rc_unfold, Eh by done. unfold released.
      rewrite lookup_delete_eq. lia.
    + rewrite Hw', rc_unfold by done. cbn. by rewrite lookup_insert_eq.
  - rewrite !rc_unfold by done. destruct Hs as [_ Hs].
    destruct (Hs x) as [->|(ox & Hox & Hkx & Hw)]; [lia|]. rewrite Hox.
    case_decide as Hk'; [|].
    + destruct ox as [|ix| | | |]; try done. rewrite (Hfr x ix) by done. rewrite decide_True by done. cbn. lia.
    + destruct Hw as [->|(o' & -> & Hsc)]; [lia|].
      rewrite decide_False; [lia|]. by rewrite (same_but_count_kind _ _ Hsc).
Qed.

(** * Creation *)

Lemma wp_handle_create {T : Type} `{!Context T} (w : world) (Q : Z -> world -> Prop) :
  0 < fresh w ->
  (forall t, Q NULL (w <| tick := t |>)) ->
  (forall t, Q (fresh w) (w <| tick := t |> <| heap := <[fresh w := to_obj (zeroed (T := T))]> (heap w) |>
                 <| fresh := fresh w + 1 |>)) ->
  wp (handle_create T) Q w.
Proof.
  intros _ HN HS. unfold wp, handle_create, mbind, M_bind, ask.
  destruct (calloc_ok (tick w)); [by apply HS|apply HN].
Qed.

Lemma wp_handle_create_ok {T : Type} `{!Context T} (w : world) (Q : Z -> world -> Prop) :
  calloc_ok (tick w) = true ->
  Q (fresh w) (w <| tick := S (tick w) |> <| heap := <[fresh w := to_obj (zeroed (T := T))]> (heap w) |>
                 <| fresh := fresh w + 1 |>) ->
  wp (handle_create T) Q w.
Proof. intros Hok HQ. unfold wp, handle_create, mbind, M_bind, ask. by rewrite Hok. Qed.

Lemma wp_ask {A} (f : nat -> A) w (Q : A -> world -> Prop) :
  Q (f (tick w)) (w <| tick := S (tick w) |>) -> wp (ask f) Q w.
Proof. done. Qed.

(** A context fresh from calloc, not yet initialised. *)
Lemma inv_created busy ext w t o :
  Inv busy ext w -> obj_refs o = [] -> obj_rc o = 0 -> obj_kind o <> KBlock ->
  Inv (busy ∪ {[fresh w]}) ext
    (w <| tick := t |> <| heap := <[fresh w := o]> (heap w) |> <| fresh := fresh w + 1 |>).
Proof.
  intros HI Hrefs Hrc Hk.
  assert (HI' : Inv (busy ∪ {[fresh w]}) ext (w <| tick := t |>)).
  { apply inv_tick. eapply inv_busy; [exact HI|set_solver]. }
  pose proof (inv_new _ _ ext _ o 1 HI') as Hnew. cbn in Hnew. apply Hnew; [lia| | | |].
  - rewrite Hrefs, Hrc. ledger.
  - intros []. set_solver.
  - intros []. set_solver.
  - intros b ->. by destruct Hk.
Qed.

Lemma wp_Lock_Init w (Q : LOCK_HANDLE -> world -> Prop) :
  (forall t l, l <> LockHeld -> Q l (w <| tick := t |>)) -> wp Lock_Init Q w.
Proof.
  intros HQ. unfold wp, Lock_Init, mbind, M_bind, ask.
  destruct (Lock_Init_ok (tick w)); by apply HQ.
Qed.

(** The context of an image over [size] bytes of the SDK's memory at
    [buffer]. *)
Definition empty_image (buffer size : Z) : image_context_t :=
  zeroed <| img_ref_count := 1 |> <| img_lock := LockFree |> <| img_buffer := buffer |>
    <| img_buffer_size := size |> <| img_memory_free_cb := image_default_free_function_cb |>.

(** How creating an image over the SDK's memory may end: an image [i] with one
    reference over a block of exactly its size; nothing; or, when the
    allocation itself fails, a context nobody can reach any more and a leak
    counter that is never taken back. *)
Definition create_post (busy : gset Z) (ext : ledger) (source size : Z)
    (i : Z -> image_context_t) (w : world) (r : zsa_result_t * option Z) (w' : world) : Prop :=
  match r with
  | (ZSA_RESULT_SUCCEEDED, out) =>
      exists h b ctx, out = Some h /\ has w' h (i (b + sizeof_allocation_context_t)) /\
        heap w !! h = None /\ heap w !! b = None /\
        heap w' = <[h := OImage (i (b + sizeof_allocation_context_t))]> (
          <[b := OBlock (mkBlock (size + sizeof_allocation_context_t)
            (Some (mkAllocationContext source (ag_free (current_allocator w)) ctx)) [])]> (heap w)) /\
        Inv busy (gain ext (KImage, h)) w'
  | (ZSA_RESULT_FAILED, out) =>
      out = Some NULL /\
      ((Inv busy ext w' /\ heap w' = heap w) \/
       exists h, heap w !! h = None /\
         heap w' = <[h := OImage (zeroed <| img_ref_count := -1 |>)]> (heap w) /\
         Inv (busy ∪ {[h]}) (gain (lose ext (KImage, h)) (KSource, source)) w')
  end.
(** From the context with its buffer, still unreferenced, on. *)
Lemma wp_finish_empty_image busy ext source size w0 w h b ctx :
  Inv (busy ∪ {[h]}) (gain ext (KBlock, b)) w -> blocks_nonneg ext -> h ∉ busy -> h <> NULL ->
  heap w0 !! h = None -> heap w0 !! b = None -> b <> h ->
  heap w = <[h := OImage (zeroed <| img_buffer := b + sizeof_allocation_context_t |>)]>
             (<[b := OBlock (mkBlock (size + sizeof_allocation_context_t)
               (Some (mkAllocationContext source (ag_free (current_allocator w0)) ctx)) [])]> (heap w0)) ->
  wp (result ← (update h (fun i => i <| img_ref_count := 1 |> <| img_buffer_size := size |>
                  <| img_memory_free_cb := image_default_free_function_cb |>
                  <| img_memory_free_cb_context := NULL |>);;
                l ← Lock_Init;
                update h (fun i => i <| img_lock := l |>);;
                mret (ZSA_RESULT_FROM_BOOL (bool_decide (l <> LockNull))));
      if ZSA_FAILED result then image_dec_ref h;; mret (result, Some NULL)
      else mret (result, Some h))
     (create_post busy ext source size (fun b => empty_image b size) w0) w.
Proof.
  intros HI Hext Hb Hn Hh0 Hb0 Hbh Eh.
  set (i0 := zeroed <| img_buffer := _ |>) in *.
  assert (Hh : has w h i0) by (split; [done|]; rewrite Eh; apply lookup_insert_eq).
  apply wp_bind, wp_bind. eapply wp_update; [exact Hh|].
  apply wp_bind, wp_Lock_Init. intros t l Hl.
  apply wp_bind. eapply wp_update; [split; [done|apply lookup_insert_eq]|].
  apply wp_ret. cbn -[image_dec_ref]. rewrite !fin_maps.insert_insert_eq.
  set (i := mkImage _ _ _ _ _ _ _ _ _ _ _ _ _ _ _ _). set (w1 := mkWorld _ _ _ _ _ _ _).
  assert (HI1 : Inv busy (gain ext (KImage, h)) w1).
  { eapply (inv_frame _ _ (w <| heap := <[h := OImage i]> (heap w) |>)); try done;
      [|intros g Hg; by eapply inv_allocator].
    eapply inv_store; [exact HI|apply Hh|done| |done| |set_solver|done].
    - cbn. rewrite Z.add_simpl_r. ledger.
    - intros _. exact Hl. }
  assert (Ew1 : heap w1 = <[h := OImage i]> (<[b := OBlock (mkBlock (size + sizeof_allocation_context_t)
              (Some (mkAllocationContext source (ag_free (current_allocator w0)) ctx)) [])]> (heap w0))).
  { cbn. by rewrite Eh, fin_maps.insert_insert_eq. }
  destruct (decide (l = LockNull)) as [->|Hln]; cbn -[image_dec_ref].
  - apply wp_bind. eapply wp_mono.
    { apply (wp_image_dec_ref _ _ h i w1 HI1); [|done|].
      - intros b'. specialize (Hext b'). ledger.
      - split; [done|]. rewrite Ew1. apply lookup_insert_eq. }
    intros _ w' (HI' & _ & Eh' & _). apply wp_ret. split; [done|]. left.
    split; [eapply inv_ext; [exact HI'|ledger]|].
    rewrite Eh', Ew1. unfold released. cbn. rewrite Z.add_simpl_r.
    rewrite (delete_insert_ne _ b h), !delete_insert_eq, (delete_id _ b), (delete_id _ h) by done.
    done.
  - assert (l = LockFree) as -> by (by destruct l). apply wp_ret. exists h, b, ctx. split_and!; try done.
    split; [done|]. rewrite Ew1. apply lookup_insert_eq.
Qed.

(** A context that never got its first reference is not released. *)
Lemma wp_unreferenced_dec_ref h i w :
  has w h i -> img_ref_count i = 0 ->
  wp (image_dec_ref h)
     (fun _ w' => w' = w <| heap := <[h := OImage (i <| img_ref_count := -1 |>)]> (heap w) |>) w.
Proof.
  intros Hh Hrc. eapply wp_if_handle_valid; [done|]. apply wp_bind. eapply wp_load; [done|].
  rewrite Hrc. apply wp_bind. eapply wp_update; [done|]. by apply wp_ret.
Qed.

Lemma wp_image_create_empty_image busy ext source size w :
  Inv busy ext w -> blocks_nonneg ext -> fresh w ∉ busy ->
  bad_source source = false -> 0 < size -> size + sizeof_allocation_context_t <= INT32_MAX ->
  wp (image_create_empty_image source size true)
     (create_post busy ext source size (fun b => empty_image b size) w) w.
Proof.
  intros HI Hext Hb Hsrc Hs0 Hs1. pose proof (inv_fresh _ _ _ HI) as Hf0.
  pose proof (inv_fresh_none _ _ _ HI) as Hnone. set (h := fresh w) in *.
  unfold image_create_empty_image. rewrite Hsrc, (proj2 (Z.eqb_neq size 0)) by lia. cbn [negb].
  apply wp_bind, wp_handle_create; [done| |]; intros t.
  { cbn. apply wp_bind, wp_ret. cbn. apply wp_bind, wp_ret. cbn.
    apply wp_bind, wp_image_dec_ref_null, wp_ret. split; [done|]. left. split; [|done].
    by apply inv_tick. }
  assert (Hn : h <> NULL) by (unfold NULL; lia).
  rewrite (proj2 (Z.eqb_neq (fresh w) NULL)) by done.
  set (w1 := _ <| fresh := _ |>).
  assert (HI1 : Inv (busy ∪ {[h]}) ext w1).
  { by apply (inv_created busy ext w t (OImage zeroed)). }
  apply wp_bind, wp_bind. eapply wp_mono; [by apply (wp_allocator_alloc _ _ _ _ _ HI1)|].
  intros p w2 [(-> & HI2 & Eh2 & _)|(-> & HI2 & _ & _ & ctx & Eh2)].
  - cbn. apply wp_bind. eapply wp_update.
    { split; [exact Hn|]. rewrite Eh2. apply lookup_insert_eq. }
    apply wp_ret. apply wp_bind, wp_ret. cbn -[image_dec_ref].
    apply wp_bind. eapply wp_mono; [eapply wp_unreferenced_dec_ref|].
    { split; [exact Hn|apply lookup_insert_eq]. }
    { done. }
    intros _ w3 ->. apply wp_ret. split; [done|]. right. exists h.
    split_and!; [done|cbn; rewrite Eh2; cbn; by rewrite !fin_maps.insert_insert_eq|].
    set (dead := zeroed <| img_ref_count := -1 |>).
    apply (inv_frame _ _ (w2 <| heap := <[h := OImage dead]> (heap w2) |>)); try done;
      [|cbn; by rewrite fin_maps.insert_insert_eq|intros g Hg; by eapply inv_allocator].
    eapply inv_store; [exact HI2|rewrite Eh2; apply lookup_insert_eq|done| | | |set_solver|done].
    + cbn. ledger.
    + set_solver.
    + set_solver.
  - rewrite (proj2 (Z.eqb_neq _ NULL)) by (unfold NULL, sizeof_allocation_context_t; cbn; lia).
    assert (Hh2 : heap w2 !! h = Some (OImage zeroed)).
    { rewrite Eh2, lookup_insert_ne by (cbn; lia). apply lookup_insert_eq. }
    apply wp_bind. eapply wp_update; [split; [exact Hn|exact Hh2]|].
    apply wp_ret. cbn -[image_dec_ref].
    eapply (wp_finish_empty_image busy ext source size w _ h (h + 1) ctx); try done; try (cbn; lia).
    + eapply inv_store; [exact HI2|exact Hh2|done| | | |set_solver|done].
      * cbn. ledger.
      * set_solver.
      * set_solver.
    + apply (inv_above _ _ _ _ HI); lia.
    + cbn. rewrite Eh2. cbn. rewrite (fin_maps.insert_insert_ne _ (h + 1) h) by lia.
      by rewrite fin_maps.insert_insert_eq.
Qed.
End refcount.

Section more_specs.
Context `{Platform}.

(** The context image_create_from_buffer makes. *)
Definition wrapped_image (format width height stride buffer size : Z) (cb : image_destroy_cb_t)
    (context : Z) : image_context_t :=
  mkImage 1 LockFree buffer size format width height stride 0 0 0 0 cb context 0 0.

Definition buffer_args_ok (format width height buffer size : Z) : Prop :=
  bad_format format = false /\ 0 < width <= 20000 /\ 0 < height <= 20000 /\
  buffer <> NULL /\ size <> 0.

(** The buffer stays the caller's when the creation fails; otherwise a block
    that the callback frees becomes the image's. *)
Lemma wp_image_wrap busy ext format width height stride buffer size cb context w :
  Inv busy ext w -> buffer_args_ok format width height buffer size ->
  wp (image_create_from_buffer format width height stride buffer size cb context true)
     (fun r w' => trace w' = trace w /\ fresh w <= fresh w' /\
        match r with
        | (ZSA_RESULT_SUCCEEDED, out) =>
            let i := wrapped_image format width height stride buffer size cb context in
            out = Some (fresh w) /\ heap w' = <[fresh w := OImage i]> (heap w) /\
            Inv busy (gain (if frees_block cb then lose ext (KBlock, buffer - sizeof_allocation_context_t) else ext)
              (KImage, fresh w)) w'
        | (ZSA_RESULT_FAILED, out) => out = Some NULL /\ heap w' = heap w /\ Inv busy ext w'
        end) w.
Proof.
  intros HI (Hf & Hw & Hh & Hb & Hs). pose proof (inv_fresh _ _ _ HI) as Hf0.
  pose proof (inv_fresh_none _ _ _ HI) as Hnone. set (h := fresh w) in *.
  unfold image_create_from_buffer. rewrite Hf. cbn [negb].
  rewrite (proj2 (Z.leb_gt width 0)), (proj2 (Z.leb_gt height 0)) by lia.
  rewrite !Z.gtb_ltb, (proj2 (Z.ltb_ge 20000 width)), (proj2 (Z.ltb_ge 20000 height)) by lia.
  cbn [orb]. rewrite (proj2 (Z.eqb_neq buffer NULL)), (proj2 (Z.eqb_neq size 0)) by done.
  apply wp_bind, wp_handle_create; [done| |]; intros t.
  { apply wp_ret. split_and!; [done|cbn; lia|done|done|by apply inv_tick]. }
  assert (Hn : h <> NULL) by (unfold NULL; lia).
  rewrite (proj2 (Z.eqb_neq (fresh w) NULL)) by done.
  pose proof (inv_created _ _ _ t (OImage zeroed) HI eq_refl eq_refl ltac:(done)) as HI1.
  set (w1 := _ <| fresh := _ |>) in *. fold h.
  apply wp_bind. eapply wp_update; [split; [exact Hn|apply lookup_insert_eq]|].
  apply wp_bind, wp_Lock_Init. intros t' l Hl.
  apply wp_bind. eapply wp_update; [split; [exact Hn|apply lookup_insert_eq]|].
  cbn -[handle_destroy update]. rewrite !fin_maps.insert_insert_eq. fold h.
  case_decide as Hd.
  - apply wp_bind. eapply wp_update; [split; [exact Hn|apply lookup_insert_eq]|].
    apply wp_bind. eapply wp_destroy; [split; [exact Hn|apply lookup_insert_eq]|].
    apply wp_ret. cbn. rewrite fin_maps.insert_insert_eq, delete_insert_id by done.
    split_and!; [done|cbn; lia|done|done|].
    apply (inv_frame _ _ (w1 <| heap := delete h (heap w1) |>)); try done.
    + eapply inv_delete; [exact HI1|apply lookup_insert_eq|set_solver|]. cbn. ledger.
    + cbn. by rewrite delete_insert_id.
    + intros g Hg. by eapply inv_allocator.
  - apply wp_ret. assert (l = LockFree) as -> by (by destruct l).
    split_and!; [done|cbn; lia|done|done|].
    set (i := mkImage _ _ _ _ _ _ _ _ _ _ _ _ _ _ _ _).
    apply (inv_frame _ _ (w1 <| heap := <[h := OImage i]> (heap w1) |>)); try done.
    + eapply inv_store; [exact HI1|apply lookup_insert_eq|done| |done|done|set_solver|done].
      unfold i. cbn. destruct (frees_block cb); ledger.
    + cbn. by rewrite fin_maps.insert_insert_eq.
    + intros g Hg. by eapply inv_allocator.
Qed.

Lemma wp_image_create_from_buffer busy ext format width height stride buffer size cb context w :
  Inv busy ext w -> buffer_args_ok format width height buffer size ->
  frees_block cb = false ->
  wp (image_create_from_buffer format width height stride buffer size cb context true)
     (fun r w' => trace w' = trace w /\ fresh w <= fresh w' /\
        match r with
        | (ZSA_RESULT_SUCCEEDED, out) =>
            let i := wrapped_image format width height stride buffer size cb context in
            out = Some (fresh w) /\ heap w' = <[fresh w := OImage i]> (heap w) /\
            Inv busy (gain ext (KImage, fresh w)) w'
        | (ZSA_RESULT_FAILED, out) => out = Some NULL /\ heap w' = heap w /\ Inv busy ext w'
        end) w.
Proof.
  intros HI Ha Hcb. pose proof (wp_image_wrap busy ext format width height stride buffer size cb context w HI Ha) as Hw.
  by rewrite Hcb in Hw.
Qed.

Lemma wp_inc_many n h i w :
  has w h i ->
  wp (times n (image_inc_ref h))
     (fun _ w' => w' = w <| heap :=
        <[h := OImage (i <| img_ref_count := img_ref_count i + Z.of_nat n |>)]> (heap w) |>) w.
Proof.
  revert i w. induction n as [|n IH]; intros i w Hh.
  - apply wp_ret. rewrite Z.add_0_r. destruct w, i, Hh as [_ Hh]. cbn in *. by rewrite insert_id.
  - apply wp_bind. eapply wp_if_handle_valid; [exact Hh|]. eapply wp_update; [exact Hh|].
    eapply wp_mono; [apply IH; split; [apply Hh|apply lookup_insert_eq]|].
    intros [] w' ->. cbn. rewrite fin_maps.insert_insert_eq. do 3 f_equal. cbn. f_equal. lia.
Qed.

(** As many image_dec_ref as there are references release it, once. *)
Lemma wp_dec_many n busy h : forall ext i w,
  Inv busy ext w -> blocks_nonneg ext -> h ∉ busy -> has w h i ->
  img_ref_count i = Z.of_nat (S n) ->
  wp (times (S n) (image_dec_ref h))
     (fun _ w' => heap w' = released h i (heap w) /\ trace w' = trace w ++ release_events i (heap w)) w.
Proof.
  induction n as [|n IH]; intros ext i w HI Hext Hb Hh Hrc; apply wp_bind;
    (eapply wp_mono; [by eapply wp_image_dec_ref|]); intros [] w1 (HI1 & _ & Hw1);
    rewrite Hrc in Hw1.
  - by apply wp_ret.
  - rewrite (proj2 (Z.eqb_neq _ 1)) in Hw1 by lia. rewrite Hw1 in *.
    eapply wp_mono; [eapply (IH _ _ _ HI1)|].
    + intros b. specialize (Hext b). ledger.
    + done.
    + split; [apply Hh|apply lookup_insert_eq].
    + cbn. lia.
    + intros [] w2 [-> ->]. cbn. split; [apply released_count|].
      f_equal. by apply release_events_count, Hh.
Qed.
End more_specs.

(** A process with one image, over a buffer of the application. *)
Definition sample_image_world : world :=
  final (image_create_from_buffer ZSA_IMAGE_FORMAT_COLOR_MJPG 1280 720 0 4096 1000 (image_cb_user 3) 9 true)
    init_world.

Lemma sample_image_inv :
  Inv ∅ (gain no_refs (KImage, 1)) sample_image_world /\
  has sample_image_world 1 (wrapped_image ZSA_IMAGE_FORMAT_COLOR_MJPG 1280 720 0 4096 1000 (image_cb_user 3) 9).
Proof.
  assert (Hargs : buffer_args_ok ZSA_IMAGE_FORMAT_COLOR_MJPG 1280 720 4096 1000).
  { split_and!; [reflexivity|lia|lia|lia|lia|discriminate|discriminate]. }
  destruct (wp_final _ _ _ (wp_image_create_from_buffer ∅ no_refs ZSA_IMAGE_FORMAT_COLOR_MJPG 1280 720 0
    4096 1000 (image_cb_user 3) 9 init_world inv_init Hargs ltac:(done)))
    as ([r out] & E & _ & _ & Hout). fold sample_image_world in *.
  assert (r = ZSA_RESULT_SUCCEEDED) as -> by (vm_compute in E; congruence).
  destruct Hout as (_ & Eh & HI). split; [exact HI|]. split; [done|]. rewrite Eh. apply lookup_insert_eq.
Qed.

(** * Properties *)

(** Bytes a line of [width] pixels needs, by format; 0 where the code does not
    check the stride. *)
Definition bytes_per_pixel (format : Z) : Z :=
  if (format =? ZSA_IMAGE_FORMAT_COLOR_NV12) || (format =? ZSA_IMAGE_FORMAT_CUSTOM8) then 1
  else if format =? ZSA_IMAGE_FORMAT_COLOR_BGRA32 then 4
  else if format =? ZSA_IMAGE_FORMAT_CUSTOM then 0
  else 2.

(** What the buffer has to hold, over the integers. *)
Definition exact_buffer_size (format height stride : Z) : Z :=
  if format =? ZSA_IMAGE_FORMAT_COLOR_NV12 then 3 * (height * stride) / 2 else height * stride.

Definition created_image (format width_pixels height_pixels stride_bytes size buffer : Z) : image_context_t :=
  (empty_image buffer size) <| img_format := format |> <| img_width_pixels := width_pixels |>
    <| img_height_pixels := height_pixels |> <| img_stride_bytes := stride_bytes |>.

Lemma format_cases format :
  bad_format format = false ->
  format = 0 \/ format = 1 \/ format = 2 \/ format = 3 \/ format = 4 \/ format = 5 \/
  format = 6 \/ format = 7 \/ format = 8.
Proof.
  unfold bad_format, ZSA_IMAGE_FORMAT_COLOR_MJPG, ZSA_IMAGE_FORMAT_CUSTOM.
  rewrite orb_false_iff, Z.ltb_ge, Z.gtb_ltb, Z.ltb_ge. lia.
Qed.

(** C25: for every format but CUSTOM, when image_create accepts the geometry
    the lines fit the stride and the size it computes in 64-bit arithmetic is
    the exact one; no wrap-around happens and the size is not 0. *)
Theorem image_buffer_size_exact (format width height stride size : Z)
  (Hf : bad_format format = false) (Hc : format <> ZSA_IMAGE_FORMAT_CUSTOM)
  (Hw : 0 < width < 20000) (Hh : 0 < height < 20000) (Hs : - 2 ^ 31 <= stride < 2 ^ 31)
  (Hsize : image_buffer_size format width height stride = Some size) :
  size = exact_buffer_size format height stride /\
  bytes_per_pixel format * width <= stride /\ 0 < size.
Proof.
  assert (Hmax : 0 < stride -> 0 < height * stride < 20000 * 2 ^ 31) by nia.
  assert (Hlines : 0 < stride -> u64 (u64 height * u64 stride) = height * stride).
  { intros Hs'. specialize (Hmax Hs'). rewrite (u64_id height), (u64_id stride), u64_id; lia. }
  assert (Hnv : 0 < stride -> u64 (u64 (3 * u64 height) * u64 stride) / 2 = 3 * (height * stride) / 2).
  { intros Hs'. specialize (Hmax Hs').
    rewrite (u64_id height), (u64_id stride), (u64_id (3 * height)), <- Z.mul_assoc, u64_id by lia. done. }
  unfold ZSA_IMAGE_FORMAT_CUSTOM in Hc.
  destruct (format_cases _ Hf) as [-> | [-> | [-> | [-> | [-> | [-> | [-> | [-> | ->]]]]]]]]; try done;
    revert Hsize; unfold image_buffer_size, exact_buffer_size, bytes_per_pixel; simpl;
    repeat (case_match; [done|]); try done; intros [= <-];
    repeat match goal with H : (_ <? _) = false |- _ => apply Z.ltb_ge in H end.
  1: { rewrite Hnv by lia. split_and!; [done|lia|]. apply Z.div_str_pos. nia. }
  all: rewrite Hlines by lia; split_and!; [done|lia|nia].
Qed.

Lemma image_buffer_size_exact_witness :
  image_buffer_size ZSA_IMAGE_FORMAT_COLOR_NV12 640 480 640 = Some 460800 /\
  460800 = exact_buffer_size ZSA_IMAGE_FORMAT_COLOR_NV12 480 640 /\
  bytes_per_pixel ZSA_IMAGE_FORMAT_COLOR_NV12 * 640 <= 640 /\ 0 < 460800.
Proof.
  assert (E : image_buffer_size ZSA_IMAGE_FORMAT_COLOR_NV12 640 480 640 = Some 460800)
    by (vm_compute; reflexivity).
  split; [exact E|].
  exact (image_buffer_size_exact ZSA_IMAGE_FORMAT_COLOR_NV12 640 480 640 460800
    ltac:(reflexivity) ltac:(discriminate) ltac:(lia) ltac:(lia) ltac:(lia) E).
Defined.

Section properties.
Context `{Platform}.

(** C24: image_create with a geometry whose buffer fits: one new image with one
    reference, the geometry asked for and exclusive ownership of a block of
    exactly its size, or a failure; and which failure leaves what behind. *)
Theorem image_create_spec (busy : gset Z) (ext : ledger) (format width height stride source size : Z) (w : world)
  (HI : Inv busy ext w) (Hext : blocks_nonneg ext) (Hb : fresh w ∉ busy)
  (Hf : bad_format format = false) (Hw : 0 < width < 20000) (Hh : 0 < height < 20000)
  (Hsrc : bad_source source = false)
  (Hsize : image_buffer_size format width height stride = Some size)
  (Hfit : 0 < size <= INT32_MAX - sizeof_allocation_context_t) :
  wp (image_create format width height stride source true)
     (create_post busy ext source size (created_image format width height stride size) w) w.
Proof.
  unfold image_create. rewrite Hf, Hsize. cbn [negb].
  rewrite (proj2 (Z.gtb_lt width 0)), (proj2 (Z.gtb_lt height 0)) by lia.
  rewrite (proj2 (Z.ltb_lt width 20000)), (proj2 (Z.ltb_lt height 20000)) by lia. cbn [andb negb].
  apply wp_bind. eapply wp_mono; [apply (wp_image_create_empty_image busy ext); auto; lia|].
  intros [[] out] w1.
  - intros (h & b & ctx & -> & Hi & Hh0 & Hb0 & Eh & HI1). cbn -[handle_get_context].
    apply wp_bind. eapply wp_get_context; [exact Hi|].
    apply wp_bind. eapply wp_update; [exact Hi|]. apply wp_ret.
    exists h, b, ctx. destruct Hi as [Hn Hi]. split_and!; try done.
    + split; [done|]. cbn. by rewrite lookup_insert_eq.
    + cbn. by rewrite Eh, fin_maps.insert_insert_eq.
    + eapply inv_store; [exact HI1|exact Hi|done| |done|done|set_solver|done]. cbn. ledger.
  - intros [-> Hpost]. cbn. apply wp_bind, wp_ret, wp_ret. by split.
Qed.
End properties.

Lemma image_create_spec_witness :
  exists h w',
    image_create ZSA_IMAGE_FORMAT_DEPTH16 640 576 1280 ALLOCATION_SOURCE_USER true init_world =
      Done (ZSA_RESULT_SUCCEEDED, Some h) w' /\
    Inv ∅ (gain no_refs (KImage, h)) w'.
Proof.
  pose proof (image_create_spec ∅ no_refs ZSA_IMAGE_FORMAT_DEPTH16 640 576 1280
    ALLOCATION_SOURCE_USER 737280 init_world inv_init ltac:(by intros b) ltac:(set_solver)
    ltac:(done) ltac:(lia) ltac:(lia) ltac:(done) ltac:(vm_compute; reflexivity)
    ltac:(unfold INT32_MAX, sizeof_allocation_context_t; lia)) as Hw.
  apply wp_run in Hw as ([r out] & w' & E & Hpost).
  assert (r = ZSA_RESULT_SUCCEEDED) as -> by (vm_compute in E; congruence).
  destruct Hpost as (h & b & ctx & -> & _ & _ & _ & _ & HI').
  exists h, w'. by split.
Defined.

Section lifetime.
Context `{Platform}.

(** C6: an image over a buffer of the application, taken [n] further
    references to and dropped [n + 1] times, gives the buffer back exactly
    once, with the context it was registered with, and leaves no trace in the
    heap; when the creation fails the buffer is not touched. *)
Theorem image_lifetime (busy : gset Z) (ext : ledger)
  (format width height stride buffer size id context : Z) (n : nat) (w : world)
  (HI : Inv busy ext w) (Hext : blocks_nonneg ext) (Hb : fresh w ∉ busy)
  (Hargs : buffer_args_ok format width height buffer size) :
  wp ('(result, out) ← image_create_from_buffer format width height stride buffer size
                         (image_cb_user id) context true;
      let h := default NULL out in
      when (ZSA_SUCCEEDED result) (times n (image_inc_ref h);; times (S n) (image_dec_ref h));;
      mret result)
     (fun result w' => heap w' = heap w /\
        trace w' = trace w ++ (if ZSA_SUCCEEDED result then [EImageCb id buffer context] else [])) w.
Proof.
  apply wp_bind. eapply wp_mono; [by apply (wp_image_create_from_buffer busy ext)|].
  intros [[] out] w1 (Et & Ef & Hout).
  - destruct Hout as (-> & Eh & HI1). cbn [ZSA_SUCCEEDED when default].
    set (h := fresh w) in *. set (i := wrapped_image _ _ _ _ _ _ _ _) in *.
    pose proof (inv_fresh _ _ _ HI) as Hf0.
    assert (Hi : has w1 h i) by (split; [unfold NULL; lia|rewrite Eh; apply lookup_insert_eq]).
    assert (HI1' : Inv (busy ∪ {[h]}) (gain ext (KImage, h)) w1) by (eapply inv_busy; [done|set_solver]).
    apply wp_bind, wp_bind. eapply wp_mono; [by apply (wp_inc_many n h i)|]. intros [] w2 ->.
    set (i' := i <| img_ref_count := _ |>).
    eapply wp_mono; [eapply (wp_dec_many n busy h (fun r => gain ext (KImage, h) r +
                       if decide (r = (KImage, h)) then Z.of_nat n else 0) i')|].
    + eapply inv_store; [exact HI1|apply Hi|done| | | |set_solver|done].
      * intros r. cbn. ledger.
      * intros _ _. cbn. lia.
      * done.
    + intros b. specialize (Hext b). ledger.
    + done.
    + split; [apply Hi|apply lookup_insert_eq].
    + cbn. lia.
    + intros [] w3 [E3 T3]. apply wp_ret. rewrite E3, T3. cbn. rewrite Eh, Et. split; [|done].
      rewrite fin_maps.insert_insert_eq. unfold released. cbn.
      apply delete_insert_id. by eapply inv_fresh_none.
  - destruct Hout as (-> & Eh & HI1). apply wp_bind, wp_ret, wp_ret. cbn.
    by rewrite Eh, Et, app_nil_r.
Qed.

(** Image_create accepts a CUSTOM image with stride -1: the size it
    computes is [2^64 - height], the size of the header is added to it modulo
    [2^64], and the header is written past the end of the [32 - height] bytes
    that were allocated. *)
Theorem image_create_custom_overflow (width height source : Z) (w : world)
  (Hw : 0 < width < 20000) (Hh : 0 < height < 32) (Hsrc : bad_source source = false)
  (Hf : 0 < fresh w) (Hg : current_allocator w = allocator_global_init)
  (Hok : forall n, calloc_ok n = true) :
  image_create ZSA_IMAGE_FORMAT_CUSTOM width height (-1) source true w = Fault OutOfBounds.
Proof.
  assert (Hsize : u64 (u64 height * u64 (-1)) = 2 ^ 64 - height).
  { rewrite (u64_id height) by lia. unfold u64.
    rewrite Z.mul_mod_idemp_r by lia. symmetry. apply (Z.mod_unique _ _ (-1)); lia. }
  assert (Hreq : u64 (2 ^ 64 - height + sizeof_allocation_context_t) = 32 - height).
  { unfold u64, sizeof_allocation_context_t. symmetry. apply (Z.mod_unique _ _ 1); lia. }
  unfold image_create, image_buffer_size. cbn -[image_create_empty_image u64].
  rewrite (proj2 (Z.gtb_lt width 0)), (proj2 (Z.gtb_lt height 0)) by lia.
  rewrite (proj2 (Z.ltb_lt width 20000)), (proj2 (Z.ltb_lt height 20000)) by lia.
  cbn [andb negb]. rewrite Hsize. apply bind_fault.
  unfold image_create_empty_image. rewrite Hsrc, (proj2 (Z.eqb_neq (2 ^ 64 - height) 0)) by lia.
  cbn [negb]. erewrite bind_done; [|unfold handle_create, mbind, M_bind, ask; by rewrite Hok].
  unfold update_field; cbn [fresh]. rewrite (proj2 (Z.eqb_neq (fresh w) NULL)) by (unfold NULL; lia).
  apply bind_fault, bind_fault, allocator_alloc_wrap;
    [done|lia|rewrite Hreq; unfold sizeof_allocation_context_t; lia|done|done|unfold NULL; cbn; lia].
Qed.
End lifetime.

Lemma image_create_custom_overflow_witness :
  image_create ZSA_IMAGE_FORMAT_CUSTOM 16 16 (-1) ALLOCATION_SOURCE_USER true init_world = Fault OutOfBounds.
Proof.
  exact (image_create_custom_overflow 16 16 ALLOCATION_SOURCE_USER init_world ltac:(lia) ltac:(lia)
    ltac:(reflexivity) ltac:(reflexivity) ltac:(reflexivity) ltac:(reflexivity)).
Defined.

Lemma image_lifetime_witness :
  exists w',
    ('(result, out) ← image_create_from_buffer ZSA_IMAGE_FORMAT_COLOR_MJPG 1280 720 0 4096 1000
                        (image_cb_user 3) 9 true;
     let h := default NULL out in
     when (ZSA_SUCCEEDED result) (times 2 (image_inc_ref h);; times 3 (image_dec_ref h));;
     mret result) init_world = Done ZSA_RESULT_SUCCEEDED w' /\
    heap w' = ∅ /\ trace w' = [EImageCb 3 4096 9].
Proof.
  assert (Hargs : buffer_args_ok ZSA_IMAGE_FORMAT_COLOR_MJPG 1280 720 4096 1000).
  { split_and!; [reflexivity|lia|lia|lia|lia|discriminate|discriminate]. }
  pose proof (image_lifetime ∅ no_refs ZSA_IMAGE_FORMAT_COLOR_MJPG 1280 720 0 4096 1000 3 9 2 init_world
    inv_init ltac:(by intros b) ltac:(set_solver) Hargs) as Hw.
  apply wp_run in Hw as (r & w' & E & Eh & Et).
  assert (r = ZSA_RESULT_SUCCEEDED) as -> by (vm_compute in E; congruence).
  exists w'. split; [exact E|]. by split.
Defined.
