(* ===== verification/Capture.v ===== *)
(** The capture half of src/allocator/allocator.c: a capture is a counted set
    of three image slots behind a readers-writer lock, and a temperature. *)

From S2P Require Export Image.

(** * Operations *)

Section operations.
Context `{Platform}.

Abbreviation capture_valid v h rest := (if_handle_valid capture_context_t v h rest) (only parsing).

(** [rwlock_acquire_write(&capture->lock)] and its kin. *)
Definition capture_lock (acquire : zsa_rwlock_t -> option zsa_rwlock_t) (h : Z) : Mw unit :=
  c ← load capture_context_t h;
  l ← need SelfDeadlock (acquire (cap_lock c));
  update h (fun c => c <| cap_lock := l |>).

Definition capture_unlock (h : Z) : Mw unit :=
  update h (fun c => c <| cap_lock := rwlock_release (cap_lock c) |>).

(** [capture->image[x]] for x up to IMAGE_TYPE_COUNT. *)
Definition image_slots : list (capture_context_t -> Z) := [cap_color; cap_depth; cap_ir].

Definition capture_dec_ref (capture_handle : Z) : Mw unit :=
  capture_valid tt capture_handle (
    c ← load capture_context_t capture_handle;
    let new_count := cap_ref_count c - 1 in
    update capture_handle (fun c => c <| cap_ref_count := new_count |>);;
    when (new_count =? 0) (
      capture_lock rwlock_acquire_write capture_handle;;
      for_each image_slots (fun slot =>
        c ← load capture_context_t capture_handle;
        when (negb (slot c =? NULL)) (image_dec_ref (slot c)));;
      capture_unlock capture_handle;;
      update capture_handle (fun c => c <| cap_lock := rwlock_deinit (cap_lock c) |>);;
      handle_destroy capture_context_t capture_handle)).

Definition capture_inc_ref (capture_handle : Z) : Mw unit :=
  capture_valid tt capture_handle (
    update capture_handle (fun c => c <| cap_ref_count := cap_ref_count c + 1 |>)).

Definition capture_create (capture_handle : bool) : Mw (zsa_result_t * option Z) :=
  if negb capture_handle then mret (ZSA_RESULT_FAILED, None)
  else
    h ← handle_create capture_context_t;
    if h =? NULL then mret (ZSA_RESULT_FAILED, Some NULL)
    else
      update h (fun c => c <| cap_ref_count := 1 |> <| cap_temperature_c := S754_nan |>
        <| cap_lock := rwlock_init (cap_lock c) |>);;
      mret (ZSA_RESULT_SUCCEEDED, Some h).

(** The getters take their reference under the read lock, and read the slot
    once more for the return statement after it is released. *)
Definition capture_get_image_locked (slot : capture_context_t -> Z) (h : Z) : Mw unit :=
  capture_lock rwlock_acquire_read h;;
  c ← load capture_context_t h;
  when (negb (slot c =? NULL)) (image_inc_ref (slot c));;
  capture_unlock h.

Definition capture_get_image_return (slot : capture_context_t -> Z) (h : Z) : Mw Z :=
  c ← load capture_context_t h;
  mret (slot c).

Definition capture_get_image (slot : capture_context_t -> Z) (capture_handle : Z) : Mw Z :=
  capture_valid NULL capture_handle (
    capture_get_image_locked slot capture_handle;;
    capture_get_image_return slot capture_handle).

Definition capture_get_color_image : Z -> Mw Z := capture_get_image cap_color.
Definition capture_get_depth_image : Z -> Mw Z := capture_get_image cap_depth.
Definition capture_get_ir_image : Z -> Mw Z := capture_get_image cap_ir.
Definition capture_get_imu_image : Z -> Mw Z := capture_get_ir_image.

Definition capture_set_image (slot : capture_context_t -> Z) `{!FieldUpdate slot}
    (capture_handle image_handle : Z) : Mw unit :=
  capture_valid tt capture_handle (
    capture_lock rwlock_acquire_write capture_handle;;
    c ← load capture_context_t capture_handle;
    when (negb (slot c =? NULL)) (image_dec_ref (slot c));;
    update capture_handle (update_field slot image_handle);;
    when (negb (image_handle =? NULL)) (image_inc_ref image_handle);;
    capture_unlock capture_handle).

Definition capture_set_color_image : Z -> Z -> Mw unit := capture_set_image cap_color.
Definition capture_set_depth_image : Z -> Z -> Mw unit := capture_set_image cap_depth.
Definition capture_set_ir_image : Z -> Z -> Mw unit := capture_set_image cap_ir.
Definition capture_set_imu_image : Z -> Z -> Mw unit := capture_set_ir_image.

Definition isnan (x : spec_float) : bool := match x with S754_nan => true | _ => false end.

Definition capture_set_temperature_c (capture_handle : Z) (temperature_c : spec_float) : Mw unit :=
  capture_valid tt capture_handle (
    if isnan temperature_c then mret tt
    else update capture_handle (fun c => c <| cap_temperature_c := temperature_c |>)).

Definition capture_get_temperature_c (capture_handle : Z) : Mw spec_float :=
  capture_valid S754_nan capture_handle (
    c ← load capture_context_t capture_handle;
    mret (cap_temperature_c c)).
End operations.

(** * Specifications *)

Section specs.
Context `{Platform}.

Lemma wp_capture_lock acquire h c l w (Q : unit -> world -> Prop) :
  has w h c -> acquire (cap_lock c) = Some l ->
  Q tt (w <| heap := <[h := OCapture (c <| cap_lock := l |>)]> (heap w) |>) ->
  wp (capture_lock acquire h) Q w.
Proof.
  intros Hh Hl HQ. apply wp_bind. eapply wp_load; [done|]. rewrite Hl.
  apply wp_bind, wp_ret. eapply wp_update; done.
Qed.

Lemma wp_capture_unlock h c w (Q : unit -> world -> Prop) :
  has w h c ->
  Q tt (w <| heap := <[h := OCapture (c <| cap_lock := rwlock_release (cap_lock c) |>)]> (heap w) |>) ->
  wp (capture_unlock h) Q w.
Proof. intros Hh HQ. eapply wp_update; done. Qed.

Definition slot_refs (c : capture_context_t) (sl : list (capture_context_t -> Z)) : list ref :=
  flat_map (fun slot => nonnull KImage (slot c)) sl.

(** The loop of capture_dec_ref over the slots. *)
Lemma wp_release_slots busy h c sl : forall ext w,
  Inv busy ext w -> blocks_nonneg ext -> unbusy KImage busy w -> has w h c ->
  (forall x, count_ref (KImage, x) (slot_refs c sl) <= rc w (KImage, x)) ->
  wp (for_each sl (fun slot =>
        c ← load capture_context_t h;
        when (negb (slot c =? NULL)) (image_dec_ref (slot c))))
     (fun _ w' => Inv busy (lose_all ext (slot_refs c sl)) w' /\ rc_step [KImage; KBlock] w w') w.
Proof.
  induction sl as [|slot sl IH]; intros ext w HI Hext Hb Hh Hrc.
  { apply wp_ret. split; [|apply rc_step_refl]. eapply inv_ext; [exact HI|].
    intros r. unfold lose_all. cbn. rewrite count_ref_nil. lia. }
  change (slot_refs c (slot :: sl)) with (nonnull KImage (slot c) ++ slot_refs c sl) in *.
  apply wp_bind, wp_bind. eapply wp_load; [done|].
  destruct (Z.eqb_spec (slot c) NULL) as [E|E]; cbn [negb when].
  { rewrite E in *. apply wp_ret. by apply (IH _ _ HI). }
  rewrite nonnull_live in * by done.
  eapply wp_mono; [apply (wp_image_unref busy ext); [done..|]|].
  { specialize (Hrc (slot c)). rewrite count_ref_app, count_ref_cons, decide_True, count_ref_nil in Hrc by done.
    pose proof (count_ref_nonneg (KImage, slot c) (slot_refs c sl)). lia. }
  intros [] w1 (HI1 & Hs1 & Hrc1).
  eapply wp_mono; [apply (IH _ _ HI1)|].
  - intros b. specialize (Hext b). ledger.
  - by eapply unbusy_step.
  - destruct Hh as [Hn Hh]. split; [done|]. eapply rc_step_other; [done..|]. set_solver.
  - intros x. rewrite Hrc1. specialize (Hrc x).
    rewrite count_ref_app, count_ref_cons, count_ref_nil in Hrc.
    repeat case_decide; simplify_eq; try congruence; lia.
  - intros [] w2 [HI2 Hs2]. split; [|by eapply rc_step_trans].
    eapply inv_ext; [exact HI2|]. intros r. unfold lose_all. rewrite count_ref_app. ledger.
Qed.

(** What reference counting of captures may touch. *)
Definition capture_frame (h : Z) (w w' : world) : Prop :=
  rc_step [KCapture; KImage; KBlock] w w' /\
  forall x c, x <> h -> heap w !! x = Some (OCapture c) -> heap w' !! x = Some (OCapture c).

Lemma capture_frame_images h w w' : rc_step [KImage; KBlock] w w' -> capture_frame h w w'.
Proof.
  intros Hs. split; [eapply rc_step_weaken; [exact Hs|set_solver]|].
  intros x c _ Hx. eapply rc_step_other; [exact Hs|exact Hx|set_solver].
Qed.

Lemma wp_capture_inc_ref busy ext h c w (Q : unit -> world -> Prop) :
  Inv busy ext w -> has w h c ->
  (forall w', w' = w <| heap := <[h := OCapture (c <| cap_ref_count := cap_ref_count c + 1 |>)]> (heap w) |> ->
     Inv busy (gain ext (KCapture, h)) w' -> Q tt w') ->
  wp (capture_inc_ref h) Q w.
Proof.
  intros HI Hh HQ. eapply wp_if_handle_valid; [done|]. eapply wp_update; [done|].
  apply HQ; [done|]. destruct Hh as [_ Hh].
  eapply inv_store; [done|exact Hh|done| | | |done|done].
  - destruct c; cbn. ledger.
  - intros Hb _. cbn. pose proof (inv_pos _ _ _ HI _ _ Hh Hb eq_refl). cbn in *. lia.
  - intros Hb. apply (inv_idle _ _ _ HI _ _ Hh Hb).
Qed.

(** What a capture may own is not owed by the outside. *)
Definition parts_nonneg (ext : ledger) : Prop := forall k x, k = KImage \/ k = KBlock -> 0 <= ext (k, x).

Lemma nonneg_parts ext : nonneg ext -> parts_nonneg ext.
Proof. intros He k x Hk. apply He. by destruct Hk as [->| ->]. Qed.

Lemma parts_blocks ext : parts_nonneg ext -> blocks_nonneg ext.
Proof. intros He b. apply He. auto. Qed.

Lemma parts_lose ext h : parts_nonneg ext -> parts_nonneg (lose ext (KCapture, h)).
Proof. intros He k x Hk. specialize (He k x Hk). unfold lose. case_decide; [naive_solver|done]. Qed.

(** Dropping the last reference: the slots are released and the context goes. *)
Lemma wp_capture_release busy ext h c w :
  Inv busy ext w -> parts_nonneg ext -> unbusy KImage busy w -> h ∈ busy ->
  has w h c -> cap_lock c = RwIdle -> cap_ref_count c = 0 ->
  wp (capture_lock rwlock_acquire_write h;;
      for_each image_slots (fun slot =>
        c ← load capture_context_t h;
        when (negb (slot c =? NULL)) (image_dec_ref (slot c)));;
      capture_unlock h;;
      update h (fun c => c <| cap_lock := rwlock_deinit (cap_lock c) |>);;
      handle_destroy capture_context_t h)
     (fun _ w' => Inv (busy ∖ {[h]}) ext w' /\ capture_frame h w w' /\ heap w' !! h = None) w.
Proof.
  intros HI Hext Hbi Hb Hh Hl Hrc. pose proof Hh as [Hn Hh'].
  apply wp_bind. eapply wp_capture_lock; [done|by rewrite Hl|].
  set (c1 := c <| cap_lock := RwWriter |>). set (w1 := w <| heap := _ |>).
  assert (HI1 : Inv busy ext w1) by (by eapply inv_touch).
  assert (Hh1 : has w1 h c1) by (split; [done|apply lookup_insert_eq]).
  apply wp_bind. eapply wp_mono.
  { apply (wp_release_slots busy h c1 image_slots ext w1 HI1); [by apply parts_blocks| |done|].
    - by eapply unbusy_store.
    - intros x. etrans; [|eapply (inv_covers _ _ _ h (OCapture c1)); [exact HI1|by apply Hext; left|apply Hh1]].
      cbn. rewrite app_nil_r. lia. }
  intros [] w2 [HI2 Hs2].
  assert (Hh2 : has w2 h c1) by (split; [done|]; eapply rc_step_other; [done|apply Hh1|set_solver]).
  apply wp_bind. eapply wp_capture_unlock; [exact Hh2|].
  apply wp_bind. eapply wp_update; [split; [done|apply lookup_insert_eq]|].
  eapply wp_destroy; [split; [done|apply lookup_insert_eq]|].
  cbn. rewrite fin_maps.insert_insert_eq, delete_insert_eq. split_and!.
  - change (Inv (busy ∖ {[h]}) ext (w2 <| heap := delete h (heap w2) |>)).
    eapply inv_delete; [exact HI2|apply Hh2|set_solver|].
    intros r. unfold lose_all. cbn. rewrite !app_nil_r, Hrc. case_decide; lia.
  - split; [split; [apply Hs2|]|].
    + intros x. unfold obj_step. cbn. destruct (decide (x = h)) as [->|Hx].
      { right. exists (OCapture c). rewrite lookup_delete_eq. split_and!; [done|set_solver|by left]. }
      rewrite lookup_delete_ne by done. destruct Hs2 as [_ Hs2]. specialize (Hs2 x). unfold obj_step in Hs2. cbn in Hs2.
      rewrite lookup_insert_ne in Hs2 by done.
      destruct Hs2 as [E|(o & Ho & Hk & Hr)]; [by left|right]. exists o. split_and!; [done|set_solver|done].
    + intros x cx Hx Hcx. cbn. rewrite lookup_delete_ne by done.
      eapply rc_step_other; [exact Hs2| |set_solver]. cbn. by rewrite lookup_insert_ne.
  - cbn. by rewrite lookup_delete_eq.
Qed.

Lemma wp_capture_dec_ref busy ext h c w :
  Inv busy ext w -> parts_nonneg ext -> unbusy KImage busy w -> h ∉ busy -> has w h c ->
  wp (capture_dec_ref h)
     (fun _ w' => Inv busy (lose ext (KCapture, h)) w' /\ capture_frame h w w' /\
        if cap_ref_count c =? 1 then heap w' !! h = None
        else w' = w <| heap :=
           <[h := OCapture (c <| cap_ref_count := cap_ref_count c - 1 |>)]> (heap w) |>) w.
Proof.
  intros HI Hext Hbi Hb Hh. pose proof Hh as [Hn Hh'].
  pose proof (inv_pos _ _ _ HI _ _ Hh' Hb eq_refl) as Hpos. cbn in Hpos.
  pose proof (inv_idle _ _ _ HI _ _ Hh' Hb) as Hl. cbn in Hl.
  eapply wp_if_handle_valid; [done|]. apply wp_bind. eapply wp_load; [done|].
  apply wp_bind. eapply wp_update; [done|].
  set (c' := c <| cap_ref_count := _ |>). set (w1 := w <| heap := _ |>).
  assert (Hc' : has w1 h c') by (split; [done|apply lookup_insert_eq]).
  assert (Hf : capture_frame h w w1).
  { split; [eapply rc_step_store; [done|done|set_solver]|].
    intros x cx Hx Hcx. cbn. by rewrite lookup_insert_ne. }
  assert (HI1 : forall busy', (h ∉ busy' -> cap_ref_count c <> 1) -> busy ⊆ busy' ->
            Inv busy' (lose ext (KCapture, h)) w1).
  { intros busy' Hb' Hsub. eapply inv_store; [exact HI|exact Hh'|done| | | |set_solver|done].
    - destruct c. cbn. ledger.
    - intros Hx _. specialize (Hb' Hx). cbn. lia.
    - done. }
  replace (cap_ref_count c =? 1) with (cap_ref_count c - 1 =? 0)
    by (destruct (Z.eqb_spec (cap_ref_count c) 1), (Z.eqb_spec (cap_ref_count c - 1) 0); lia).
  apply wp_when.
  - intros E. rewrite E. apply Z.eqb_eq in E.
    eapply wp_mono; [apply (wp_capture_release (busy ∪ {[h]}) (lose ext (KCapture, h)) h c' w1)|].
    + apply HI1; set_solver.
    + by apply parts_lose.
    + eapply unbusy_add; [by eapply unbusy_store|apply Hc'|done].
    + set_solver.
    + done.
    + done.
    + exact E.
    + intros [] w' (HI' & [Hs Ho] & Hnone). split_and!; [|split|done].
      * assert (Eb : (busy ∪ {[h]}) ∖ {[h]} = busy) by set_solver. by rewrite Eb in HI'.
      * eapply rc_step_trans; [apply Hf|exact Hs].
      * intros x cx Hx Hcx. apply Ho; [done|]. by apply Hf.
  - intros E. rewrite E. apply Z.eqb_neq in E. split_and!; [apply HI1; [lia|done]|done|done].
Qed.

Lemma rc_same_but ks w w' k x :
  rc_step ks w w' -> k <> KSource ->
  (forall o, heap w !! x = Some o -> obj_kind o = k -> heap w' !! x = Some o) -> rc w' (k, x) = rc w (k, x).
Proof.
  intros [_ Hs] Hk Ho. rewrite !rc_unfold by done.
  destruct (Hs x) as [->|(o & Hox & _ & Hr)]; [done|]. rewrite Hox.
  destruct (decide (obj_kind o = k)) as [E|E].
  - rewrite (Ho o Hox E). by rewrite decide_True.
  - destruct Hr as [->|(o' & -> & Hsc)]; [done|].
    by rewrite decide_False by (by rewrite (same_but_count_kind _ _ Hsc)).
Qed.

(** For a client that only knows that a reference is there. *)
Lemma wp_capture_unref busy ext h w :
  Inv busy ext w -> parts_nonneg ext -> unbusy KImage busy w -> unbusy KCapture busy w ->
  0 < rc w (KCapture, h) ->
  wp (capture_dec_ref h)
     (fun _ w' => Inv busy (lose ext (KCapture, h)) w' /\ capture_frame h w w' /\
        forall x, rc w' (KCapture, x) = rc w (KCapture, x) - (if decide (x = h) then 1 else 0)) w.
Proof.
  intros HI Hext Hbi Hbc Hrc. destruct (rc_pos _ KCapture _ ltac:(done) Hrc) as (o & Ho & Hk & Eo).
  destruct o as [| |c| | |]; try done. cbn [obj_rc] in Eo.
  pose proof (unbusy_free _ _ _ (OCapture c) Hbc Ho) as Hh.
  assert (Hc : has w h c).
  { split; [|done]. pose proof (inv_range _ _ _ HI _ _ Ho). unfold NULL. lia. }
  eapply wp_mono; [by apply (wp_capture_dec_ref busy ext)|].
  intros [] w' (HI' & [Hs Hfr] & Hw'). split_and!; [done..|]. intros x.
  case_decide as Hx.
  - subst x. rewrite <- Eo. rewrite rc_unfold by done.
    destruct (Z.eqb_spec (cap_ref_count c) 1) as [E|E].
    + rewrite Hw'. lia.
    + rewrite Hw'. cbn. by rewrite lookup_insert_eq.
  - rewrite (rc_same_but _ w w' _ _ Hs); [lia|done|].
    intros ox Hox Hkx. destruct ox as [| |cx| | |]; try done. by apply Hfr.
Qed.

(** * The image slots *)

(** A slot of the capture, as an accessor with its laws. *)
Class ImageSlot (slot : capture_context_t -> Z) `{!FieldUpdate slot} : Prop := {
  slot_get : forall c v, slot (update_field slot v c) = v;
  slot_rc : forall c v, cap_ref_count (update_field slot v c) = cap_ref_count c;
  slot_lock : forall c v l, (update_field slot v c) <| cap_lock := l |> = update_field slot v (c <| cap_lock := l |>);
  slot_read : forall c l, slot (c <| cap_lock := l |>) = slot c;
  slot_count : forall c v r, count_ref r (obj_refs (OCapture (update_field slot v c))) =
    count_ref r (obj_refs (OCapture c)) - count_ref r (nonnull KImage (slot c)) + count_ref r (nonnull KImage v)
}.

#[export] Instance color_slot : ImageSlot cap_color.
Proof. split; intros; try done. cbn. rewrite !count_ref_app. lia. Qed.
#[export] Instance depth_slot : ImageSlot cap_depth.
Proof. split; intros; try done. cbn. rewrite !count_ref_app. lia. Qed.
#[export] Instance ir_slot : ImageSlot cap_ir.
Proof. split; intros; try done. cbn. rewrite !count_ref_app. lia. Qed.

Definition gain_nonnull (ext : ledger) (h : Z) : ledger := if h =? NULL then ext else gain ext (KImage, h).
Definition lose_nonnull (ext : ledger) (h : Z) : ledger := if h =? NULL then ext else lose ext (KImage, h).

Lemma slot_covered slot `{ImageSlot slot} busy ext h c w :
  Inv busy ext w -> parts_nonneg ext -> heap w !! h = Some (OCapture c) -> slot c <> NULL ->
  0 < rc w (KImage, slot c).
Proof.
  intros HI Hext Hc Hs.
  pose proof (inv_covers _ _ _ _ _ (KImage, slot c) HI ltac:(apply Hext; auto) Hc) as Hr.
  pose proof (slot_count c NULL (KImage, slot c)) as E.
  rewrite nonnull_live, count_ref_cons, decide_True, !count_ref_nil in E by done.
  pose proof (count_ref_nonneg (KImage, slot c) (obj_refs (OCapture (update_field slot NULL c)))). lia.
Qed.

(** An image a reference exists to, as image_inc_ref finds it. *)
Lemma wp_image_ref busy ext h w (Q : unit -> world -> Prop) :
  Inv busy ext w -> 0 < rc w (KImage, h) ->
  (forall w', Inv busy (gain ext (KImage, h)) w' -> rc_step [KImage] w w' ->
     (forall x, rc w' (KImage, x) = rc w (KImage, x) + (if decide (x = h) then 1 else 0)) -> Q tt w') ->
  wp (image_inc_ref h) Q w.
Proof.
  intros HI Hrc HQ. destruct (rc_pos _ KImage _ ltac:(done) Hrc) as (o & Ho & Hk & Eo).
  destruct o as [|i| | | |]; try done.
  eapply (wp_image_inc_ref busy ext h i); [done|split; [|done]|].
  - pose proof (inv_range _ _ _ HI _ _ Ho). unfold NULL. lia.
  - intros w' -> HI'. apply HQ; [done| |].
    + eapply rc_step_store; [exact Ho|done|set_solver].
    + intros x. rewrite (rc_insert w h (OImage i)) by done. cbn.
      repeat case_decide; simplify_eq; try congruence; lia.
Qed.

Lemma has_store h c' w : h <> NULL -> has (w <| heap := <[h := OCapture c']> (heap w) |>) h c'.
Proof. intros Hn. split; [done|apply lookup_insert_eq]. Qed.

(** The lock is released: the capture is no longer being worked on. *)
Lemma inv_unlock busy ext w h c :
  Inv (busy ∪ {[h]}) ext w -> h ∉ busy -> heap w !! h = Some (OCapture c) -> 0 < cap_ref_count c ->
  Inv busy ext (w <| heap := <[h := OCapture (c <| cap_lock := RwIdle |>)]> (heap w) |>).
Proof.
  intros HI Hb Hc Hrc. eapply inv_store; [exact HI|exact Hc|done| |by intros _ _|done|set_solver|done].
  intros r. cbn. case_decide; lia.
Qed.

Lemma wp_capture_get_image_locked_live slot `{ImageSlot slot} busy ext h c w :
  Inv busy ext w -> (slot c <> NULL -> 0 < rc w (KImage, slot c)) -> h ∉ busy -> has w h c ->
  wp (capture_get_image_locked slot h)
     (fun _ w' => Inv busy (gain_nonnull ext (slot c)) w' /\ has w' h c /\ rc_step [KImage] w w') w.
Proof.
  intros HI Hext Hb Hh. pose proof Hh as [Hn Hh'].
  pose proof (inv_pos _ _ _ HI _ _ Hh' Hb eq_refl) as Hpos. cbn in Hpos.
  pose proof (inv_idle _ _ _ HI _ _ Hh' Hb) as Hl. cbn in Hl.
  unfold capture_get_image_locked. apply wp_bind. eapply wp_capture_lock; [done|by rewrite Hl|].
  set (c1 := c <| cap_lock := RwReaders 1 |>). set (w1 := w <| heap := _ |>).
  pose proof (has_store h c1 w Hn) as Hh1.
  assert (HI1 : Inv (busy ∪ {[h]}) ext w1).
  { eapply inv_touch; [eapply inv_busy; [exact HI|set_solver]|set_solver|exact Hh'|done..]. }
  assert (Ec : c1 <| cap_lock := RwIdle |> = c) by (destruct c; cbn in *; by subst).
  assert (Hrd : slot c1 = slot c) by apply slot_read.
  assert (Hunlock : forall e w2, Inv (busy ∪ {[h]}) e w2 -> rc_step [KImage] w1 w2 ->
    wp (capture_unlock h) (fun _ w' => Inv busy e w' /\ has w' h c /\ rc_step [KImage] w w') w2).
  { intros e w2 HI2 Hs2.
    assert (Hh2 : has w2 h c1) by (split; [done|]; eapply rc_step_other; [done|apply Hh1|set_solver]).
    eapply wp_capture_unlock; [done|]. change (rwlock_release (cap_lock c1)) with RwIdle. rewrite Ec.
    split_and!; [|by apply has_store|].
    - rewrite <- Ec. eapply inv_unlock; [done|done|apply Hh2|done].
    - destruct Hs2 as [Hf2 Hs2]. split; [done|]. intros x. unfold obj_step. cbn.
      destruct (decide (x = h)) as [->|Hx]; [left; by rewrite lookup_insert_eq|].
      rewrite lookup_insert_ne by done. specialize (Hs2 x). unfold obj_step in Hs2. cbn in Hs2. by rewrite lookup_insert_ne in Hs2. }
  apply wp_bind. eapply wp_load; [done|]. rewrite Hrd. unfold gain_nonnull.
  destruct (Z.eqb_spec (slot c) NULL) as [E|E]; cbn [negb when].
  - apply wp_bind, wp_ret. apply Hunlock; [done|apply rc_step_refl].
  - apply wp_bind. eapply (wp_image_ref (busy ∪ {[h]}) ext); [done| |].
    + unfold w1. rewrite (rc_insert w h (OCapture c)) by done. rewrite decide_False, Z.add_0_r by done. by apply Hext.
    + intros w2 HI2 Hs2 _. by apply Hunlock.
Qed.

Lemma wp_capture_get_image_locked slot `{ImageSlot slot} busy ext h c w :
  Inv busy ext w -> parts_nonneg ext -> h ∉ busy -> has w h c ->
  wp (capture_get_image_locked slot h)
     (fun _ w' => Inv busy (gain_nonnull ext (slot c)) w' /\ has w' h c /\ rc_step [KImage] w w') w.
Proof.
  intros HI Hext Hb Hh. apply (wp_capture_get_image_locked_live slot); [done| |done|done].
  intros Hn. eapply (slot_covered slot); [exact HI|done|apply Hh|done].
Qed.

Lemma wp_capture_get_image_live slot `{ImageSlot slot} busy ext h c w :
  Inv busy ext w -> (slot c <> NULL -> 0 < rc w (KImage, slot c)) -> h ∉ busy -> has w h c ->
  wp (capture_get_image slot h)
     (fun image w' => image = slot c /\ Inv busy (gain_nonnull ext (slot c)) w' /\ has w' h c /\
        rc_step [KImage] w w') w.
Proof.
  intros HI Hext Hb Hh. eapply wp_if_handle_valid; [done|].
  apply wp_bind. eapply wp_mono; [by apply (wp_capture_get_image_locked_live slot busy ext)|].
  intros [] w1 (HI1 & Hh1 & Hs1). apply wp_bind. eapply wp_load; [done|]. by apply wp_ret.
Qed.

Lemma wp_capture_get_image slot `{ImageSlot slot} busy ext h c w :
  Inv busy ext w -> parts_nonneg ext -> h ∉ busy -> has w h c ->
  wp (capture_get_image slot h)
     (fun image w' => image = slot c /\ Inv busy (gain_nonnull ext (slot c)) w' /\ has w' h c /\
        rc_step [KImage] w w') w.
Proof.
  intros HI Hext Hb Hh. apply (wp_capture_get_image_live slot); [done| |done|done].
  intros Hn. eapply (slot_covered slot); [exact HI|done|apply Hh|done].
Qed.

(** The steps of capture_set_image, on a capture that is locked for writing. *)
Section set_image.
Context (slot : capture_context_t -> Z) `{ImageSlot slot}.
Context (busy : gset Z) (ext : ledger) (h : Z) (c : capture_context_t) (image : Z) (w : world).
Let c1 := c <| cap_lock := RwWriter |>.
Let w1 := w <| heap := <[h := OCapture c1]> (heap w) |>.
Hypothesis Hidle : cap_lock c = RwIdle.
Hypothesis Hpos : 0 < cap_ref_count c.

Lemma wp_drop_slot :
  Inv (busy ∪ {[h]}) ext w1 -> parts_nonneg ext -> unbusy KImage (busy ∪ {[h]}) w1 -> has w1 h c1 ->
  wp (when (negb (slot c =? NULL)) (image_dec_ref (slot c)))
     (fun _ w2 => Inv (busy ∪ {[h]}) (lose_nonnull ext (slot c)) w2 /\ rc_step [KImage; KBlock] w1 w2) w1.
Proof.
  intros HI1 Hext Hbi1 Hh1. assert (Hrd : slot c1 = slot c) by apply slot_read.
  unfold lose_nonnull. destruct (Z.eqb_spec (slot c) NULL) as [E|E]; cbn [negb when].
  - apply wp_ret. split; [done|apply rc_step_refl].
  - eapply wp_mono; [apply (wp_image_unref _ _ _ _ HI1); [by apply parts_blocks|done|]|].
    + rewrite <- Hrd. eapply (slot_covered slot); [exact HI1|done|apply Hh1|by rewrite Hrd].
    + by intros [] w2 (HI2 & Hs2 & _).
Qed.

(** Between the two stores to the capture only images changed. *)
Lemma wp_set_image_unlock w2 w4 :
  let w3 := w2 <| heap := <[h := OCapture (update_field slot image c1)]> (heap w2) |> in
  has w h c -> h ∉ busy -> rc_step [KImage; KBlock] w1 w2 -> has w2 h c1 -> Inv (busy ∪ {[h]}) ext w4 -> rc_step [KImage; KBlock] w3 w4 ->
  wp (capture_unlock h) (fun _ w' => Inv busy ext w' /\ has w' h (update_field slot image c) /\
      rc_step [KImage; KBlock] w (w' <| heap := <[h := OCapture c]> (heap w') |>)) w4.
Proof.
  intros w3 [_ Hh'] Hb Hs2 Hh2 HI4 Hs4. pose proof (has_store h (update_field slot image c1) w2 (proj1 Hh2)) as Hh3.
  assert (Hh4 : has w4 h (update_field slot image c1))
    by (split; [apply Hh2|]; eapply rc_step_other; [done|apply Hh3|set_solver]).
  assert (Ec : (update_field slot image c1) <| cap_lock := RwIdle |> = update_field slot image c).
  { rewrite slot_lock. f_equal. destruct c; cbn in *; by subst. }
  assert (El : rwlock_release (cap_lock (update_field slot image c1)) = RwIdle).
  { pose proof (slot_lock c1 image RwWriter) as El. apply (f_equal cap_lock) in El.
    transitivity (rwlock_release RwWriter); [f_equal; symmetry; exact El|done]. }
  eapply wp_capture_unlock; [done|]. rewrite El, Ec. split_and!.
  - rewrite <- Ec. eapply inv_unlock; [done|done|apply Hh4|by rewrite slot_rc].
  - apply has_store, Hh2.
  - split; [etrans; [apply Hs4|apply Hs2]|]. intros x. unfold obj_step. cbn. rewrite fin_maps.insert_insert_eq.
    destruct (decide (x = h)) as [->|Hx]; [left; by rewrite lookup_insert_eq|]. rewrite lookup_insert_ne by done.
    assert (Hs : rc_step [KImage; KBlock] w2 (w4 <| heap := <[h := OCapture c1]> (heap w4) |>)).
    { destruct Hs4 as [Hf4 Hs4]. split; [done|]. intros y. unfold obj_step. cbn.
      destruct (decide (y = h)) as [->|Hy]; [left; rewrite lookup_insert_eq; symmetry; apply Hh2|].
      rewrite lookup_insert_ne by done. specialize (Hs4 y). unfold obj_step, w3 in Hs4. cbn in Hs4.
      by rewrite lookup_insert_ne in Hs4 by done. }
    destruct (rc_step_trans _ _ _ _ Hs2 Hs) as [_ Hx']. specialize (Hx' x). unfold obj_step, w1 in Hx'. cbn in Hx'.
    by rewrite !lookup_insert_ne in Hx' by done.
Qed.

(** The image that was stored may be counted once more. *)
Lemma slot_stored_rc w3 :
  Inv (busy ∪ {[h]}) (lose ext (KImage, image)) w3 -> has w3 h (update_field slot image c1) ->
  image <> NULL -> 0 < ext (KImage, image) -> 0 < rc w3 (KImage, image).
Proof.
  intros HI3 Hh3 E Himg. rewrite (inv_account _ _ _ HI3).
  assert (Hge : count_ref (KImage, image) (obj_refs (OCapture (update_field slot image c1))) <=
                slots (heap w3) (KImage, image)) by (apply (slots_ge _ h), Hh3).
  rewrite slot_count, (nonnull_live _ image) in Hge by done.
  rewrite count_ref_cons, decide_True, count_ref_nil in Hge by done.
  pose proof (slot_count c1 NULL (KImage, image)) as Hc0. change (nonnull KImage NULL) with (@nil ref) in Hc0.
  pose proof (count_ref_nonneg (KImage, image) (obj_refs (OCapture (update_field slot NULL c1)))) as H0'.
  rewrite count_ref_nil in Hc0. unfold lose. rewrite decide_True by done. lia.
Qed.
End set_image.

Lemma wp_capture_set_image slot `{ImageSlot slot} busy ext h c image w :
  Inv busy ext w -> parts_nonneg ext -> unbusy KImage busy w -> h ∉ busy -> has w h c ->
  (image <> NULL -> 0 < ext (KImage, image)) ->
  wp (capture_set_image slot h image)
     (fun _ w' => Inv busy ext w' /\ has w' h (update_field slot image c) /\
        rc_step [KImage; KBlock] w (w' <| heap := <[h := OCapture c]> (heap w') |>)) w.
Proof.
  intros HI Hext Hbi Hb Hh Himg. pose proof Hh as [Hn Hh'].
  pose proof (inv_pos _ _ _ HI _ _ Hh' Hb eq_refl) as Hpos. cbn in Hpos.
  pose proof (inv_idle _ _ _ HI _ _ Hh' Hb) as Hl. cbn in Hl.
  eapply wp_if_handle_valid; [done|]. apply wp_bind. eapply wp_capture_lock; [done|by rewrite Hl|].
  set (c1 := c <| cap_lock := RwWriter |>). set (w1 := w <| heap := _ |>).
  pose proof (has_store h c1 w Hn) as Hh1.
  assert (HI1 : Inv (busy ∪ {[h]}) ext w1).
  { eapply inv_touch; [eapply inv_busy; [exact HI|set_solver]|set_solver|exact Hh'|done..]. }
  assert (Hbi1 : unbusy KImage (busy ∪ {[h]}) w1).
  { eapply unbusy_add; [by eapply unbusy_store|apply Hh1|done]. }
  assert (Hrd : slot c1 = slot c) by apply slot_read.
  apply wp_bind. eapply wp_load; [done|]. rewrite Hrd.
  apply wp_bind. eapply wp_mono; [by apply (wp_drop_slot slot)|]. intros [] w2 [HI2 Hs2].
  assert (Hh2 : has w2 h c1) by (split; [done|]; eapply rc_step_other; [done|apply Hh1|set_solver]).
  apply wp_bind. eapply wp_update; [done|]. set (w3 := w2 <| heap := _ |>).
  assert (HI3 : Inv (busy ∪ {[h]}) (lose_nonnull ext image) w3).
  { eapply inv_store; [exact HI2|apply Hh2|done| |set_solver|set_solver|set_solver|done].
    intros r. rewrite slot_count, Hrd. cbn [to_obj capture_Context obj_rc obj_kind]. rewrite slot_rc.
    unfold lose_nonnull, nonnull. destruct (slot c =? NULL), (image =? NULL); ledger. }
  unfold lose_nonnull in HI3. apply wp_bind. destruct (Z.eqb_spec image NULL) as [E|E]; cbn [negb when].
  - apply wp_ret. by apply (wp_set_image_unlock slot busy ext h c image w Hl Hpos w2); [..|apply rc_step_refl].
  - eapply (wp_image_ref (busy ∪ {[h]})); [exact HI3| |].
    + eapply (slot_stored_rc slot busy ext h c image); [exact HI3|by apply has_store|done|by apply Himg].
    + intros w4 HI4 Hs4 _. apply (wp_set_image_unlock slot busy ext h c image w Hl Hpos w2); [done..| |].
      * eapply inv_ext; [exact HI4|]. ledger.
      * eapply rc_step_weaken; [exact Hs4|set_solver].
Qed.

Definition new_capture : capture_context_t := mkCapture 1 RwIdle NULL NULL NULL S754_nan.

Lemma wp_capture_create busy ext w :
  Inv busy ext w -> fresh w ∉ busy ->
  wp (capture_create true)
     (fun r w' => trace w' = trace w /\
        match r with
        | (ZSA_RESULT_SUCCEEDED, out) =>
            out = Some (fresh w) /\ has w' (fresh w) new_capture /\
            heap w' = <[fresh w := OCapture new_capture]> (heap w) /\
            Inv busy (gain ext (KCapture, fresh w)) w'
        | (ZSA_RESULT_FAILED, out) => out = Some NULL /\ heap w' = heap w /\ Inv busy ext w'
        end) w.
Proof.
  intros HI Hb. pose proof (inv_fresh _ _ _ HI) as Hf0.
  unfold capture_create. cbn [negb].
  apply wp_bind, wp_handle_create; [done| |]; intros t.
  { apply wp_ret. split_and!; [done..|by apply inv_tick]. }
  assert (Hn : fresh w <> NULL) by (unfold NULL; lia).
  rewrite (proj2 (Z.eqb_neq (fresh w) NULL)) by done.
  pose proof (inv_created _ _ _ t (OCapture zeroed) HI eq_refl eq_refl ltac:(done)) as HI1.
  set (w1 := _ <| fresh := _ |>) in *.
  apply wp_bind. eapply wp_update; [split; [exact Hn|apply lookup_insert_eq]|]. apply wp_ret.
  split_and!; [done|done|by apply has_store|cbn; by rewrite fin_maps.insert_insert_eq|].
  eapply inv_store; [exact HI1|apply lookup_insert_eq|done| |done|done|set_solver|done].
  cbn. ledger.
Qed.

Lemma unbusy_set k ks busy h c w w' :
  unbusy k busy w -> h ∉ busy -> rc_step ks w (w' <| heap := <[h := OCapture c]> (heap w') |>) ->
  unbusy k busy w'.
Proof.
  intros Hu Hb Hs x o Hx Ho.
  apply (unbusy_step _ _ _ _ _ Hu Hs x o Hx). cbn. by rewrite lookup_insert_ne by (intros ->; done).
Qed.

Lemma inv_null busy ext w : Inv busy ext w -> heap w !! NULL = None.
Proof.
  intros HI. destruct (heap w !! NULL) as [o|] eqn:Ho; [|done].
  apply (inv_range _ _ _ HI) in Ho. unfold NULL in Ho. lia.
Qed.
End specs.

(** One image and one capture; then the image is in the capture. *)
Definition sample_ledger : ledger := gain (gain no_refs (KImage, 1)) (KCapture, 2).
Definition sample_capture_world : world := final (capture_create true) sample_image_world.
Definition sample_full_world : world := final (capture_set_color_image 2 1) sample_capture_world.
Definition sample_full_capture : capture_context_t := new_capture <| cap_color := 1 |>.

Lemma sample_ledger_nonneg : nonneg sample_ledger.
Proof. intros k h Hk. unfold sample_ledger. ledger. Qed.

Lemma sample_capture_inv :
  Inv ∅ sample_ledger sample_capture_world /\ has sample_capture_world 2 new_capture.
Proof.
  destruct (wp_final _ _ _ (wp_capture_create ∅ _ sample_image_world (proj1 sample_image_inv) ltac:(set_solver)))
    as ([r out] & E & _ & Hout). fold sample_capture_world in *.
  assert (r = ZSA_RESULT_SUCCEEDED) as -> by (vm_compute in E; congruence).
  destruct Hout as (_ & Hh & _ & HI). by split.
Qed.

Lemma sample_full_inv :
  Inv ∅ sample_ledger sample_full_world /\ has sample_full_world 2 sample_full_capture.
Proof.
  destruct sample_capture_inv as [HI Hh].
  destruct (wp_final _ _ _ (wp_capture_set_image cap_color ∅ sample_ledger 2 new_capture 1 sample_capture_world HI
    (nonneg_parts _ sample_ledger_nonneg) (unbusy_empty _ _) ltac:(set_solver) Hh ltac:(done)))
    as ([] & _ & HI' & Hh' & _). by split.
Qed.

(** * Properties *)

Section properties.
Context `{Platform}.

(** An image put into a slot of a capture is the one the getter returns;
    the capture keeps a reference of its own, the caller gets a further one
    and keeps the one it had, and whatever image was in the slot before loses
    exactly the capture's reference (so that no count is ever wrong and
    nothing is used after it is freed, also when the image was already in
    that slot). *)
Theorem capture_set_get (slot : capture_context_t -> Z) (HFU : FieldUpdate slot) (HS : ImageSlot slot)
  (busy : gset Z) (ext : ledger) (h image : Z) (c : capture_context_t) (w : world)
  (HI : Inv busy ext w) (Hext : parts_nonneg ext) (Hbi : unbusy KImage busy w) (Hb : h ∉ busy)
  (Hh : has w h c) (Himg : image <> NULL -> 0 < ext (KImage, image)) :
  wp (capture_set_image slot h image;; capture_get_image slot h)
     (fun r w' => r = image /\ Inv busy (gain_nonnull ext image) w' /\
        has w' h (update_field slot image c)) w.
Proof.
  apply wp_bind. eapply wp_mono; [by apply (wp_capture_set_image slot busy ext)|].
  intros [] w1 (HI1 & Hh1 & _).
  eapply wp_mono; [by apply (wp_capture_get_image slot busy ext)|].
  intros r w2 (-> & HI2 & Hh2 & _). by rewrite slot_get in *.
Qed.


(** C38: capture_get_color_image releases the lock before it reads the slot for
    its return statement.  When another thread replaces the image in between,
    the image returned is the new one, on which no reference was taken: the
    caller's release of it is one too many. *)
Theorem capture_get_image_race (slot : capture_context_t -> Z) (HFU : FieldUpdate slot) (HS : ImageSlot slot)
  (busy : gset Z) (ext : ledger) (h image : Z) (c : capture_context_t) (w : world)
  (HI : Inv busy ext w) (Hext : nonneg ext) (Hbi : unbusy KImage busy w) (Hb : h ∉ busy)
  (Hh : has w h c) (Hold : slot c <> NULL)
  (Himg : image <> NULL -> 0 < ext (KImage, image)) :
  wp (capture_get_image_locked slot h;;
      capture_set_image slot h image;;            (* the other thread *)
      capture_get_image_return slot h)
     (fun r w' => r = image /\ Inv busy (gain ext (KImage, slot c)) w') w.
Proof.
  pose proof (nonneg_parts _ Hext) as Hparts.
  apply wp_bind. eapply wp_mono; [by apply (wp_capture_get_image_locked slot busy ext)|].
  intros [] w1 (HI1 & Hh1 & Hs1). unfold gain_nonnull in HI1.
  rewrite (proj2 (Z.eqb_neq (slot c) NULL)) in HI1 by done.
  apply wp_bind. eapply wp_mono; [eapply (wp_capture_set_image slot);
    [exact HI1| |by eapply unbusy_step|exact Hb|exact Hh1|]|].
  - intros k x Hk. specialize (Hparts k x Hk). ledger.
  - intros Hn. specialize (Himg Hn). ledger.
  - intros [] w2 (HI2 & Hh2 & _). apply wp_bind. eapply wp_load; [done|]. apply wp_ret.
    by rewrite slot_get.
Qed.
End properties.

Lemma capture_set_get_witness :
  exists w', (capture_set_color_image 2 1;; capture_get_color_image 2) sample_capture_world = Done 1 w' /\
    Inv ∅ (gain sample_ledger (KImage, 1)) w'.
Proof.
  destruct sample_capture_inv as [HI Hh].
  pose proof (capture_set_get cap_color _ _ ∅ sample_ledger 2 1 new_capture sample_capture_world HI
    (nonneg_parts _ sample_ledger_nonneg) (unbusy_empty _ _) ltac:(set_solver) Hh ltac:(done)) as Hw.
  destruct (proj1 (wp_run _ _ _) Hw) as (r & w' & E & -> & HI' & _). exists w'. split; [exact E|exact HI'].
Defined.


Lemma capture_get_image_race_witness :
  exists w',
    (capture_get_image_locked cap_color 2;;
     capture_set_image cap_color 2 NULL;;
     capture_get_image_return cap_color 2) sample_full_world = Done NULL w' /\
    Inv ∅ (gain sample_ledger (KImage, 1)) w'.
Proof.
  destruct sample_full_inv as [HI Hh].
  pose proof (capture_get_image_race cap_color _ _ ∅ sample_ledger 2 NULL sample_full_capture sample_full_world HI
    sample_ledger_nonneg (unbusy_empty _ _) ltac:(set_solver) Hh ltac:(done) ltac:(done)) as Hw.
  destruct (proj1 (wp_run _ _ _) Hw) as (r & w' & E & -> & HI'). exists w'. split; [exact E|exact HI'].
Defined.
