(* ===== verification/Queue.v ===== *)
(** src/queue/queue.c: the ring buffer of captures between the streaming
    threads and the application. *)

From S2P Require Export Capture.

(** * Operations

    [u32] arithmetic is written out where the code has a [++]; the value of
    an entry is read through the array, its bounds and its initialisation. *)

Section operations.
Context `{Platform}.

Abbreviation queue_valid v h rest := (if_handle_valid queue_context_t v h rest) (only parsing).

Definition inc_read_write_location (q : queue_context_t) (location : Z) : option Z :=
  if q_depth q =? 0 then None else Some (u32 (location + 1) mod q_depth q).
Definition is_queue_empty (q : queue_context_t) : bool := q_write_location q =? q_read_location q.
Definition is_queue_full (q : queue_context_t) : option bool :=
  l ← inc_read_write_location q (q_write_location q);
  Some (l =? q_read_location q).

Definition queue_pop_internal_locked (h : Z) : Mw Z :=
  q ← load queue_context_t h;
  if negb (is_queue_empty q) then
    a ← need NullDeref (q_queue q);
    entry ← need OutOfBounds (a !! Z.to_nat (q_read_location q));
    l ← need DivideByZero (inc_read_write_location q (q_read_location q));
    update h (fun q => q <| q_read_location := l |>);;
    need Uninitialised entry
  else mret NULL.

Definition queue_push_internal_locked (h capture : Z) : Mw unit :=
  q ← load queue_context_t h;
  a ← need NullDeref (q_queue q);
  _ ← need OutOfBounds (a !! Z.to_nat (q_write_location q));
  update h (fun q => q <| q_queue := Some (<[Z.to_nat (q_write_location q) := Some capture]> a) |>);;
  l ← need DivideByZero (inc_read_write_location q (q_write_location q));
  update h (fun q => q <| q_write_location := l |>).

(** Condition_Wait of the azure shared utility releases the lock, sleeps while
    the other threads run, and takes it again. *)
Definition Condition_Wait (h timeout_ms : Z) : Mw COND_RESULT :=
  q ← load queue_context_t h;
  if negb (q_condition q) || bool_decide (q_lock q = LockNull) then mret COND_INVALID_ARG
  else
    Unlock q_lock h;;
    r ← (fun w =>
      let '(r, w') := Condition_Wait_others (tick w) timeout_ms w in
      Done r (w' <| tick := S (tick w) |>));
    Lock q_lock h;;
    mret r.

(** The body of queue_pop up to the wait: either it has its answer, or it has
    to wait. *)
Inductive pop_state : Type :=
| PopRefused                                        (* the queue is disabled *)
| PopAnswer (wresult : zsa_wait_result_t) (capture : Z)
| PopWait.

Definition queue_pop_begin (h wait_in_ms : Z) : Mw pop_state :=
  q ← load queue_context_t h;
  if negb (q_enabled q) then mret PopRefused
  else
    update h (fun q => q <| q_queue_pop_blocked := u32 (q_queue_pop_blocked q + 1) |>);;
    capture ← queue_pop_internal_locked h;
    if negb (capture =? NULL) then mret (PopAnswer ZSA_WAIT_RESULT_SUCCEEDED capture)
    else if negb (wait_in_ms =? 0) then mret PopWait
    else mret (PopAnswer ZSA_WAIT_RESULT_TIMEOUT NULL).

(** What it does with the answer of Condition_Wait. *)
Definition queue_pop_woken (h : Z) (cond_result : COND_RESULT) : Mw pop_state :=
  match cond_result with
  | COND_OK =>
      capture ← queue_pop_internal_locked h;
      q ← load queue_context_t h;
      c_assert (negb (capture =? NULL) || negb (q_enabled q));;
      mret (PopAnswer ZSA_WAIT_RESULT_SUCCEEDED capture)
  | COND_TIMEOUT => mret (PopAnswer ZSA_WAIT_RESULT_TIMEOUT NULL)
  | _ =>
      c_assert false;;
      mret (PopAnswer ZSA_WAIT_RESULT_FAILED NULL)
  end.

(** The rest, from [queue->queue_pop_blocked--] on, up to the Unlock. *)
Definition queue_pop_end (h : Z) (s : pop_state) : Mw (zsa_wait_result_t * Z) :=
  match s with
  | PopRefused => mret tt
  | _ => update h (fun q => q <| q_queue_pop_blocked := u32 (q_queue_pop_blocked q - 1) |>)
  end;;
  let '(wresult, capture) :=
    match s with PopAnswer r c => (r, c) | _ => (ZSA_WAIT_RESULT_FAILED, NULL) end in
  q ← load queue_context_t h;
  r ← (if negb (q_enabled q) then
         when (negb (capture =? NULL)) (capture_dec_ref capture);;
         mret (ZSA_WAIT_RESULT_FAILED, NULL)
       else mret (wresult, capture));
  when (negb (q_dropped_count q =? 0)) (update h (fun q => q <| q_dropped_count := 0 |>));;
  mret r.

Definition queue_pop (queue_handle wait_in_ms : Z) (out_capture : bool)
    : Mw (zsa_wait_result_t * option Z) :=
  queue_valid (ZSA_WAIT_RESULT_FAILED, None) queue_handle (
    if negb out_capture then mret (ZSA_WAIT_RESULT_FAILED, None)
    else
      Lock q_lock queue_handle;;
      s ← queue_pop_begin queue_handle wait_in_ms;
      s ← (match s with
           | PopWait =>
               cond_result ← Condition_Wait queue_handle (if wait_in_ms <? 0 then 0 else wait_in_ms);
               queue_pop_woken queue_handle cond_result
           | _ => mret s
           end);
      r ← queue_pop_end queue_handle s;
      Unlock q_lock queue_handle;;
      mret (fst r, Some (snd r))).

(** The value stored through [dropped], when it is not null and something is
    dropped, is the result. *)
Definition queue_push_w_dropped (queue_handle capture : Z) (dropped : bool) : Mw (option Z) :=
  queue_valid None queue_handle (
    if capture =? NULL then mret None
    else
      Lock q_lock queue_handle;;
      q ← load queue_context_t queue_handle;
      out ← (if negb (q_enabled q) then mret None
             else
               full ← need DivideByZero (is_queue_full q);
               out ← (if (full : bool) then
                        if negb dropped then
                          update queue_handle (fun q => q <| q_dropped_count := u32 (q_dropped_count q + 1) |>);;
                          c ← queue_pop_internal_locked queue_handle;
                          capture_dec_ref c;;
                          mret None
                        else
                          c ← queue_pop_internal_locked queue_handle;
                          mret (Some c)
                      else mret None);
               capture_inc_ref capture;;
               queue_push_internal_locked queue_handle capture;;
               mret out);
      Unlock q_lock queue_handle;;
      mret out).

Definition queue_push (queue_handle capture : Z) : Mw unit :=
  _ ← queue_push_w_dropped queue_handle capture false;
  mret tt.

Definition queue_enable (queue_handle : Z) : Mw unit :=
  queue_valid tt queue_handle (
    Lock q_lock queue_handle;;
    update queue_handle (fun q => q <| q_enabled := true |> <| q_stopped := false |>);;
    Unlock q_lock queue_handle).

(** [while (queue->queue_pop_blocked != 0)], polled at most [fuel] times. *)
Fixpoint wait_not_blocked (fuel : nat) (h : Z) : Mw unit :=
  q ← load queue_context_t h;
  if q_queue_pop_blocked q =? 0 then mret tt
  else
    match fuel with
    | O => throw OutOfFuel
    | S fuel =>
        Unlock q_lock h;;
        ThreadAPI_Sleep;;
        Lock q_lock h;;
        wait_not_blocked fuel h
    end.

(** [while (is_queue_empty(queue) == false)]: an entry leaves at each turn, so
    no more turns than entries of the array are needed. *)
Fixpoint queue_drain (fuel : nat) (h : Z) : Mw unit :=
  q ← load queue_context_t h;
  if is_queue_empty q then mret tt
  else
    match fuel with
    | O => throw OutOfFuel
    | S fuel =>
        c ← queue_pop_internal_locked h;
        capture_dec_ref c;;
        queue_drain fuel h
    end.

Definition queue_disable (queue_handle : Z) : Mw unit :=
  queue_valid tt queue_handle (
    Lock q_lock queue_handle;;
    update queue_handle (fun q => q <| q_enabled := false |>);;
    wait_not_blocked patience queue_handle;;
    q ← load queue_context_t queue_handle;
    queue_drain (Z.to_nat (q_depth q)) queue_handle;;
    Unlock q_lock queue_handle).

Definition queue_stop (queue_handle : Z) : Mw unit :=
  _ ← handle_get_context queue_context_t queue_handle;
  Lock q_lock queue_handle;;
  update queue_handle (fun q => q <| q_stopped := true |>);;
  Unlock q_lock queue_handle;;
  queue_disable queue_handle.

Definition queue_destroy (queue_handle : Z) : Mw unit :=
  queue_valid tt queue_handle (
    queue_disable queue_handle;;
    update queue_handle (fun q => q <| q_queue := None |>);;
    handle_destroy queue_context_t queue_handle).

Definition queue_create (queue_depth : Z) : Mw (zsa_result_t * option Z) :=
  h ← handle_create queue_context_t;
  if queue_depth =? 0 then mret (ZSA_RESULT_FAILED, Some h)
  else if queue_depth >? 10000 then mret (ZSA_RESULT_FAILED, Some h)
  else
    update h (fun q => q <| q_depth := u32 (queue_depth + 1) |>);;
    ok ← ask calloc_ok;
    update h (fun q => q <| q_queue :=
      if (ok : bool) then Some (replicate (Z.to_nat (q_depth q)) None) else None |>);;
    let result := ZSA_RESULT_FROM_BOOL ok in
    result ← (if ZSA_SUCCEEDED result then
                l ← Lock_Init;
                update h (fun q => q <| q_lock := l |>);;
                mret (ZSA_RESULT_FROM_BOOL (bool_decide (l <> LockNull)))
              else mret result);
    if ZSA_SUCCEEDED result then
      ok ← ask Condition_Init_ok;
      update h (fun q => q <| q_condition := ok |>);;
      mret (result, Some h)
    else
      queue_destroy h;;
      mret (result, Some NULL).
End operations.

(** * The ring buffer as a list *)

(** A queue as queue_create leaves it and every operation keeps it. *)
Record queue_wf (q : queue_context_t) : Prop := {
  wf_depth : 2 <= q_depth q <= 10001;
  wf_read : 0 <= q_read_location q < q_depth q;
  wf_write : 0 <= q_write_location q < q_depth q;
  wf_blocked : 0 <= q_queue_pop_blocked q < 2 ^ 32;
  wf_array : exists a, q_queue q = Some a /\ length a = Z.to_nat (q_depth q);
  wf_entries : forall i, 0 <= i < queue_length q ->
    exists c, queue_entry q (q_read_location q + i) = Some c /\ c <> NULL
}.

Lemma queue_length_bound q : queue_wf q -> 0 <= queue_length q < q_depth q.
Proof. intros []. apply Z.mod_pos_bound. lia. Qed.

Lemma queue_empty_spec q : queue_wf q -> is_queue_empty q = (queue_length q =? 0).
Proof.
  intros []. unfold is_queue_empty, queue_length.
  destruct (Z.eqb_spec (q_write_location q) (q_read_location q)) as [->|E].
  - by rewrite Z.sub_diag, Z.mod_0_l by lia.
  - symmetry. apply Z.eqb_neq. intros H0. apply Z.mod_divide in H0; [|lia].
    destruct H0 as [k Hk]. assert (k = 0 \/ k <= -1 \/ 1 <= k) as [->|[?|?]] by lia; nia.
Qed.

Lemma inc_location_spec q l :
  queue_wf q -> 0 <= l < q_depth q ->
  inc_read_write_location q l = Some ((l + 1) mod q_depth q).
Proof.
  intros [] Hl. unfold inc_read_write_location. rewrite (proj2 (Z.eqb_neq _ 0)) by lia.
  by rewrite u32_id by lia.
Qed.

Lemma queue_full_spec q :
  queue_wf q -> is_queue_full q = Some (queue_length q =? q_depth q - 1).
Proof.
  intros Hq. pose proof Hq as []. unfold is_queue_full. rewrite inc_location_spec by done. cbn.
  f_equal. unfold queue_length. set (d := q_depth q) in *. set (r := q_read_location q) in *.
  set (k := q_write_location q) in *.
  assert (Hm : forall x, - d < x < d -> x mod d = if x <? 0 then x + d else x).
  { intros x Hx. destruct (Z.ltb_spec x 0).
    - symmetry. apply (Z.mod_unique _ _ (-1)); lia.
    - apply Z.mod_small. lia. }
  rewrite (Hm (k - r)) by lia.
  assert (Hk : (k + 1) mod d = if k + 1 =? d then 0 else k + 1).
  { destruct (Z.eqb_spec (k + 1) d) as [->|]; [apply Z.mod_same; lia|apply Z.mod_small; lia]. }
  rewrite Hk. apply Bool.eq_iff_eq_true. rewrite !Z.eqb_eq.
  destruct (Z.eqb_spec (k + 1) d), (Z.ltb_spec (k - r) 0); lia.
Qed.

(** The read location moves on by one. *)
Definition popped (q : queue_context_t) : queue_context_t :=
  q <| q_read_location := (q_read_location q + 1) mod q_depth q |>.

(** The entry is written and the write location moves on by one. *)
Definition pushed (q : queue_context_t) (c : Z) : queue_context_t :=
  q <| q_queue := match q_queue q with
                  | Some a => Some (<[Z.to_nat (q_write_location q) := Some c]> a)
                  | None => None
                  end |>
    <| q_write_location := (q_write_location q + 1) mod q_depth q |>.

Lemma popped_length q : queue_wf q -> 0 < queue_length q -> queue_length (popped q) = queue_length q - 1.
Proof.
  intros [] Hl. unfold queue_length in *. cbn. set (d := q_depth q) in *.
  rewrite Zminus_mod_idemp_r.
  replace (q_write_location q - (q_read_location q + 1)) with (q_write_location q - q_read_location q - 1) by lia.
  rewrite <- Zminus_mod_idemp_l. apply Z.mod_small.
  pose proof (Z.mod_pos_bound (q_write_location q - q_read_location q) d). lia.
Qed.

Lemma popped_entry q k : q_depth q <> 0 ->
  queue_entry (popped q) (q_read_location (popped q) + k) = queue_entry q (q_read_location q + (k + 1)).
Proof.
  intros Hd. unfold queue_entry. cbn. rewrite Zplus_mod_idemp_l.
  by replace (q_read_location q + 1 + k) with (q_read_location q + (k + 1)) by lia.
Qed.

Lemma popped_wf q : queue_wf q -> 0 < queue_length q -> queue_wf (popped q).
Proof.
  intros Hq Hl. pose proof Hq as []. split; try done.
  - cbn. apply Z.mod_pos_bound. lia.
  - intros i Hi. rewrite popped_length in Hi by done. rewrite popped_entry by lia.
    apply wf_entries0. lia.
Qed.

Lemma popped_contents q :
  queue_wf q -> 0 < queue_length q ->
  exists c, queue_entry q (q_read_location q) = Some c /\ c <> NULL /\
    queue_contents q = c :: queue_contents (popped q).
Proof.
  intros Hq Hl. pose proof Hq as []. destruct (wf_entries0 0 ltac:(lia)) as (c & Hc & Hn).
  rewrite Z.add_0_r in Hc. exists c. split_and!; [done..|].
  unfold queue_contents at 1. rewrite seqZ_cons by done. cbn. rewrite Z.add_0_r, Hc.
  f_equal. unfold queue_contents. rewrite popped_length by done.
  replace (Z.pred (queue_length q)) with (queue_length q - 1) by lia.
  change (Z.succ 0) with (0 + 1). rewrite omap_seqZ_shift.
  apply list_omap_ext, Forall_Forall2_diag, Forall_forall. intros k _.
  by rewrite popped_entry by lia.
Qed.

Lemma pushed_length q c :
  queue_wf q -> queue_length q < q_depth q - 1 -> queue_length (pushed q c) = queue_length q + 1.
Proof.
  intros [] Hl. unfold queue_length in *. cbn. set (d := q_depth q) in *.
  rewrite Zminus_mod_idemp_l.
  replace (q_write_location q + 1 - q_read_location q) with (q_write_location q - q_read_location q + 1) by lia.
  rewrite <- Zplus_mod_idemp_l. apply Z.mod_small.
  pose proof (Z.mod_pos_bound (q_write_location q - q_read_location q) d). lia.
Qed.

Lemma write_after_length q : queue_wf q ->
  (q_read_location q + queue_length q) mod q_depth q = q_write_location q.
Proof.
  intros []. unfold queue_length. rewrite Zplus_mod_idemp_r.
  rewrite Z.mod_small; lia.
Qed.

Lemma pushed_entry_old q c k :
  queue_wf q -> 0 <= k < queue_length q ->
  queue_entry (pushed q c) (q_read_location q + k) = queue_entry q (q_read_location q + k).
Proof.
  intros Hq Hk. pose proof (write_after_length q Hq) as Hwr. pose proof (queue_length_bound q Hq) as Hlen.
  destruct Hq as [? ? ? ? (a & Ha & Hla) _]. unfold queue_entry, pushed. cbn. rewrite Ha.
  set (d := q_depth q) in *. set (l := queue_length q) in *. set (r := q_read_location q) in *.
  rewrite list_lookup_insert_ne; [done|]. rewrite <- Hwr. intros E.
  apply Z2Nat.inj in E; [|apply Z.mod_pos_bound; lia..].
  assert (H0 : (l - k) mod d = 0).
  { replace (l - k) with ((r + l) - (r + k)) by lia. rewrite Zminus_mod, E, Z.sub_diag. apply Z.mod_0_l. lia. }
  rewrite Z.mod_small in H0; lia.
Qed.

Lemma pushed_entry_new q c :
  queue_wf q -> queue_entry (pushed q c) (q_read_location q + queue_length q) = Some c.
Proof.
  intros Hq. pose proof (write_after_length q Hq) as Hwr.
  destruct Hq as [? ? ? ? (a & Ha & Hla) _]. unfold queue_entry. cbn. rewrite Ha, Hwr.
  rewrite list_lookup_insert_eq; [done|]. lia.
Qed.

Lemma pushed_wf q c : queue_wf q -> queue_length q < q_depth q - 1 -> c <> NULL -> queue_wf (pushed q c).
Proof.
  intros Hq Hl Hc. pose proof Hq as [? ? ? ? (a & Ha & Hla) Hent]. split; try done.
  - cbn. apply Z.mod_pos_bound. lia.
  - cbn. rewrite Ha. eexists. split; [done|]. by rewrite length_insert.
  - intros i Hi. rewrite pushed_length in Hi by done. cbn.
    destruct (Z.eq_dec i (queue_length q)) as [->|E].
    + exists c. by rewrite pushed_entry_new.
    + rewrite pushed_entry_old by (done || lia). apply Hent. lia.
Qed.

Lemma pushed_contents q c :
  queue_wf q -> queue_length q < q_depth q - 1 -> queue_contents (pushed q c) = queue_contents q ++ [c].
Proof.
  intros Hq Hl. pose proof (queue_length_bound q Hq) as Hlen.
  unfold queue_contents. rewrite pushed_length by done.
  rewrite seqZ_app by lia. rewrite omap_app, Z.add_0_l. f_equal.
  - apply list_omap_ext, Forall_Forall2_diag, Forall_forall. intros k Hk%elem_of_seqZ.
    change (q_read_location (pushed q c)) with (q_read_location q).
    apply pushed_entry_old; [done|lia].
  - change (q_read_location (pushed q c)) with (q_read_location q).
    rewrite (seqZ_cons (queue_length q) 1) by lia. cbn -[queue_entry pushed queue_length].
    by rewrite pushed_entry_new.
Qed.

Lemma queue_contents_length q : queue_wf q -> Z.of_nat (length (queue_contents q)) = queue_length q.
Proof.
  intros Hq. pose proof (queue_length_bound q Hq). unfold queue_contents. rewrite omap_all.
  - rewrite length_seqZ. lia.
  - intros k Hk%elem_of_seqZ. destruct (wf_entries q Hq k) as (c & -> & _); [lia|done].
Qed.

Lemma queue_contents_nonnull q : queue_wf q -> Forall (fun c => c <> NULL) (queue_contents q).
Proof.
  intros Hq. apply Forall_forall. intros c Hc. apply list_elem_of_omap in Hc as (k & Hk%elem_of_seqZ & Ec).
  destruct (wf_entries q Hq k) as (c' & Ec' & Hn); [lia|]. congruence.
Qed.

(** The fields of the ring buffer are the same, and so is, in the second form,
    the number of threads inside queue_pop. *)
Definition same_ring (q q' : queue_context_t) : Prop :=
  q_depth q' = q_depth q /\ q_read_location q' = q_read_location q /\
  q_write_location q' = q_write_location q /\ q_queue q' = q_queue q.

Lemma same_ring_wf q q' :
  same_ring q q' -> 0 <= q_queue_pop_blocked q' < 2 ^ 32 -> queue_wf q -> queue_wf q'.
Proof.
  destruct q, q'. unfold same_ring. cbn. intros (-> & -> & -> & ->) Hb []. by split.
Qed.

Definition same_queue (q q' : queue_context_t) : Prop :=
  same_ring q q' /\ q_queue_pop_blocked q' = q_queue_pop_blocked q.

Lemma same_queue_wf q q' : same_queue q q' -> queue_wf q -> queue_wf q'.
Proof. intros [Hs Hb] Hq. eapply same_ring_wf; [done| |done]. rewrite Hb. apply Hq. Qed.

Lemma same_ring_contents q q' : same_ring q q' -> queue_contents q' = queue_contents q.
Proof. destruct q, q'. unfold same_ring. cbn. by intros (-> & -> & -> & ->). Qed.

#[export] Hint Extern 2 (same_ring _ _) => by split_and! : refs.

(** * The abstract queue *)

(** What a client sees: whether the queue takes captures, how many it holds at
    most, the captures in it, oldest first, and how many threads are inside
    queue_pop. *)
Record aqueue : Type := mkAqueue {
  aq_enabled : bool;
  aq_capacity : Z;
  aq_items : list Z;
  aq_blocked : Z
}.

#[export] Instance aqueue_eta : RecordEta aqueue := fun r =>
  mkAqueue (aq_enabled r) (aq_capacity r) (aq_items r) (aq_blocked r).

Definition abs (q : queue_context_t) : aqueue :=
  mkAqueue (q_enabled q) (q_depth q - 1) (queue_contents q) (q_queue_pop_blocked q).

(** Pushing onto a full queue drops the oldest. *)
Definition apush (a : aqueue) (c : Z) (dropped : bool) : aqueue * option Z :=
  if negb (aq_enabled a) then (a, None)
  else if Z.of_nat (length (aq_items a)) =? aq_capacity a then
    (a <| aq_items := tail (aq_items a) ++ [c] |>,
     if dropped then head (aq_items a) else None)
  else (a <| aq_items := aq_items a ++ [c] |>, None).

Definition apop (a : aqueue) : aqueue * (zsa_wait_result_t * Z) :=
  if negb (aq_enabled a) then (a, (ZSA_WAIT_RESULT_FAILED, NULL))
  else
    match aq_items a with
    | c :: l => (a <| aq_items := l |>, (ZSA_WAIT_RESULT_SUCCEEDED, c))
    | [] => (a, (ZSA_WAIT_RESULT_TIMEOUT, NULL))
    end.

Definition adisable (a : aqueue) : aqueue := a <| aq_enabled := false |> <| aq_items := [] |>.
Definition aenable (a : aqueue) : aqueue := a <| aq_enabled := true |>.

(** Giving away one reference, or none. *)
Definition gain_capture (ext : ledger) (c : Z) : ledger := if c =? NULL then ext else gain ext (KCapture, c).

(** * Specifications *)

Section specs.
Context `{Platform}.

(** [h] is a queue whose lock is held and that nobody else is accounted
    for. *)
Record holding (busy : gset Z) (ext : ledger) (h : Z) (q : queue_context_t) (w : world) : Prop := {
  hold_inv : Inv (busy ∪ {[h]}) ext w;
  hold_has : has w h q;
  hold_lock : q_lock q = LockHeld;
  hold_image : unbusy KImage (busy ∪ {[h]}) w;
  hold_capture : unbusy KCapture (busy ∪ {[h]}) w
}.

(** Any change of the context that accounts for its captures. *)
Lemma holding_store busy ext ext' h q q' w :
  holding busy ext h q w -> q_lock q' = LockHeld ->
  (forall r, ext' r = ext r + count_ref r (obj_refs (OQueue q)) - count_ref r (obj_refs (OQueue q'))) ->
  holding busy ext' h q' (w <| heap := <[h := OQueue q']> (heap w) |>).
Proof.
  intros [HI Hh Hl Hi Hc] Hl' He. pose proof Hh as [Hn Hq]. split; try done.
  - eapply inv_store; [exact HI|exact Hq|done| |set_solver|set_solver|done|done].
    intros r. rewrite He. cbn. case_decide; lia.
  - exact (has_stored h q' w Hn).
  - by eapply unbusy_store.
  - by eapply unbusy_store.
Qed.

Lemma holding_touch busy ext h q q' w :
  holding busy ext h q w -> q_lock q' = LockHeld -> same_ring q q' ->
  holding busy ext h q' (w <| heap := <[h := OQueue q']> (heap w) |>).
Proof.
  intros Hw Hl Hs. eapply holding_store; [done..|]. intros r. cbn.
  rewrite (same_ring_contents _ _ Hs). lia.
Qed.

(** Storing a queue changes no count of a capture. *)
Lemma rc_queue_store w h q q' x :
  heap w !! h = Some (OQueue q) ->
  rc (w <| heap := <[h := OQueue q']> (heap w) |>) (KCapture, x) = rc w (KCapture, x).
Proof. intros Hq. rewrite (rc_insert w h (OQueue q)) by done. rewrite decide_False by done. lia. Qed.

Lemma wp_queue_lock busy ext h q w (Q : unit -> world -> Prop) :
  Inv busy ext w -> unbusy KImage busy w -> unbusy KCapture busy w -> h ∉ busy -> has w h q ->
  (forall w', holding busy ext h (q <| q_lock := LockHeld |>) w' -> frame h w w' ->
     (forall x, rc w' (KCapture, x) = rc w (KCapture, x)) -> Q tt w') ->
  wp (Lock q_lock h) Q w.
Proof.
  intros HI Hi Hc Hb Hh HQ. pose proof Hh as [Hn Hq].
  pose proof (inv_idle _ _ _ HI _ _ Hq Hb) as Hl. cbn in Hl.
  eapply wp_Lock; [done|by rewrite Hl|].
  apply HQ; [|apply frame_store|intros x; by apply (rc_queue_store _ _ q)].
  assert (HI' : Inv (busy ∪ {[h]}) ext w) by (eapply inv_busy; [exact HI|set_solver]).
  split; [|by apply has_stored|done| |].
  - eapply inv_touch; [exact HI'|set_solver|exact Hq|done..].
  - eapply unbusy_add; [by eapply unbusy_store|apply lookup_insert_eq|done].
  - eapply unbusy_add; [by eapply unbusy_store|apply lookup_insert_eq|done].
Qed.

Lemma wp_queue_unlock busy ext h q w (Q : unit -> world -> Prop) :
  holding busy ext h q w ->
  (forall w', Inv busy ext w' -> has w' h (q <| q_lock := LockFree |>) -> frame h w w' -> Q tt w') ->
  wp (Unlock q_lock h) Q w.
Proof.
  intros [HI Hh Hl Hi Hc] HQ. pose proof Hh as [Hn Hq].
  eapply wp_Unlock; [done|]. rewrite Hl. apply HQ; [|by apply has_stored|apply frame_store].
  eapply inv_store; [exact HI|exact Hq|done| |done|done|set_solver|done].
  intros r. change (obj_refs (to_obj (q <| q_lock := lock_release LockHeld |>))) with (obj_refs (OQueue q)).
  cbn [obj_rc to_obj queue_Context]. case_decide; lia.
Qed.

(** The oldest capture leaves the queue, with its reference. *)
Lemma wp_pop_internal busy ext h q c l w (Q : Z -> world -> Prop) :
  holding busy ext h q w -> queue_wf q -> queue_contents q = c :: l ->
  (forall w', holding busy (gain ext (KCapture, c)) h (popped q) w' -> frame h w w' ->
     (forall x, rc w' (KCapture, x) = rc w (KCapture, x)) -> Q c w') ->
  wp (queue_pop_internal_locked h) Q w.
Proof.
  intros Hw Hq Hcl HQ. pose proof (hold_has _ _ _ _ _ Hw) as Hh.
  assert (Hl : 0 < queue_length q) by (rewrite <- queue_contents_length, Hcl by done; cbn; lia).
  destruct (popped_contents q Hq Hl) as (c' & Hc & Hn & Hcont). rewrite Hcl in Hcont.
  injection Hcont as <- ->.
  pose proof Hq as [? ? ? ? (a & Ha & Hla) _].
  unfold queue_entry in Hc. rewrite Ha, Z.mod_small in Hc by done.
  destruct (a !! Z.to_nat (q_read_location q)) as [e|] eqn:He; [|done]. cbn in Hc. subst e.
  apply wp_bind. eapply wp_load; [done|]. rewrite queue_empty_spec, (proj2 (Z.eqb_neq _ 0)) by (done || lia).
  cbn [negb]. apply wp_bind. eapply wp_need; [done|]. apply wp_bind. eapply wp_need; [done|].
  apply wp_bind. eapply wp_need; [by apply inc_location_spec|].
  apply wp_bind. eapply wp_update; [done|]. apply wp_ret.
  apply HQ; [|apply frame_store|intros x; apply (rc_queue_store _ _ q), Hh].
  eapply holding_store; [done|apply Hw|]. intros r. cbn [obj_refs]. rewrite Hcl.
  fold (popped q). rewrite map_cons, count_ref_cons. ledger.
Qed.

Lemma wp_pop_internal_empty busy ext h q w (Q : Z -> world -> Prop) :
  holding busy ext h q w -> queue_wf q -> queue_contents q = [] -> Q NULL w ->
  wp (queue_pop_internal_locked h) Q w.
Proof.
  intros Hw Hq Hcl HQ. apply wp_bind. eapply wp_load; [apply Hw|].
  rewrite queue_empty_spec by done. rewrite <- queue_contents_length, Hcl by done. by apply wp_ret.
Qed.

(** A capture enters the queue, which takes over one reference. *)
Lemma wp_push_internal busy ext h q c w (Q : unit -> world -> Prop) :
  holding busy ext h q w -> queue_wf q -> queue_length q < q_depth q - 1 -> c <> NULL ->
  (forall w', holding busy (lose ext (KCapture, c)) h (pushed q c) w' -> frame h w w' -> Q tt w') ->
  wp (queue_push_internal_locked h c) Q w.
Proof.
  intros Hw Hq Hl Hc HQ. pose proof (hold_has _ _ _ _ _ Hw) as Hh. pose proof Hh as [Hn _].
  pose proof Hq as [? ? ? ? (a & Ha & Hla) _].
  apply wp_bind. eapply wp_load; [done|]. apply wp_bind. eapply wp_need; [done|].
  destruct (lookup_lt_is_Some_2 a (Z.to_nat (q_write_location q))) as [e He]; [lia|].
  apply wp_bind. eapply wp_need; [done|]. apply wp_bind. eapply wp_update; [done|].
  apply wp_bind. eapply wp_need; [by apply inc_location_spec|].
  eapply wp_update; [by apply has_stored|].
  set (q' := _ <| q_write_location := _ |>).
  assert (Eq : q' = pushed q c) by (unfold q', pushed; by rewrite Ha).
  rewrite Eq. set (w1 := _ <| heap := _ |>).
  assert (E1 : w1 = w <| heap := <[h := OQueue (pushed q c)]> (heap w) |>).
  { unfold w1. cbn. by rewrite fin_maps.insert_insert_eq. }
  rewrite E1. apply HQ; [|apply frame_store].
  eapply holding_store; [done|apply Hw|]. intros r. cbn [obj_refs].
  rewrite pushed_contents, map_app, count_ref_app by done. ledger.
Qed.

Lemma capture_frame_frame x h w w' : capture_frame x w w' -> frame h w w'.
Proof. intros [Hs _]. by eapply frame_rc_step. Qed.

(** Dropping a capture while the queue's lock is held. *)
Lemma wp_hold_unref busy ext h q c w (Q : unit -> world -> Prop) :
  holding busy ext h q w -> nonneg (lose ext (KCapture, c)) ->
  (forall w', holding busy (lose ext (KCapture, c)) h q w' -> frame h w w' ->
     (forall x, rc w' (KCapture, x) = rc w (KCapture, x) - (if decide (x = c) then 1 else 0)) -> Q tt w') ->
  wp (capture_dec_ref c) Q w.
Proof.
  intros [HI Hh Hl Hi Hc] He HQ. destruct Hh as [Hn Hq].
  assert (He1 : 1 <= ext (KCapture, c)).
  { specialize (He KCapture c ltac:(done)). unfold lose in He. rewrite decide_True in He by done. lia. }
  eapply wp_mono; [apply (wp_capture_unref _ ext c w HI)|].
  - intros k x Hk. specialize (He k x ltac:(naive_solver)). unfold lose in He. case_decide; naive_solver lia.
  - done.
  - done.
  - rewrite (inv_account _ _ _ HI). pose proof (slots_nonneg (heap w) (KCapture, c)). lia.
  - intros [] w' (HI' & Hf & Hrc). apply HQ; [|by eapply capture_frame_frame|done].
    destruct Hf as [Hs _]. split; try done.
    + split; [done|]. eapply rc_step_other; [done|done|set_solver].
    + by eapply unbusy_step.
    + by eapply unbusy_step.
Qed.

(** Taking a reference to a capture somebody holds. *)
Lemma wp_hold_ref busy ext h q c w (Q : unit -> world -> Prop) :
  holding busy ext h q w -> 0 < rc w (KCapture, c) ->
  (forall w', holding busy (gain ext (KCapture, c)) h q w' -> frame h w w' -> Q tt w') ->
  wp (capture_inc_ref c) Q w.
Proof.
  intros [HI Hh Hl Hi Hc] He HQ. destruct Hh as [Hn Hq].
  destruct (inv_live _ _ _ KCapture c HI) as (Hcn & o & Ho & Hk); [done| |].
  { by rewrite <- (inv_account _ _ _ HI). }
  destruct o as [| |cc| | |]; try done.
  eapply wp_capture_inc_ref; [exact HI|by split|]. intros w' -> HI'.
  apply HQ; [|].
  - split; try done.
    + split; [done|]. cbn. rewrite lookup_insert_ne; [done|]. intros ->. rewrite Hq in Ho. done.
    + by eapply unbusy_store.
    + by eapply unbusy_store.
  - eapply (frame_rc_step [KCapture]); [|set_solver]. eapply rc_step_store; [exact Ho|done|set_solver].
Qed.

(** What a public operation gives back: the queue, well formed, with the lock
    free and the books right. *)
Definition queue_post (busy : gset Z) (ext : ledger) (h : Z) (a : aqueue) (w w' : world) : Prop :=
  exists q', has w' h q' /\ queue_wf q' /\ abs q' = a /\ Inv busy ext w' /\ frame h w w'.

(** The conditions every public operation has. *)
Record queue_pre (busy : gset Z) (ext : ledger) (h : Z) (q : queue_context_t) (w : world) : Prop := {
  pre_inv : Inv busy ext w;
  pre_image : unbusy KImage busy w;
  pre_capture : unbusy KCapture busy w;
  pre_busy : h ∉ busy;
  pre_has : has w h q;
  pre_wf : queue_wf q;
  pre_nonneg : nonneg ext
}.

Lemma queue_post_unlock busy ext h q a w0 w (Q : unit -> world -> Prop) :
  holding busy ext h q w -> queue_wf q -> abs q = a -> frame h w0 w ->
  (forall w', queue_post busy ext h a w0 w' -> Q tt w') ->
  wp (Unlock q_lock h) Q w.
Proof.
  intros Hw Hq Ha Hf HQ. eapply wp_queue_unlock; [done|]. intros w' HI Hh Hf'. apply HQ.
  exists (q <| q_lock := LockFree |>). split_and!; [done| | |done|by eapply frame_trans].
  - by eapply same_queue_wf; [|exact Hq].
  - by rewrite <- Ha.
Qed.

Lemma queue_wf_full q : queue_wf q ->
  (Z.of_nat (length (queue_contents q)) =? q_depth q - 1) = (queue_length q =? q_depth q - 1).
Proof. intros Hq. by rewrite queue_contents_length. Qed.

(** The capture is referred to by something other than the queue, so that it
    survives the queue's dropping it. *)
Definition held_elsewhere (q : queue_context_t) (c : Z) (w : world) : Prop :=
  count_ref (KCapture, c) (obj_refs (OQueue q)) < rc w (KCapture, c).

Lemma held_pos q c w : held_elsewhere q c w -> 0 < rc w (KCapture, c).
Proof. unfold held_elsewhere. pose proof (count_ref_nonneg (KCapture, c) (obj_refs (OQueue q))). lia. Qed.

Lemma held_ext busy ext h q c w :
  Inv busy ext w -> heap w !! h = Some (OQueue q) -> 0 < ext (KCapture, c) -> held_elsewhere q c w.
Proof.
  intros HI Hq He. unfold held_elsewhere. rewrite (inv_account _ _ _ HI).
  pose proof (slots_ge _ _ _ (KCapture, c) Hq). lia.
Qed.

(** The oldest entry goes, and possibly the reference that came with it. *)
Lemma held_popped q c c0 l w w' (d : bool) :
  held_elsewhere q c w -> queue_wf q -> queue_contents q = c0 :: l -> queue_contents (popped q) = l ->
  (rc w' (KCapture, c) = rc w (KCapture, c) - (if decide (c = c0) then if d then 1 else 0 else 0)) ->
  held_elsewhere (popped q) c w'.
Proof.
  unfold held_elsewhere. intros Hh Hq Hc Hp ->. cbn [obj_refs] in *. rewrite Hp. rewrite Hc in Hh.
  rewrite map_cons, count_ref_cons in Hh. destruct d; repeat case_decide; simplify_eq; try congruence; lia.
Qed.

Lemma held_same_ring q q' c w w' :
  same_ring q q' -> (forall x, rc w' (KCapture, x) = rc w (KCapture, x)) ->
  held_elsewhere q c w -> held_elsewhere q' c w'.
Proof. unfold held_elsewhere. intros Hs Hr. cbn [obj_refs]. by rewrite (same_ring_contents _ _ Hs), Hr. Qed.

(** Making room, and adding at the end. *)
(** The end of a push, once there is room. *)
Lemma wp_push_finish busy e h q1 c w0 w1 out (Q : option Z -> world -> Prop) :
  holding busy e h q1 w1 -> queue_wf q1 -> c <> NULL -> queue_length q1 < q_depth q1 - 1 -> held_elsewhere q1 c w1 ->
  q_enabled q1 = true -> frame h w0 w1 ->
  (forall w', queue_post busy e h ((abs q1) <| aq_items := queue_contents q1 ++ [c] |>) w0 w' -> Q out w') ->
  wp (capture_inc_ref c;; queue_push_internal_locked h c;; mret out)
     (fun out w1 => wp (Unlock q_lock h) (fun _ w2 => Q out w2) w1) w1.
Proof.
  intros Hw1 Hq1 Hc Hl1 Hec1 Hen1 Hf1 HQ1.
  apply wp_bind. eapply wp_hold_ref; [done|by eapply held_pos|]. intros w2 Hw2 Hf2.
  apply wp_bind. eapply wp_push_internal; [done..|]. intros w3 Hw3 Hf3. apply wp_ret.
  eapply queue_post_unlock; [exact Hw3|by apply pushed_wf| |exact (frame_trans _ _ _ _ (frame_trans _ _ _ _ Hf1 Hf2) Hf3)|].
  - unfold abs. by rewrite pushed_contents by done.
  - intros w' (q' & H1 & H2 & H3 & H4 & H5). apply HQ1. exists q'. split_and!; try done.
    eapply inv_ext; [exact H4|]. ledger.
Qed.

Lemma wp_push_body busy ext h q c dropped w w0 (Q : option Z -> world -> Prop) :
  holding busy ext h q w -> queue_wf q -> nonneg ext -> c <> NULL -> held_elsewhere q c w ->
  q_enabled q = true -> frame h w0 w ->
  (forall w', queue_post busy (gain_capture ext (default NULL (snd (apush (abs q) c dropped)))) h
                (fst (apush (abs q) c dropped)) w0 w' -> Q (snd (apush (abs q) c dropped)) w') ->
  wp (full ← need DivideByZero (is_queue_full q);
      out ← (if (full : bool) then
               if negb dropped then
                 update h (fun q => q <| q_dropped_count := u32 (q_dropped_count q + 1) |>);;
                 c ← queue_pop_internal_locked h;
                 capture_dec_ref c;;
                 mret None
               else
                 c ← queue_pop_internal_locked h;
                 mret (Some c)
             else mret None);
      capture_inc_ref c;;
      queue_push_internal_locked h c;;
      mret out)
     (fun out w1 => wp (Unlock q_lock h) (fun _ w2 => Q out w2) w1) w.
Proof.
  intros Hw Hq He Hc Hec Hen Hf HQ. pose proof (queue_length_bound q Hq) as Hlen.
  unfold apush in HQ. cbn [abs aq_enabled aq_items aq_capacity] in HQ.
  rewrite Hen, queue_wf_full in HQ by done. cbn [negb] in HQ.
  apply wp_bind. eapply wp_need; [by apply queue_full_spec|].
  destruct (Z.eqb_spec (queue_length q) (q_depth q - 1)) as [El|El].
  2: { apply wp_bind, wp_ret. apply (wp_push_finish busy ext h q c w0); try done. lia. }
  pose proof (wf_depth q Hq) as Hd. assert (Hl0 : 0 < queue_length q) by lia.
  destruct (popped_contents q Hq Hl0) as (c0 & _ & Hc0 & Hcont). rewrite Hcont in HQ. cbn [tail head] in HQ.
  assert (Hpw : queue_wf (popped q)) by (by apply popped_wf).
  assert (Hpl : queue_length (popped q) < q_depth (popped q) - 1) by (rewrite popped_length by done; cbn; lia).
  destruct dropped; cbn [negb].
  - apply wp_bind, wp_bind. eapply wp_pop_internal; [exact Hw|done|exact Hcont|]. intros w1 Hw1 Hf1 Hr1.
    apply wp_ret. apply (wp_push_finish busy (gain ext (KCapture, c0)) h (popped q) c w0 w1 (Some c0)); try done.
    + apply (held_popped q c c0 _ w w1 false Hec Hq Hcont); [done|]. rewrite Hr1. case_decide; lia.
    + by eapply frame_trans.
    + intros w' Hw'. apply HQ. cbn. unfold gain_capture. by rewrite (proj2 (Z.eqb_neq c0 NULL)).
  - apply wp_bind, wp_bind. eapply wp_update; [apply Hw|].
    set (q1 := q <| q_dropped_count := _ |>).
    assert (Hs1 : same_ring q q1) by done.
    assert (Hq1 : queue_wf q1) by (by eapply same_queue_wf).
    pose proof (holding_touch _ _ _ q q1 _ Hw (hold_lock _ _ _ _ _ Hw) Hs1) as Hw0.
    pose proof (same_ring_contents _ _ Hs1) as Hc1. rewrite Hcont in Hc1.
    apply wp_bind. eapply wp_pop_internal; [exact Hw0|done|exact Hc1|].
    intros w1 Hw1 Hf1 Hr1. apply wp_bind. eapply wp_hold_unref; [exact Hw1| |].
    { intros k x Hk. specialize (He k x Hk). ledger. }
    intros w2 Hw2 Hf2 Hr2. apply wp_ret.
    apply (wp_push_finish busy _ h (popped q1) c w0 w2 None Q Hw2); [| |exact Hpl|..].
    + eapply same_queue_wf; [|exact Hpw]. done.
    + done.
    + apply (held_popped q1 c c0 (queue_contents (popped q)) w w2 true); [|done|exact Hc1|done|].
      * apply (held_same_ring q q1 c w); [done|done|exact Hec].
      * rewrite Hr2, Hr1, (rc_queue_store _ _ q) by apply Hw. case_decide; simplify_eq; try congruence; lia.
    + done.
    + exact (frame_trans _ _ _ _ (frame_trans _ _ _ _ Hf (frame_store _ _ _)) (frame_trans _ _ _ _ Hf1 Hf2)).
    + intros w' (q' & H1 & H2 & H3 & H4 & H5). apply HQ. exists q'. split_and!; try done.
      eapply inv_ext; [exact H4|]. unfold gain_capture. cbn. ledger.
Qed.

(** queue_push_w_dropped refines the abstract push. *)
Lemma wp_queue_push_w_dropped busy ext h q c dropped w :
  queue_pre busy ext h q w -> c <> NULL -> held_elsewhere q c w ->
  wp (queue_push_w_dropped h c dropped)
     (fun out w' => out = snd (apush (abs q) c dropped) /\
        queue_post busy (gain_capture ext (default NULL out)) h (fst (apush (abs q) c dropped)) w w') w.
Proof.
  intros [HI Hi Hcb Hb Hh Hq He] Hc Hec.
  eapply wp_if_handle_valid; [done|]. rewrite (proj2 (Z.eqb_neq c NULL)) by done.
  apply wp_bind. eapply (wp_queue_lock busy ext h q); [done..|]. intros w1 Hw1 Hf1 Hr1.
  set (q1 := q <| q_lock := LockHeld |>) in *. assert (Hs1 : same_ring q q1) by done.
  assert (Hq1 : queue_wf q1) by (by eapply same_queue_wf).
  assert (Ha1 : abs q1 = abs q) by (by unfold abs; rewrite (same_ring_contents _ _ Hs1)).
  apply wp_bind. eapply wp_load; [apply Hw1|]. change (q_enabled q1) with (q_enabled q).
  destruct (q_enabled q) eqn:Hen; cbn [negb]; apply wp_bind.
  - eapply wp_mono; [eapply (wp_push_body busy ext h q1 c dropped w1 w
      (fun out w' => out = snd (apush (abs q) c dropped) /\
        queue_post busy (gain_capture ext (default NULL out)) h (fst (apush (abs q) c dropped)) w w')); try done;
      by apply (held_same_ring q q1 c w)|].
    intros out w2 H2. apply wp_bind. eapply wp_mono; [exact H2|]. intros [] w3 H3. by apply wp_ret.
  - apply wp_ret, wp_bind. eapply (queue_post_unlock busy ext h q1 (abs q)); [exact Hw1|done|done|done|].
    intros w' Hw'. apply wp_ret. unfold apush. cbn [aq_enabled abs]. rewrite Hen. by split.
Qed.

Lemma nonneg_gain ext r : nonneg ext -> nonneg (gain ext r).
Proof. intros He k x Hk. specialize (He k x Hk). ledger. Qed.

Lemma nonneg_gain_capture ext c : nonneg ext -> nonneg (gain_capture ext c).
Proof. intros He. unfold gain_capture. destruct (c =? NULL); [done|by apply nonneg_gain]. Qed.

(** The end of queue_pop hands the capture over, or drops it when the queue
    has been disabled. *)
Definition pop_end_result (enabled : bool) (s : pop_state) : zsa_wait_result_t * Z :=
  match s with
  | PopAnswer r c => if enabled then (r, c) else (ZSA_WAIT_RESULT_FAILED, NULL)
  | _ => (ZSA_WAIT_RESULT_FAILED, NULL)
  end.

Definition pop_state_capture (s : pop_state) : Z := match s with PopAnswer _ c => c | _ => NULL end.

(** Entering and leaving queue_pop. *)
Definition aenter (a : aqueue) : aqueue := a <| aq_blocked := u32 (aq_blocked a + 1) |>.
Definition aleave (s : pop_state) (a : aqueue) : aqueue :=
  match s with PopRefused => a | _ => a <| aq_blocked := u32 (aq_blocked a - 1) |> end.

Lemma aleave_enter s a : s <> PopRefused -> 0 <= aq_blocked a < 2 ^ 32 -> aleave s (aenter a) = a.
Proof.
  intros Hs Hb. assert (E : u32 (u32 (aq_blocked a + 1) - 1) = aq_blocked a).
  { unfold u32 at 1 2. rewrite Zminus_mod_idemp_l, Z.add_simpl_r. by apply Z.mod_small. }
  destruct a, s; try done; cbn in *; by rewrite E.
Qed.

(** [queue->dropped_count] is reset and the lock is released. *)
Lemma wp_pop_reset busy ext h q w w0 b r (Q : zsa_wait_result_t * Z -> world -> Prop) :
  holding busy ext h q w -> queue_wf q -> frame h w0 w ->
  (forall w', queue_post busy ext h (abs q) w0 w' -> Q r w') ->
  wp (when b (update h (fun q => q <| q_dropped_count := 0 |>));; mret r)
     (fun r w1 => wp (Unlock q_lock h) (fun _ w2 => Q r w2) w1) w.
Proof.
  intros Hw Hq Hf HQ. apply wp_bind, wp_when; intros _.
  - eapply wp_update; [apply Hw|]. apply wp_ret.
    eapply queue_post_unlock; [eapply (holding_touch _ _ _ q); [exact Hw|apply Hw|done]| | |
      exact (frame_trans _ _ _ _ Hf (frame_store _ _ _))|exact HQ]; [by eapply same_queue_wf; [|exact Hq]|done].
  - apply wp_ret. by eapply queue_post_unlock.
Qed.

Lemma wp_pop_leave busy ext h q s w (Q : unit -> world -> Prop) :
  holding busy ext h q w -> queue_wf q ->
  (forall q' w', holding busy ext h q' w' -> queue_wf q' -> abs q' = aleave s (abs q) -> frame h w w' -> Q tt w') ->
  wp (match s with
      | PopRefused => mret tt
      | _ => update h (fun q => q <| q_queue_pop_blocked := u32 (q_queue_pop_blocked q - 1) |>)
      end) Q w.
Proof.
  intros Hw Hq HQ. destruct s; [apply wp_ret; apply (HQ q); [done|done|done|apply frame_refl]| |]; (eapply wp_update; [apply Hw|]).
  all: apply (HQ (q <| q_queue_pop_blocked := u32 (q_queue_pop_blocked q - 1) |>)); [| |done|apply frame_store].
  all: try (by eapply holding_touch; [exact Hw|apply Hw|]).
  all: by (eapply same_ring_wf; [| |exact Hq]; [done|apply u32_range]).
Qed.

Lemma wp_pop_end busy ext h q s w w0 (Q : zsa_wait_result_t * Z -> world -> Prop) :
  holding busy (gain_capture ext (pop_state_capture s)) h q w -> queue_wf q -> nonneg ext ->
  frame h w0 w -> let r := pop_end_result (q_enabled q) s in
  (forall w', queue_post busy (gain_capture ext (snd r)) h (aleave s (abs q)) w0 w' -> Q r w') ->
  wp (queue_pop_end h s) (fun r w1 => wp (Unlock q_lock h) (fun _ w2 => Q r w2) w1) w.
Proof.
  intros Hw Hq He Hf r HQ.
  unfold queue_pop_end. apply wp_bind. eapply wp_pop_leave; [done..|]. intros q1 w1 Hw1 Hq1 Ha1 Hf1.
  assert (Hf' : frame h w0 w1) by exact (frame_trans _ _ _ _ Hf Hf1).
  assert (Hen : q_enabled q1 = q_enabled q).
  { apply (f_equal aq_enabled) in Ha1. cbn in Ha1. rewrite Ha1. by destruct s. }
  assert (Hr : r = if q_enabled q1 then match s with PopAnswer r c => (r, c) | _ => (ZSA_WAIT_RESULT_FAILED, NULL) end
                   else (ZSA_WAIT_RESULT_FAILED, NULL)) by (unfold r; rewrite Hen; by destruct s, (q_enabled q)).
  rewrite Hr, <- Ha1 in HQ. clear Hr r.
  set (rc := match s with PopAnswer r c => (r, c) | _ => (ZSA_WAIT_RESULT_FAILED, NULL) end) in *.
  assert (Hc : snd rc = pop_state_capture s) by (by destruct s).
  rewrite <- Hc in *. destruct rc as [wresult capture]. cbn [snd] in *.
  apply wp_bind. eapply wp_load; [apply Hw1|].
  destruct (q_enabled q1); cbn [negb]; apply wp_bind; [apply wp_ret; by eapply wp_pop_reset|].
  apply wp_bind, wp_when.
  - intros Hn%negb_true_iff%Z.eqb_neq. unfold gain_capture in Hw1.
    rewrite (proj2 (Z.eqb_neq capture NULL)) in Hw1 by done.
    eapply wp_hold_unref; [exact Hw1| |].
    { intros k x Hk. specialize (He k x Hk). ledger. }
    intros w2 Hw2 Hf2 _. apply wp_ret.
    eapply wp_pop_reset; [exact Hw2|done|exact (frame_trans _ _ _ _ Hf' Hf2)|].
    intros w' (q' & H1 & H2 & H3 & H4 & H5). apply HQ. exists q'. split_and!; try done.
    eapply inv_ext; [exact H4|]. cbn. ledger.
  - intros Hn%negb_false_iff%Z.eqb_eq. rewrite Hn in *. apply wp_ret.
    by eapply (wp_pop_reset busy ext).
Qed.

(** The first half of queue_pop: what it decides, without waiting. *)
Lemma wp_pop_begin busy ext h q wait w (Q : pop_state -> world -> Prop) :
  holding busy ext h q w -> queue_wf q ->
  (q_enabled q = false -> Q PopRefused w) ->
  (forall c l w' q', q_enabled q = true -> queue_contents q = c :: l ->
     holding busy (gain ext (KCapture, c)) h q' w' -> queue_wf q' ->
     abs q' = aenter ((abs q) <| aq_items := l |>) -> c <> NULL -> frame h w w' ->
     Q (PopAnswer ZSA_WAIT_RESULT_SUCCEEDED c) w') ->
  (forall w' q', q_enabled q = true -> queue_contents q = [] -> holding busy ext h q' w' -> queue_wf q' ->
     abs q' = aenter (abs q) -> frame h w w' ->
     Q (if wait =? 0 then PopAnswer ZSA_WAIT_RESULT_TIMEOUT NULL else PopWait) w') ->
  wp (queue_pop_begin h wait) Q w.
Proof.
  intros Hw Hq HR HA HE. apply wp_bind. eapply wp_load; [apply Hw|].
  destruct (q_enabled q) eqn:Hen; cbn [negb]; [|apply wp_ret; auto].
  apply wp_bind. eapply wp_update; [apply Hw|].
  set (q1 := q <| q_queue_pop_blocked := _ |>).
  assert (Hs1 : same_ring q q1) by done.
  assert (Hq1 : queue_wf q1) by (eapply same_ring_wf; [done|apply u32_range|done]).
  pose proof (holding_touch _ _ _ _ q1 _ Hw (hold_lock _ _ _ _ _ Hw) Hs1) as Hw1.
  pose proof (same_ring_contents _ _ Hs1) as Hc1.
  apply wp_bind. destruct (queue_contents q) as [|c l] eqn:Hcl.
  - eapply wp_pop_internal_empty; [exact Hw1|done|done|]. cbn [negb Z.eqb].
    specialize (HE _ _ eq_refl eq_refl Hw1 Hq1 ltac:(unfold abs; by rewrite Hc1, Hcl) (frame_store _ _ _)).
    revert HE. destruct (wait =? 0); intros HE; by apply wp_ret.
  - pose proof (queue_contents_nonnull q Hq) as Hnn. rewrite Hcl in Hnn. apply Forall_cons_1 in Hnn as [Hc _].
    eapply (wp_pop_internal _ _ _ q1 c l); [exact Hw1|done|done|].
    intros w2 Hw2 Hf2 _. rewrite (proj2 (Z.eqb_neq c NULL)) by done. cbn [negb]. apply wp_ret.
    assert (Hl : 0 < queue_length q1) by (rewrite <- queue_contents_length, Hc1 by done; cbn; lia).
    destruct (popped_contents q1 Hq1 Hl) as (c' & _ & _ & Hcont). rewrite Hc1 in Hcont.
    injection Hcont as <- Hcont.
    eapply HA; [done|done|exact Hw2|by apply popped_wf| |done|exact (frame_trans _ _ _ _ (frame_store _ _ _) Hf2)].
    unfold abs. by rewrite <- Hcont.
Qed.

Lemma wp_pop_finish busy ext h q s w w0 (Q : zsa_wait_result_t * option Z -> world -> Prop) :
  holding busy (gain_capture ext (pop_state_capture s)) h q w -> queue_wf q -> nonneg ext ->
  frame h w0 w -> let r := pop_end_result (q_enabled q) s in
  (forall w', queue_post busy (gain_capture ext (snd r)) h (aleave s (abs q)) w0 w' -> Q (fst r, Some (snd r)) w') ->
  wp (r ← queue_pop_end h s; Unlock q_lock h;; mret (fst r, Some (snd r))) Q w.
Proof.
  intros Hw Hq He Hf r HQ. apply wp_bind.
  eapply wp_mono; [apply (wp_pop_end busy ext h q s w w0 (fun r w' => Q (fst r, Some (snd r)) w')); auto|].
  intros r' w2 H2. apply wp_bind. eapply wp_mono; [exact H2|]. intros [] w3 H3. by apply wp_ret.
Qed.

(** queue_pop that does not have to wait refines the abstract pop. *)
Lemma wp_queue_pop busy ext h q wait w :
  queue_pre busy ext h q w ->
  wait = 0 \/ q_enabled q = false \/ queue_contents q <> [] ->
  wp (queue_pop h wait true)
     (fun r w' => r = (fst (snd (apop (abs q))), Some (snd (snd (apop (abs q))))) /\
        queue_post busy (gain_capture ext (snd (snd (apop (abs q))))) h (fst (apop (abs q))) w w') w.
Proof.
  intros [HI Hi Hcb Hb Hh Hq He] Hnow.
  eapply wp_if_handle_valid; [done|]. cbn [negb].
  apply wp_bind. eapply (wp_queue_lock busy ext h q); [done..|]. intros w1 Hw1 Hf1 Hr1.
  set (q1 := q <| q_lock := LockHeld |>) in *. assert (Hs1 : same_ring q q1) by done.
  assert (Hq1 : queue_wf q1) by (by eapply same_queue_wf).
  pose proof (same_ring_contents _ _ Hs1) as Hc1.
  assert (Ha1 : abs q1 = abs q) by done.
  unfold apop. cbn [abs aq_enabled aq_items aq_capacity].
  apply wp_bind. eapply (wp_pop_begin busy ext h q1); [done|done|..];
    change (q_enabled q1) with (q_enabled q); rewrite ?Hc1, ?Ha1.
  - intros Hen. rewrite Hen. cbn [negb fst snd]. apply wp_bind, wp_ret.
    eapply (wp_pop_finish busy ext h q1 PopRefused); [done..|]. cbn [pop_end_result fst snd aleave].
    rewrite Ha1. intros w' Hw'. by split.
  - intros c l w2 q2 Hen Hcl Hw2 Hq2 Ha2 Hc Hf2. rewrite Hen, Hcl. cbn [negb fst snd].
    assert (Hen2 : q_enabled q2 = true) by exact (eq_trans (f_equal aq_enabled Ha2) Hen).
    apply wp_bind, wp_ret.
    eapply (wp_pop_finish busy ext h q2 (PopAnswer ZSA_WAIT_RESULT_SUCCEEDED c)); [|done|done|exact (frame_trans _ _ _ _ Hf1 Hf2)|].
    + unfold gain_capture. cbn [pop_state_capture]. by rewrite (proj2 (Z.eqb_neq c NULL)).
    + rewrite Hen2, Ha2, aleave_enter by (done || apply Hq). cbn [pop_end_result fst snd]. intros w' Hw'. by split.
  - intros w2 q2 Hen Hcl Hw2 Hq2 Ha2 Hf2. rewrite Hen, Hcl. cbn [negb fst snd].
    assert (Hen2 : q_enabled q2 = true) by exact (eq_trans (f_equal aq_enabled Ha2) Hen).
    destruct Hnow as [->|[Hx|Hx]]; [|congruence|congruence]. cbn [Z.eqb].
    apply wp_bind, wp_ret.
    eapply (wp_pop_finish busy ext h q2 (PopAnswer ZSA_WAIT_RESULT_TIMEOUT NULL)); [exact Hw2|done|done|exact (frame_trans _ _ _ _ Hf1 Hf2)|].
    rewrite Hen2, Ha2, aleave_enter by (done || apply Hq). cbn [pop_end_result fst snd]. intros w' Hw'. by split.
Qed.

(** Draining: one turn per capture in the queue, whose references go. *)
Lemma wp_queue_drain busy ext h l : forall fuel q w (Q : unit -> world -> Prop),
  holding busy ext h q w -> queue_wf q -> nonneg ext -> queue_contents q = l -> (length l <= fuel)%nat ->
  (forall w' q', holding busy ext h q' w' -> queue_wf q' -> queue_contents q' = [] ->
     (abs q') <| aq_items := [] |> = (abs q) <| aq_items := [] |> -> frame h w w' -> Q tt w') ->
  wp (queue_drain fuel h) Q w.
Proof.
  induction l as [|c l IH]; intros fuel q w Q Hw Hq He Hcl Hfuel HQ.
  - assert (Hemp : is_queue_empty q = true) by (by rewrite queue_empty_spec, <- queue_contents_length, Hcl).
    destruct fuel; (apply wp_bind; eapply wp_load; [apply Hw|]; rewrite Hemp; apply wp_ret;
      eapply HQ; try done; apply frame_refl).
  - destruct fuel as [|fuel]; [cbn in Hfuel; lia|].
    assert (Hl : 0 < queue_length q) by (rewrite <- queue_contents_length, Hcl by done; cbn; lia).
    apply wp_bind. eapply wp_load; [apply Hw|].
    rewrite queue_empty_spec, (proj2 (Z.eqb_neq _ 0)) by (done || lia).
    apply wp_bind. eapply wp_pop_internal; [done..|]. intros w1 Hw1 Hf1 _.
    apply wp_bind. eapply wp_hold_unref; [exact Hw1| |].
    { intros k x Hk. specialize (He k x Hk). ledger. }
    intros w2 Hw2 Hf2 _. destruct (popped_contents q Hq Hl) as (c' & _ & _ & Hcont).
    rewrite Hcl in Hcont. injection Hcont as <- Hcont.
    assert (Hw2' : holding busy ext h (popped q) w2).
    { destruct Hw2 as [HI2 ? ? ? ?]. split; try done. eapply inv_ext; [exact HI2|]. ledger. }
    eapply (IH fuel (popped q)); [exact Hw2'|by apply popped_wf|done|done|cbn in Hfuel; lia|].
    intros w' q' Hw' Hq' Hc' Ha' Hf'. eapply HQ; try done.
    exact (frame_trans _ _ _ _ (frame_trans _ _ _ _ Hf1 Hf2) Hf').
Qed.

Lemma drain_fuel q : queue_wf q -> (length (queue_contents q) <= Z.to_nat (q_depth q))%nat.
Proof. intros Hq. pose proof (queue_contents_length q Hq). pose proof (queue_length_bound q Hq). lia. Qed.

(** The rest of queue_disable, once nobody is blocked. *)
Lemma wp_disable_rest busy ext h q w w0 (Q : unit -> world -> Prop) :
  holding busy ext h q w -> queue_wf q -> nonneg ext -> q_enabled q = false -> frame h w0 w ->
  (forall w', queue_post busy ext h (adisable (abs q)) w0 w' -> Q tt w') ->
  wp (q ← load queue_context_t h; queue_drain (Z.to_nat (q_depth q)) h;; Unlock q_lock h) Q w.
Proof.
  intros Hw Hq He Hen Hf HQ. apply wp_bind. eapply wp_load; [apply Hw|].
  apply wp_bind. eapply wp_queue_drain; [done..|by apply drain_fuel|].
  intros w1 q1 Hw1 Hq1 Hc1 Ha1 Hf1.
  eapply queue_post_unlock; [exact Hw1|done| |exact (frame_trans _ _ _ _ Hf Hf1)|done].
  unfold abs, adisable in *. cbn in *. injection Ha1 as -> -> ->. by rewrite Hc1, Hen.
Qed.

(** Nobody is blocked in queue_pop: queue_disable empties the queue at once. *)
Lemma wp_queue_disable busy ext h q w :
  queue_pre busy ext h q w -> q_queue_pop_blocked q = 0 ->
  wp (queue_disable h) (fun _ => queue_post busy ext h (adisable (abs q)) w) w.
Proof.
  intros [HI Hi Hcb Hb Hh Hq He] Hbl.
  eapply wp_if_handle_valid; [done|].
  apply wp_bind. eapply (wp_queue_lock busy ext h q); [done..|]. intros w1 Hw1 Hf1 Hr1.
  apply wp_bind. eapply wp_update; [apply Hw1|].
  set (q2 := _ <| q_enabled := false |>). assert (Hs2 : same_ring q q2) by done.
  assert (Hq2 : queue_wf q2) by (by eapply same_queue_wf).
  assert (Hw2 : holding busy ext h q2 (w1 <| heap := <[h := OQueue q2]> (heap w1) |>)).
  { eapply holding_touch; [exact Hw1|done|done]. }
  apply wp_bind. assert (Hwait : forall fuel Q, Q tt (w1 <| heap := <[h := OQueue q2]> (heap w1) |>) ->
    wp (wait_not_blocked fuel h) Q (w1 <| heap := <[h := OQueue q2]> (heap w1) |>)).
  { intros fuel Q HQ. destruct fuel; (apply wp_bind; eapply wp_load; [apply Hw2|];
      change (q_queue_pop_blocked q2) with (q_queue_pop_blocked q); rewrite Hbl; by apply wp_ret). }
  apply Hwait. eapply wp_disable_rest; [exact Hw2|done|done|done|exact (frame_trans _ _ _ _ Hf1 (frame_store _ _ _))|].
  intros w' Hw'. exact Hw'.
Qed.

Lemma wp_queue_stop busy ext h q w :
  queue_pre busy ext h q w -> q_queue_pop_blocked q = 0 ->
  wp (queue_stop h) (fun _ => queue_post busy ext h (adisable (abs q)) w) w.
Proof.
  intros Hpre Hbl. pose proof Hpre as [HI Hi Hcb Hb Hh Hq He].
  apply wp_bind. eapply wp_get_context; [exact Hh|].
  apply wp_bind. eapply (wp_queue_lock busy ext h q); [done..|]. intros w1 Hw1 Hf1 Hr1.
  apply wp_bind. eapply wp_update; [apply Hw1|].
  set (q2 := _ <| q_stopped := true |>). assert (Hs2 : same_ring q q2) by done.
  apply wp_bind. eapply (wp_queue_unlock busy ext h q2); [eapply holding_touch; [exact Hw1|done|done]|].
  intros w3 HI3 Hh3 Hf3. set (q3 := q2 <| q_lock := LockFree |>) in *.
  assert (Hf : frame h w w3) by exact (frame_trans _ _ _ _ Hf1 (frame_trans _ _ _ _ (frame_store _ _ _) Hf3)).
  eapply wp_mono; [apply (wp_queue_disable busy ext h q3)|].
  - split; try done; try (by eapply unbusy_frame). by apply (same_queue_wf q).
  - exact Hbl.
  - intros [] w4 (q4 & H1 & H2 & H3 & H4 & H5). exists q4. split_and!; try done.
    by eapply frame_trans.
Qed.

Lemma wp_queue_enable busy ext h q w :
  queue_pre busy ext h q w ->
  wp (queue_enable h) (fun _ => queue_post busy ext h (aenable (abs q)) w) w.
Proof.
  intros [HI Hi Hcb Hb Hh Hq He].
  eapply wp_if_handle_valid; [done|].
  apply wp_bind. eapply (wp_queue_lock busy ext h q); [done..|]. intros w1 Hw1 Hf1 Hr1.
  apply wp_bind. eapply wp_update; [apply Hw1|].
  set (q2 := _ <| q_stopped := false |>). assert (Hs2 : same_ring q q2) by done.
  eapply (queue_post_unlock busy ext h q2); [|by eapply same_queue_wf| |exact (frame_trans _ _ _ _ Hf1 (frame_store _ _ _))|done].
  - eapply holding_touch; [exact Hw1|done|done].
  - unfold abs, aenable. by rewrite (same_ring_contents _ _ Hs2).
Qed.

Lemma wp_queue_destroy busy ext h q w :
  queue_pre busy ext h q w -> q_queue_pop_blocked q = 0 ->
  wp (queue_destroy h) (fun _ w' => Inv busy ext w' /\ heap w' !! h = None /\ frame h w w') w.
Proof.
  intros Hpre Hbl. pose proof Hpre as [_ _ _ _ Hh _ _]. pose proof Hh as [Hn _].
  eapply wp_if_handle_valid; [done|]. apply wp_bind.
  eapply wp_mono; [by apply (wp_queue_disable busy ext h q)|].
  intros [] w1 (q1 & Hh1 & Hq1 & Ha1 & HI1 & Hf1).
  apply wp_bind. eapply wp_update; [exact Hh1|].
  eapply wp_destroy; [by apply has_stored|]. cbn. rewrite delete_insert_eq. split_and!.
  - change (Inv busy ext (w1 <| heap := delete h (heap w1) |>)).
    eapply inv_delete; [exact HI1|apply Hh1|done|]. intros r. cbn [obj_refs to_obj queue_Context].
    assert (Hc : queue_contents q1 = []) by (by injection Ha1). rewrite Hc. cbn.
    rewrite count_ref_nil. case_decide; lia.
  - by rewrite lookup_delete_eq.
  - eapply frame_trans; [exact Hf1|]. split; [done|]. intros x Hx. left. cbn. by rewrite lookup_delete_ne.
Qed.

(** The context queue_create makes. *)
Definition new_queue (depth : Z) (condition : bool) : queue_context_t :=
  mkQueue false false 0 0 0 (Some (replicate (Z.to_nat (depth + 1)) None)) (depth + 1) 0 LockFree condition.

Lemma new_queue_wf depth b : 1 <= depth <= 10000 -> queue_wf (new_queue depth b).
Proof.
  intros Hd. split; cbn; try lia.
  - eexists. split; [done|]. by rewrite length_replicate.
  - intros i. unfold queue_length. cbn. rewrite Z.mod_0_l by lia. lia.
Qed.

Lemma new_queue_contents depth b : 1 <= depth <= 10000 -> queue_contents (new_queue depth b) = [].
Proof.
  intros Hd. unfold queue_contents, queue_length. cbn. rewrite Z.mod_0_l by lia. done.
Qed.

(** A queue at rest: nobody holds its lock or waits in it, and it is empty. *)
Record resting (q : queue_context_t) : Prop := {
  rest_lock : q_lock q <> LockHeld;
  rest_empty : q_read_location q = q_write_location q;
  rest_blocked : q_queue_pop_blocked q = 0
}.

Lemma wp_queue_disable_resting h q w :
  has w h q -> resting q ->
  wp (queue_disable h)
     (fun _ w' => w' = w <| heap := <[h := OQueue (q <| q_enabled := false |>)]> (heap w) |>) w.
Proof.
  intros Hh [Hl Hrw Hb]. pose proof Hh as [Hn _].
  assert (exists l, lock_acquire (q_lock q) = Some l /\ lock_release l = q_lock q) as (l & Ha & Hr).
  { destruct (q_lock q); [by exists LockNull|by exists LockHeld|done]. }
  assert (Hs : forall c w, has (w <| heap := <[h := OQueue c]> (heap w) |>) h c)
    by (intros c w0; exact (has_stored h c w0 Hn)).
  eapply wp_if_handle_valid; [done|].
  apply wp_bind. eapply (wp_Lock q_lock h q l); [done|done|].
  apply wp_bind. eapply wp_update; [apply Hs|].
  apply wp_bind. assert (Hw : forall fuel Q c w, q_queue_pop_blocked c = 0 -> has w h c -> Q tt w ->
                     wp (wait_not_blocked fuel h) Q w).
  { intros fuel Q c w0 Hc Hh0 HQ. destruct fuel; (apply wp_bind; eapply wp_load; [done|]; rewrite Hc; by apply wp_ret). }
  eapply Hw; [|apply Hs|]; [exact Hb|]. apply wp_bind. eapply wp_load; [apply Hs|].
  assert (Hd : forall fuel Q c w, is_queue_empty c = true -> has w h c -> Q tt w -> wp (queue_drain fuel h) Q w).
  { intros fuel Q c w0 Hc Hh0 HQ. destruct fuel; (apply wp_bind; eapply wp_load; [done|]; rewrite Hc; by apply wp_ret). }
  apply wp_bind. eapply Hd; [|apply Hs|].
  { unfold is_queue_empty. cbn. rewrite Hrw. apply Z.eqb_refl. }
  eapply wp_Unlock; [apply Hs|]. cbn. rewrite !fin_maps.insert_insert_eq, Hr. by destruct q.
Qed.

Lemma wp_queue_destroy_resting h q w :
  has w h q -> resting q -> wp (queue_destroy h) (fun _ w' => w' = w <| heap := delete h (heap w) |>) w.
Proof.
  intros Hh Hr. pose proof Hh as [Hn _]. eapply wp_if_handle_valid; [done|].
  apply wp_bind. eapply wp_mono; [by apply wp_queue_disable_resting|]. intros _ w1 ->.
  apply wp_bind. eapply wp_update; [exact (has_stored h _ _ Hn)|].
  eapply wp_destroy; [exact (has_stored h _ _ Hn)|]. cbn. by rewrite fin_maps.insert_insert_eq, delete_insert_eq.
Qed.

Lemma inv_queue_created busy ext w t : Inv busy ext w ->
  Inv (busy ∪ {[fresh w]}) ext (w <| tick := t |> <| heap := <[fresh w := OQueue zeroed]> (heap w) |> <| fresh := fresh w + 1 |>).
Proof. intros HI. by apply (inv_created busy ext w t (OQueue zeroed)). Qed.

Lemma queue_create_inv busy ext h q q' w w' :
  Inv (busy ∪ {[h]}) ext w -> heap w !! h = Some (OQueue q) ->
  heap w' = <[h := OQueue q']> (heap w) -> fresh w' = fresh w -> g_counts w' = g_counts w ->
  g_allocator w' = g_allocator w -> queue_contents q' = queue_contents q -> q_lock q' = LockFree ->
  Inv busy ext w'.
Proof.
  intros HI Hh Eh Ef Ec Eg Hc Hl.
  apply (inv_frame _ _ (w <| heap := <[h := OQueue q']> (heap w) |>)); try done;
    [|intros g; rewrite Eg; by eapply inv_allocator].
  eapply inv_store; [exact HI|exact Hh|done| |done|done|set_solver|done].
  intros r. cbn [obj_refs]. rewrite Hc. cbn. case_decide; lia.
Qed.

Lemma queue_uncreate_inv busy ext h q w w' :
  Inv (busy ∪ {[h]}) ext w -> heap w !! h = Some (OQueue q) -> queue_contents q = [] ->
  heap w' = delete h (heap w) -> fresh w' = fresh w -> g_counts w' = g_counts w ->
  g_allocator w' = g_allocator w -> Inv busy ext w'.
Proof.
  intros HI Hh Hc Eh Ef Ec Eg.
  apply (inv_frame _ _ (w <| heap := delete h (heap w) |>)); try done;
    [|intros g; rewrite Eg; by eapply inv_allocator].
  eapply inv_delete; [exact HI|exact Hh|set_solver|].
  intros r. cbn [obj_refs]. rewrite Hc. cbn. rewrite count_ref_nil. case_decide; lia.
Qed.

(** queue_create with a sensible depth. *)
Lemma wp_queue_create busy ext depth w :
  Inv busy ext w -> 1 <= depth <= 10000 -> calloc_ok (tick w) = true ->
  wp (queue_create depth)
     (fun r w' => only_heap w w' /\
        match r with
        | (ZSA_RESULT_SUCCEEDED, out) =>
            let h := fresh w in
            exists b, out = Some h /\ has w' h (new_queue depth b) /\
              heap w' = <[h := OQueue (new_queue depth b)]> (heap w) /\ Inv busy ext w'
        | (ZSA_RESULT_FAILED, out) => out = Some NULL /\ heap w' = heap w /\ Inv busy ext w'
        end) w.
Proof.
  intros HI Hd Hok. pose proof (inv_fresh _ _ _ HI) as Hf0. pose proof (inv_fresh_none _ _ _ HI) as Hnone.
  assert (Hn : fresh w <> NULL) by (unfold NULL; lia).
  pose proof (inv_queue_created busy ext w (S (tick w)) HI) as HI1.
  unfold queue_create. apply wp_bind, wp_handle_create_ok; [done|].
  rewrite (proj2 (Z.eqb_neq depth 0)), Z.gtb_ltb, (proj2 (Z.ltb_ge _ _)) by lia.
  set (h := fresh w) in *. set (w1 := _ <| fresh := _ |>) in *.
  assert (Hs : forall c w, has (w <| heap := <[h := OQueue c]> (heap w) |>) h c)
    by (intros c w0; exact (has_stored h c w0 Hn)).
  assert (Hfr : forall w' o, heap w' = <[h := o]> (heap w) -> delete h (heap w') = heap w).
  { intros w' o ->. by apply delete_insert_id. }
  apply wp_bind. eapply wp_update; [split; [exact Hn|apply lookup_insert_eq]|].
  apply wp_bind, wp_ask, wp_bind. eapply wp_update; [apply Hs|].
  rewrite (u32_id (depth + 1)) by lia.
  clear Hok. destruct (calloc_ok _); cbn [ZSA_RESULT_FROM_BOOL ZSA_SUCCEEDED]; apply wp_bind.
  - apply wp_bind, wp_Lock_Init. intros t l Hl. apply wp_bind. eapply wp_update; [apply Hs|]. apply wp_ret.
    case_bool_decide as El; cbn [ZSA_RESULT_FROM_BOOL ZSA_SUCCEEDED].
    + assert (l = LockFree) as -> by (by destruct l).
      apply wp_bind, wp_ask, wp_bind. eapply wp_update; [apply Hs|]. apply wp_ret.
      split; [split; [done|cbn; lia]|]. eexists. split_and!; [done|apply (Hs (new_queue depth _))| |].
      * cbn. by rewrite !fin_maps.insert_insert_eq.
      * eapply (queue_create_inv busy ext h zeroed (new_queue depth _));
          [exact HI1|apply lookup_insert_eq| |done|done|done|exact (new_queue_contents depth _ Hd)|done].
        cbn. by rewrite !fin_maps.insert_insert_eq.
    + apply wp_bind. eapply wp_mono; [eapply wp_queue_destroy_resting; [apply Hs|by split]|].
      intros [] w' ->. apply wp_ret. split_and!; [split; [done|cbn; lia]|done| |].
      * cbn. by rewrite !fin_maps.insert_insert_eq, delete_insert_id.
      * eapply (queue_uncreate_inv busy ext h zeroed);
          [exact HI1|apply lookup_insert_eq|done| |done..].
        cbn. by rewrite !fin_maps.insert_insert_eq, !delete_insert_eq.
  - apply wp_ret, wp_bind.
    eapply wp_mono; [eapply wp_queue_destroy_resting; [apply Hs|by split]|].
    intros [] w' ->. apply wp_ret. split_and!; [split; [done|cbn; lia]|done| |].
    + cbn. by rewrite !fin_maps.insert_insert_eq, delete_insert_id.
    + eapply (queue_uncreate_inv busy ext h zeroed);
          [exact HI1|apply lookup_insert_eq|done| |done..].
      cbn. by rewrite !fin_maps.insert_insert_eq, !delete_insert_eq.
Qed.

(** Condition_Wait, when the other threads are known to leave the queue in a
    state [R] allows for the answer it gives. *)
Lemma wp_Condition_Wait busy ext h q ms w (R : COND_RESULT -> ledger -> queue_context_t -> Prop)
    (Q : COND_RESULT -> world -> Prop) :
  holding busy ext h q w -> queue_wf q -> nonneg ext -> h ∉ busy -> q_condition q = true ->
  (forall t w1, queue_pre busy ext h (q <| q_lock := LockFree |>) w1 ->
     let '(r, w2) := Condition_Wait_others t ms w1 in
     exists ext' q', queue_pre busy ext' h q' w2 /\ R r ext' q') ->
  (forall r ext' q' w', R r ext' q' -> nonneg ext' -> queue_wf q' ->
     holding busy ext' h (q' <| q_lock := LockHeld |>) w' -> Q r w') ->
  wp (Condition_Wait h ms) Q w.
Proof.
  intros Hw Hq He Hb Hcond Hothers HQ. pose proof Hw as [_ Hh Hl Hi Hc].
  apply wp_bind. eapply wp_load; [exact Hh|]. rewrite Hcond, Hl. cbn.
  apply wp_bind. eapply wp_queue_unlock; [exact Hw|]. intros w1 HI1 Hh1 Hf1.
  assert (Hu : forall k, unbusy k (busy ∪ {[h]}) w -> unbusy k busy w1).
  { intros k Hk. eapply unbusy_frame; [|exact Hb|exact Hf1]. intros x o Hx. apply Hk. set_solver. }
  assert (Hpre : queue_pre busy ext h (q <| q_lock := LockFree |>) w1).
  { split; auto. by eapply same_queue_wf; [|exact Hq]. }
  specialize (Hothers (tick w1) w1 Hpre). apply wp_bind. unfold wp at 1.
  destruct (Condition_Wait_others (tick w1) ms w1) as [r w2].
  destruct Hothers as (ext' & q' & [HI2 Hi2 Hc2 _ Hh2 Hq2 He2] & HR).
  apply wp_bind. eapply (wp_queue_lock busy ext' h q'); [by apply inv_tick|done|done|done|done|].
  intros w3 Hw3 _ _. apply wp_ret. by eapply HQ.
Qed.
End specs.

(** * Properties *)

(** A session of a client with a queue. *)
Inductive queue_op : Type :=
| OpPush (c : Z)
| OpPushDropped (c : Z)
| OpPop
| OpEnable
| OpDisable.

(** What a call gives back: a capture the queue dropped, or the answer of
    queue_pop with its capture. *)
Inductive op_result : Type :=
| ResNone
| ResDropped (o : option Z)
| ResPopped (wresult : zsa_wait_result_t) (capture : Z).

Definition result_capture (r : op_result) : Z :=
  match r with ResNone => NULL | ResDropped o => default NULL o | ResPopped _ c => c end.

Definition arun_op (a : aqueue) (op : queue_op) : aqueue * op_result :=
  match op with
  | OpPush c => (fst (apush a c false), ResNone)
  | OpPushDropped c => (fst (apush a c true), ResDropped (snd (apush a c true)))
  | OpPop => (fst (apop a), ResPopped (fst (snd (apop a))) (snd (snd (apop a))))
  | OpEnable => (aenable a, ResNone)
  | OpDisable => (adisable a, ResNone)
  end.

Fixpoint arun (a : aqueue) (ops : list queue_op) : aqueue * list op_result :=
  match ops with
  | [] => (a, [])
  | op :: ops =>
      let '(a1, r) := arun_op a op in
      let '(a2, rs) := arun a1 ops in (a2, r :: rs)
  end.

Section properties.
Context `{Platform}.

Definition run_op (h : Z) (op : queue_op) : Mw op_result :=
  match op with
  | OpPush c => queue_push h c;; mret ResNone
  | OpPushDropped c => o ← queue_push_w_dropped h c true; mret (ResDropped o)
  | OpPop => r ← queue_pop h 0 true; mret (ResPopped (fst r) (default NULL (snd r)))
  | OpEnable => queue_enable h;; mret ResNone
  | OpDisable => queue_disable h;; mret ResNone
  end.

Fixpoint run_ops (h : Z) (ops : list queue_op) : Mw (list op_result) :=
  match ops with
  | [] => mret []
  | op :: ops => r ← run_op h op; rs ← run_ops h ops; mret (r :: rs)
  end.

Definition op_ok (ext : ledger) (op : queue_op) : Prop :=
  match op with OpPush c | OpPushDropped c => c <> NULL /\ 0 < ext (KCapture, c) | _ => True end.

(** The client owns what it got back. *)
Definition owned (ext : ledger) (rs : list op_result) : ledger :=
  foldl (fun e r => gain_capture e (result_capture r)) ext rs.

Lemma op_ok_gain ext c op : op_ok ext op -> op_ok (gain_capture ext c) op.
Proof.
  destruct op; try done; cbn; intros [Hn He]; (split; [done|]); unfold gain_capture;
    (destruct (c =? NULL); [done|]); ledger.
Qed.

Lemma queue_post_pre busy ext ext' h q a w w' :
  queue_pre busy ext h q w -> nonneg ext' -> queue_post busy ext' h a w w' ->
  exists q', queue_pre busy ext' h q' w' /\ abs q' = a.
Proof.
  intros [HI Hi Hc Hb Hh Hq He] He' (q' & Hh' & Hq' & Ha & HI' & Hf).
  exists q'. split; [|done]. split; try done; by eapply unbusy_frame.
Qed.

Lemma arun_op_blocked a op : aq_blocked (fst (arun_op a op)) = aq_blocked a.
Proof.
  destruct a as [en cap items b], op; cbn; try done; unfold apush, apop; cbn;
    (destruct en; cbn; [|done]); try (destruct items; done); by case_match.
Qed.

Lemma arun_op_none a c : default NULL (snd (apush a c false)) = NULL.
Proof. unfold apush. by repeat case_match. Qed.

(** One call refines its abstract counterpart. *)
Lemma wp_run_op busy ext h q op w :
  queue_pre busy ext h q w -> op_ok ext op -> q_queue_pop_blocked q = 0 ->
  wp (run_op h op)
     (fun r w' => r = snd (arun_op (abs q) op) /\
        queue_post busy (gain_capture ext (result_capture r)) h (fst (arun_op (abs q) op)) w w') w.
Proof.
  intros Hpre Hok Hb.
  assert (Hheld : forall c, 0 < ext (KCapture, c) -> held_elsewhere q c w).
  { intros c Hc. eapply held_ext; [apply Hpre|apply Hpre|done]. }
  destruct op as [c|c| | |]; cbn [run_op arun_op fst snd]; apply wp_bind.
  - destruct Hok as [Hn He]. apply wp_bind.
    eapply wp_mono; [apply (wp_queue_push_w_dropped busy ext h q c false); auto|].
    intros o w1 [-> H1]. apply wp_ret, wp_ret. split; [done|]. by rewrite arun_op_none in H1.
  - destruct Hok as [Hn He].
    eapply wp_mono; [apply (wp_queue_push_w_dropped busy ext h q c true); auto|].
    intros o w1 [-> H1]. by apply wp_ret.
  - eapply wp_mono; [apply (wp_queue_pop busy ext h q 0); auto|].
    intros r w1 [-> H1]. by apply wp_ret.
  - eapply wp_mono; [by apply (wp_queue_enable busy ext h q)|]. intros [] w1 H1. by apply wp_ret.
  - eapply wp_mono; [by apply (wp_queue_disable busy ext h q)|]. intros [] w1 H1. by apply wp_ret.
Qed.

Lemma wp_run_ops busy h ops : forall ext q w,
  queue_pre busy ext h q w -> Forall (op_ok ext) ops -> q_queue_pop_blocked q = 0 ->
  wp (run_ops h ops)
     (fun rs w' => rs = snd (arun (abs q) ops) /\
        exists q', queue_pre busy (owned ext rs) h q' w' /\ abs q' = fst (arun (abs q) ops) /\
          q_queue_pop_blocked q' = 0) w.
Proof.
  induction ops as [|op ops IH]; intros ext q w Hpre Hok Hb.
  { apply wp_ret. split; [done|]. by exists q. }
  apply Forall_cons in Hok as [Hop Hops].
  apply wp_bind. eapply wp_mono; [by apply (wp_run_op busy ext h q op)|].
  intros r w1 [Er Hpost]. pose proof Hpre as [_ _ _ _ _ _ He].
  destruct (queue_post_pre _ _ _ _ _ _ _ _ Hpre (nonneg_gain_capture _ _ He) Hpost) as (q1 & Hpre1 & Ha1).
  assert (Hb1 : q_queue_pop_blocked q1 = 0).
  { apply (f_equal aq_blocked) in Ha1. rewrite arun_op_blocked in Ha1. by rewrite <- Hb. }
  apply wp_bind. eapply wp_mono; [apply (IH _ _ _ Hpre1)|]; [|done|].
  { eapply Forall_impl; [exact Hops|]. intros o. apply op_ok_gain. }
  intros rs w2 (Ers & q2 & Hpre2 & Ha2 & Hb2). apply wp_ret. cbn [arun].
  rewrite Ha1 in Ers, Ha2. destruct (arun_op (abs q) op) as [a1 r1] eqn:E1. cbn in Er, Ers, Ha2.
  destruct (arun a1 ops) as [a2 rs2] eqn:E2. cbn in *. split; [congruence|]. by exists q2.
Qed.

(** C1: a new queue, used by any sequence of calls, behaves as the abstract
    queue: first in first out, at most [depth] captures, the oldest dropped
    when it is full, nothing accepted or handed out while it is disabled.
    Every call returns what the abstract queue returns; the client owns one
    reference to each capture it was handed; and after queue_destroy that is
    all that is left, so no reference is lost and none is released twice. *)
Theorem queue_refines (busy : gset Z) (ext : ledger) (depth : Z) (ops : list queue_op) (w : world)
  (HI : Inv busy ext w) (Hi : unbusy KImage busy w) (Hc : unbusy KCapture busy w)
  (Hb : fresh w ∉ busy) (He : nonneg ext) (Hops : Forall (op_ok ext) ops)
  (Hd : 1 <= depth <= 10000) (Hok : calloc_ok (tick w) = true) :
  wp ('(result, out) ← queue_create depth;
      if ZSA_SUCCEEDED result then
        let h := default NULL out in
        rs ← run_ops h ops;
        queue_destroy h;;
        mret (Some rs)
      else mret None)
     (fun r w' =>
        match r with
        | Some rs => rs = snd (arun (mkAqueue false depth [] 0) ops) /\ Inv busy (owned ext rs) w'
        | None => heap w' = heap w /\ Inv busy ext w'
        end) w.
Proof.
  apply wp_bind. eapply wp_mono; [by apply (wp_queue_create busy ext)|].
  intros [[] out] w1 [_ Hout]; cbn [ZSA_SUCCEEDED].
  - destruct Hout as (b & -> & Hh & Eh & HI1). cbn [default].
    assert (Hx : forall k, unbusy k busy w -> unbusy k busy w1).
    { intros k Hk x o Hx. rewrite Eh, lookup_insert_ne by (intros E; by rewrite E in Hb). by apply Hk. }
    assert (Hpre : queue_pre busy ext (fresh w) (new_queue depth b) w1).
    { split; auto. by apply new_queue_wf. }
    apply wp_bind. eapply wp_mono; [by apply (wp_run_ops busy _ ops ext (new_queue depth b))|].
    intros rs w2 (-> & q2 & Hpre2 & _ & Hb2).
    apply wp_bind. eapply wp_mono; [eapply (wp_queue_destroy busy _ _ q2); [exact Hpre2|exact Hb2]|].
    intros [] w3 (HI3 & _). apply wp_ret. unfold abs in *. rewrite new_queue_contents in * by done.
    cbn [new_queue q_depth] in *. rewrite Z.add_simpl_r in *. by split.
  - destruct Hout as (_ & Eh & HI1). by apply wp_ret.
Qed.

(** When Condition_Wait wakes a consumer although the queue is still
    enabled and empty (a spurious wake-up, or another consumer was faster),
    queue_pop fails its own assertion; in a build without assertions it
    reports success and stores a null capture. *)
Theorem queue_pop_spurious_wakeup (busy : gset Z) (ext : ledger) (h wait : Z) (q : queue_context_t) (w : world)
  (Hpre : queue_pre busy ext h q w) (Hen : q_enabled q = true) (Hempty : queue_contents q = [])
  (Hcond : q_condition q = true) (Hwait : wait <> 0)
  (Hwake : forall t ms w, Condition_Wait_others t ms w = (COND_OK, w)) :
  match queue_pop h wait true w with
  | Fault f => ndebug = false /\ f = AssertFailed
  | Done r _ => ndebug = true /\ r = (ZSA_WAIT_RESULT_SUCCEEDED, Some NULL)
  end.
Proof.
  destruct Hpre as [HI Hi Hcb Hb Hh Hq He]. pose proof Hh as [Hn _].
  unfold queue_pop, if_handle_valid. eapply outcome_bind; [by eapply (wp_get_context h q _ (fun c w' => c = Some q /\ w' = w))|].
  intros c w' [-> ->]. cbn [negb].
  eapply outcome_bind; [eapply (wp_queue_lock busy ext h q _ (fun _ w1 =>
     holding busy ext h (q <| q_lock := LockHeld |>) w1)); done|].
  intros [] w1 Hw1. set (q1 := q <| q_lock := LockHeld |>) in *.
  set (q2 := q1 <| q_queue_pop_blocked := u32 (q_queue_pop_blocked q1 + 1) |>).
  assert (Hq2 : queue_wf q2) by (eapply (same_ring_wf q); [done|apply u32_range|done]).
  assert (Hc2 : queue_contents q2 = []) by (rewrite <- Hempty; by apply same_ring_contents).
  set (w2 := w1 <| heap := <[h := OQueue q2]> (heap w1) |>).
  assert (Hw2 : holding busy ext h q2 w2) by (eapply holding_touch; [exact Hw1|done|done]).
  eapply outcome_bind; [|]; [instantiate (1 := fun s w' => s = PopWait /\ w' = w2)|].
  { apply wp_bind. eapply wp_load; [apply Hw1|]. change (q_enabled q1) with (q_enabled q). rewrite Hen.
    apply wp_bind. eapply wp_update; [apply Hw1|]. fold q2. fold w2.
    apply wp_bind. eapply wp_pop_internal_empty; [exact Hw2|done|done|]. cbn [negb Z.eqb].
    rewrite (proj2 (Z.eqb_neq wait 0)) by done. by apply wp_ret. }
  intros s w' [-> ->].
  assert (Hpop : wp (Condition_Wait h (if wait <? 0 then 0 else wait))
    (fun r w' => r = COND_OK /\ holding busy ext h (q2 <| q_lock := LockFree |> <| q_lock := LockHeld |>) w') w2).
  { eapply (wp_Condition_Wait busy ext h q2 _ w2 (fun r e q' => r = COND_OK /\ e = ext /\ q' = q2 <| q_lock := LockFree |>));
      [done..| |].
    - intros t w3 Hpre3. rewrite Hwake. by exists ext, (q2 <| q_lock := LockFree |>).
    - by intros r e q' w' (-> & -> & ->) _ _ Hw'. }
  assert (Hwoken : forall w', holding busy ext h q2 w' -> ndebug = true ->
    wp (queue_pop_woken h COND_OK) (fun s w'' => s = PopAnswer ZSA_WAIT_RESULT_SUCCEEDED NULL /\ w'' = w') w').
  { intros w' Hw' Hnd. apply wp_bind. eapply wp_pop_internal_empty; [exact Hw'|done|done|].
    apply wp_bind. eapply wp_load; [apply Hw'|]. change (q_enabled q2) with (q_enabled q). rewrite Hen.
    unfold c_assert. rewrite Hnd. apply wp_bind, wp_ret, wp_ret. done. }
  destruct ndebug eqn:Hnd.
  - eapply outcome_bind with (Q := fun s w' => s = PopAnswer ZSA_WAIT_RESULT_SUCCEEDED NULL /\ holding busy ext h q2 w').
    { apply wp_bind. eapply wp_mono; [exact Hpop|]. intros r w' [-> Hw'].
      eapply wp_mono; [by apply Hwoken|]. by intros s w'' [-> ->]. }
    intros s w' [-> Hw'].
    pose proof (wp_pop_finish busy ext h q2 (PopAnswer ZSA_WAIT_RESULT_SUCCEEDED NULL) w' w'
      (fun r _ => r = (ZSA_WAIT_RESULT_SUCCEEDED, Some NULL)) Hw' Hq2 He (frame_refl _ _)) as Hfin.
    change (q_enabled q2) with (q_enabled q) in Hfin. rewrite Hen in Hfin.
    specialize (Hfin (fun _ _ => eq_refl)). unfold wp in Hfin.
    destruct ((r ← queue_pop_end h _; _) w'); [by split|done].
  - assert (E : (cond_result ← Condition_Wait h (if wait <? 0 then 0 else wait); queue_pop_woken h cond_result) w2
                = Fault AssertFailed).
    { pattern ((cond_result ← Condition_Wait h (if wait <? 0 then 0 else wait); queue_pop_woken h cond_result) w2).
      eapply outcome_bind; [exact Hpop|]. intros r w' [-> Hw']. unfold queue_pop_woken.
      eapply outcome_bind; [eapply (wp_pop_internal_empty _ _ _ _ _ (fun c w'' => c = NULL /\ w'' = w')); done|].
      intros c w'' [-> ->]. eapply outcome_bind; [eapply (wp_load h q2 _ (fun c w'' => c = q2 /\ w'' = w')); [apply Hw'|done]|].
      intros c w'' [-> ->]. apply bind_fault. change (q_enabled q2) with (q_enabled q). rewrite Hen.
      unfold c_assert. by rewrite Hnd. }
    by rewrite (bind_fault _ _ _ _ E).
Qed.

(** While the queue is disabled, at every poll at least one of the threads
    inside queue_pop has left it, and the threads leave the books in order. *)
Definition consumers_leave (busy : gset Z) (h : Z) : Prop :=
  forall t ext q w, queue_pre busy ext h q w -> q_enabled q = false -> 0 < q_queue_pop_blocked q ->
    exists ext' q', queue_pre busy ext' h q' (others t w) /\ q_enabled q' = false /\
      q_queue_pop_blocked q' < q_queue_pop_blocked q.

Lemma wp_wait_not_blocked busy h n : forall ext q w (Q : unit -> world -> Prop),
  consumers_leave busy h -> h ∉ busy -> holding busy ext h q w -> queue_wf q -> nonneg ext ->
  q_enabled q = false -> q_queue_pop_blocked q <= Z.of_nat n ->
  (forall ext' q' w', holding busy ext' h q' w' -> queue_wf q' -> nonneg ext' -> q_enabled q' = false ->
     q_queue_pop_blocked q' = 0 -> Q tt w') ->
  wp (wait_not_blocked n h) Q w.
Proof.
  induction n as [|n IH]; intros ext q w Q Hleave Hb Hw Hq He Hen Hn HQ;
    (apply wp_bind; eapply wp_load; [apply Hw|]); pose proof (wf_blocked q Hq) as Hbl.
  - rewrite (proj2 (Z.eqb_eq _ _)) by lia. apply wp_ret. eapply HQ; try done. lia.
  - destruct (Z.eqb_spec (q_queue_pop_blocked q) 0) as [E|E]; [apply wp_ret; by eapply HQ|].
    pose proof Hw as [_ Hh Hl Hi Hc].
    apply wp_bind. eapply wp_queue_unlock; [exact Hw|]. intros w1 HI1 Hh1 Hf1.
    assert (Hu : forall k, unbusy k (busy ∪ {[h]}) w -> unbusy k busy w1).
    { intros k Hk. eapply unbusy_frame; [|exact Hb|exact Hf1]. intros x o Hx. apply Hk. set_solver. }
    assert (Hpre : queue_pre busy ext h (q <| q_lock := LockFree |>) w1).
    { split; auto. by eapply same_queue_wf; [|exact Hq]. }
    destruct (Hleave (tick w1) _ _ _ Hpre Hen ltac:(cbn; lia)) as (ext' & q' & [HI2 Hi2 Hc2 _ Hh2 Hq2 He2] & Hen2 & Hless).
    apply wp_bind. unfold wp at 1, ThreadAPI_Sleep.
    apply wp_bind. eapply (wp_queue_lock busy ext' h q'); [by apply inv_tick|done|done|done|done|].
    intros w3 Hw3 _ _. eapply (IH ext' _ w3); [done|done|exact Hw3| |done|exact Hen2| |exact HQ].
    + by eapply same_queue_wf; [|exact Hq2].
    + cbn in *. lia.
Qed.

End properties.

(** * Witnesses *)

(** The sample world with an empty queue of depth 2, enabled. *)
Definition sample_queue_world : world :=
  final ('(_, out) ← queue_create 2; queue_enable (default NULL out)) sample_full_world.

Definition sample_queue : queue_context_t := (new_queue 2 true) <| q_enabled := true |>.

Lemma sample_full_unbusy k : unbusy k ∅ sample_full_world.
Proof. apply unbusy_empty. Qed.

Lemma sample_queue_pre : queue_pre ∅ sample_ledger 3 sample_queue sample_queue_world.
Proof.
  assert (Hw : wp ('(_, out) ← queue_create 2; queue_enable (default NULL out))
    (fun _ w' => Inv ∅ sample_ledger w') sample_full_world).
  { apply wp_bind. eapply wp_mono; [apply (wp_queue_create ∅ sample_ledger 2); [apply sample_full_inv|lia|done]|].
    intros [[] out] w1 [_ Hout].
    - destruct Hout as (b & -> & Hh & Eh & HI). eapply wp_mono; [apply (wp_queue_enable ∅ sample_ledger _ (new_queue 2 b))|].
      + split; [exact HI|apply unbusy_empty|apply unbusy_empty|set_solver|exact Hh|by apply new_queue_wf|apply sample_ledger_nonneg].
      + by intros [] w2 (q' & _ & _ & _ & HI2 & _).
    - destruct Hout as (-> & _ & HI). by apply wp_ret. }
  destruct (wp_final _ _ _ Hw) as (a & _ & HI). clear Hw. fold sample_queue_world in HI.
  split; [exact HI|apply unbusy_empty|apply unbusy_empty|apply not_elem_of_empty| | |apply sample_ledger_nonneg].
  - split; [discriminate|]. vm_compute. reflexivity.
  - eapply (same_queue_wf (new_queue 2 true)); [by split_and!|apply new_queue_wf; lia].
Qed.

Lemma queue_refines_witness :
  exists w',
    ('(result, out) ← queue_create 2;
     if ZSA_SUCCEEDED result then
       let h := default NULL out in
       rs ← run_ops h [OpPush 2; OpEnable; OpPush 2; OpPush 2; OpPushDropped 2; OpPop];
       queue_destroy h;;
       mret (Some rs)
     else mret None) sample_full_world =
    Done (Some [ResNone; ResNone; ResNone; ResNone; ResDropped (Some 2);
                ResPopped ZSA_WAIT_RESULT_SUCCEEDED 2]) w' /\
    Inv ∅ (gain (gain sample_ledger (KCapture, 2)) (KCapture, 2)) w'.
Proof.
  pose proof (queue_refines ∅ sample_ledger 2
    [OpPush 2; OpEnable; OpPush 2; OpPush 2; OpPushDropped 2; OpPop] sample_full_world
    (proj1 sample_full_inv) (unbusy_empty _ _) (unbusy_empty _ _) ltac:(set_solver) sample_ledger_nonneg
    ltac:(repeat constructor; done) ltac:(lia) ltac:(reflexivity)) as Hw.
  destruct (wp_eval _ _ _ (Some [ResNone; ResNone; ResNone; ResNone; ResDropped (Some 2);
                ResPopped ZSA_WAIT_RESULT_SUCCEEDED 2]) Hw ltac:(vm_compute; reflexivity)) as (w' & E & _ & HI').
  exists w'. split; [exact E|exact HI'].
Defined.

(** A platform on which Condition_Wait returns COND_OK for no reason, and on
    which a thread leaves queue_pop of queue 3 at every poll. *)
Definition spurious_platform : Platform := {|
  ndebug := false;
  calloc_ok _ := true;
  Lock_Init_ok _ := true;
  Condition_Init_ok _ := true;
  user_alloc _ id _ := (true, id);
  clock_gettime _ := (0, (5, 7));
  environment _ := None;
  others _ w :=
    match heap w !! 3 with
    | Some (OQueue q) => w <| heap := <[3 := OQueue (q <| q_queue_pop_blocked := 0 |>)]> (heap w) |>
    | _ => w
    end;
  Condition_Wait_others _ _ w := (COND_OK, w);
  patience := 2
|}.

Lemma queue_pop_spurious_wakeup_witness :
  @queue_pop spurious_platform 3 (-1) true sample_queue_world = Fault AssertFailed.
Proof.
  pose proof (@queue_pop_spurious_wakeup spurious_platform ∅ sample_ledger 3 (-1) sample_queue sample_queue_world
    sample_queue_pre ltac:(reflexivity) ltac:(vm_compute; reflexivity) ltac:(reflexivity) ltac:(discriminate)
    ltac:(reflexivity)) as Hw.
  destruct (@queue_pop spurious_platform 3 (-1) true sample_queue_world) as [r w|f].
  - destruct Hw as [Hw _]. discriminate Hw.
  - destruct Hw as [_ ->]. reflexivity.
Defined.

(** Two threads are inside queue_pop. *)
Definition sample_blocked_world : world :=
  sample_queue_world <| heap := <[3 := OQueue (sample_queue <| q_queue_pop_blocked := 2 |>)]> (heap sample_queue_world) |>.

Lemma queue_pre_blocked busy ext h q b w :
  queue_pre busy ext h q w -> 0 <= b < 2 ^ 32 ->
  queue_pre busy ext h (q <| q_queue_pop_blocked := b |>)
    (w <| heap := <[h := OQueue (q <| q_queue_pop_blocked := b |>)]> (heap w) |>).
Proof.
  intros [HI Hi Hc Hb Hh Hq He] Hbl. pose proof Hh as [Hn Hh'].
  pose proof (inv_idle _ _ _ HI _ _ Hh' Hb) as Hl.
  assert (Hs : same_ring q (q <| q_queue_pop_blocked := b |>)) by done.
  split; [|by eapply unbusy_store|by eapply unbusy_store|done| |by eapply same_ring_wf|done].
  - eapply inv_store; [exact HI|exact Hh'|done| |done|intros _; exact Hl|done|done].
    intros r. cbn [obj_refs]. change (OQueue q) with (to_obj q).
    change (obj_refs (to_obj q)) with (map (pair KCapture) (queue_contents q)).
    rewrite (same_ring_contents _ _ Hs). cbn. case_decide; lia.
  - exact (has_stored h _ w Hn).
Qed.

Lemma spurious_consumers_leave : @consumers_leave spurious_platform ∅ 3.
Proof.
  intros t ext q w Hpre Hen Hb. exists ext, (q <| q_queue_pop_blocked := 0 |>).
  assert (E : @others spurious_platform t w =
    w <| heap := <[3 := OQueue (q <| q_queue_pop_blocked := 0 |>)]> (heap w) |>).
  { cbn. destruct (pre_has _ _ _ _ _ Hpre) as [_ ->]. done. }
  rewrite E. split_and!; [|exact Hen|exact Hb]. apply queue_pre_blocked; [exact Hpre|lia].
Qed.

