(* ===== verification/CaptureSync.v ===== *)
(** src/capturesync/capturesync.c: pairing the captures of the color camera
    with those of the depth camera by their timestamps. *)

From S2P Require Export Queue.

(** * The decision *)

(** TS_SUBTRACT on two uint64_t, and the two macros on an int64_t and an
    int32_t. *)
Definition TS_SUBTRACT_u64 (TS val : Z) : Z := if TS <=? val then 0 else TS - val.
Definition TS_SUBTRACT_s64 (TS val : Z) : Z := if TS <=? val then 0 else s64 (TS - val).
Definition TS_ADD_s64 (TS val : Z) : Z := if s64 (TS + val) <=? 0 then 0 else s64 (TS + val).

Inductive sync_decision : Set := DropDepth | DropColor | Match.

(** The window of the sensor that is exposed first, [begin_sync_window] and
    [end_sync_window]. *)
Definition sync_window (first_ts quarter delay period : Z) (add : Z -> Z -> Z) : Z * Z :=
  let begin_sync_window := TS_SUBTRACT_u64 first_ts quarter in
  let begin_sync_window := u64 (add (s64 begin_sync_window) delay) in
  (begin_sync_window, u64 (begin_sync_window + period)).

(** The two branches of the loop on the sign of depth_delay_off_color_usec. *)
Definition decide_sync (s : capturesync_context_t) : sync_decision :=
  let delay := sy_depth_delay_off_color_usec s in
  let color_ts := fi_ts (sy_color s) in
  let depth_ts := fi_ts (sy_depth_ir s) in
  if delay <? 0 then
    let '(b, e) := sync_window depth_ts (sy_fps_1_quarter_period s) delay (sy_fps_period s) TS_SUBTRACT_s64 in
    if color_ts >? e then DropDepth
    else if color_ts <? b then DropColor
    else Match
  else
    let '(b, e) := sync_window color_ts (sy_fps_1_quarter_period s) delay (sy_fps_period s) TS_ADD_s64 in
    if depth_ts >? e then DropColor
    else if depth_ts <? b then DropDepth
    else Match.

(** * Operations *)

Section operations.
Context `{Platform}.

(** [&sync->color] or [&sync->depth_ir] *)
Definition frame_of (color_capture : bool) (s : capturesync_context_t) : frame_info_t :=
  if color_capture then sy_color s else sy_depth_ir s.

Definition on_frame (color_capture : bool) (f : frame_info_t -> frame_info_t)
    (s : capturesync_context_t) : capturesync_context_t :=
  if color_capture then s <| sy_color := f (sy_color s) |> else s <| sy_depth_ir := f (sy_depth_ir s) |>.

Definition load_frame (color_capture : bool) (h : Z) : Mw frame_info_t :=
  s ← load capturesync_context_t h;
  mret (frame_of color_capture s).

Definition update_frame (color_capture : bool) (h : Z) (f : frame_info_t -> frame_info_t) : Mw unit :=
  update h (on_frame color_capture f).

(** [frame_info->get_typed_image(capture)] *)
Definition get_typed_image (fn : pfn_get_typed_image_t) : Z -> Mw Z :=
  match fn with
  | fn_capture_get_color_image => capture_get_color_image
  | fn_capture_get_ir_image => capture_get_ir_image
  end.

(** The part of drop_sample that fetches the next sample from the queue. *)
Definition next_sample (h : Z) (color_capture : bool) : Mw zsa_wait_result_t :=
  f ← load_frame color_capture h;
  r ← queue_pop (fi_queue f) 0 true;
  (match snd r with
   | Some c => update_frame color_capture h (fun f => f <| fi_capture := c |>)
   | None => mret tt
   end);;
  match fst r with
  | ZSA_WAIT_RESULT_SUCCEEDED =>
      f ← load_frame color_capture h;
      image ← get_typed_image (fi_get_typed_image f) (fi_capture f);
      update_frame color_capture h (fun f => f <| fi_image := image |>);;
      if image =? NULL then mret ZSA_WAIT_RESULT_FAILED
      else
        ts ← image_get_device_timestamp_usec image;
        update_frame color_capture h (fun f => f <| fi_ts := ts |>);;
        mret ZSA_WAIT_RESULT_SUCCEEDED
  | wresult => mret wresult
  end.

(** The part that gives the sample up. *)
Definition release_sample (h : Z) (color_capture : bool) : Mw unit :=
  f ← load_frame color_capture h;
  capture_dec_ref (fi_capture f);;
  update_frame color_capture h (fun f => f <| fi_capture := NULL |>);;
  f ← load_frame color_capture h;
  image_dec_ref (fi_image f);;
  update_frame color_capture h (fun f => f <| fi_image := NULL |>).

(** The part that cleans up when there is no next sample. *)
Definition clear_sample (h : Z) (color_capture : bool) : Mw unit :=
  f ← load_frame color_capture h;
  when (negb (fi_capture f =? NULL)) (capture_dec_ref (fi_capture f));;
  f ← load_frame color_capture h;
  when (negb (fi_image f =? NULL)) (image_dec_ref (fi_image f));;
  update_frame color_capture h (fun f => f <| fi_capture := NULL |> <| fi_image := NULL |> <| fi_ts := 0 |>).

Definition drop_sample (h : Z) (wresult : zsa_wait_result_t) (color_capture drop_into_queue : bool)
    : Mw zsa_wait_result_t :=
  s ← load capturesync_context_t h;
  when drop_into_queue
    (when (negb (sy_synchronized_images_only s))
       (queue_push (sy_sync_queue s) (fi_capture (frame_of color_capture s))));;
  release_sample h color_capture;;
  wresult ← (if decide (wresult = ZSA_WAIT_RESULT_FAILED) then mret wresult
             else next_sample h color_capture);
  (if decide (wresult = ZSA_WAIT_RESULT_SUCCEEDED) then mret tt else clear_sample h color_capture);;
  mret wresult.

(** The test of [frame_info->capture] comes after its release; the pointer
    itself has not been changed. *)
Definition replace_sample (h capture_new : Z) (color_capture : bool) : Mw unit :=
  s ← load capturesync_context_t h;
  let f := frame_of color_capture s in
  when (negb (sy_synchronized_images_only s)) (queue_push (sy_sync_queue s) (fi_capture f));;
  capture_dec_ref (fi_capture f);;
  image_dec_ref (fi_image f);;
  if negb (fi_capture f =? NULL) then
    update_frame color_capture h (fun f => f <| fi_capture := capture_new |>);;
    image ← get_typed_image (fi_get_typed_image f) capture_new;
    update_frame color_capture h (fun f => f <| fi_image := image |>);;
    ts ← image_get_device_timestamp_usec image;
    update_frame color_capture h (fun f => f <| fi_ts := ts |>)
  else
    update_frame color_capture h (fun f => f <| fi_capture := NULL |> <| fi_image := NULL |> <| fi_ts := 0 |>).

Definition merge_captures (depth color : Z) : Mw Z :=
  image ← capture_get_color_image color;
  capture_set_color_image depth image;;
  image_dec_ref image;;
  mret depth.

(** One turn of the loop of capturesync_add_capture. *)
Definition sync_turn (h : Z) (wresult : zsa_wait_result_t) : Mw zsa_wait_result_t :=
  s ← load capturesync_context_t h;
  match decide_sync s with
  | DropDepth => drop_sample h wresult false true
  | DropColor => drop_sample h wresult true true
  | Match =>
      if negb (fi_capture (sy_color s) =? NULL) && negb (fi_capture (sy_depth_ir s) =? NULL) then
        merged ← merge_captures (fi_capture (sy_depth_ir s)) (fi_capture (sy_color s));
        queue_push (sy_sync_queue s) merged;;
        wresult ← drop_sample h wresult true false;
        drop_sample h wresult false false
      else
        when (bool_decide (wresult = ZSA_WAIT_RESULT_FAILED))
          (update h (fun s => s <| sy_running := false |>));;
        mret wresult
  end.

Definition sync_continues (wresult : zsa_wait_result_t) (s : capturesync_context_t) : bool :=
  bool_decide (wresult = ZSA_WAIT_RESULT_SUCCEEDED) && negb (fi_capture (sy_depth_ir s) =? NULL)
  && negb (fi_capture (sy_color s) =? NULL).

Fixpoint sync_loop (fuel : nat) (h : Z) (wresult : zsa_wait_result_t) : Mw zsa_wait_result_t :=
  s ← load capturesync_context_t h;
  if sync_continues wresult s then
    match fuel with
    | O => throw OutOfFuel
    | S fuel =>
        wresult ← sync_turn h wresult;
        sync_loop fuel h wresult
    end
  else mret wresult.

(** The loop takes at least one sample out of an internal queue or a frame at
    every turn; the queues hold at most QUEUE_DEFAULT_SIZE captures each. *)
Definition QUEUE_DEFAULT_DEPTH_USEC : Z := 500000.
Definition QUEUE_CALC_DEPTH (fps depth_msec : Z) : Z := depth_msec / (1000000 / fps).
Definition QUEUE_DEFAULT_SIZE : Z := QUEUE_CALC_DEPTH 30 QUEUE_DEFAULT_DEPTH_USEC.
Definition sync_fuel : nat := 2 * (Z.to_nat QUEUE_DEFAULT_SIZE + 1).

(** The failure branch at the head of capturesync_add_capture; [sync] is the
    context pointer, NULL for an invalid handle. *)
Definition stop_queues (sync : Z) : Mw unit :=
  s ← load capturesync_context_t sync;
  queue_stop (sy_sync_queue s);;
  s ← load capturesync_context_t sync;
  queue_stop (fi_queue (sy_depth_ir s));;
  s ← load capturesync_context_t sync;
  queue_stop (fi_queue (sy_color s)).

(** The timestamp of the capture's typed image; [None] when it has none. *)
Definition read_timestamp (capture_raw : Z) (color_capture : bool) : Mw (option Z) :=
  image ← (if color_capture then capture_get_color_image capture_raw else capture_get_ir_image capture_raw);
  if image =? NULL then mret None
  else
    ts_raw_capture ← image_get_device_timestamp_usec image;
    image_dec_ref image;;
    mret (Some ts_raw_capture).

(** What happens to a capture that arrives while the module runs: false when
    it goes no further. *)
Definition admit_capture (sync capture_raw ts_raw_capture : Z) (color_capture : bool) : Mw bool :=
  s ← load capturesync_context_t sync;
  if negb (sy_sync_captures s) || sy_disable_sync s then
    queue_push (sy_sync_queue s) capture_raw;;
    mret false
  else if negb color_capture && sy_waiting_for_clean_depth_ts s then
    if sy_fps_period s =? 0 then throw DivideByZero
    else if ts_raw_capture / sy_fps_period s >? 10 then
      update sync (fun s => s <| sy_depth_captures_dropped := s32 (sy_depth_captures_dropped s + 1) |>);;
      mret false
    else
      update sync (fun s => s <| sy_waiting_for_clean_depth_ts := false |>);;
      mret true
  else mret true.

(** The capture becomes the current sample of its sensor, or waits in the
    sensor's queue. *)
Definition insert_capture (sync capture_raw : Z) (color_capture : bool) : Mw unit :=
  f ← load_frame color_capture sync;
  if fi_capture f =? NULL then
    c_assert (fi_image f =? NULL);;
    image ← get_typed_image (fi_get_typed_image f) capture_raw;
    update_frame color_capture sync (fun f => f <| fi_image := image |>);;
    ts ← image_get_device_timestamp_usec image;
    update_frame color_capture sync (fun f => f <| fi_ts := ts |> <| fi_capture := capture_raw |>);;
    capture_inc_ref capture_raw
  else
    dropped_sample ← queue_push_w_dropped (fi_queue f) capture_raw true;
    match dropped_sample with
    | Some c => if c =? NULL then mret tt else replace_sample sync c color_capture
    | None => mret tt
    end.

Definition capturesync_add_capture (capturesync_handle : Z) (capture_result : zsa_result_t)
    (capture_raw : Z) (color_capture : bool) : Mw unit :=
  valid ← (if capturesync_handle =? NULL then mret false
           else
             c ← handle_get_context capturesync_context_t capturesync_handle;
             mret (bool_decide (is_Some c)));
  let sync := if (valid : bool) then capturesync_handle else NULL in
  ok ← (if ZSA_FAILED capture_result then
          _ ← load capturesync_context_t sync;
          stop_queues sync;;
          mret false
        else mret valid);
  if negb (ok : bool) then mret tt
  else if capture_raw =? NULL then mret tt
  else
    ts ← read_timestamp capture_raw color_capture;
    match ts with
    | None => mret tt
    | Some ts_raw_capture =>
        Lock sy_lock sync;;
        s ← load capturesync_context_t sync;
        admitted ← (if sy_running s then admit_capture sync capture_raw ts_raw_capture color_capture
                    else mret false);
        when admitted (
          insert_capture sync capture_raw color_capture;;
          _ ← sync_loop sync_fuel sync ZSA_WAIT_RESULT_SUCCEEDED;
          mret tt);;
        Unlock sy_lock sync
    end.

(** One sample of capturesync_stop. *)
Definition stop_sample (h : Z) (color_capture : bool) : Mw unit :=
  f ← load_frame color_capture h;
  when (negb (fi_capture f =? NULL)) (
    capture_dec_ref (fi_capture f);;
    update_frame color_capture h (fun f => f <| fi_capture := NULL |> <| fi_ts := UINT64_MAX |>));;
  f ← load_frame color_capture h;
  when (negb (fi_image f =? NULL)) (
    image_dec_ref (fi_image f);;
    update_frame color_capture h (fun f => f <| fi_image := NULL |>)).

Definition when_queue (q : Z) (f : Z -> Mw unit) : Mw unit := when (negb (q =? NULL)) (f q).

Definition capturesync_stop (capturesync_handle : Z) : Mw unit :=
  if_handle_valid capturesync_context_t tt capturesync_handle (
    let h := capturesync_handle in
    Lock sy_lock h;;
    update h (fun s => s <| sy_running := false |>);;
    s ← load capturesync_context_t h;
    when_queue (fi_queue (sy_color s)) queue_disable;;
    s ← load capturesync_context_t h;
    when_queue (fi_queue (sy_depth_ir s)) queue_disable;;
    s ← load capturesync_context_t h;
    when_queue (sy_sync_queue s) queue_disable;;
    stop_sample h true;;
    stop_sample h false;;
    Unlock sy_lock h).

Definition capturesync_destroy (capturesync_handle : Z) : Mw unit :=
  if_handle_valid capturesync_context_t tt capturesync_handle (
    let h := capturesync_handle in
    capturesync_stop h;;
    s ← load capturesync_context_t h;
    when_queue (fi_queue (sy_depth_ir s)) queue_destroy;;
    s ← load capturesync_context_t h;
    when_queue (fi_queue (sy_color s)) queue_destroy;;
    s ← load capturesync_context_t h;
    when_queue (sy_sync_queue s) queue_destroy;;
    handle_destroy capturesync_context_t h).

(** [v != NULL && v[0] != '\0' && v[0] != '0'] *)
Definition env_set (v : option (list Z)) : bool :=
  match v with Some (c :: _) => negb (c =? 0) && negb (c =? 48) | _ => false end.

(** [TRACE_CALL(queue_create(depth, name, &field))] *)
Definition create_queue (depth : Z) (store : Z -> Mw unit) : Mw zsa_result_t :=
  '(result, out) ← queue_create depth;
  (match out with Some q => store q | None => mret tt end);;
  mret result.

Definition capturesync_create (capturesync_handle : bool) : Mw (zsa_result_t * option Z) :=
  if negb capturesync_handle then mret (ZSA_RESULT_FAILED, None)
  else
    h ← handle_create capturesync_context_t;
    let result := ZSA_RESULT_FROM_BOOL (negb (h =? NULL)) in
    update_frame true h (fun f => f <| fi_color_capture := true |>
      <| fi_get_typed_image := fn_capture_get_color_image |>);;
    update_frame false h (fun f => f <| fi_color_capture := false |>
      <| fi_get_typed_image := fn_capture_get_ir_image |>);;
    result ← and_then result (
      l ← Lock_Init;
      update h (fun s => s <| sy_lock := l |>);;
      mret (ZSA_RESULT_FROM_BOOL (bool_decide (l <> LockNull))));
    result ← and_then result (create_queue QUEUE_DEFAULT_SIZE
      (fun q => update_frame false h (fun f => f <| fi_queue := q |>)));
    result ← and_then result (create_queue QUEUE_DEFAULT_SIZE
      (fun q => update_frame true h (fun f => f <| fi_queue := q |>)));
    result ← and_then result (create_queue (QUEUE_DEFAULT_SIZE / 2)
      (fun q => update h (fun s => s <| sy_sync_queue := q |>)));
    when (ZSA_SUCCEEDED result) (
      s ← load capturesync_context_t h;
      queue_disable (fi_queue (sy_color s));;
      queue_disable (fi_queue (sy_depth_ir s));;
      queue_disable (sy_sync_queue s));;
    when (env_set (environment ENV_ZSA_DISABLE_SYNCHRONIZATION))
      (update h (fun s => s <| sy_disable_sync := true |>));;
    when (env_set (environment ENV_ZSA_ENABLE_TS_LOGGING))
      (update h (fun s => s <| sy_enable_ts_logging := true |>));;
    if ZSA_FAILED result then
      capturesync_destroy h;;
      mret (result, Some NULL)
    else mret (result, Some h).

Definition capturesync_start (capturesync_handle : Z) (config : option zsa_device_configuration_t)
    : Mw zsa_result_t :=
  if_handle_valid capturesync_context_t ZSA_RESULT_FAILED capturesync_handle (
    match config with
    | None => mret ZSA_RESULT_FAILED
    | Some config =>
        let h := capturesync_handle in
        update h (fun s => s <| sy_waiting_for_clean_depth_ts := true |>
          <| sy_synchronized_images_only := synchronized_images_only config |>);;
        fps ← zsa_convert_fps_to_uint (camera_fps config);
        if negb (fps >? 0) then mret ZSA_RESULT_FAILED
        else
          let period := 1000000 / fps in
          let one_sensor := (color_resolution config =? ZSA_COLOR_RESOLUTION_OFF)
                            || (depth_mode config =? ZSA_DEPTH_MODE_OFF) in
          update h (fun s => s <| sy_fps_period := period |> <| sy_fps_1_quarter_period := period / 4 |>
            <| sy_depth_delay_off_color_usec := depth_delay_off_color_usec config |>
            <| sy_sync_captures := negb one_sensor |>);;
          s ← load capturesync_context_t h;
          queue_enable (fi_queue (sy_color s));;
          queue_enable (fi_queue (sy_depth_ir s));;
          queue_enable (sy_sync_queue s);;
          update h (fun s => s <| sy_running := true |>);;
          mret ZSA_RESULT_SUCCEEDED
    end).

(** The capture stored through [capture], if any. *)
Definition capturesync_get_capture (capturesync_handle : Z) (capture : bool) (timeout_in_ms : Z)
    : Mw (zsa_wait_result_t * option Z) :=
  if_handle_valid capturesync_context_t (ZSA_WAIT_RESULT_FAILED, None) capturesync_handle (
    if negb capture then mret (ZSA_WAIT_RESULT_FAILED, None)
    else
      s ← load capturesync_context_t capturesync_handle;
      r ← queue_pop (sy_sync_queue s) timeout_in_ms true;
      match fst r with
      | ZSA_WAIT_RESULT_SUCCEEDED => mret (fst r, snd r)
      | wresult => mret (wresult, None)
      end).
End operations.

(** * The decision over the integers *)

(** The timestamps a device can produce, and a configuration as
    capturesync_start makes it. *)
Record sync_range (s : capturesync_context_t) : Prop := {
  range_color : 0 <= fi_ts (sy_color s) < 2 ^ 62;
  range_depth : 0 <= fi_ts (sy_depth_ir s) < 2 ^ 62;
  range_period : 0 < sy_fps_period s <= 1000000;
  range_quarter : sy_fps_1_quarter_period s = sy_fps_period s / 4;
  range_delay : - 2 ^ 31 <= sy_depth_delay_off_color_usec s < 2 ^ 31
}.

(** The sensor that is exposed second matches when it lies within one period
    from the other one, less a quarter of a period (but not before 0), plus
    the programmed delay. *)
Definition window_begin (first quarter delay : Z) : Z := Z.max 0 (first - quarter) + Z.abs delay.

Definition reference_decision (first second quarter delay period : Z) (drop_first drop_second : sync_decision)
    : sync_decision :=
  if second >? window_begin first quarter delay + period then drop_first
  else if second <? window_begin first quarter delay then drop_second
  else Match.

Definition decide_reference (s : capturesync_context_t) : sync_decision :=
  let delay := sy_depth_delay_off_color_usec s in
  if delay <? 0 then
    reference_decision (fi_ts (sy_depth_ir s)) (fi_ts (sy_color s)) (sy_fps_1_quarter_period s) delay
      (sy_fps_period s) DropDepth DropColor
  else
    reference_decision (fi_ts (sy_color s)) (fi_ts (sy_depth_ir s)) (sy_fps_1_quarter_period s) delay
      (sy_fps_period s) DropColor DropDepth.

Lemma TS_SUBTRACT_u64_max TS val : TS_SUBTRACT_u64 TS val = Z.max 0 (TS - val).
Proof. unfold TS_SUBTRACT_u64. destruct (Z.leb_spec TS val); lia. Qed.

Lemma sync_window_early first quarter delay period :
  0 <= first < 2 ^ 62 -> 0 <= quarter <= 1000000 -> 0 < period <= 1000000 -> - 2 ^ 31 <= delay < 0 ->
  sync_window first quarter delay period TS_SUBTRACT_s64 =
  (window_begin first quarter delay, window_begin first quarter delay + period).
Proof.
  intros Hf Hq Hp Hd. unfold sync_window, window_begin. rewrite TS_SUBTRACT_u64_max.
  rewrite (s64_id (Z.max _ _)) by lia. unfold TS_SUBTRACT_s64.
  rewrite (proj2 (Z.leb_gt _ delay)) by lia. rewrite s64_id, (u64_id (_ - delay)), u64_id by lia.
  f_equal; lia.
Qed.

Lemma sync_window_late first quarter delay period :
  0 <= first < 2 ^ 62 -> 0 <= quarter <= 1000000 -> 0 < period <= 1000000 -> 0 <= delay < 2 ^ 31 ->
  sync_window first quarter delay period TS_ADD_s64 =
  (window_begin first quarter delay, window_begin first quarter delay + period).
Proof.
  intros Hf Hq Hp Hd. unfold sync_window, window_begin. rewrite TS_SUBTRACT_u64_max.
  rewrite (s64_id (Z.max _ _)) by lia. unfold TS_ADD_s64. rewrite s64_id by lia.
  assert (E : (if Z.max 0 (first - quarter) + delay <=? 0 then 0 else Z.max 0 (first - quarter) + delay) =
              Z.max 0 (first - quarter) + Z.abs delay) by (destruct (Z.leb_spec (Z.max 0 (first - quarter) + delay) 0); lia).
  rewrite E, (u64_id (_ + Z.abs delay)), u64_id by lia. done.
Qed.

Lemma decide_sync_reference s : sync_range s -> decide_sync s = decide_reference s.
Proof.
  intros [Hc Hd Hp Hq Hy]. unfold decide_sync, decide_reference, reference_decision.
  assert (0 <= sy_fps_1_quarter_period s <= 1000000).
  { rewrite Hq. split; [apply Z.div_pos; lia|apply Z.div_le_upper_bound; lia]. }
  destruct (Z.ltb_spec (sy_depth_delay_off_color_usec s) 0).
  - by rewrite sync_window_early by lia.
  - by rewrite sync_window_late by lia.
Qed.

Definition with_ts (color_ts depth_ts : Z) (s : capturesync_context_t) : capturesync_context_t :=
  on_frame true (fun f => f <| fi_ts := color_ts |>) (on_frame false (fun f => f <| fi_ts := depth_ts |>) s).

(** C10: the 64-bit window arithmetic of capturesync_add_capture, with its
    casts between signed and unsigned, decides as the window over the integers
    does: a match exactly when the later sensor's timestamp lies in the
    window. *)
Theorem sync_decision_exact (s : capturesync_context_t) (Hs : sync_range s) :
  decide_sync s = decide_reference s /\
  (decide_sync s = Match <->
   let '(first, second) := if sy_depth_delay_off_color_usec s <? 0
                           then (fi_ts (sy_depth_ir s), fi_ts (sy_color s))
                           else (fi_ts (sy_color s), fi_ts (sy_depth_ir s)) in
   let b := Z.max 0 (first - sy_fps_1_quarter_period s) + Z.abs (sy_depth_delay_off_color_usec s) in
   b <= second <= b + sy_fps_period s).
Proof.
  rewrite decide_sync_reference by done. split; [done|].
  unfold decide_reference, reference_decision, window_begin.
  destruct (_ <? 0); rewrite Z.gtb_ltb;
    repeat match goal with |- context [?a <? ?b] => destruct (Z.ltb_spec a b) end;
    (split; [intros E; try discriminate E; lia|intros; try done; lia]).
Qed.

(** C11: a sample that is dropped cannot match any later one: whatever sample
    of the other sensor arrives afterwards (timestamps of a sensor do not
    decrease), the decision for the pair would not have been a match. *)
Theorem sync_drop_safe (s : capturesync_context_t) (later : Z) (Hs : sync_range s) (Hl : later < 2 ^ 62) :
  (decide_sync s = DropDepth -> fi_ts (sy_color s) <= later ->
   decide_sync (with_ts later (fi_ts (sy_depth_ir s)) s) <> Match) /\
  (decide_sync s = DropColor -> fi_ts (sy_depth_ir s) <= later ->
   decide_sync (with_ts (fi_ts (sy_color s)) later s) <> Match).
Proof.
  assert (Hr : forall c d, 0 <= c < 2 ^ 62 -> 0 <= d < 2 ^ 62 -> sync_range (with_ts c d s)).
  { intros c d Hc Hd. destruct Hs. by split. }
  pose proof Hs as [Hc Hd Hp Hq Hy].
  assert (0 <= sy_fps_1_quarter_period s) by (rewrite Hq; apply Z.div_pos; lia).
  split; intros Hdrop Hle; rewrite decide_sync_reference in Hdrop by done;
    rewrite decide_sync_reference by (apply Hr; lia);
    revert Hdrop; unfold decide_reference, reference_decision, window_begin; cbn;
    destruct (sy_depth_delay_off_color_usec s <? 0); rewrite !Z.gtb_ltb;
    repeat match goal with |- context [?a <? ?b] => destruct (Z.ltb_spec a b) end;
    intros E; try discriminate E; try (intros E'; discriminate E'); lia.
Qed.

(** * The books while a capture is added *)

Section specs.
Context `{Platform}.

(** A sensor's frame without a capture has no image either. *)
Definition frame_ok (f : frame_info_t) : Prop := fi_capture f = NULL -> fi_image f = NULL.

(** The state inside the lock: the context, its three queues (the sensors' by
    colour flag, and the output) and the books. *)
Record syncing (busy : gset Z) (ext : ledger) (h : Z) (s : capturesync_context_t)
    (Q : bool -> queue_context_t) (out : queue_context_t) (w : world) : Prop := {
  syn_inv : Inv (busy ∪ {[h]}) ext w;
  syn_unbusy : forall k, k = KImage \/ k = KCapture -> unbusy k (busy ∪ {[h]}) w;
  syn_has : has w h s;
  syn_queue : forall color, has w (fi_queue (frame_of color s)) (Q color) /\ queue_wf (Q color) /\
                            fi_queue (frame_of color s) ∉ busy;
  syn_out : has w (sy_sync_queue s) out /\ queue_wf out /\ sy_sync_queue s ∉ busy;
  syn_distinct : fi_queue (sy_color s) <> fi_queue (sy_depth_ir s) /\
                 fi_queue (sy_color s) <> sy_sync_queue s /\ fi_queue (sy_depth_ir s) <> sy_sync_queue s
}.

(** Changes of the context that move no reference and no queue. *)
Definition same_links (s s' : capturesync_context_t) : Prop :=
  sy_sync_queue s' = sy_sync_queue s /\
  (forall color, fi_queue (frame_of color s') = fi_queue (frame_of color s)).

Lemma frame_of_on color c f s :
  frame_of c (on_frame color f s) = if decide (c = color) then f (frame_of c s) else frame_of c s.
Proof. by destruct c, color. Qed.

Lemma syncing_store busy ext ext' h s s' Q out w :
  syncing busy ext h s Q out w -> same_links s s' ->
  (forall r, ext' r = ext r + count_ref r (obj_refs (OSync s)) - count_ref r (obj_refs (OSync s'))) ->
  syncing busy ext' h s' Q out (w <| heap := <[h := OSync s']> (heap w) |>).
Proof.
  intros [HI Hu Hh Hq Ho Hd] [Eo Eq] Hext. pose proof Hh as [Hn Hs].
  assert (Hx : forall x (q : queue_context_t), has w x q -> x <> h).
  { intros x q [_ Hx] ->. cbn in *. congruence. }
  assert (Hkeep : forall x (q : queue_context_t), has w x q -> has (w <| heap := <[h := OSync s']> (heap w) |>) x q).
  { intros x q Hxq. split; [apply Hxq|]. cbn. rewrite lookup_insert_ne; [apply Hxq|]. intros ->. by eapply Hx. }
  split.
  - eapply inv_store; [exact HI|exact Hs|done| |set_solver|set_solver|done|done].
    intros r. rewrite Hext. change (to_obj s) with (OSync s). cbn [obj_rc]. case_decide; lia.
  - intros k Hk. eapply unbusy_store; [by apply Hu|exact Hs|done].
  - exact (has_stored h s' w Hn).
  - intros color. rewrite Eq. destruct (Hq color) as (H1 & H2 & H3). split_and!; [by apply Hkeep|done|done].
  - rewrite Eo. destruct Ho as (H1 & H2 & H3). split_and!; [by apply Hkeep|done|done].
  - pose proof (Eq true) as E1. pose proof (Eq false) as E2. cbn in E1, E2. by rewrite Eo, E1, E2.
Qed.

(** Reference counting elsewhere. *)
Lemma syncing_frame busy ext ext' h s Q out w w' :
  syncing busy ext h s Q out w -> Inv (busy ∪ {[h]}) ext' w' -> rc_step [KCapture; KImage; KBlock] w w' ->
  syncing busy ext' h s Q out w'.
Proof.
  intros [HI Hu Hh Hq Ho Hd] HI' Hs.
  assert (Hkeep : forall y (q : queue_context_t), has w y q -> has w' y q).
  { intros y q [Hy Hyq]. split; [done|]. eapply rc_step_other; [exact Hs|exact Hyq|]. cbn. set_solver. }
  split; try done.
  - intros k Hk. eapply unbusy_step; [by apply Hu|exact Hs].
  - destruct Hh as [Hn Hh]. split; [done|]. eapply rc_step_other; [exact Hs|exact Hh|]. cbn. set_solver.
  - intros color. destruct (Hq color) as (H1 & H2 & H3). split_and!; [by apply Hkeep|done|done].
  - destruct Ho as (H1 & H2 & H3). split_and!; [by apply Hkeep|done|done].
Qed.

Lemma syncing_pre busy ext h s Q out w color :
  syncing busy ext h s Q out w -> nonneg ext -> queue_pre (busy ∪ {[h]}) ext (fi_queue (frame_of color s)) (Q color) w.
Proof.
  intros [HI Hu Hh Hq Ho Hd] He. destruct (Hq color) as (H1 & H2 & H3).
  split; try done; [apply Hu; auto|apply Hu; auto|].
  intros [Hx|Hx%elem_of_singleton]%elem_of_union; [done|].
  destruct H1 as [_ H1], Hh as [_ Hh]. rewrite Hx in H1. cbn in *. congruence.
Qed.

Lemma syncing_pre_out busy ext h s Q out w :
  syncing busy ext h s Q out w -> nonneg ext -> queue_pre (busy ∪ {[h]}) ext (sy_sync_queue s) out w.
Proof.
  intros [HI Hu Hh Hq Ho Hd] He. destruct Ho as (H1 & H2 & H3).
  split; try done; [apply Hu; auto|apply Hu; auto|].
  intros [Hx|Hx%elem_of_singleton]%elem_of_union; [done|].
  destruct H1 as [_ H1], Hh as [_ Hh]. rewrite Hx in H1. cbn in *. congruence.
Qed.

(** A queue operation on one of the three queues. *)
Lemma has_frame {T} `{!Context T} x y (c : T) w w' :
  frame x w w' -> has w y c -> y <> x -> counted (obj_kind (to_obj c)) = false -> has w' y c.
Proof. intros Hf [Hn Hy] Hne Hc. split; [done|]. by eapply frame_other. Qed.

Lemma syncing_queue busy ext ext' h s Q out w w' color q' :
  syncing busy ext h s Q out w -> nonneg ext ->
  has w' (fi_queue (frame_of color s)) q' -> queue_wf q' -> Inv (busy ∪ {[h]}) ext' w' ->
  frame (fi_queue (frame_of color s)) w w' ->
  syncing busy ext' h s (fun c => if decide (c = color) then q' else Q c) out w'.
Proof.
  intros Hw He Hh' Hq' HI' Hf. pose proof (syncing_pre _ _ _ _ _ _ _ color Hw He) as Hpre.
  destruct Hw as [HI Hu Hh Hq Ho Hd]. pose proof (pre_busy _ _ _ _ _ Hpre) as Hb.
  split; try done.
  - intros k Hk. eapply unbusy_frame; [by apply Hu|exact Hb|exact Hf].
  - eapply has_frame; [exact Hf|exact Hh| |done]. intros E. apply Hb. set_solver.
  - intros c. case_decide as Hc; [subst c; split_and!; [done|done|apply Hq]|].
    destruct (Hq c) as (H1 & H2 & H3). split_and!; [|done|done].
    eapply has_frame; [exact Hf|exact H1| |done]. destruct c, color; try done; cbn; destruct Hd as (D1 & D2 & D3); congruence.
  - destruct Ho as (H1 & H2 & H3). split_and!; [|done|done].
    eapply has_frame; [exact Hf|exact H1| |done]. destruct color; cbn; destruct Hd as (D1 & D2 & D3); congruence.
Qed.

Lemma syncing_queue_out busy ext ext' h s Q out w w' q' :
  syncing busy ext h s Q out w -> nonneg ext ->
  has w' (sy_sync_queue s) q' -> queue_wf q' -> Inv (busy ∪ {[h]}) ext' w' ->
  frame (sy_sync_queue s) w w' -> syncing busy ext' h s Q q' w'.
Proof.
  intros Hw He Hh' Hq' HI' Hf. pose proof (syncing_pre_out _ _ _ _ _ _ _ Hw He) as Hpre.
  destruct Hw as [HI Hu Hh Hq Ho Hd]. pose proof (pre_busy _ _ _ _ _ Hpre) as Hb.
  split; try done.
  - intros k Hk. eapply unbusy_frame; [by apply Hu|exact Hb|exact Hf].
  - eapply has_frame; [exact Hf|exact Hh| |done]. intros E. apply Hb. set_solver.
  - intros c. destruct (Hq c) as (H1 & H2 & H3). split_and!; [|done|done].
    eapply has_frame; [exact Hf|exact H1| |done]. destruct c; cbn; destruct Hd as (D1 & D2 & D3); congruence.
  - split_and!; [done|done|apply Ho].
Qed.

(** * The steps *)

Lemma abs_depth q q' : abs q' = abs q -> q_depth q' = q_depth q.
Proof. unfold abs. intros E. injection E. lia. Qed.

Lemma abs_depth' q q' a : abs q' = a -> aq_capacity a = q_depth q - 1 -> q_depth q' = q_depth q.
Proof. intros <-. cbn. lia. Qed.

(** Publishing the current sample. *)
Lemma wp_sync_push busy ext h s Q out w c (R : unit -> world -> Prop) :
  syncing busy ext h s Q out w -> nonneg ext -> c <> NULL -> held_elsewhere out c w ->
  (forall out' w', syncing busy ext h s Q out' w' -> abs out' = fst (apush (abs out) c false) ->
     frame (sy_sync_queue s) w w' -> R tt w') ->
  wp (queue_push (sy_sync_queue s) c) R w.
Proof.
  intros Hw He Hc Hheld HR. pose proof (syncing_pre_out _ _ _ _ _ _ _ Hw He) as Hpre.
  apply wp_bind. eapply wp_mono; [eapply (wp_queue_push_w_dropped _ ext _ out c false); [exact Hpre|done|done]|].
  intros o w1 [-> (q' & H1 & H2 & H3 & H4 & H5)]. rewrite arun_op_none in H4. apply wp_ret.
  eapply HR; [|exact H3|exact H5]. by eapply syncing_queue_out.
Qed.

(** A sample the context holds is counted. *)
Lemma frame_ref_in color s r :
  r ∈ frame_refs (frame_of color s) -> 0 < count_ref r (obj_refs (OSync s)).
Proof. intros Hr. apply count_ref_pos. cbn. rewrite elem_of_app. destruct color; auto. Qed.

Lemma frame_held busy ext h s Q out w color :
  syncing busy ext h s Q out w -> nonneg ext -> fi_capture (frame_of color s) <> NULL ->
  held_elsewhere out (fi_capture (frame_of color s)) w.
Proof.
  intros [HI Hu Hh Hq Ho Hd] He Hc. destruct Ho as ([_ Ho] & _ & _), Hh as [_ Hh].
  unfold held_elsewhere. set (c := fi_capture _) in *. rewrite (inv_account _ _ _ HI).
  assert (Hx : h <> sy_sync_queue s) by (intros Hx; rewrite <- Hx in Ho; cbn in *; congruence).
  pose proof (slots_two (heap w) h (sy_sync_queue s) (OSync s) (OQueue out) (KCapture, c) Hx Hh Ho) as H2.
  assert (Hs : 0 < count_ref (KCapture, c) (obj_refs (OSync s))).
  { apply (frame_ref_in color). unfold frame_refs. rewrite elem_of_app, (nonnull_live KCapture) by done. set_solver. }
  pose proof (He KCapture c ltac:(done)). lia.
Qed.

Lemma frame_count_le color s r : count_ref r (frame_refs (frame_of color s)) <= count_ref r (obj_refs (OSync s)).
Proof.
  destruct color; cbn; rewrite count_ref_app; [pose proof (count_ref_nonneg r (frame_refs (sy_depth_ir s)))
    |pose proof (count_ref_nonneg r (frame_refs (sy_color s)))]; lia.
Qed.

Lemma syncing_rc busy ext h s Q out w color r :
  syncing busy ext h s Q out w -> 0 <= ext r -> r ∈ frame_refs (frame_of color s) -> 0 < rc w r.
Proof.
  intros Hw He Hr. pose proof (frame_ref_in _ _ _ Hr).
  pose proof (inv_covers _ _ _ _ _ r (syn_inv _ _ _ _ _ _ _ Hw) He (proj2 (syn_has _ _ _ _ _ _ _ Hw))). cbn in *. lia.
Qed.

Lemma syncing_capture_rc busy ext h s Q out w color :
  syncing busy ext h s Q out w -> 0 <= ext (KCapture, fi_capture (frame_of color s)) ->
  fi_capture (frame_of color s) <> NULL -> 0 < rc w (KCapture, fi_capture (frame_of color s)).
Proof.
  intros Hw He Hn. eapply syncing_rc; [exact Hw|exact He|].
  unfold frame_refs. rewrite (nonnull_live KCapture) by done. set_solver.
Qed.

(** The contexts of the modules above stay as they are. *)
Definition modules_kept (w w' : world) : Prop :=
  forall x m, heap w !! x = Some (OModule m) -> heap w' !! x = Some (OModule m).

Lemma kept_refl w : modules_kept w w.
Proof. by intros x m. Qed.
Lemma kept_trans w1 w2 w3 : modules_kept w1 w2 -> modules_kept w2 w3 -> modules_kept w1 w3.
Proof. intros H12 H23 x m Hx. by apply H23, H12. Qed.
Lemma kept_step w w' : rc_step [KCapture; KImage; KBlock] w w' -> modules_kept w w'.
Proof. intros Hs x m Hx. eapply rc_step_other; [exact Hs|exact Hx|]. cbn. set_solver. Qed.
Lemma kept_store w h s s' : has w h s -> modules_kept w (w <| heap := <[h := OSync s']> (heap w) |>).
Proof. intros [_ Hh] x m Hx. cbn in *. rewrite lookup_insert_ne; [done|]. intros ->. congruence. Qed.
Lemma kept_frame w w' h (q : queue_context_t) : frame h w w' -> has w h q -> modules_kept w w'.
Proof.
  intros Hf [_ Hh] x m Hx. destruct (decide (x = h)) as [->|Hn]; [cbn in Hh; congruence|]. by eapply frame_other.
Qed.

(** A reference count is dropped; the slot is cleared afterwards. *)
Lemma wp_sync_capture_drop busy ext h s Q out w c (R : unit -> world -> Prop) :
  syncing busy ext h s Q out w -> parts_nonneg ext -> 0 < rc w (KCapture, c) ->
  (forall w', syncing busy (lose ext (KCapture, c)) h s Q out w' -> modules_kept w w' -> R tt w') ->
  wp (capture_dec_ref c) R w.
Proof.
  intros Hw He Hrc HR. pose proof Hw as [HI Hu _ _ _ _].
  eapply wp_mono; [apply (wp_capture_unref _ _ _ _ HI); auto|].
  intros [] w' (HI' & [Hs _] & _). apply HR; [by eapply syncing_frame|by apply kept_step].
Qed.

Lemma wp_sync_capture_unref busy ext h s Q out w c (R : unit -> world -> Prop) :
  syncing busy ext h s Q out w -> parts_nonneg ext -> 0 < rc w (KCapture, c) ->
  (forall w', syncing busy (lose ext (KCapture, c)) h s Q out w' -> R tt w') ->
  wp (capture_dec_ref c) R w.
Proof. intros Hw He Hrc HR. eapply wp_sync_capture_drop; [done..|]. intros w' Hw' _. by apply HR. Qed.

Lemma wp_sync_image_drop busy ext h s Q out w i (R : unit -> world -> Prop) :
  syncing busy ext h s Q out w -> blocks_nonneg ext -> 0 < rc w (KImage, i) ->
  (forall w', syncing busy (lose ext (KImage, i)) h s Q out w' -> modules_kept w w' -> R tt w') ->
  wp (image_dec_ref i) R w.
Proof.
  intros Hw He Hrc HR. pose proof Hw as [HI Hu _ _ _ _].
  eapply wp_mono; [apply (wp_image_unref _ _ _ _ HI); auto|].
  intros [] w' (HI' & Hs & _). assert (Hs' : rc_step [KCapture; KImage; KBlock] w w') by (eapply rc_step_weaken; [exact Hs|set_solver]).
  apply HR; [by eapply syncing_frame|by apply kept_step].
Qed.

Lemma wp_sync_image_unref busy ext h s Q out w i (R : unit -> world -> Prop) :
  syncing busy ext h s Q out w -> blocks_nonneg ext -> 0 < rc w (KImage, i) ->
  (forall w', syncing busy (lose ext (KImage, i)) h s Q out w' -> R tt w') ->
  wp (image_dec_ref i) R w.
Proof. intros Hw He Hrc HR. eapply wp_sync_image_drop; [done..|]. intros w' Hw' _. by apply HR. Qed.

Lemma wp_load_frame busy ext h s Q out w color (R : frame_info_t -> world -> Prop) :
  syncing busy ext h s Q out w -> R (frame_of color s) w -> wp (load_frame color h) R w.
Proof. intros Hw HR. apply wp_bind. eapply wp_load; [apply Hw|]. by apply wp_ret. Qed.

(** The frame changes, and the books with it. *)
Lemma on_frame_links color f s :
  (forall x, fi_queue (f x) = fi_queue x) -> same_links s (on_frame color f s).
Proof. intros Hf. split; [by destruct color|]. intros []; destruct color; cbn; by rewrite ?Hf. Qed.

Lemma on_frame_refs color f s r :
  count_ref r (obj_refs (OSync (on_frame color f s))) =
  count_ref r (obj_refs (OSync s)) - count_ref r (frame_refs (frame_of color s))
  + count_ref r (frame_refs (f (frame_of color s))).
Proof. destruct color; cbn; rewrite !count_ref_app; lia. Qed.

Lemma wp_update_frame busy ext ext' h s Q out w color f (R : unit -> world -> Prop) :
  syncing busy ext h s Q out w -> (forall x, fi_queue (f x) = fi_queue x) ->
  (forall r, ext' r = ext r + count_ref r (frame_refs (frame_of color s))
                      - count_ref r (frame_refs (f (frame_of color s)))) ->
  (forall w', syncing busy ext' h (on_frame color f s) Q out w' -> R tt w') ->
  wp (update_frame color h f) R w.
Proof.
  intros Hw Hf He HR. eapply wp_update; [apply Hw|]. apply HR.
  eapply syncing_store; [exact Hw|by apply on_frame_links|].
  intros r. rewrite He, on_frame_refs. lia.
Qed.

Lemma on_frame_twice color g f s : on_frame color g (on_frame color f s) = on_frame color (fun x => g (f x)) s.
Proof. by destruct color. Qed.

Lemma on_frame_const color f s : on_frame color f s = on_frame color (fun _ => f (frame_of color s)) s.
Proof. by destruct color. Qed.

Lemma frame_on color f s : frame_of color (on_frame color f s) = f (frame_of color s).
Proof. by destruct color. Qed.

Definition cleared (f : frame_info_t) : frame_info_t := f <| fi_capture := NULL |> <| fi_image := NULL |>.

Lemma wp_release_sample busy ext h s Q out w color (R : unit -> world -> Prop) :
  syncing busy ext h s Q out w -> nonneg ext -> fi_capture (frame_of color s) <> NULL ->
  (forall w', syncing busy ext h (on_frame color cleared s) Q out w' -> R tt w') ->
  wp (release_sample h color) R w.
Proof.
  intros Hw He Hc HR. pose proof (nonneg_parts _ He) as Hp.
  set (c := fi_capture (frame_of color s)) in *. set (i := fi_image (frame_of color s)).
  assert (Hrefs : frame_refs (frame_of color s) = (KCapture, c) :: nonnull KImage i).
  { unfold frame_refs. fold c i. by rewrite (nonnull_live KCapture). }
  apply wp_bind. eapply wp_load_frame; [exact Hw|]. fold c.
  apply wp_bind. eapply wp_sync_capture_unref; [exact Hw|exact Hp| |].
  { exact (syncing_capture_rc _ _ _ _ _ _ _ color Hw (He KCapture _ ltac:(done)) Hc). }
  intros w1 Hw1. set (f1 := fun f => f <| fi_capture := NULL |>).
  assert (Hrefs1 : frame_refs (f1 (frame_of color s)) = nonnull KImage i) by done.
  apply wp_bind. eapply (wp_update_frame _ _ ext _ _ _ _ _ _ f1); [exact Hw1|done| |].
  { intros r. rewrite Hrefs, Hrefs1. ledger. }
  intros w2 Hw2. apply wp_bind. eapply wp_load_frame; [exact Hw2|]. rewrite frame_on.
  change (fi_image (f1 (frame_of color s))) with i.
  assert (Hend : forall e w3, syncing busy e h (on_frame color f1 s) Q out w3 ->
    (forall r, e r = ext r - count_ref r (nonnull KImage i)) ->
    wp (update_frame color h (fun f => f <| fi_image := NULL |>)) R w3).
  { intros e w3 Hw3 Hx. eapply (wp_update_frame _ _ ext); [exact Hw3|done| |].
    { intros r. rewrite frame_on, Hrefs1, Hx. unfold frame_refs, f1. cbn. ledger. }
    intros w4 Hw4. rewrite on_frame_twice in Hw4. by apply HR. }
  apply wp_bind. destruct (Z.eqb_spec i NULL) as [E|Hi].
  - rewrite E. apply wp_image_dec_ref_null. eapply Hend; [exact Hw2|]. intros r. rewrite E. cbn. ledger.
  - eapply wp_sync_image_unref; [exact Hw2|by apply parts_blocks| |].
    { eapply (syncing_rc _ _ _ _ _ _ _ color); [exact Hw2|by apply He|]. rewrite frame_on, Hrefs1.
      rewrite (nonnull_live KImage) by done. set_solver. }
    intros w3 Hw3. eapply Hend; [exact Hw3|]. intros r. rewrite (nonnull_live KImage) by done. ledger.
Qed.

(** The image a frame's accessor reads. *)
Definition typed_slot (fn : pfn_get_typed_image_t) : capture_context_t -> Z :=
  match fn with fn_capture_get_color_image => cap_color | fn_capture_get_ir_image => cap_ir end.

Lemma typed_slot_in fn c : typed_slot fn c <> NULL -> (KImage, typed_slot fn c) ∈ obj_refs (OCapture c).
Proof. intros Hn. destruct fn; cbn in *; unfold nonnull; rewrite (proj2 (Z.eqb_neq _ _) Hn); set_solver. Qed.

Lemma wp_get_typed_image_live busy ext h s Q out w fn c cc (R : Z -> world -> Prop) :
  syncing busy ext h s Q out w -> has w c cc ->
  (typed_slot fn cc <> NULL -> 0 < rc w (KImage, typed_slot fn cc)) ->
  (forall image w', syncing busy (gain_nonnull ext image) h s Q out w' -> R image w') ->
  wp (get_typed_image fn c) R w.
Proof.
  intros Hw Hcc Hrc HR. pose proof Hw as [HI Hu _ _ _ _].
  assert (Hb : c ∉ busy ∪ {[h]}) by (eapply (unbusy_free _ _ _ (OCapture cc)); [by apply Hu; right|apply Hcc]).
  assert (Hfin : forall slot `{ImageSlot slot}, (slot cc <> NULL -> 0 < rc w (KImage, slot cc)) ->
    wp (capture_get_image slot c) R w).
  { intros slot HF HS Hl. eapply wp_mono; [by apply (wp_capture_get_image_live slot _ ext c cc w HI)|].
    intros image w' (-> & HI' & _ & Hs). apply HR. eapply syncing_frame; [exact Hw|exact HI'|].
    eapply rc_step_weaken; [exact Hs|set_solver]. }
  destruct fn; [exact (Hfin cap_color _ color_slot Hrc)|exact (Hfin cap_ir _ ir_slot Hrc)].
Qed.

Lemma live_capture busy ext w c : Inv busy ext w -> 0 < rc w (KCapture, c) -> exists cc : capture_context_t, has w c cc.
Proof.
  intros HI Hrc. destruct (rc_pos _ KCapture _ ltac:(done) Hrc) as (o & Ho & Hk & _).
  destruct o as [| |cc| | |]; try done. exists cc. split; [|done].
  pose proof (inv_range _ _ _ HI _ _ Ho). unfold NULL. lia.
Qed.

Lemma wp_get_typed_image busy ext h s Q out w fn c (R : Z -> world -> Prop) :
  syncing busy ext h s Q out w -> parts_nonneg ext -> 0 < rc w (KCapture, c) ->
  (forall image w', syncing busy (gain_nonnull ext image) h s Q out w' -> R image w') ->
  wp (get_typed_image fn c) R w.
Proof.
  intros Hw Hp Hrc HR. pose proof Hw as [HI _ _ _ _ _].
  destruct (live_capture _ _ _ _ HI Hrc) as [cc Hcc].
  eapply wp_get_typed_image_live; [exact Hw|exact Hcc| |exact HR].
  intros Hn. pose proof (inv_covers _ _ _ c (OCapture cc) (KImage, typed_slot fn cc) HI
    ltac:(apply Hp; by left) (proj2 Hcc)) as Hle.
  pose proof (count_ref_pos _ _ (typed_slot_in fn cc Hn)). lia.
Qed.

Lemma wp_image_get busy ext w {A} (v : A) f i (R : A -> world -> Prop) :
  Inv busy ext w -> 0 < rc w (KImage, i) -> (forall x, R x w) -> wp (image_get v f i) R w.
Proof.
  intros HI Hrc HR. destruct (rc_pos _ KImage _ ltac:(done) Hrc) as (o & Ho & Hk & _).
  destruct o as [|ii| | | |]; try done.
  assert (Hi : has w i ii).
  { split; [|done]. pose proof (inv_range _ _ _ HI _ _ Ho). unfold NULL. lia. }
  eapply wp_if_handle_valid; [exact Hi|]. apply wp_bind. eapply wp_load; [exact Hi|]. by apply wp_ret.
Qed.

(** Filling a frame, whose capture's reference is in [ext], from the
    capture. *)
Definition same_sensor (f f' : frame_info_t) : Prop :=
  fi_queue f' = fi_queue f /\ fi_get_typed_image f' = fi_get_typed_image f /\
  fi_color_capture f' = fi_color_capture f.

Definition upd (Q : bool -> queue_context_t) (color : bool) (q : queue_context_t) : bool -> queue_context_t :=
  fun c => if decide (c = color) then q else Q c.

Lemma syncing_upd_same busy ext h s Q out w color :
  syncing busy ext h s Q out w -> syncing busy ext h s (upd Q color (Q color)) out w.
Proof.
  intros [HI Hu Hh Hq Ho Hd]. split; try done. intros c. unfold upd. case_decide as E; [rewrite E|]; apply Hq.
Qed.

(** A successful pop of a synchroniser's queue gives a capture. *)
Lemma apop_nonnull q : queue_wf q ->
  fst (snd (apop (abs q))) = ZSA_WAIT_RESULT_SUCCEEDED -> snd (snd (apop (abs q))) <> NULL.
Proof.
  intros Hq. unfold apop. destruct (aq_enabled _); cbn; [|done]. destruct (queue_contents q) as [|x l] eqn:El; [done|].
  intros _. cbn. pose proof (queue_contents_nonnull q Hq) as Hn. rewrite El in Hn. by apply Forall_cons_1 in Hn as [? _].
Qed.

Lemma wp_next_sample busy ext h s Q out w color (R : zsa_wait_result_t -> world -> Prop) :
  syncing busy ext h s Q out w -> nonneg ext ->
  fi_capture (frame_of color s) = NULL -> fi_image (frame_of color s) = NULL ->
  (forall r fr q' w', syncing busy ext h (on_frame color (fun _ => fr) s) (upd Q color q') out w' ->
     same_sensor (frame_of color s) fr -> abs q' = fst (apop (abs (Q color))) ->
     (if decide (r = ZSA_WAIT_RESULT_SUCCEEDED)
      then fi_capture fr <> NULL /\ fi_image fr <> NULL /\ fst (snd (apop (abs (Q color)))) = ZSA_WAIT_RESULT_SUCCEEDED
      else fi_image fr = NULL) -> R r w') ->
  wp (next_sample h color) R w.
Proof.
  intros Hw He Hc Hi HR. pose proof (nonneg_parts _ He) as Hp.
  assert (Hrefs : frame_refs (frame_of color s) = []) by (unfold frame_refs; by rewrite Hc, Hi).
  pose proof (syncing_pre _ _ _ _ _ _ _ color Hw He) as Hpre.
  apply wp_bind. eapply wp_load_frame; [exact Hw|].
  apply wp_bind. eapply wp_mono; [apply (wp_queue_pop _ _ _ _ 0 _ Hpre); auto|].
  intros r w1 [-> (q' & H1 & H2 & H3 & H4 & H5)]. cbn [fst snd].
  set (c := snd (snd (apop (abs (Q color))))) in *.
  assert (Hw1 : syncing busy (gain_capture ext c) h s (upd Q color q') out w1) by (by eapply syncing_queue).
  set (f1 := fun f => f <| fi_capture := c |>).
  assert (Hrefs1 : frame_refs (f1 (frame_of color s)) = nonnull KCapture c).
  { unfold frame_refs, f1. cbn. by rewrite Hi, app_nil_r. }
  apply wp_bind. eapply (wp_update_frame _ _ ext _ _ _ _ _ _ f1); [exact Hw1|done| |].
  { intros x. rewrite Hrefs, Hrefs1. unfold gain_capture, nonnull. destruct (c =? NULL); ledger. }
  intros w2 Hw2.
  pose proof (apop_nonnull _ (pre_wf _ _ _ _ _ Hpre)) as Hsucc. fold c in Hsucc.
  assert (Hfail : fst (snd (apop (abs (Q color)))) <> ZSA_WAIT_RESULT_SUCCEEDED ->
            wp (mret (fst (snd (apop (abs (Q color)))))) R w2).
  { intros Hr. apply wp_ret. apply (HR _ (f1 (frame_of color s)) q' w2); [|done|done|].
    - rewrite <- on_frame_const. exact Hw2.
    - by rewrite decide_False. }
  destruct (fst (snd (apop (abs (Q color))))) eqn:Er; [|by apply Hfail|by apply Hfail]. clear Hfail.
  specialize (Hsucc eq_refl). rewrite nonnull_live in Hrefs1 by done.
  apply wp_bind. eapply wp_load_frame; [exact Hw2|]. rewrite frame_on.
  apply wp_bind. eapply wp_get_typed_image; [exact Hw2|exact Hp| |].
  { eapply (syncing_rc _ _ _ _ _ _ _ color); [exact Hw2|by apply He|].
    rewrite frame_on, Hrefs1. set_solver. }
  intros image w3 Hw3. set (f2 := fun f => f <| fi_image := image |>).
  apply wp_bind. eapply (wp_update_frame _ _ ext _ _ _ _ _ _ f2); [exact Hw3|done| |].
  { intros x. rewrite frame_on, Hrefs1. unfold frame_refs, f2, f1, gain_nonnull. cbn.
    rewrite (nonnull_live KCapture) by done. unfold nonnull. destruct (image =? NULL); ledger. }
  intros w4 Hw4. rewrite on_frame_twice in Hw4.
  destruct (Z.eqb_spec image NULL) as [Em|Em].
  { apply wp_ret. apply (HR _ (f2 (f1 (frame_of color s))) q' w4); [|done|done|].
    - rewrite <- (on_frame_const color (fun x => f2 (f1 x))). exact Hw4.
    - by rewrite decide_False. }
  apply wp_bind. eapply wp_image_get; [apply Hw4| |].
  { eapply (syncing_rc _ _ _ _ _ _ _ color); [exact Hw4|by apply He|].
    rewrite frame_on. unfold frame_refs, f2, f1. cbn. rewrite !nonnull_live by done. set_solver. }
  intros ts. set (f3 := fun f => f <| fi_ts := ts |>).
  apply wp_bind. eapply (wp_update_frame _ _ ext _ _ _ _ _ _ f3); [exact Hw4|done| |].
  { intros x. rewrite frame_on. unfold frame_refs, f3. cbn. lia. }
  intros w5 Hw5. rewrite on_frame_twice in Hw5. apply wp_ret.
  apply (HR _ (f3 (f2 (f1 (frame_of color s)))) q' w5); [|done|done|].
  - rewrite <- (on_frame_const color (fun x => f3 (f2 (f1 x)))). exact Hw5.
  - rewrite decide_True by done. by split_and!.
Qed.

Definition blank (f : frame_info_t) : frame_info_t :=
  f <| fi_capture := NULL |> <| fi_image := NULL |> <| fi_ts := 0 |>.

(** [if (x) dec_ref(x)], with the slot cleared later. *)
Lemma wp_clear_sample busy ext h s Q out w color (R : unit -> world -> Prop) :
  syncing busy ext h s Q out w -> nonneg ext ->
  (forall w', syncing busy ext h (on_frame color blank s) Q out w' -> R tt w') ->
  wp (clear_sample h color) R w.
Proof.
  intros Hw He HR. pose proof (nonneg_parts _ He) as Hp.
  set (c := fi_capture (frame_of color s)). set (i := fi_image (frame_of color s)).
  assert (Hrefs : frame_refs (frame_of color s) = nonnull KCapture c ++ nonnull KImage i) by done.
  assert (Hfin : forall e w1, syncing busy e h s Q out w1 ->
    (forall r, ext r = e r + count_ref r (nonnull KCapture c) + count_ref r (nonnull KImage i)) ->
    wp (update_frame color h blank) R w1).
  { intros e w1 Hw1 Hx. eapply (wp_update_frame _ _ ext); [exact Hw1|done| |exact HR].
    intros r. rewrite Hrefs, count_ref_app, Hx. unfold frame_refs. cbn. rewrite count_ref_nil. lia. }
  assert (Himg : forall e w1, syncing busy e h s Q out w1 -> parts_nonneg e ->
    (forall r, ext r = e r + count_ref r (nonnull KCapture c)) ->
    wp (f ← load_frame color h;
        when (negb (fi_image f =? NULL)) (image_dec_ref (fi_image f));;
        update_frame color h blank) R w1).
  { intros e w1 Hw1 He1 Hx. apply wp_bind. eapply wp_load_frame; [exact Hw1|]. fold i.
    apply wp_bind, wp_when.
    - intros Hi%negb_true_iff%Z.eqb_neq. eapply wp_sync_image_unref; [exact Hw1|by apply parts_blocks| |].
      + eapply (syncing_rc _ _ _ _ _ _ _ color); [exact Hw1|by apply He1; left|].
        rewrite Hrefs, (nonnull_live KImage) by done. set_solver.
      + intros w2 Hw2. eapply Hfin; [exact Hw2|]. intros r. rewrite (nonnull_live KImage), Hx by done. ledger.
    - intros Hi%negb_false_iff%Z.eqb_eq. eapply Hfin; [exact Hw1|]. intros r. rewrite Hi, Hx. cbn. rewrite count_ref_nil. lia. }
  apply wp_bind. eapply wp_load_frame; [exact Hw|]. fold c.
  apply wp_bind, wp_when.
  - intros Hc%negb_true_iff%Z.eqb_neq. eapply wp_sync_capture_unref; [exact Hw|exact Hp| |].
    + eapply (syncing_rc _ _ _ _ _ _ _ color); [exact Hw|by apply He|].
      rewrite Hrefs, (nonnull_live KCapture) by done. set_solver.
    + intros w1 Hw1. eapply Himg; [exact Hw1|by apply parts_lose|]. intros r. rewrite nonnull_live by done. ledger.
  - intros Hc%negb_false_iff%Z.eqb_eq. eapply Himg; [exact Hw|exact Hp|].
    intros r. rewrite Hc. cbn. rewrite count_ref_nil. lia.
Qed.

(** Samples a sensor still has: the current one and those in its queue. *)
Definition stock (f : frame_info_t) (q : queue_context_t) : nat :=
  (if fi_capture f =? NULL then 0 else 1) + length (queue_contents q).

Lemma apop_stock q q' :
  abs q' = fst (apop (abs q)) ->
  (length (queue_contents q') <= length (queue_contents q))%nat /\
  (fst (snd (apop (abs q))) = ZSA_WAIT_RESULT_SUCCEEDED ->
   S (length (queue_contents q')) = length (queue_contents q)) /\ q_depth q' = q_depth q.
Proof.
  intros E. cut (q_depth q' = q_depth q /\ abs q' = fst (apop (abs q))); [|split; [|done]].
  2: { apply (f_equal aq_capacity) in E. revert E. unfold apop. cbn [abs aq_capacity]. repeat case_match; cbn; lia. }
  clear E. intros [Hz E]. revert E.
  unfold apop. cbn [abs aq_enabled aq_items]. intros E. apply (f_equal aq_items) in E. cbn [abs aq_items] in E.
  destruct (q_enabled q); cbn in *; [|rewrite E; split_and!; [lia|discriminate|done]].
  destruct (queue_contents q) as [|x l] eqn:El; cbn in *; rewrite E.
  - rewrite El. split_and!; [done|intros Er; discriminate Er|done].
  - cbn. split_and!; [lia|done|done].
Qed.

(** The frame after a sample was given up: the next one, or nothing. *)
Definition dropped_frame (f : frame_info_t) (q : queue_context_t) (r : zsa_wait_result_t)
    (f' : frame_info_t) (q' : queue_context_t) : Prop :=
  same_sensor f f' /\ frame_ok f' /\
  (fi_capture f' = NULL <-> r <> ZSA_WAIT_RESULT_SUCCEEDED) /\ (stock f' q' < stock f q)%nat /\ q_depth q' = q_depth q.

Lemma wp_drop_sample busy ext h s Q out w wresult color into (R : zsa_wait_result_t -> world -> Prop) :
  syncing busy ext h s Q out w -> nonneg ext ->
  fi_capture (frame_of color s) <> NULL ->
  (forall r fr q' out' w', syncing busy ext h (on_frame color (fun _ => fr) s) (upd Q color q') out' w' ->
     dropped_frame (frame_of color s) (Q color) r fr q' -> R r w') ->
  wp (drop_sample h wresult color into) R w.
Proof.
  intros Hw He Hc HR.
  set (f0 := frame_of color s) in *.
  assert (Hstock : stock f0 (Q color) = S (length (queue_contents (Q color)))).
  { unfold stock. by rewrite (proj2 (Z.eqb_neq _ _)). }
  assert (Hrest : forall out1 w1, syncing busy ext h s Q out1 w1 ->
    wp (release_sample h color;;
        wresult ← (if decide (wresult = ZSA_WAIT_RESULT_FAILED) then mret wresult else next_sample h color);
        (if decide (wresult = ZSA_WAIT_RESULT_SUCCEEDED) then mret tt else clear_sample h color);;
        mret wresult) R w1).
  { intros out1 w1 Hw1. apply wp_bind. eapply wp_release_sample; [exact Hw1|done|done|]. intros w2 Hw2.
    assert (Hclear : forall r fr q3 w3, syncing busy ext h (on_frame color (fun _ => fr) s) (upd Q color q3) out1 w3 ->
      same_sensor f0 fr -> (length (queue_contents q3) <= length (queue_contents (Q color)))%nat ->
      q_depth q3 = q_depth (Q color) ->
      (if decide (r = ZSA_WAIT_RESULT_SUCCEEDED) then dropped_frame f0 (Q color) r fr q3 else True) ->
      wp ((if decide (r = ZSA_WAIT_RESULT_SUCCEEDED) then mret tt else clear_sample h color);; mret r) R w3).
    { intros r fr q3 w3 Hw3 Hs3 Hl3 Hz3 Hd3. apply wp_bind. case_decide as Hr.
      - apply wp_ret, wp_ret. by eapply HR.
      - eapply wp_clear_sample; [exact Hw3|done|]. intros w4 Hw4. apply wp_ret.
        rewrite on_frame_twice in Hw4. eapply HR; [exact Hw4|]. split; [exact Hs3|].
        split; [done|]. split; [done|]. split; [|done]. unfold stock in *. cbn in *. lia. }
    apply wp_bind. case_decide as Hf.
    - apply wp_ret. apply (Hclear wresult (cleared f0) (Q color)); [|done|done|done|by rewrite Hf].
      unfold f0. rewrite <- (on_frame_const color cleared). eapply syncing_upd_same. exact Hw2.
    - eapply wp_next_sample; [exact Hw2|done|by rewrite frame_on|by rewrite frame_on|].
      intros r fr q3 w3 Hw3 Hs3 Ha3 Hr3. rewrite frame_on in Hs3. rewrite on_frame_twice in Hw3.
      destruct (apop_stock _ _ Ha3) as (Hle & Hlt & Hz).
      apply (Hclear r fr q3); [exact Hw3|exact Hs3|done|done|].
      case_decide as Hr; [|done]. destruct Hr3 as (Hc3 & Hi3 & Hs). split; [exact Hs3|]. split; [by intros Ex|]. split; [done|].
      split; [|done]. specialize (Hlt Hs). rewrite Hstock. unfold stock. rewrite (proj2 (Z.eqb_neq _ _)) by done. lia. }
  apply wp_bind. eapply wp_load; [apply Hw|].
  apply wp_bind, wp_when; [intros _; apply wp_when; [intros _|intros _; by eapply Hrest]|intros _; by eapply Hrest].
  eapply wp_sync_push; [exact Hw|done|done|by eapply frame_held|].
  intros out1 w1 Hw1 _ _. by eapply Hrest.
Qed.

(** Only the samples of the two frames differ. *)
Definition same_sync (s s' : capturesync_context_t) : Prop :=
  s' = s <| sy_color := sy_color s' |> <| sy_depth_ir := sy_depth_ir s' |> /\
  forall color, same_sensor (frame_of color s) (frame_of color s').

Lemma same_sync_refl s : same_sync s s.
Proof. by destruct s. Qed.

Lemma same_sync_trans s1 s2 s3 : same_sync s1 s2 -> same_sync s2 s3 -> same_sync s1 s3.
Proof.
  intros [E1 H1] [E2 H2]. split; [rewrite E2, E1; by destruct s1, s3|].
  intros color. destruct (H1 color) as (A & B & C), (H2 color) as (A' & B' & C'). split_and!; congruence.
Qed.

Lemma same_sync_on color fr s : same_sensor (frame_of color s) fr -> same_sync s (on_frame color (fun _ => fr) s).
Proof. intros Hf. split; [by destruct s, color|]. intros c. destruct c, color; cbn; by destruct Hf as (? & ? & ?). Qed.

Definition frames_ok (s : capturesync_context_t) : Prop := forall color, frame_ok (frame_of color s).

Lemma frames_ok_on color fr s : frames_ok s -> frame_ok fr -> frames_ok (on_frame color (fun _ => fr) s).
Proof. intros Hs Hf c. rewrite frame_of_on. by case_decide. Qed.

Definition total_stock (s : capturesync_context_t) (Q : bool -> queue_context_t) : nat :=
  stock (sy_color s) (Q true) + stock (sy_depth_ir s) (Q false).

Lemma total_stock_upd s Q color fr q :
  (stock fr q < stock (frame_of color s) (Q color))%nat ->
  (total_stock (on_frame color (fun _ => fr) s) (upd Q color q) < total_stock s Q)%nat.
Proof. unfold total_stock, upd. destruct color; cbn; repeat case_decide; try done; lia. Qed.

(** A change at one capture, besides counts. *)
Lemma syncing_frame_at busy ext ext' h s Q out w w' x c :
  syncing busy ext h s Q out w -> heap w !! x = Some (OCapture c) -> Inv (busy ∪ {[h]}) ext' w' -> frame x w w' ->
  syncing busy ext' h s Q out w'.
Proof.
  intros [HI Hu Hh Hq Ho Hd] Hx HI' Hf.
  assert (Hne : forall y (q : queue_context_t), has w y q -> y <> x) by (intros y q [_ Hy] ->; cbn in *; congruence).
  assert (Hb : x ∉ busy ∪ {[h]}) by (eapply (unbusy_free _ _ _ (OCapture c)); [by apply Hu; right|done]).
  split; try done.
  - intros k Hk. eapply unbusy_frame; [by apply Hu|exact Hb|exact Hf].
  - eapply has_frame; [exact Hf|exact Hh|set_solver|done].
  - intros color. destruct (Hq color) as (H1 & H2 & H3). split_and!; [|done|done].
    eapply has_frame; [exact Hf|exact H1|by eapply Hne|done].
  - destruct Ho as (H1 & H2 & H3). split_and!; [|done|done].
    eapply has_frame; [exact Hf|exact H1|by eapply Hne|done].
Qed.

Lemma frame_restored x c w w' :
  rc_step [KImage; KBlock] w (w' <| heap := <[x := OCapture c]> (heap w') |>) -> frame x w w'.
Proof.
  intros Hs. apply (frame_rc_step _ x) in Hs as [F Hr]; [|set_solver]. split; [exact F|].
  intros y Hy. specialize (Hr y Hy). unfold obj_step in *. cbn in Hr. by rewrite lookup_insert_ne in Hr by done.
Qed.

Lemma wp_merge_captures busy ext h s Q out w (R : Z -> world -> Prop) :
  syncing busy ext h s Q out w -> nonneg ext ->
  fi_capture (sy_color s) <> NULL -> fi_capture (sy_depth_ir s) <> NULL ->
  (forall w', syncing busy ext h s Q out w' -> R (fi_capture (sy_depth_ir s)) w') ->
  wp (merge_captures (fi_capture (sy_depth_ir s)) (fi_capture (sy_color s))) R w.
Proof.
  intros Hw He Hc Hd HR. pose proof (nonneg_parts _ He) as Hp.
  set (d := fi_capture (sy_depth_ir s)) in *. set (c := fi_capture (sy_color s)) in *.
  apply wp_bind. change capture_get_color_image with (get_typed_image fn_capture_get_color_image).
  eapply wp_get_typed_image; [exact Hw|exact Hp|exact (syncing_capture_rc _ _ _ _ _ _ _ true Hw (He KCapture _ ltac:(done)) Hc)|].
  intros image w1 Hw1.
  assert (He1 : nonneg (gain_nonnull ext image)).
  { unfold gain_nonnull. destruct (image =? NULL); [done|by apply nonneg_gain]. }
  destruct (rc_pos w1 KCapture d) as (o & Ho & Hk & _); [done|exact (syncing_capture_rc _ _ _ _ _ _ _ false Hw1 (He1 KCapture _ ltac:(done)) Hd)|].
  destruct o as [| |cd| | |]; try done. pose proof Hw1 as [HI1 Hu1 _ _ _ _].
  assert (Hcd : has w1 d cd) by (split; done).
  assert (Hb : d ∉ busy ∪ {[h]}) by (eapply (unbusy_free _ _ _ (OCapture cd)); [by apply Hu1; right|done]).
  apply wp_bind. eapply wp_mono; [eapply (wp_capture_set_image cap_color _ _ d cd image w1 HI1)|].
  { by apply nonneg_parts. } { by apply Hu1; left. } { done. } { done. }
  { intros Hi. unfold gain_nonnull. rewrite (proj2 (Z.eqb_neq _ _)) by done. specialize (He KImage image ltac:(done)). ledger. }
  intros [] w2 (HI2 & _ & Hs2).
  assert (Hw2 : syncing busy (gain_nonnull ext image) h s Q out w2).
  { eapply syncing_frame_at; [exact Hw1|exact Ho|exact HI2|by eapply frame_restored]. }
  apply wp_bind. unfold gain_nonnull in Hw2. destruct (Z.eqb_spec image NULL) as [->|Hi].
  { apply wp_image_dec_ref_null, wp_ret. by apply HR. }
  eapply wp_sync_image_unref; [exact Hw2|by apply parts_blocks, nonneg_parts, nonneg_gain| |].
  - rewrite (inv_account _ _ _ (syn_inv _ _ _ _ _ _ _ Hw2)). pose proof (slots_nonneg (heap w2) (KImage, image)).
    specialize (He KImage image ltac:(done)). ledger.
  - intros w3 Hw3. apply wp_ret, HR. pose proof Hw3 as [HI3 ? ? ? ? ?]. split; try done.
    eapply inv_ext; [exact HI3|]. ledger.
Qed.

(** * The loop *)

(** The sensors' queues are created with the default size. *)
Definition sized (Q : bool -> queue_context_t) : Prop := forall c, q_depth (Q c) = QUEUE_DEFAULT_SIZE + 1.

Lemma sized_upd Q color q : q_depth q = q_depth (Q color) -> sized Q -> sized (upd Q color q).
Proof. intros Hq Hs c. unfold upd. case_decide; [|done]. by rewrite Hq. Qed.

(** What a turn, and the whole loop, leave behind. *)
Definition synced (busy : gset Z) (ext : ledger) (h : Z) (s : capturesync_context_t)
    (Q : bool -> queue_context_t) (n : nat)
    (Rr : zsa_wait_result_t -> capturesync_context_t -> Prop) (r : zsa_wait_result_t) (w' : world) : Prop :=
  exists s' Q' out', syncing busy ext h s' Q' out' w' /\ same_sync s s' /\ frames_ok s' /\
    (sized Q -> sized Q') /\ (total_stock s' Q' < n)%nat /\ Rr r s'.

Lemma wp_drop_turn busy ext h s Q out w wresult color into :
  syncing busy ext h s Q out w -> nonneg ext -> frames_ok s -> fi_capture (frame_of color s) <> NULL ->
  wp (drop_sample h wresult color into)
     (synced busy ext h s Q (total_stock s Q)
        (fun r s' => fi_capture (frame_of color s') = NULL <-> r <> ZSA_WAIT_RESULT_SUCCEEDED)) w.
Proof.
  intros Hw He Hok Hc. eapply wp_drop_sample; [exact Hw|done|done|].
  intros r fr q' out' w' Hw' (Hs & Hf & Hr & Hlt & Hz). eexists _, _, _. split; [exact Hw'|].
  rewrite frame_on. split_and!; [by apply same_sync_on|by apply frames_ok_on|by apply sized_upd|by apply total_stock_upd|done..].
Qed.

(** No pair of samples is left to be compared. *)
Definition one_empty (s : capturesync_context_t) : Prop :=
  fi_capture (sy_color s) = NULL \/ fi_capture (sy_depth_ir s) = NULL.

Definition ended (r : zsa_wait_result_t) (s : capturesync_context_t) : Prop :=
  r <> ZSA_WAIT_RESULT_SUCCEEDED -> one_empty s.

Lemma wp_sync_turn busy ext h s Q out w wresult :
  syncing busy ext h s Q out w -> nonneg ext -> frames_ok s ->
  fi_capture (sy_color s) <> NULL -> fi_capture (sy_depth_ir s) <> NULL ->
  wp (sync_turn h wresult) (synced busy ext h s Q (total_stock s Q) ended) w.
Proof.
  intros Hw He Hok Hc Hd. apply wp_bind. eapply wp_load; [apply Hw|].
  destruct (decide_sync s).
  - eapply wp_mono; [by eapply (wp_drop_turn _ _ _ _ _ _ _ _ false)|].
    intros r w1 (s1 & Q1 & out1 & H1 & H2 & H3 & Hz & H4 & H5). exists s1, Q1, out1. split_and!; try done.
    intros Hr. right. by apply H5.
  - eapply wp_mono; [by eapply (wp_drop_turn _ _ _ _ _ _ _ _ true)|].
    intros r w1 (s1 & Q1 & out1 & H1 & H2 & H3 & Hz & H4 & H5). exists s1, Q1, out1. split_and!; try done.
    intros Hr. left. by apply H5.
  - rewrite (proj2 (Z.eqb_neq _ _) Hc), (proj2 (Z.eqb_neq _ _) Hd). cbn [negb andb].
    apply wp_bind. eapply wp_merge_captures; [exact Hw|done|done|done|]. intros w1 Hw1.
    apply wp_bind. eapply wp_sync_push; [exact Hw1|done|done|by eapply (frame_held _ _ _ _ _ _ _ false)|].
    intros out2 w2 Hw2 _ _.
    apply wp_bind. eapply (wp_drop_sample _ _ _ _ _ _ _ _ true); [exact Hw2|done|done|].
    intros r fr q3 out3 w3 Hw3 (Hs3 & Hf3 & _ & Hlt3 & Hz3).
    eapply wp_mono.
    { eapply (wp_drop_turn _ _ _ _ _ _ _ _ false); [exact Hw3|done|by apply frames_ok_on|done]. }
    intros r4 w4 (s4 & Q4 & out4 & Hw4 & Hs4 & Hf4 & Hz4 & Hlt4 & Hr4). exists s4, Q4, out4. split_and!; try done.
    + eapply same_sync_trans; [|exact Hs4]. by apply same_sync_on.
    + intros Hz. by apply Hz4, sized_upd.
    + eapply Nat.lt_trans; [exact Hlt4|]. by apply total_stock_upd.
    + intros Hr. right. by apply Hr4.
Qed.

Lemma sync_continues_true r s :
  sync_continues r s = true -> fi_capture (sy_color s) <> NULL /\ fi_capture (sy_depth_ir s) <> NULL.
Proof.
  unfold sync_continues. rewrite !andb_true_iff, !negb_true_iff, !Z.eqb_neq. tauto.
Qed.

Lemma sync_continues_false r s : sync_continues r s = false -> ended r s -> one_empty s.
Proof.
  unfold sync_continues, ended. rewrite !andb_false_iff, bool_decide_eq_false, !negb_false_iff, !Z.eqb_eq.
  unfold one_empty. tauto.
Qed.

(** The loop ends by itself once there is fuel for every sample in stock. *)
Lemma wp_sync_loop busy ext h fuel : forall s Q out w wresult,
  syncing busy ext h s Q out w -> nonneg ext -> frames_ok s -> (total_stock s Q <= fuel)%nat -> ended wresult s ->
  wp (sync_loop fuel h wresult) (synced busy ext h s Q (S (total_stock s Q)) (fun _ => one_empty)) w.
Proof.
  induction fuel as [|fuel IH]; intros s Q out w wresult Hw He Hok Hfuel Hend.
  all: cbn [sync_loop]; apply wp_bind; eapply wp_load; [apply Hw|].
  all: destruct (sync_continues wresult s) eqn:Ec;
    [|apply wp_ret; exists s, Q, out; split_and!; [done|apply same_sync_refl|done|done|lia|by eapply sync_continues_false]].
  all: apply sync_continues_true in Ec as [Hc Hd].
  { unfold total_stock, stock in Hfuel. rewrite (proj2 (Z.eqb_neq _ _) Hc) in Hfuel. lia. }
  apply wp_bind. eapply wp_mono; [by eapply wp_sync_turn|].
  intros r w1 (s1 & Q1 & out1 & Hw1 & Hs1 & Hok1 & Hz1 & Hlt1 & Hr1).
  eapply wp_mono; [eapply IH; [exact Hw1|done|done|lia|done]|].
  intros r2 w2 (s2 & Q2 & out2 & Hw2 & Hs2 & Hok2 & Hz2 & Hlt2 & Hr2). exists s2, Q2, out2.
  split_and!; try done; [by eapply same_sync_trans|auto|lia].
Qed.

Lemma queue_wf_stock q : queue_wf q -> Z.of_nat (length (queue_contents q)) < q_depth q.
Proof. intros Hq. rewrite queue_contents_length by done. by apply queue_length_bound. Qed.

Lemma sized_stock busy ext h s Q out w : syncing busy ext h s Q out w -> sized Q -> (total_stock s Q <= sync_fuel)%nat.
Proof.
  intros Hw Hs. unfold total_stock, stock.
  pose proof (syn_queue _ _ _ _ _ _ _ Hw true) as (_ & H1 & _). pose proof (syn_queue _ _ _ _ _ _ _ Hw false) as (_ & H2 & _).
  apply queue_wf_stock in H1, H2. rewrite (Hs true) in H1. rewrite (Hs false) in H2.
  change sync_fuel with 32%nat. change (QUEUE_DEFAULT_SIZE + 1) with 16 in *.
  destruct (_ =? _), (_ =? _); lia.
Qed.

(** * Taking a capture in *)

Lemma wp_sync_image_release busy ext h s Q out w i (R : unit -> world -> Prop) :
  syncing busy ext h s Q out w -> blocks_nonneg ext -> (i <> NULL -> 0 < rc w (KImage, i)) ->
  (forall w', syncing busy (fun r => ext r - count_ref r (nonnull KImage i)) h s Q out w' -> R tt w') ->
  wp (image_dec_ref i) R w.
Proof.
  intros Hw He Hrc HR.
  assert (Hx : forall e w', syncing busy e h s Q out w' -> (forall r, e r = ext r - count_ref r (nonnull KImage i)) -> R tt w').
  { intros e w' Hw' E. apply HR. destruct Hw'. split; try done. by eapply inv_ext. }
  destruct (Z.eqb_spec i NULL) as [->|Hi].
  - apply wp_image_dec_ref_null. eapply Hx; [exact Hw|]. intros r. cbn. ledger.
  - eapply wp_sync_image_unref; [exact Hw|done|by apply Hrc|]. intros w' Hw'. eapply Hx; [exact Hw'|].
    intros r. rewrite nonnull_live by done. ledger.
Qed.

(** The image's timestamp, or 0 when there is no image. *)
Lemma wp_frame_timestamp busy ext h s Q out w color (R : Z -> world -> Prop) :
  syncing busy ext h s Q out w -> nonneg ext -> (forall ts, R ts w) ->
  wp (image_get_device_timestamp_usec (fi_image (frame_of color s))) R w.
Proof.
  intros Hw He HR. set (i := fi_image (frame_of color s)). destruct (Z.eqb_spec i NULL) as [->|Hi].
  - by apply wp_if_handle_null.
  - eapply wp_image_get; [apply Hw| |done]. eapply (syncing_rc _ _ _ _ _ _ _ color); [exact Hw|by apply He|].
    unfold frame_refs. fold i. rewrite (nonnull_live KImage) by done. set_solver.
Qed.

(** Filling a frame that points to a capture, besides its image. *)
Lemma wp_fill_frame busy ext h s Q out w color c i (R : unit -> world -> Prop) :
  syncing busy (fun r => ext r - count_ref r (nonnull KImage i)) h s Q out w -> nonneg ext ->
  fi_capture (frame_of color s) = c -> fi_image (frame_of color s) = i -> c <> NULL ->
  (forall image ts w', syncing busy ext h (on_frame color (fun f => f <| fi_image := image |> <| fi_ts := ts |>) s) Q out w' ->
     R tt w') ->
  wp (image ← get_typed_image (fi_get_typed_image (frame_of color s)) c;
      update_frame color h (fun f => f <| fi_image := image |>);;
      ts ← image_get_device_timestamp_usec image;
      update_frame color h (fun f => f <| fi_ts := ts |>)) R w.
Proof.
  intros Hw He Hc Hi Hn HR. set (fn := fi_get_typed_image _).
  assert (Hrefs : frame_refs (frame_of color s) = (KCapture, c) :: nonnull KImage i).
  { unfold frame_refs. rewrite Hc, Hi. by rewrite (nonnull_live KCapture). }
  assert (Hrc : 0 < rc w (KCapture, c)).
  { rewrite <- Hc. eapply syncing_capture_rc; [exact Hw| |by rewrite Hc].
    rewrite Hc. pose proof (He KCapture c ltac:(done)). unfold nonnull. destruct (i =? NULL); ledger. }
  destruct (live_capture _ _ _ _ (syn_inv _ _ _ _ _ _ _ Hw) Hrc) as [cc Hcc].
  apply wp_bind. eapply wp_get_typed_image_live; [exact Hw|exact Hcc| |].
  { intros Ht. rewrite (inv_account _ _ _ (syn_inv _ _ _ _ _ _ _ Hw)). set (j := typed_slot fn cc) in *.
    pose proof (count_ref_pos _ _ (typed_slot_in fn cc Ht)) as H1. fold j in H1.
    assert (Hx : h <> c).
    { intros Hx. pose proof (proj2 (syn_has _ _ _ _ _ _ _ Hw)) as H2. pose proof (proj2 Hcc) as H3. rewrite Hx in H2. cbn in *. congruence. }
    pose proof (slots_two (heap w) h c (OSync s) (OCapture cc) (KImage, j) Hx (proj2 (syn_has _ _ _ _ _ _ _ Hw)) (proj2 Hcc)).
    assert (count_ref (KImage, j) (nonnull KImage i) <= count_ref (KImage, j) (obj_refs (OSync s))).
    { pose proof (frame_count_le color s (KImage, j)) as Hle. rewrite Hrefs, count_ref_cons in Hle.
      rewrite decide_False in Hle by done. lia. }
    specialize (He KImage j ltac:(done)). lia. }
  intros image w1 Hw1. set (f1 := fun f => f <| fi_image := image |>).
  apply wp_bind. eapply (wp_update_frame _ _ ext _ _ _ _ _ _ f1); [exact Hw1|done| |].
  { intros r. rewrite Hrefs. unfold frame_refs, f1, gain_nonnull. cbn. rewrite Hc, (nonnull_live KCapture) by done.
    unfold nonnull. destruct (image =? NULL); ledger. }
  intros w2 Hw2. apply wp_bind.
  replace image with (fi_image (frame_of color (on_frame color f1 s))) at 1 by (by rewrite frame_on).
  eapply wp_frame_timestamp; [exact Hw2|done|]. intros ts.
  eapply (wp_update_frame _ _ ext); [exact Hw2|done| |].
  { intros r. rewrite frame_on. unfold frame_refs, f1. cbn. lia. }
  intros w3 Hw3. rewrite on_frame_twice in Hw3. by eapply HR.
Qed.

Lemma wp_replace_sample busy ext h s Q out w c color (R : unit -> world -> Prop) :
  syncing busy (gain ext (KCapture, c)) h s Q out w -> nonneg ext ->
  fi_capture (frame_of color s) <> NULL -> c <> NULL ->
  (forall fr out' w', syncing busy ext h (on_frame color (fun _ => fr) s) Q out' w' ->
     same_sensor (frame_of color s) fr -> fi_capture fr = c -> R tt w') ->
  wp (replace_sample h c color) R w.
Proof.
  intros Hw He Hc Hn HR. set (f0 := frame_of color s) in *. set (c0 := fi_capture f0) in *. set (i0 := fi_image f0).
  pose proof (nonneg_gain _ (KCapture, c) He) as Heg.
  assert (Hrefs : frame_refs f0 = (KCapture, c0) :: nonnull KImage i0).
  { unfold frame_refs. fold c0 i0. by rewrite (nonnull_live KCapture). }
  assert (Hrest : forall out1 w1, syncing busy (gain ext (KCapture, c)) h s Q out1 w1 ->
    wp (capture_dec_ref c0;;
        image_dec_ref i0;;
        update_frame color h (fun f => f <| fi_capture := c |>);;
        image ← get_typed_image (fi_get_typed_image f0) c;
        update_frame color h (fun f => f <| fi_image := image |>);;
        ts ← image_get_device_timestamp_usec image;
        update_frame color h (fun f => f <| fi_ts := ts |>)) R w1).
  { intros out1 w1 Hw1. apply wp_bind. eapply wp_sync_capture_unref; [exact Hw1|by apply nonneg_parts| |].
    { exact (syncing_capture_rc _ _ _ _ _ _ _ color Hw1 (Heg KCapture _ ltac:(done)) Hc). }
    intros w2 Hw2. apply wp_bind. eapply (wp_sync_image_release _ _ _ _ _ _ _ i0); [exact Hw2| | |].
    { by apply parts_blocks, parts_lose, nonneg_parts. }
    { intros Hi. eapply (syncing_rc _ _ _ _ _ _ _ color); [exact Hw2|exact (parts_lose _ _ (nonneg_parts _ Heg) KImage _ ltac:(by left))|].
      fold f0. rewrite Hrefs, (nonnull_live KImage) by done. set_solver. }
    intros w3 Hw3. set (f1 := fun f => f <| fi_capture := c |>).
    apply wp_bind.
    eapply (wp_update_frame _ _ (fun r => ext r - count_ref r (nonnull KImage i0)) _ _ _ _ _ _ f1); [exact Hw3|done| |].
    { intros r. fold f0. rewrite Hrefs. unfold frame_refs, f1. cbn. fold i0. rewrite (nonnull_live KCapture) by done. ledger. }
    intros w4 Hw4.
    replace (fi_get_typed_image f0) with (fi_get_typed_image (frame_of color (on_frame color f1 s))) by (by rewrite frame_on).
    eapply wp_fill_frame; [exact Hw4|done|by rewrite frame_on|by rewrite frame_on|done|].
    intros image ts w5 Hw5. rewrite on_frame_twice in Hw5. rewrite on_frame_const in Hw5.
    by eapply HR; [exact Hw5| |]. }
  apply wp_bind. eapply wp_load; [apply Hw|]. cbv beta zeta. fold f0 c0 i0. rewrite (proj2 (Z.eqb_neq _ _) Hc). cbn [negb].
  apply wp_bind, wp_when; [intros _|intros _; by eapply Hrest].
  eapply wp_sync_push; [exact Hw|done|done|by eapply frame_held|].
  intros out1 w1 Hw1 _ _. by eapply Hrest.
Qed.

(** What holds between two calls of capturesync_add_capture, besides the
    lock. *)
Definition took (busy : gset Z) (ext : ledger) (h : Z) (s : capturesync_context_t) (w' : world) : Prop :=
  exists s' Q' out', syncing busy ext h s' Q' out' w' /\ same_sync s s' /\ frames_ok s' /\ sized Q'.

(** A sample for a sensor that has none pending. *)
Lemma wp_insert_pending busy ext h s Q out w c color :
  syncing busy ext h s Q out w -> nonneg ext -> frames_ok s -> sized Q -> c <> NULL -> 0 < ext (KCapture, c) ->
  fi_capture (frame_of color s) = NULL -> wp (insert_capture h c color) (fun _ => took busy ext h s) w.
Proof.
  intros Hw He Hok Hz Hn Hx Ec. apply wp_bind. eapply wp_load_frame; [exact Hw|]. rewrite (proj2 (Z.eqb_eq _ NULL) Ec).
  pose proof (Hok color Ec) as Ei. rewrite Ei. cbn [Z.eqb NULL].
  assert (Hrefs : frame_refs (frame_of color s) = []) by (unfold frame_refs; by rewrite Ec, Ei).
  assert (Hrc : 0 < rc w (KCapture, c)).
  { rewrite (inv_account _ _ _ (syn_inv _ _ _ _ _ _ _ Hw)). pose proof (slots_nonneg (heap w) (KCapture, c)). lia. }
  apply wp_bind, wp_ret. apply wp_bind. eapply wp_get_typed_image; [exact Hw|by apply nonneg_parts|exact Hrc|].
  intros image w1 Hw1. set (f1 := fun f => f <| fi_image := image |>).
  apply wp_bind. eapply (wp_update_frame _ _ ext _ _ _ _ _ _ f1); [exact Hw1|done| |].
  { intros r. rewrite Hrefs. unfold frame_refs, f1, gain_nonnull. cbn. rewrite Ec. cbn [nonnull Z.eqb NULL app].
    unfold nonnull. destruct (image =? NULL); ledger. }
  intros w2 Hw2. apply wp_bind.
  replace image with (fi_image (frame_of color (on_frame color f1 s))) at 1 by (by rewrite frame_on).
  eapply wp_frame_timestamp; [exact Hw2|done|]. intros ts.
  set (f2 := fun f => f <| fi_ts := ts |> <| fi_capture := c |>).
  apply wp_bind. eapply (wp_update_frame _ _ (lose ext (KCapture, c)) _ _ _ _ _ _ f2); [exact Hw2|done| |].
  { intros r. rewrite frame_on. unfold frame_refs, f2, f1. cbn. rewrite Ec, (nonnull_live KCapture c) by done.
    cbn [nonnull Z.eqb NULL app]. ledger. }
  intros w3 Hw3. rewrite on_frame_twice in Hw3. rewrite on_frame_const in Hw3.
  destruct (live_capture _ _ _ c (syn_inv _ _ _ _ _ _ _ Hw3)) as [cc Hcc].
  { replace c with (fi_capture (frame_of color (on_frame color (fun _ => f2 (f1 (frame_of color s))) s)))
      by (by rewrite frame_on).
    eapply syncing_capture_rc; [exact Hw3| |by rewrite frame_on].
    rewrite frame_on. cbn. ledger. }
  eapply wp_capture_inc_ref; [apply Hw3|exact Hcc|]. intros w4 -> HI4.
  eexists _, Q, out. split.
  { eapply syncing_frame; [exact Hw3| |eapply rc_step_store; [apply Hcc|done|set_solver]].
    eapply inv_ext; [exact HI4|]. ledger. }
  split_and!; [by apply same_sync_on| |done].
  apply frames_ok_on; [done|]. intros E. by destruct Hn.
Qed.

(** A sample for a sensor that has one pending. *)
Lemma wp_insert_queued busy ext h s Q out w c color :
  syncing busy ext h s Q out w -> nonneg ext -> frames_ok s -> sized Q -> c <> NULL -> 0 < ext (KCapture, c) ->
  fi_capture (frame_of color s) <> NULL -> wp (insert_capture h c color) (fun _ => took busy ext h s) w.
Proof.
  intros Hw He Hok Hz Hn Hx Ec. apply wp_bind. eapply wp_load_frame; [exact Hw|]. rewrite (proj2 (Z.eqb_neq _ NULL) Ec).
  pose proof (syncing_pre _ _ _ _ _ _ _ color Hw He) as Hpre.
  apply wp_bind. eapply wp_mono.
  { apply (wp_queue_push_w_dropped _ _ _ _ c true _ Hpre); [done|].
    eapply held_ext; [apply Hw|apply (syn_queue _ _ _ _ _ _ _ Hw color)|exact Hx]. }
  intros dropped w1 [-> (q' & H1 & H2 & H3 & H4 & H5)].
  assert (Hw1 : syncing busy (gain_capture ext (default NULL (snd (apush (abs (Q color)) c true)))) h s
                  (upd Q color q') out w1) by (by eapply syncing_queue).
  assert (Hz1 : sized (upd Q color q')).
  { intros c'. unfold upd. case_decide; [|done]. rewrite <- (Hz color). apply (f_equal aq_capacity) in H3. revert H3.
    unfold apush. cbn [abs aq_capacity]. repeat case_match; cbn; lia. }
  destruct (snd (apush (abs (Q color)) c true)) as [d|]; cbn in Hw1.
  + unfold gain_capture in Hw1. destruct (Z.eqb_spec d NULL) as [Ed|Ed].
    { apply wp_ret. eexists _, _, _. split; [exact Hw1|]. split_and!; [apply same_sync_refl|done|done]. }
    eapply wp_replace_sample; [exact Hw1|done|done|done|]. intros fr out' w2 Hw2 Hs2 Hc2.
    eexists _, _, _. split; [exact Hw2|]. split_and!; [by apply same_sync_on| |done].
    apply frames_ok_on; [done|]. intros E. congruence.
  + apply wp_ret. eexists _, _, _. split; [exact Hw1|]. split_and!; [apply same_sync_refl|done|done].
Qed.

Lemma wp_insert_capture busy ext h s Q out w c color :
  syncing busy ext h s Q out w -> nonneg ext -> frames_ok s -> sized Q -> c <> NULL -> 0 < ext (KCapture, c) ->
  wp (insert_capture h c color) (fun _ => took busy ext h s) w.
Proof.
  intros Hw He Hok Hz Hn Hx. destruct (decide (fi_capture (frame_of color s) = NULL));
    [by eapply wp_insert_pending|by eapply wp_insert_queued].
Qed.

(** * The module between two calls *)

Record ready (busy : gset Z) (ext : ledger) (h : Z) (s : capturesync_context_t)
    (Q : bool -> queue_context_t) (out : queue_context_t) (w : world) : Prop := {
  rd_syncing : syncing busy ext h s Q out w;
  rd_free : h ∉ busy;
  rd_lock : sy_lock s = LockFree;
  rd_frames : frames_ok s;
  rd_sized : sized Q;
  rd_period : sy_running s = true -> 0 < sy_fps_period s;
  rd_one_empty : one_empty s
}.

(** What the configuration fixes; a session only moves the samples, the flag
    for a clean depth timestamp and the counter of dropped captures. *)
Definition same_settings (s s' : capturesync_context_t) : Prop :=
  s' = s <| sy_color := sy_color s' |> <| sy_depth_ir := sy_depth_ir s' |>
         <| sy_waiting_for_clean_depth_ts := sy_waiting_for_clean_depth_ts s' |>
         <| sy_depth_captures_dropped := sy_depth_captures_dropped s' |> /\
  forall color, same_sensor (frame_of color s) (frame_of color s').

Lemma same_settings_refl s : same_settings s s.
Proof. by destruct s. Qed.

Lemma same_settings_trans s1 s2 s3 : same_settings s1 s2 -> same_settings s2 s3 -> same_settings s1 s3.
Proof.
  intros [E1 H1] [E2 H2]. split; [rewrite E2, E1; by destruct s1, s3|].
  intros color. destruct (H1 color) as (A & B & C), (H2 color) as (A' & B' & C'). split_and!; congruence.
Qed.

Lemma same_sync_settings s s' : same_sync s s' -> same_settings s s'.
Proof. intros [E Hf]. split; [rewrite E; by destruct s, s'|done]. Qed.

Lemma same_settings_fields s s' : same_settings s s' ->
  sy_lock s' = sy_lock s /\ sy_running s' = sy_running s /\ sy_fps_period s' = sy_fps_period s /\
  sy_sync_captures s' = sy_sync_captures s /\ sy_disable_sync s' = sy_disable_sync s /\
  sy_sync_queue s' = sy_sync_queue s.
Proof. intros [E _]. rewrite E. by destruct s. Qed.

(** The lock alone. *)
Lemma syncing_lock busy ext h s Q out w l :
  syncing busy ext h s Q out w ->
  syncing busy ext h (s <| sy_lock := l |>) Q out (w <| heap := <[h := OSync (s <| sy_lock := l |>)]> (heap w) |>).
Proof.
  intros Hw. eapply syncing_store; [exact Hw|split; [done|by intros []]|].
  intros r. change (obj_refs (OSync (s <| sy_lock := l |>))) with (obj_refs (OSync s)). lia.
Qed.

(** When the lock is free the context is at rest. *)
Lemma syncing_close busy ext h s Q out w :
  syncing busy ext h s Q out w -> sy_lock s = LockFree -> Inv busy ext w.
Proof.
  intros [[Ha Hp Hr Hi Hb Hg Hf] _ [_ Hh] _ _ _] Hl. split; try done; intros x o Ho Hx.
  - intros Hc. destruct (decide (x = h)) as [->|Hn]; [|apply (Hp x o Ho); [set_solver|done]].
    cbn in Hh. rewrite Hh in Ho. by injection Ho as <-.
  - destruct (decide (x = h)) as [->|Hn]; [|apply (Hi x o Ho); set_solver].
    cbn in Hh. rewrite Hh in Ho. by injection Ho as <-.
Qed.

(** ** Reading the timestamp *)

Lemma wp_read_timestamp busy ext h s Q out w c color (R : option Z -> world -> Prop) :
  syncing busy ext h s Q out w -> nonneg ext -> 0 < ext (KCapture, c) ->
  (forall ts w', syncing busy ext h s Q out w' -> R ts w') ->
  wp (read_timestamp c color) R w.
Proof.
  intros Hw He Hx HR.
  assert (Hrc : 0 < rc w (KCapture, c)).
  { rewrite (inv_account _ _ _ (syn_inv _ _ _ _ _ _ _ Hw)). pose proof (slots_nonneg (heap w) (KCapture, c)). lia. }
  apply wp_bind.
  change (if color then capture_get_color_image c else capture_get_ir_image c)
    with (if color then get_typed_image fn_capture_get_color_image c else get_typed_image fn_capture_get_ir_image c).
  assert (Hrest : forall image w1, syncing busy (gain_nonnull ext image) h s Q out w1 ->
    wp (if image =? NULL then mret None
        else ts ← image_get_device_timestamp_usec image; image_dec_ref image;; mret (Some ts)) R w1).
  { intros image w1 Hw1. unfold gain_nonnull in Hw1. destruct (Z.eqb_spec image NULL) as [Ei|Ei].
    { apply wp_ret. by apply HR. }
    assert (Hi : 0 < rc w1 (KImage, image)).
    { rewrite (inv_account _ _ _ (syn_inv _ _ _ _ _ _ _ Hw1)). pose proof (slots_nonneg (heap w1) (KImage, image)).
      specialize (He KImage image ltac:(done)). ledger. }
    apply wp_bind. eapply wp_image_get; [apply Hw1|done|]. intros ts.
    apply wp_bind. eapply wp_sync_image_unref; [exact Hw1| |done|].
    { by apply parts_blocks, nonneg_parts, nonneg_gain. }
    intros w2 Hw2. apply wp_ret, HR. destruct Hw2. split; try done. eapply inv_ext; [eassumption|]. ledger. }
  destruct color; (eapply wp_get_typed_image; [exact Hw|by apply nonneg_parts|done|exact Hrest]).
Qed.

(** ** Admission *)

Lemma wp_admit_capture busy ext h s Q out w c ts color :
  syncing busy ext h s Q out w -> nonneg ext -> c <> NULL -> 0 < ext (KCapture, c) -> sy_fps_period s <> 0 ->
  wp (admit_capture h c ts color)
     (fun _ w' => exists s' out', syncing busy ext h s' Q out' w' /\ same_settings s s' /\
        (forall x, frame_of x s' = frame_of x s)) w.
Proof.
  intros Hw He Hn Hx Hp. apply wp_bind. eapply wp_load; [apply Hw|].
  destruct (negb (sy_sync_captures s) || sy_disable_sync s).
  - apply wp_bind. eapply wp_sync_push; [exact Hw|done|done| |].
    { eapply held_ext; [apply Hw|apply (syn_out _ _ _ _ _ _ _ Hw)|exact Hx]. }
    intros out1 w1 Hw1 _ _. apply wp_ret. exists s, out1. split_and!; [done|apply same_settings_refl|done].
  - destruct (_ && _).
    2: { apply wp_ret. exists s, out. split_and!; [done|apply same_settings_refl|done]. }
    rewrite (proj2 (Z.eqb_neq _ _) Hp).
    assert (Hupd : forall (f : capturesync_context_t -> capturesync_context_t) b,
      same_links s (f s) -> same_settings s (f s) -> (forall x, frame_of x (f s) = frame_of x s) ->
      wp (update h f;; mret b) (fun (_ : bool) w' => exists s' out', syncing busy ext h s' Q out' w' /\
        same_settings s s' /\ (forall x, frame_of x s' = frame_of x s)) w).
    { intros f b Hl Hs Hf. apply wp_bind. eapply wp_update; [apply Hw|]. apply wp_ret.
      exists (f s), out. split_and!; [|done|done]. eapply syncing_store; [exact Hw|done|].
      intros r. pose proof (Hf true) as E1. pose proof (Hf false) as E2. cbn in E1, E2 |- *. rewrite E1, E2. lia. }
    destruct (_ >? 10); apply Hupd; try (split; [by destruct s|by intros []]); by intros [].
Qed.

(** ** The failure branch *)

Lemma wp_sync_queue_stop busy ext h s Q out w color (R : unit -> world -> Prop) :
  syncing busy ext h s Q out w -> nonneg ext -> q_queue_pop_blocked (Q color) = 0 ->
  (forall q' w', syncing busy ext h s (upd Q color q') out w' -> abs q' = adisable (abs (Q color)) -> modules_kept w w' -> R tt w') ->
  wp (queue_stop (fi_queue (frame_of color s))) R w.
Proof.
  intros Hw He Hb HR. pose proof (syncing_pre _ _ _ _ _ _ _ color Hw He) as Hpre.
  eapply wp_mono; [eapply wp_queue_stop; [exact Hpre|exact Hb]|].
  intros [] w1 (q' & H1 & H2 & H3 & H4 & H5). eapply HR; [|exact H3|by eapply kept_frame, (syn_queue _ _ _ _ _ _ _ Hw)].
  by eapply syncing_queue.
Qed.

Lemma wp_stop_queues busy ext h s Q out w :
  syncing busy ext h s Q out w -> nonneg ext ->
  (forall color, q_queue_pop_blocked (Q color) = 0) -> q_queue_pop_blocked out = 0 ->
  wp (stop_queues h)
     (fun _ w' => modules_kept w w' /\ exists Q' out', syncing busy ext h s Q' out' w' /\
        abs out' = adisable (abs out) /\ forall color, abs (Q' color) = adisable (abs (Q color))) w.
Proof.
  intros Hw He Hb Hbo. apply wp_bind. eapply wp_load; [apply Hw|].
  pose proof (syncing_pre_out _ _ _ _ _ _ _ Hw He) as Hpre.
  apply wp_bind. eapply wp_mono; [eapply wp_queue_stop; [exact Hpre|exact Hbo]|].
  intros [] w1 (out1 & H1 & H2 & H3 & H4 & H5).
  assert (Hk1 : modules_kept w w1) by (eapply kept_frame; [exact H5|apply (syn_out _ _ _ _ _ _ _ Hw)]).
  assert (Hw1 : syncing busy ext h s Q out1 w1) by (by eapply syncing_queue_out).
  apply wp_bind. eapply wp_load; [apply Hw1|].
  apply wp_bind. eapply (wp_sync_queue_stop _ _ _ _ _ _ _ false); [exact Hw1|done|done|]. intros q2 w2 Hw2 Ha2 Hk2.
  apply wp_bind. eapply wp_load; [apply Hw2|].
  eapply (wp_sync_queue_stop _ _ _ _ _ _ _ true); [exact Hw2|done|exact (Hb true)|]. intros q3 w3 Hw3 Ha3 Hk3.
  split; [eapply kept_trans; [exact Hk1|by eapply kept_trans]|].
  eexists _, _. split; [exact Hw3|]. split; [exact H3|]. intros []; unfold upd; cbn; [exact Ha3|exact Ha2].
Qed.
End specs.

(** * Properties *)

Section properties.
Context `{Platform}.

(** A capture that arrives, on a module at rest. *)
Lemma wp_add_capture busy ext h s Q out c color w :
  ready busy ext h s Q out w -> nonneg ext -> (c <> NULL -> 0 < ext (KCapture, c)) ->
  wp (capturesync_add_capture h ZSA_RESULT_SUCCEEDED c color)
     (fun _ w' => exists s' Q' out', ready busy ext h s' Q' out' w' /\ Inv busy ext w' /\ same_settings s s' /\
        (sy_running s = false -> s' = s /\ Q' = Q /\ out' = out)) w.
Proof.
  intros Hr He Hc. destruct Hr as [Hw Hfree Hl Hok Hz Hp Hone]. pose proof (syn_has _ _ _ _ _ _ _ Hw) as Hh. pose proof Hh as [Hn _].
  assert (Hidle : forall w', syncing busy ext h s Q out w' ->
    exists s' Q' out', ready busy ext h s' Q' out' w' /\ Inv busy ext w' /\ same_settings s s' /\
        (sy_running s = false -> s' = s /\ Q' = Q /\ out' = out)).
  { intros w' Hw'. exists s, Q, out. split_and!; [by split|by eapply syncing_close|apply same_settings_refl|done]. }
  unfold capturesync_add_capture. rewrite (proj2 (Z.eqb_neq h NULL)) by done.
  apply wp_bind, wp_bind. eapply wp_get_context; [exact Hh|]. apply wp_ret. cbn [ZSA_FAILED].
  apply wp_bind, wp_ret. cbn [bool_decide negb].
  destruct (Z.eqb_spec c NULL) as [Ec|Ec]; [apply wp_ret; by apply Hidle|]. specialize (Hc Ec).
  apply wp_bind. eapply wp_read_timestamp; [exact Hw|done|done|]. intros [ts|] w1 Hw1; [|apply wp_ret; by apply Hidle].
  apply wp_bind. eapply wp_Lock; [apply Hw1|by rewrite Hl|].
  set (s1 := s <| sy_lock := LockHeld |>). set (w2 := w1 <| heap := _ |>).
  assert (Hw2 : syncing busy ext h s1 Q out w2) by exact (syncing_lock _ _ _ _ _ _ _ LockHeld Hw1).
  apply wp_bind. eapply wp_load; [apply Hw2|]. change (sy_running s1) with (sy_running s).
  assert (Hend : forall s' Q' out' w', syncing busy ext h s' Q' out' w' -> same_settings s1 s' -> frames_ok s' ->
    sized Q' -> one_empty s' -> (sy_running s = false -> s' = s1 /\ Q' = Q /\ out' = out) ->
    wp (Unlock sy_lock h) (fun _ w' => exists s' Q' out', ready busy ext h s' Q' out' w' /\ Inv busy ext w' /\
      same_settings s s' /\ (sy_running s = false -> s' = s /\ Q' = Q /\ out' = out)) w').
  { intros s' Q' out' w' Hw' Hs' Hok' Hz' Hone' Hrun'. eapply wp_Unlock; [apply Hw'|].
    destruct (same_settings_fields _ _ Hs') as (El & Er & Ep & _). change (sy_lock s1) with LockHeld in El. rewrite El.
    pose proof (syncing_lock _ _ _ _ _ _ _ LockFree Hw') as Hw3.
    assert (Hss : same_settings s (s' <| sy_lock := LockFree |>)).
    { destruct Hs' as [E Hf]. split; [rewrite E; destruct s, s'; cbn in *; by subst|]. intros x. specialize (Hf x). by destruct x. }
    eexists _, Q', out'. split; [split; [exact Hw3|done|done|exact Hok'|done| |exact Hone']|].
    - cbn. rewrite Er, Ep. exact Hp.
    - split; [eapply syncing_close; [exact Hw3|done]|]. split; [exact Hss|]. intros E. destruct (Hrun' E) as (-> & -> & ->).
      split; [|done]. destruct s; cbn in *; by subst. }
  destruct (sy_running s) eqn:Erun.
  2: { apply wp_bind, wp_ret. apply wp_bind, wp_ret. eapply Hend; [exact Hw2|apply same_settings_refl|exact Hok|done|done|done]. }
  apply wp_bind. eapply wp_mono.
  { apply (wp_admit_capture _ _ _ _ _ _ _ _ ts color Hw2 He Ec Hc). cbn. specialize (Hp eq_refl). lia. }
  intros admitted w3 (s3 & out3 & Hw3 & Hs3 & Hf3). pose proof (Hf3 true) as Hft. pose proof (Hf3 false) as Hff. cbn in Hft, Hff.
  assert (Hok3 : frames_ok s3) by (intros x; rewrite Hf3; apply (Hok x)).
  assert (Hone3 : one_empty s3) by (unfold one_empty; rewrite Hft, Hff; exact Hone).
  apply wp_bind, wp_when; [intros _|intros _; by eapply Hend].
  apply wp_bind. eapply wp_mono; [by apply (wp_insert_capture _ _ _ _ _ _ _ _ color Hw3)|].
  intros [] w4 (s4 & Q4 & out4 & Hw4 & Hs4 & Hok4 & Hz4).
  apply wp_bind. eapply wp_mono.
  { apply (wp_sync_loop busy ext h sync_fuel s4 Q4 out4 w4 _ Hw4 He Hok4); [|by intros []]. by eapply sized_stock. }
  intros r w5 (s5 & Q5 & out5 & Hw5 & Hs5 & Hok5 & Hz5 & _ & Hone5). apply wp_ret.
  eapply Hend; [exact Hw5| |done|auto|done|done].
  eapply same_settings_trans; [exact Hs3|]. eapply same_settings_trans; by eapply same_sync_settings.
Qed.

(** A failed capture. *)
Lemma wp_add_failed busy ext h s Q out c color w :
  ready busy ext h s Q out w -> nonneg ext ->
  (forall x, q_queue_pop_blocked (Q x) = 0) -> q_queue_pop_blocked out = 0 ->
  wp (capturesync_add_capture h ZSA_RESULT_FAILED c color)
     (fun _ w' => modules_kept w w' /\ exists Q' out', ready busy ext h s Q' out' w' /\
        abs out' = adisable (abs out) /\ forall x, abs (Q' x) = adisable (abs (Q x))) w.
Proof.
  intros [Hw Hfree Hl Hok Hz Hp Hone] He Hb Hbo. pose proof (syn_has _ _ _ _ _ _ _ Hw) as Hh. pose proof Hh as [Hn _].
  unfold capturesync_add_capture. rewrite (proj2 (Z.eqb_neq h NULL)) by done.
  apply wp_bind, wp_bind. eapply wp_get_context; [exact Hh|]. apply wp_ret. cbn [ZSA_FAILED].
  apply wp_bind, wp_bind. eapply wp_load; [exact Hh|].
  apply wp_bind. eapply wp_mono; [by apply (wp_stop_queues _ _ _ _ _ _ _ Hw)|].
  intros [] w1 (Hk & Q1 & out1 & Hw1 & Ho1 & HQ1). apply wp_ret, wp_ret. split; [exact Hk|].
  exists Q1, out1. split; [|done]. split; try done.
  intros x. rewrite <- (Hz x). by eapply abs_depth'; [apply HQ1|].
Qed.

(** C2: handing a capture to a module at rest always comes back with the
    module at rest: no fault, the lock released, no pair of samples left to be
    compared, every reference count right (the caller still owns exactly what
    it owned) and the queues well formed.  The pairing loop ends within
    [sync_fuel] turns, because every turn takes a sample out of the stock.  A
    module that is not running ignores the capture. *)
Theorem capturesync_add_capture_spec (busy : gset Z) (ext : ledger) (h : Z) (s : capturesync_context_t)
    (Q : bool -> queue_context_t) (out : queue_context_t) (c : Z) (color : bool) (w : world)
    (Hr : ready busy ext h s Q out w) (He : nonneg ext) (Hc : c <> NULL -> 0 < ext (KCapture, c)) :
  wp (capturesync_add_capture h ZSA_RESULT_SUCCEEDED c color)
     (fun _ w' => exists s' Q' out', ready busy ext h s' Q' out' w' /\ Inv busy ext w' /\ same_settings s s' /\
        (sy_running s = false -> s' = s /\ Q' = Q /\ out' = out)) w.
Proof. by apply wp_add_capture. Qed.

(** A failed capture stops the module's three queues: they refuse and
    hold nothing afterwards, so that every later capturesync_get_capture
    fails, and the references they held are given back. *)
Theorem capturesync_add_capture_failed (busy : gset Z) (ext : ledger) (h : Z) (s : capturesync_context_t)
    (Q : bool -> queue_context_t) (out : queue_context_t) (c : Z) (color : bool) (wait : Z) (w : world)
    (Hr : ready busy ext h s Q out w) (He : nonneg ext)
    (Hb : forall x, q_queue_pop_blocked (Q x) = 0) (Hbo : q_queue_pop_blocked out = 0) :
  wp (capturesync_add_capture h ZSA_RESULT_FAILED c color;; capturesync_get_capture h true wait)
     (fun r w' => r = (ZSA_WAIT_RESULT_FAILED, None) /\
        exists Q' out', ready busy ext h s Q' out' w' /\ Inv busy ext w' /\
          aq_enabled (abs out') = false /\ aq_items (abs out') = [] /\
          forall x, aq_enabled (abs (Q' x)) = false /\ aq_items (abs (Q' x)) = []) w.
Proof.
  apply wp_bind. eapply wp_mono; [by apply (wp_add_failed _ _ _ _ _ _ _ _ _ Hr)|].
  intros [] w1 (_ & Q1 & out1 & [Hw1 Hfree Hl Hok Hz Hp Hone] & Ho1 & HQ1).
  pose proof (syn_has _ _ _ _ _ _ _ Hw1) as Hh1.
  eapply wp_if_handle_valid; [exact Hh1|]. cbn [negb]. apply wp_bind. eapply wp_load; [exact Hh1|].
  assert (Ee : q_enabled out1 = false) by exact (f_equal aq_enabled Ho1).
  assert (Ep : apop (abs out1) = (abs out1, (ZSA_WAIT_RESULT_FAILED, NULL))) by (unfold apop; cbn; by rewrite Ee).
  apply wp_bind. eapply wp_mono.
  { eapply wp_queue_pop; [exact (syncing_pre_out _ _ _ _ _ _ _ Hw1 He)|auto]. }
  intros r w2 [-> (out2 & H1 & H2 & H3 & H4 & H5)]. rewrite Ep in *. cbn [fst snd] in *. apply wp_ret. split; [done|].
  assert (Hw2 : syncing busy ext h s Q1 out2 w2) by (by eapply syncing_queue_out).
  exists Q1, out2. split; [by split|].
  split; [by eapply syncing_close|]. split; [by rewrite H3, Ho1|]. split; [by rewrite H3, Ho1|].
  intros x. by rewrite HQ1.
Qed.

(** With an invalid handle a failed capture dereferences the NULL
    context: the queues are stopped through [sync] although the check of the
    handle has failed. *)
Theorem capturesync_add_capture_null_handle (capture_raw : Z) (color : bool) (w : world) :
  capturesync_add_capture NULL ZSA_RESULT_FAILED capture_raw color w = Fault NullDeref.
Proof. reflexivity. Qed.
End properties.

(** * A concrete module *)

(** Three enabled queues beside the capture of [sample_full_world]. *)
Definition make_queues (depths : list Z) : Mw unit :=
  for_each depths (fun depth => '(_, out) ← queue_create depth; queue_enable (default NULL out)).

Definition sample_queues_world : world := final (make_queues [15; 15; 7]) sample_full_world.

Definition sample_frame (color : bool) (queue capture image ts : Z) : frame_info_t :=
  {| fi_queue := queue; fi_ts := ts; fi_capture := capture; fi_image := image;
     fi_get_typed_image := if color then fn_capture_get_color_image else fn_capture_get_ir_image;
     fi_color_capture := color |}.

Definition sample_sync : capturesync_context_t := {|
  sy_sync_queue := 5;
  sy_color := sample_frame true 4 NULL NULL 0;
  sy_depth_ir := sample_frame false 3 NULL NULL 0;
  sy_fps_period := 33333;
  sy_fps_1_quarter_period := 8333;
  sy_sync_captures := true;
  sy_synchronized_images_only := false;
  sy_waiting_for_clean_depth_ts := true;
  sy_depth_captures_dropped := 0;
  sy_disable_sync := false;
  sy_enable_ts_logging := false;
  sy_depth_delay_off_color_usec := 0;
  sy_running := true;
  sy_lock := LockFree
|}.

Definition sample_sync_world : world :=
  sample_queues_world <| heap := <[6 := OSync sample_sync]> (heap sample_queues_world) |> <| fresh := 7 |>.
Definition sample_sensor_queue : queue_context_t := (new_queue 15 true) <| q_enabled := true |>.
Definition sample_output_queue : queue_context_t := (new_queue 7 true) <| q_enabled := true |>.

Lemma wp_make_queues depths : forall w,
  Inv ∅ sample_ledger w -> Forall (fun d => 1 <= d <= 10000) depths ->
  wp (make_queues depths) (fun _ w' => Inv ∅ sample_ledger w') w.
Proof.
  induction depths as [|d depths IH]; intros w HI Hd; [by apply wp_ret|].
  apply Forall_cons in Hd as [Hd Hds]. apply wp_bind.
  apply (wp_mono _ (fun _ w' => Inv ∅ sample_ledger w')); [|intros [] w1 HI1; by apply IH].
  apply wp_bind. eapply wp_mono; [apply (wp_queue_create ∅ sample_ledger d); [exact HI|exact Hd|done]|].
  intros [[] out] w1 [_ Hout].
  - destruct Hout as (b & -> & Hh & Eh & HI1). eapply wp_mono; [apply (wp_queue_enable ∅ sample_ledger _ (new_queue d b))|].
    + split; [exact HI1|apply unbusy_empty|apply unbusy_empty|set_solver|exact Hh|by apply new_queue_wf|apply sample_ledger_nonneg].
    + by intros [] w2 (q' & _ & _ & _ & HI2 & _).
  - destruct Hout as (-> & _ & HI1). by apply wp_ret.
Qed.

Lemma sample_queue_ok depth : 1 <= depth <= 10000 -> queue_wf ((new_queue depth true) <| q_enabled := true |>).
Proof. intros Hd. eapply (same_queue_wf (new_queue depth true)); [by split_and!|by apply new_queue_wf]. Qed.

Lemma sample_ready :
  ready ∅ sample_ledger 6 sample_sync (fun _ => sample_sensor_queue) sample_output_queue sample_sync_world.
Proof.
  destruct (wp_final _ _ _ (wp_make_queues [15; 15; 7] sample_full_world (proj1 sample_full_inv)
    ltac:(repeat constructor; lia))) as ([] & _ & HI). fold sample_queues_world in HI.
  assert (Hs6 : heap sample_sync_world !! 6 = Some (OSync sample_sync)) by (vm_compute; reflexivity).
  assert (Hb : forall k, k = KImage \/ k = KCapture -> unbusy k (∅ ∪ {[6]}) sample_sync_world).
  { intros k Hk. eapply unbusy_add; [apply unbusy_empty|exact Hs6|]. by destruct Hk as [->| ->]. }
  assert (Hs : has sample_sync_world 6 sample_sync) by (split; [discriminate|vm_compute; reflexivity]).
  split.
  - split.
    + pose proof (inv_created ∅ sample_ledger sample_queues_world (tick sample_queues_world) (OSync sample_sync) HI
        eq_refl eq_refl ltac:(done)) as HI1.
      assert (Ef : fresh sample_queues_world = 6) by (vm_compute; reflexivity). rewrite Ef in HI1.
      exact HI1.
    + exact Hb.
    + exact Hs.
    + intros []; (split; [split; [discriminate|vm_compute; reflexivity]|split; [apply sample_queue_ok; lia|apply not_elem_of_empty]]).
    + split; [split; [discriminate|vm_compute; reflexivity]|split; [apply sample_queue_ok; lia|apply not_elem_of_empty]].
    + cbn. lia.
  - apply not_elem_of_empty.
  - reflexivity.
  - intros [] _; reflexivity.
  - intros c. reflexivity.
  - cbn. lia.
  - left. reflexivity.
Qed.

Definition sample_pair : capturesync_context_t :=
  with_ts 1000000 1005000 sample_sync.

Lemma sample_pair_range : sync_range sample_pair.
Proof. split; vm_compute; intuition discriminate. Qed.

Lemma sync_decision_exact_witness :
  decide_sync sample_pair = decide_reference sample_pair /\ decide_sync sample_pair = Match.
Proof.
  destruct (sync_decision_exact sample_pair sample_pair_range) as [E Hm]. split; [exact E|].
  apply Hm. vm_compute. split; discriminate.
Defined.

Lemma sync_drop_safe_witness :
  decide_sync (with_ts 1000000 2000000 sample_sync) = DropColor /\
  decide_sync (with_ts 1000000 2033333 (with_ts 1000000 2000000 sample_sync)) <> Match.
Proof.
  split; [reflexivity|].
  apply (proj2 (sync_drop_safe (with_ts 1000000 2000000 sample_sync) 2033333 ltac:(split; vm_compute; intuition discriminate) ltac:(lia)));
    [reflexivity|cbn; lia].
Defined.

Lemma capturesync_add_capture_spec_witness :
  exists w', capturesync_add_capture 6 ZSA_RESULT_SUCCEEDED 2 true sample_sync_world = Done tt w' /\
    Inv ∅ sample_ledger w'.
Proof.
  pose proof (capturesync_add_capture_spec ∅ sample_ledger 6 sample_sync (fun _ => sample_sensor_queue)
    sample_output_queue 2 true sample_sync_world sample_ready sample_ledger_nonneg
    ltac:(intros _; vm_compute; reflexivity)) as Hw.
  destruct (proj1 (wp_run _ _ _) Hw) as ([] & w' & E & s' & Q' & out' & _ & HI & _). exists w'. split; [exact E|exact HI].
Defined.

Lemma capturesync_add_capture_failed_witness :
  exists w', (capturesync_add_capture 6 ZSA_RESULT_FAILED 2 true;; capturesync_get_capture 6 true (-1)) sample_sync_world
    = Done (ZSA_WAIT_RESULT_FAILED, None) w' /\ Inv ∅ sample_ledger w'.
Proof.
  pose proof (capturesync_add_capture_failed ∅ sample_ledger 6 sample_sync (fun _ => sample_sensor_queue)
    sample_output_queue 2 true (-1) sample_sync_world sample_ready sample_ledger_nonneg
    ltac:(intros []; reflexivity) ltac:(reflexivity)) as Hw.
  destruct (proj1 (wp_run _ _ _) Hw) as (r & w' & E & -> & Q' & out' & _ & HI & _). exists w'. split; [exact E|exact HI].
Defined.
