(* ===== verification/Keep.v ===== *)
(** What the synchroniser leaves alone: no operation on images, captures and
    queues, and so none of capturesync_add_capture, creates, changes or
    destroys the context of another module.  The property is proved of the
    operations one by one, whatever their arguments, and not of the states
    they are called in. *)

From S2P Require Export CaptureSync.

(** The modules' contexts are the same in both worlds. *)
Definition same_modules (w w' : world) : Prop :=
  forall x m, heap w !! x = Some (OModule m) <-> heap w' !! x = Some (OModule m).

#[export] Instance same_modules_equivalence : Equivalence same_modules.
Proof.
  split.
  - by intros w x m.
  - intros w w' Hw x m. by rewrite (Hw x m).
  - intros w1 w2 w3 H1 H2 x m. by rewrite (H1 x m).
Qed.

(** [m] keeps the modules and returns only values in [Q]. *)
Definition keeps_to {A} (m : Mw A) (Q : A -> Prop) : Prop :=
  forall w, match m w with Done a w' => same_modules w w' /\ Q a | Fault _ => True end.
Abbreviation keeps m := (keeps_to m (fun _ => True)).

(** [h] is not the address of a module. *)
Definition plain (h : Z) (w : world) : Prop := forall m, heap w !! h <> Some (OModule m).

(** [m] keeps the modules if [h] is none of them. *)
Definition keeps_on {A} (h : Z) (m : Mw A) : Prop :=
  forall w, plain h w -> match m w with Done _ w' => same_modules w w' | Fault _ => True end.

Lemma plain_same h w w' : same_modules w w' -> plain h w -> plain h w'.
Proof. intros Hs Hp m Hm. by apply (Hp m), Hs. Qed.

(** A context type whose handles are not those of the modules. *)
Class NotModule (T : Type) `{!Context T} : Prop := not_module : forall (c : T) m, to_obj c <> OModule m.
#[export] Instance image_not_module : NotModule image_context_t. Proof. done. Qed.
#[export] Instance capture_not_module : NotModule capture_context_t. Proof. done. Qed.
#[export] Instance queue_not_module : NotModule queue_context_t. Proof. done. Qed.
#[export] Instance sync_not_module : NotModule capturesync_context_t. Proof. done. Qed.

Section rules.
Context `{Platform}.

Lemma keeps_ret {A} (a : A) : keeps (mret a : Mw A).
Proof. intros w. by split. Qed.

Lemma keeps_throw {A} f : keeps (throw f : Mw A).
Proof. done. Qed.

Lemma keeps_to_bind {A B} (m : Mw A) (f : A -> Mw B) P Q :
  keeps_to m P -> (forall a, P a -> keeps_to (f a) Q) -> keeps_to (m ≫= f) Q.
Proof.
  intros Hm Hf w. specialize (Hm w). unfold mbind, M_bind. destruct (m w) as [a w1|]; [|done].
  destruct Hm as [H1 Ha]. specialize (Hf a Ha w1). destruct (f a w1) as [b w2|]; [|done].
  destruct Hf as [H2 Hb]. split; [by etrans|done].
Qed.

Lemma keeps_bind {A B} (m : Mw A) (f : A -> Mw B) : keeps m -> (forall a, keeps (f a)) -> keeps (m ≫= f).
Proof. intros Hm Hf. eapply keeps_to_bind; [exact Hm|auto]. Qed.

Lemma keeps_weaken {A} (m : Mw A) Q : keeps_to m Q -> keeps m.
Proof. intros Hm w. specialize (Hm w). destruct (m w); [|done]. by split; [apply Hm|]. Qed.

Lemma keeps_need {A} f (o : option A) : keeps (need f o : Mw A).
Proof. by destruct o. Qed.

Lemma keeps_when (b : bool) (m : Mw unit) : keeps m -> keeps (when b m).
Proof. intros Hm. by destruct b. Qed.

Lemma keeps_heap (f : world -> world) : (forall w, heap (f w) = heap w) -> keeps (modify f).
Proof. intros Hf w. split; [|done]. intros x m. by rewrite Hf. Qed.

Lemma keeps_gets {A} (f : world -> A) : keeps (gets f).
Proof. intros w. by split. Qed.

Lemma keeps_assert b : keeps (c_assert b).
Proof. unfold c_assert. destruct (b || ndebug); [apply keeps_ret|done]. Qed.

Section contexts.
Context {T : Type} `{!Context T} `{!NotModule T}.

(** Reading a handle says what is there. *)
Lemma get_context_done h w c w' : handle_get_context T h w = Done c w' ->
  w' = w /\ match c with Some c => h <> NULL /\ heap w !! h = Some (to_obj c) | None => True end.
Proof.
  unfold handle_get_context. destruct (Z.eqb_spec h NULL) as [|Hn]; [by intros [= <- <-]|].
  unfold mbind, M_bind, get_state. destruct (heap w !! h) as [o|]; [|done]. cbn. intros [= <- <-]. split; [done|].
  destruct (of_obj o) as [c|] eqn:E; [|done]. split; [done|]. f_equal. by apply to_of_obj.
Qed.

Lemma keeps_get_context h : keeps (handle_get_context T h).
Proof.
  intros w. destruct (handle_get_context T h w) as [c w'|] eqn:E; [|done]. by apply get_context_done in E as [-> _].
Qed.

Lemma load_has h w c w' : load T h w = Done c w' -> w' = w /\ has w h c.
Proof.
  unfold load, mbind, M_bind. destruct (handle_get_context T h w) as [oc w1|] eqn:E; [|done].
  apply get_context_done in E as [-> Hc]. destruct oc as [c'|]; [|done]. by intros [= <- <-].
Qed.

Lemma keeps_load h : keeps (load T h).
Proof. intros w. destruct (load T h w) as [c w'|] eqn:E; [|done]. by apply load_has in E as [-> _]. Qed.

Lemma has_plain w h (c : T) : has w h c -> plain h w.
Proof. intros [_ Hh] m Hm. rewrite Hh in Hm. injection Hm. apply not_module. Qed.

Lemma same_insert w h (c : T) : plain h w -> same_modules w (w <| heap := <[h := to_obj c]> (heap w) |>).
Proof.
  intros Hp x m. cbn. destruct (decide (x = h)) as [->|Hx]; [|by rewrite lookup_insert_ne].
  rewrite lookup_insert_eq. split; [by intros Hm%Hp|]. intros [= E]. by apply not_module in E.
Qed.

Lemma same_delete w h : plain h w -> same_modules w (w <| heap := delete h (heap w) |>).
Proof.
  intros Hp x m. cbn. destruct (decide (x = h)) as [->|Hx]; [|by rewrite lookup_delete_ne].
  rewrite lookup_delete_eq. split; [by intros Hm%Hp|done].
Qed.

Lemma keeps_update h (f : T -> T) : keeps (update h f).
Proof.
  intros w. unfold update, mbind, M_bind. destruct (load T h w) as [c w'|] eqn:E; [|done].
  apply load_has in E as [-> Hh]. split; [|done]. eapply same_insert, has_plain, Hh.
Qed.

Lemma keeps_Lock get `{!FieldUpdate get} h : keeps (Lock (T := T) get h).
Proof. apply keeps_bind; [apply keeps_load|]. intros c. apply keeps_bind; [apply keeps_need|]. intros l. apply keeps_update. Qed.

Lemma keeps_Unlock get `{!FieldUpdate get} h : keeps (Unlock (T := T) get h).
Proof. apply keeps_bind; [apply keeps_load|]. intros c. apply keeps_update. Qed.

Lemma keeps_on_destroy h : keeps_on h (handle_destroy T h).
Proof.
  intros w Hp. unfold handle_destroy, mbind, M_bind. destruct (handle_get_context T h w) as [c w1|] eqn:E; [|done].
  apply get_context_done in E as [-> _]. destruct (h =? NULL); [done|]. by apply same_delete.
Qed.
End contexts.

Lemma keeps_on_bind {A B} h (m : Mw A) (f : A -> Mw B) : keeps m -> (forall a, keeps_on h (f a)) -> keeps_on h (m ≫= f).
Proof.
  intros Hm Hf w Hp. specialize (Hm w). unfold mbind, M_bind. destruct (m w) as [a w1|]; [|done].
  destruct Hm as [Hs _]. specialize (Hf a w1 (plain_same _ _ _ Hs Hp)). destruct (f a w1); [by etrans|done].
Qed.

Lemma keeps_on_when h b (m : Mw unit) : keeps_on h m -> keeps_on h (when b m).
Proof. intros Hm. by destruct b. Qed.

(** A checked handler. *)
Lemma keeps_valid_on {T} `{!Context T} `{!NotModule T} {A} (v : A) h (rest : Mw A) :
  keeps_on h rest -> keeps (if_handle_valid T v h rest).
Proof.
  intros Hr w. unfold if_handle_valid, mbind, M_bind. destruct (handle_get_context T h w) as [c w1|] eqn:E; [|done].
  apply get_context_done in E as [-> Hc]. destruct c as [c|]; [|by split].
  specialize (Hr w (has_plain w h c Hc)). destruct (rest w); [|done]. by split.
Qed.

Lemma keeps_valid {T} `{!Context T} `{!NotModule T} {A} (v : A) h (rest : Mw A) :
  keeps rest -> keeps (if_handle_valid T v h rest).
Proof. intros Hr. apply keeps_valid_on. intros w _. specialize (Hr w). destruct (rest w); [apply Hr|done]. Qed.
End rules.

Create HintDb keep.
#[export] Hint Resolve keeps_ret keeps_throw keeps_need keeps_gets keeps_assert : keep.
#[export] Hint Extern 0 (keeps_to (handle_get_context _ _) _) => apply keeps_get_context : keep.
#[export] Hint Extern 0 (keeps_to (load _ _) _) => apply keeps_load : keep.
#[export] Hint Extern 0 (keeps_to (update _ _) _) => apply keeps_update : keep.
#[export] Hint Extern 0 (keeps_to (Lock _ _) _) => apply keeps_Lock : keep.
#[export] Hint Extern 0 (keeps_to (Unlock _ _) _) => apply keeps_Unlock : keep.
#[export] Hint Extern 0 (keeps_on _ (handle_destroy _ _)) => apply keeps_on_destroy : keep.

(** Goes through a handler, down to the operations it calls. *)
Ltac keep :=
  repeat first
    [ solve [eauto with keep]
    | apply keeps_valid
    | apply keeps_when
    | apply keeps_on_when
    | apply keeps_bind; [|intros ?]
    | apply keeps_on_bind; [|intros ?]
    | case_match ].

Section operations.
Context `{Platform}.

(** * Images and captures *)

Lemma keeps_allocator_free p : keeps (allocator_free p).
Proof.
  intros w. unfold allocator_free, read_header, get_state, mbind, M_bind.
  set (p' := p - _). destruct (heap w !! p') as [o|] eqn:E; [|done]. destruct o as [| | | | |b]; try done.
  destruct (blk_header b) as [a|]; [|done]. cbn.
  destruct (bad_source (ac_source a)); [by split|]. destruct (p =? NULL); [by split|].
  unfold add_count, gets, mbind, M_bind. cbn. destruct (update_count (ac_source a) (-1) (g_counts w)) as [c|];
    [|by unfold c_assert; destruct (false || ndebug)].
  cbn. unfold call_free, mbind, M_bind.
  destruct (ac_free a) as [|id]; cbn; [unfold c_assert; destruct (_ || ndebug); [cbn|done]|];
    (split; [|done]; intros x m; cbn; destruct (decide (x = p')) as [->|Hx]; [|by rewrite lookup_delete_ne];
     rewrite E, lookup_delete_eq; done).
Qed.
#[local] Hint Resolve keeps_allocator_free : keep.

Lemma keeps_memory_free_cb i : keeps (call_memory_free_cb i).
Proof.
  unfold call_memory_free_cb, image_default_free_function, uvc_camerareader_free_allocation. keep. by apply keeps_heap.
Qed.
#[local] Hint Resolve keeps_memory_free_cb : keep.

Lemma keeps_image_dec_ref h : keeps (image_dec_ref h).
Proof. apply keeps_valid_on. keep. Qed.
Lemma keeps_image_inc_ref h : keeps (image_inc_ref h).
Proof. unfold image_inc_ref. keep. Qed.
Lemma keeps_image_get {A} (v : A) f h : keeps (image_get v f h).
Proof. unfold image_get. keep. Qed.
#[local] Hint Resolve keeps_image_dec_ref keeps_image_inc_ref keeps_image_get : keep.

Lemma keeps_capture_lock acquire h : keeps (capture_lock acquire h).
Proof. unfold capture_lock. keep. Qed.
Lemma keeps_capture_unlock h : keeps (capture_unlock h).
Proof. unfold capture_unlock. keep. Qed.
#[local] Hint Resolve keeps_capture_lock keeps_capture_unlock : keep.

Lemma keeps_for_each {A} (l : list A) (f : A -> Mw unit) : (forall a, keeps (f a)) -> keeps (for_each l f).
Proof. intros Hf. induction l as [|a l IH]; cbn; keep. Qed.

Lemma keeps_capture_dec_ref h : keeps (capture_dec_ref h).
Proof. apply keeps_valid_on. keep. Qed.
Lemma keeps_capture_inc_ref h : keeps (capture_inc_ref h).
Proof. unfold capture_inc_ref. keep. Qed.
Lemma keeps_capture_get_image slot h : keeps (capture_get_image slot h).
Proof. unfold capture_get_image, capture_get_image_locked, capture_get_image_return. keep. Qed.
Lemma keeps_capture_set_image slot `{!FieldUpdate slot} h i : keeps (capture_set_image slot h i).
Proof. unfold capture_set_image. keep. Qed.
#[local] Hint Resolve keeps_capture_dec_ref keeps_capture_inc_ref keeps_capture_get_image keeps_capture_set_image : keep.

(** * Queues *)

Lemma keeps_pop_internal h : keeps (queue_pop_internal_locked h).
Proof. unfold queue_pop_internal_locked. keep. Qed.
Lemma keeps_push_internal h c : keeps (queue_push_internal_locked h c).
Proof. unfold queue_push_internal_locked. keep. Qed.
#[local] Hint Resolve keeps_pop_internal keeps_push_internal : keep.

Lemma keeps_push_w_dropped h c dropped : keeps (queue_push_w_dropped h c dropped).
Proof. unfold queue_push_w_dropped. keep. Qed.
#[local] Hint Resolve keeps_push_w_dropped : keep.

Lemma keeps_push h c : keeps (queue_push h c).
Proof. unfold queue_push. keep. Qed.
#[local] Hint Resolve keeps_push : keep.

(** Without a timeout queue_pop does not wait. *)
Lemma keeps_pop_begin h : keeps_to (queue_pop_begin h 0) (fun s => s <> PopWait).
Proof.
  eapply keeps_to_bind; [apply keeps_load|]. intros q _. destruct (negb (q_enabled q)); [by intros w|].
  eapply keeps_to_bind; [apply keeps_update|]. intros _ _.
  eapply keeps_to_bind; [apply keeps_pop_internal|]. intros c _. cbn [Z.eqb negb]. by destruct (negb (c =? NULL)); intros w.
Qed.

Lemma keeps_pop_end h s : keeps (queue_pop_end h s).
Proof. unfold queue_pop_end. keep. Qed.
#[local] Hint Resolve keeps_pop_end : keep.

Lemma keeps_pop h : keeps (queue_pop h 0 true).
Proof.
  apply keeps_valid. cbn [negb]. apply keeps_bind; [apply keeps_Lock|]. intros [].
  eapply keeps_to_bind; [apply keeps_pop_begin|]. intros s Hs.
  apply keeps_bind; [destruct s; [apply keeps_ret..|done]|]. intros s'. keep.
Qed.
#[local] Hint Resolve keeps_pop : keep.

(** * The synchroniser *)

Lemma keeps_load_frame c h : keeps (load_frame c h).
Proof. unfold load_frame. keep. Qed.
Lemma keeps_update_frame c h f : keeps (update_frame c h f).
Proof. apply keeps_update. Qed.
Lemma keeps_typed_image fn c : keeps (get_typed_image fn c).
Proof. by destruct fn; apply keeps_capture_get_image. Qed.
#[local] Hint Resolve keeps_load_frame keeps_update_frame keeps_typed_image : keep.

Lemma keeps_next_sample h c : keeps (next_sample h c).
Proof. unfold next_sample. keep. Qed.
Lemma keeps_release_sample h c : keeps (release_sample h c).
Proof. unfold release_sample. keep. Qed.
Lemma keeps_clear_sample h c : keeps (clear_sample h c).
Proof. unfold clear_sample. keep. Qed.
#[local] Hint Resolve keeps_next_sample keeps_release_sample keeps_clear_sample : keep.

Lemma keeps_drop_sample h r c b : keeps (drop_sample h r c b).
Proof. unfold drop_sample. keep. Qed.
Lemma keeps_replace_sample h n c : keeps (replace_sample h n c).
Proof. unfold replace_sample. keep. Qed.
Lemma keeps_merge_captures d c : keeps (merge_captures d c).
Proof. unfold merge_captures. keep. Qed.
#[local] Hint Resolve keeps_drop_sample keeps_replace_sample keeps_merge_captures : keep.

Lemma keeps_sync_turn h r : keeps (sync_turn h r).
Proof. unfold sync_turn. keep. Qed.
#[local] Hint Resolve keeps_sync_turn : keep.

Lemma keeps_sync_loop n h : forall r, keeps (sync_loop n h r).
Proof. induction n as [|n IH]; intros r; cbn; keep. Qed.
#[local] Hint Resolve keeps_sync_loop : keep.

Lemma keeps_read_timestamp c color : keeps (read_timestamp c color).
Proof. unfold read_timestamp. keep. Qed.
Lemma keeps_admit_capture h c ts color : keeps (admit_capture h c ts color).
Proof. unfold admit_capture. keep. Qed.
Lemma keeps_insert_capture h c color : keeps (insert_capture h c color).
Proof. unfold insert_capture. keep. Qed.
#[local] Hint Resolve keeps_read_timestamp keeps_admit_capture keeps_insert_capture : keep.

Lemma keeps_add_capture h c color : keeps (capturesync_add_capture h ZSA_RESULT_SUCCEEDED c color).
Proof. unfold capturesync_add_capture. change (ZSA_FAILED ZSA_RESULT_SUCCEEDED) with false. cbv iota. keep. Qed.
End operations.
