(* ===== verification/SyncDirect.v ===== *)
(** The synchroniser when there is nothing to synchronise, because one sensor
    is off or the environment says so: a color capture goes straight to the
    output queue, and comes out of capturesync_get_capture as it went in. *)

From S2P Require Export Keep.

(** What is counted in [w'] was there in [w], but for its count. *)
Definition survivors (w w' : world) : Prop := forall x o', heap w' !! x = Some o' -> counted (obj_kind o') = true ->
  exists o, heap w !! x = Some o /\ same_but_count o o'.

#[export] Instance survivors_preorder : PreOrder survivors.
Proof.
  split.
  - intros w x o Ho _. exists o. split; [done|apply same_but_count_refl].
  - intros w1 w2 w3 H12 H23 x o Ho Hk. destruct (H23 x o Ho Hk) as (o2 & Ho2 & Hs2).
    destruct (H12 x o2 Ho2) as (o1 & Ho1 & Hs1); [by rewrite <- (same_but_count_kind _ _ Hs2)|].
    exists o1. split; [done|]. by eapply same_but_count_trans.
Qed.

Lemma survivors_step ks w w' : rc_step ks w w' -> survivors w w'.
Proof. intros Hs x o Ho _. by eapply rc_step_back. Qed.

(** At [h] there is nothing that is counted. *)
Lemma survivors_frame {T} `{!Context T} h w w' (c : T) :
  frame h w w' -> has w' h c -> counted (obj_kind (to_obj c)) = false -> survivors w w'.
Proof.
  intros [_ Hf] [_ Hh] Hc x o Ho Hk. destruct (decide (x = h)) as [->|Hx]; [congruence|].
  destruct (Hf x Hx) as [E|(o1 & Ho1 & _ & [E|(o2 & Ho2 & Hs)])].
  - exists o. split; [congruence|apply same_but_count_refl].
  - congruence.
  - exists o1. split; [done|]. congruence.
Qed.

Lemma survivors_store {T} `{!Context T} h (c : T) w :
  h <> NULL -> counted (obj_kind (to_obj c)) = false -> survivors w (w <| heap := <[h := to_obj c]> (heap w) |>).
Proof. intros Hn Hc. eapply survivors_frame; [apply frame_store|by apply has_stored|done]. Qed.

Section direct.
Context `{Platform}.

(** The module hands captures on as they are. *)
Definition direct (s : capturesync_context_t) : Prop :=
  sy_running s = true /\ negb (sy_sync_captures s) || sy_disable_sync s = true.

Lemma ready_ext busy ext ext' h s Q out w :
  ready busy ext h s Q out w -> (forall r, ext' r = ext r) -> ready busy ext' h s Q out w.
Proof. intros [[] ? ? ? ? ? ?] E. split; try done. split; try done. by eapply inv_ext. Qed.

(** The timestamp of a capture that has a color image. *)
Lemma wp_read_color busy ext h s Q out w c cc (R : option Z -> world -> Prop) :
  syncing busy ext h s Q out w -> nonneg ext -> 0 < ext (KCapture, c) -> has w c cc -> cap_color cc <> NULL ->
  (forall ts w', syncing busy ext h s Q out w' -> survivors w w' -> R (Some ts) w') ->
  wp (read_timestamp c true) R w.
Proof.
  intros Hw He Hx Hcc Hi HR. pose proof Hw as [HI Hu _ _ _ _].
  assert (Hb : c ∉ busy ∪ {[h]}) by (eapply (unbusy_free _ _ _ (OCapture cc)); [by apply Hu; right|apply Hcc]).
  assert (Hrc : 0 < rc w (KImage, cap_color cc)) by (eapply (slot_covered cap_color); [exact HI|by apply nonneg_parts|apply Hcc|done]).
  apply wp_bind. eapply wp_mono; [by apply (wp_capture_get_image_live cap_color (busy ∪ {[h]}) ext c cc w)|].
  intros image w1 (-> & HI1 & _ & Hs1). unfold gain_nonnull in HI1. rewrite (proj2 (Z.eqb_neq _ _) Hi) in *.
  assert (Hw1 : syncing busy (gain ext (KImage, cap_color cc)) h s Q out w1).
  { eapply syncing_frame; [exact Hw|exact HI1|]. eapply rc_step_weaken; [exact Hs1|set_solver]. }
  assert (Hrc1 : 0 < rc w1 (KImage, cap_color cc)).
  { rewrite (inv_account _ _ _ HI1). pose proof (slots_nonneg (heap w1) (KImage, cap_color cc)).
    specialize (He KImage (cap_color cc) ltac:(done)). ledger. }
  apply wp_bind. eapply wp_image_get; [exact HI1|exact Hrc1|]. intros ts. apply wp_bind.
  eapply wp_mono; [apply (wp_image_unref _ _ _ _ HI1); [by apply parts_blocks, nonneg_parts, nonneg_gain|by apply Hw1; left|exact Hrc1]|].
  intros [] w2 (HI2 & Hs2 & _). apply wp_ret, HR.
  - eapply syncing_frame; [exact Hw1| |eapply rc_step_weaken; [exact Hs2|set_solver]]. eapply inv_ext; [exact HI2|]. ledger.
  - etrans; eapply survivors_step; eassumption.
Qed.

(** A color capture is pushed. *)
Lemma wp_add_direct busy ext h s Q out c cc w :
  ready busy ext h s Q out w -> direct s -> nonneg ext -> 0 < ext (KCapture, c) -> has w c cc -> cap_color cc <> NULL ->
  wp (capturesync_add_capture h ZSA_RESULT_SUCCEEDED c true)
     (fun _ w' => exists out', ready busy ext h s Q out' w' /\ abs out' = fst (apush (abs out) c false) /\ survivors w w') w.
Proof.
  intros [Hw Hfree Hl Hok Hz Hp Hone] [Hrun Hdir] He Hc Hcc Hi. pose proof (syn_has _ _ _ _ _ _ _ Hw) as Hh. pose proof Hh as [Hn _].
  unfold capturesync_add_capture. rewrite (proj2 (Z.eqb_neq h NULL)) by done.
  apply wp_bind, wp_bind. eapply wp_get_context; [exact Hh|]. apply wp_ret. cbn [ZSA_FAILED].
  apply wp_bind, wp_ret. cbn [bool_decide negb]. rewrite (proj2 (Z.eqb_neq c NULL)) by apply Hcc.
  apply wp_bind. eapply wp_read_color; [done..|]. intros ts w1 Hw1 Hs1.
  apply wp_bind. eapply wp_Lock; [apply Hw1|by rewrite Hl|].
  set (s1 := s <| sy_lock := LockHeld |>). set (w2 := w1 <| heap := _ |>).
  assert (Hw2 : syncing busy ext h s1 Q out w2) by exact (syncing_lock _ _ _ _ _ _ _ LockHeld Hw1).
  assert (Hs2 : survivors w w2) by (etrans; [exact Hs1|exact (survivors_store h s1 w1 Hn eq_refl)]).
  apply wp_bind. eapply wp_load; [apply Hw2|]. change (sy_running s1) with (sy_running s). rewrite Hrun.
  apply wp_bind. unfold admit_capture. apply wp_bind. eapply wp_load; [apply Hw2|].
  change (negb (sy_sync_captures s1) || sy_disable_sync s1) with (negb (sy_sync_captures s) || sy_disable_sync s). rewrite Hdir.
  apply wp_bind. eapply wp_sync_push; [exact Hw2|exact He|apply Hcc| |].
  { eapply held_ext; [apply Hw2|apply (syn_out _ _ _ _ _ _ _ Hw2)|exact Hc]. }
  intros out3 w3 Hw3 Ha3 Hf3. apply wp_ret, wp_bind. cbn [when]. apply wp_ret.
  assert (Hs3 : survivors w w3).
  { etrans; [exact Hs2|]. exact (survivors_frame _ w2 w3 out3 Hf3 (proj1 (syn_out _ _ _ _ _ _ _ Hw3)) eq_refl). }
  eapply wp_Unlock; [apply Hw3|]. exists out3.
  pose proof (syncing_lock _ _ _ _ _ _ _ LockFree Hw3) as Hw4.
  assert (Es : s1 <| sy_lock := LockFree |> = s) by (destruct s; cbn in *; by subst). rewrite Es in Hw4.
  split_and!; [|exact Ha3|].
  - split; try done. by rewrite <- Es in Hw4 |- *; cbn in *; rewrite Es in *.
  - etrans; [exact Hs3|]. exact (survivors_store h _ w3 Hn eq_refl).
Qed.

(** What is in the output queue comes out. *)
Lemma wp_get_waiting busy ext h s Q out c l wait w :
  ready busy ext h s Q out w -> nonneg ext -> aq_enabled (abs out) = true -> aq_items (abs out) = c :: l ->
  wp (capturesync_get_capture h true wait)
     (fun r w' => r = (ZSA_WAIT_RESULT_SUCCEEDED, Some c) /\ survivors w w' /\ modules_kept w w' /\
        exists out', ready busy (gain ext (KCapture, c)) h s Q out' w' /\ abs out' = (abs out) <| aq_items := l |>) w.
Proof.
  intros [Hw Hfree Hl Hok Hz Hp Hone] He Hen Hit. pose proof (syn_has _ _ _ _ _ _ _ Hw) as Hh.
  eapply wp_if_handle_valid; [exact Hh|]. cbn [negb]. apply wp_bind. eapply wp_load; [exact Hh|].
  assert (Ep : apop (abs out) = ((abs out) <| aq_items := l |>, (ZSA_WAIT_RESULT_SUCCEEDED, c))) by (unfold apop; by rewrite Hen, Hit).
  assert (Hc : c <> NULL).
  { pose proof (queue_contents_nonnull out (proj1 (proj2 (syn_out _ _ _ _ _ _ _ Hw)))) as Hall.
    cbn in Hit. rewrite Hit in Hall. by apply Forall_cons in Hall as [? _]. }
  apply wp_bind. eapply wp_mono.
  { eapply wp_queue_pop; [exact (syncing_pre_out _ _ _ _ _ _ _ Hw He)|]. right; right. cbn in Hit. by rewrite Hit. }
  intros r w1 [-> (out1 & H1 & H2 & H3 & H4 & H5)]. rewrite Ep in *. cbn [fst snd] in *. apply wp_ret.
  unfold gain_capture in H4. rewrite (proj2 (Z.eqb_neq c NULL)) in H4 by done.
  split_and!; [done|exact (survivors_frame _ w w1 out1 H5 H1 eq_refl)|by eapply kept_frame, (syn_out _ _ _ _ _ _ _ Hw)|]. exists out1. split; [|done].
  split; try done. by eapply syncing_queue_out.
Qed.
End direct.
