(* ===== verification/SyncLife.v ===== *)
(** The life of the synchroniser (capturesync.c): creating, starting, stopping
    and destroying it. *)

From S2P Require Export CaptureSync.

(** * A synchroniser that has not been used *)

Section unused.
Context `{Platform}.
Implicit Types (s : capturesync_context_t) (w : world).

(** Added to [w0]: the context [s] at [h], without samples, and the queues
    [qs], all at rest. *)
Record unused (w0 : world) (h : Z) s (qs : list Z) w : Prop := mkUnused {
  un_has : has w h s;
  un_blank : forall color, fi_capture (frame_of color s) = NULL /\ fi_image (frame_of color s) = NULL;
  un_queues : forall q, q ∈ qs -> exists c, has w q c /\ resting c;
  un_distinct : h ∉ qs;
  un_frame : forall x, x ∉ h :: qs -> heap w !! x = heap w0 !! x;
  un_new : forall x, x ∈ h :: qs -> heap w0 !! x = None
}.

Definition handles s : list Z := [fi_queue (sy_color s); fi_queue (sy_depth_ir s); sy_sync_queue s].
Definition known s (qs : list Z) : Prop := forall q, q ∈ handles s -> q = NULL \/ q ∈ qs.

Definition heap_change w w' : Prop := w' = w <| heap := heap w' |>.

Lemma heap_change_refl w : heap_change w w.
Proof. by destruct w. Qed.
Lemma heap_change_trans w1 w2 w3 : heap_change w1 w2 -> heap_change w2 w3 -> heap_change w1 w3.
Proof. intros E1 E2. unfold heap_change in *. rewrite E2, E1. by destruct w3. Qed.

Lemma unused_store w0 h s s' qs w :
  unused w0 h s qs w ->
  (forall color, fi_capture (frame_of color s') = NULL /\ fi_image (frame_of color s') = NULL) ->
  unused w0 h s' qs (w <| heap := <[h := OSync s']> (heap w) |>).
Proof.
  intros [[Hn Hh] Hb Hq Hd Hf Hw] Hb'. split; try done.
  - exact (has_stored h s' w Hn).
  - intros q Hqs. destruct (Hq q Hqs) as (c & [Hqn Hc] & Hr). exists c. split; [|done]. split; [done|].
    cbn. rewrite lookup_insert_ne; [done|]. by intros ->.
  - intros x Hx. cbn. rewrite lookup_insert_ne; [by apply Hf|]. set_solver.
Qed.

Lemma unused_queue w0 h s qs w q c :
  unused w0 h s qs w -> q ∈ qs -> resting c -> unused w0 h s qs (w <| heap := <[q := OQueue c]> (heap w) |>).
Proof.
  intros [[Hn Hh] Hb Hq Hd Hf Hw] Hqs Hr. assert (Hne : q <> h) by (by intros ->). split; try done.
  - split; [done|]. cbn. by rewrite lookup_insert_ne.
  - intros x Hx. destruct (Hq x Hx) as (c' & [Hxn Hc] & Hr'). destruct (decide (x = q)) as [->|Hxq].
    + exists c. split; [|done]. split; [done|apply lookup_insert_eq].
    + exists c'. split; [|done]. split; [done|]. cbn. by rewrite lookup_insert_ne.
  - intros x Hx. cbn. rewrite lookup_insert_ne; [by apply Hf|]. set_solver.
Qed.

Definition without (q : Z) (qs : list Z) : list Z := filter (fun x => x <> q) qs.

Lemma unused_delete w0 h s qs w q :
  unused w0 h s qs w -> q ∈ qs -> unused w0 h s (without q qs) (w <| heap := delete q (heap w) |>).
Proof.
  intros [[Hn Hh] Hb Hq Hd Hf Hw] Hqs. assert (Hne : q <> h) by (by intros ->).
  assert (Hin : forall x, x ∈ without q qs <-> x <> q /\ x ∈ qs) by (intros x; unfold without; by rewrite list_elem_of_filter).
  split; try done.
  - split; [done|]. cbn. by rewrite lookup_delete_ne.
  - intros x [Hxq Hx]%Hin. destruct (Hq x Hx) as (c' & [Hxn Hc] & Hr'). exists c'. split; [|done].
    split; [done|]. cbn. by rewrite lookup_delete_ne.
  - by intros [_ Hx]%Hin.
  - intros x Hx. cbn. rewrite not_elem_of_cons, Hin in Hx. destruct (decide (x = q)) as [->|Hxq].
    + rewrite lookup_delete_eq. symmetry. apply Hw. set_solver.
    + rewrite lookup_delete_ne by done. apply Hf. rewrite not_elem_of_cons. destruct Hx as [? Hx]. split; [done|].
      intros Hx'. by apply Hx.
  - intros x Hx. apply Hw. rewrite elem_of_cons, Hin in Hx. set_solver.
Qed.

Lemma wp_unused_disable w0 h s qs w q :
  unused w0 h s qs w -> q = NULL \/ q ∈ qs ->
  wp (when_queue q queue_disable) (fun _ w' => unused w0 h s qs w' /\ heap_change w w') w.
Proof.
  intros Hu Hq. apply wp_when; intros E; [|split; [done|apply heap_change_refl]].
  apply negb_true_iff, Z.eqb_neq in E. destruct Hq as [|Hq]; [done|].
  destruct (un_queues _ _ _ _ _ Hu q Hq) as (c & Hc & Hr).
  eapply wp_mono; [by apply (wp_queue_disable_resting q c)|]. intros _ w' ->. split; [|done].
  eapply unused_queue; [exact Hu|exact Hq|]. destruct Hr. by split.
Qed.

Lemma wp_unused_destroy w0 h s qs w q :
  unused w0 h s qs w -> q = NULL \/ q ∈ qs ->
  wp (when_queue q queue_destroy) (fun _ w' => unused w0 h s (without q qs) w' /\ heap_change w w') w.
Proof.
  intros Hu Hq. assert (Hn : forall x, x ∈ qs -> x <> NULL) by (intros x Hx; by destruct (un_queues _ _ _ _ _ Hu x Hx) as (c & [? _] & _)).
  apply wp_when; intros E.
  - apply negb_true_iff, Z.eqb_neq in E. destruct Hq as [|Hq]; [done|].
    destruct (un_queues _ _ _ _ _ Hu q Hq) as (c & Hc & Hr).
    eapply wp_mono; [by apply (wp_queue_destroy_resting q c)|]. intros _ w' ->. split; [by apply unused_delete|done].
  - apply negb_false_iff, Z.eqb_eq in E as ->. split; [|apply heap_change_refl].
    enough (without NULL qs = qs) as -> by done. clear -Hn. induction qs as [|x qs IH]; [done|].
    unfold without. rewrite filter_cons, decide_True by (apply Hn; set_solver). f_equal. apply IH. intros y Hy. apply Hn. set_solver.
Qed.

Lemma wp_stop_blank w0 h s qs w color :
  unused w0 h s qs w -> wp (stop_sample h color) (fun _ w' => w' = w) w.
Proof.
  intros Hu. destruct (un_blank _ _ _ _ _ Hu color) as [Ec Ei].
  assert (Hld : forall Q, Q (frame_of color s) w -> wp (load_frame color h) Q w).
  { intros Q HQ. apply wp_bind. eapply wp_load; [apply Hu|]. by apply wp_ret. }
  apply wp_bind, Hld. rewrite Ec. apply wp_bind, wp_ret, wp_bind, Hld. rewrite Ei. by apply wp_ret.
Qed.

Lemma frame_blank s' s color :
  sy_color s' = sy_color s -> sy_depth_ir s' = sy_depth_ir s -> frame_of color s' = frame_of color s.
Proof. by destruct color. Qed.

(** A change of the context that leaves its samples alone. *)
Lemma wp_unused_update w0 h s qs w f (Q : unit -> world -> Prop) :
  unused w0 h s qs w -> sy_color (f s) = sy_color s -> sy_depth_ir (f s) = sy_depth_ir s ->
  (forall w', unused w0 h (f s) qs w' -> heap_change w w' -> Q tt w') -> wp (update h f) Q w.
Proof.
  intros Hu Ec Ed HQ. eapply wp_update; [apply Hu|]. apply HQ; [|done]. eapply unused_store; [exact Hu|].
  intros color. rewrite (frame_blank (f s) s) by done. apply Hu.
Qed.

(** The three queues, one after the other. *)
Lemma wp_unused_next w0 h s qs qs' w w1 (get : capturesync_context_t -> Z) f (rest : Mw unit) (Q : unit -> world -> Prop) :
  unused w0 h s qs w1 -> heap_change w w1 ->
  wp (when_queue (get s) f) (fun _ w' => unused w0 h s qs' w' /\ heap_change w1 w') w1 ->
  (forall w', unused w0 h s qs' w' -> heap_change w w' -> wp rest Q w') ->
  wp (s ← load capturesync_context_t h; when_queue (get s) f;; rest) Q w1.
Proof.
  intros Hu Hc Hw HQ. apply wp_bind. eapply wp_load; [apply Hu|]. apply wp_bind. eapply wp_mono; [exact Hw|].
  intros _ w' [Hu' Hc']. apply HQ; [exact Hu'|by eapply heap_change_trans].
Qed.

Lemma wp_unused_stop w0 h s qs w :
  unused w0 h s qs w -> known s qs -> sy_lock s <> LockHeld ->
  wp (capturesync_stop h) (fun _ w' => unused w0 h (s <| sy_running := false |>) qs w' /\ heap_change w w') w.
Proof.
  intros Hu Hk Hl. pose proof (un_has _ _ _ _ _ Hu) as Hh.
  assert (exists l, lock_acquire (sy_lock s) = Some l /\ lock_release l = sy_lock s) as (l & Ha & Hr).
  { destruct (sy_lock s); [by exists LockNull|by exists LockHeld|done]. }
  eapply wp_if_handle_valid; [exact Hh|]. apply wp_bind, wp_bind. eapply wp_load; [exact Hh|]. rewrite Ha.
  apply wp_bind, wp_ret. eapply wp_unused_update; [exact Hu|done..|]. intros w1 Hu1 Hc1.
  apply wp_bind. eapply wp_unused_update; [exact Hu1|done..|]. intros w2 Hu2 Hc2.
  assert (Hc : heap_change w w2) by (by eapply heap_change_trans). clear w1 Hu Hh Hu1 Hc1 Hc2.
  do 3 (eapply wp_unused_next; [eassumption..|apply (wp_unused_disable w0); [eassumption|apply Hk; set_solver]|];
    clear dependent w2; intros w2 Hu2 Hc).
  do 2 (apply wp_bind; eapply wp_mono; [by eapply wp_stop_blank|]; intros _ ? ->).
  apply wp_bind. eapply wp_load; [apply Hu2|]. eapply wp_unused_update; [exact Hu2|done..|]. intros w3 Hu3 Hc3.
  split; [|by eapply heap_change_trans].
  match type of Hu3 with unused _ _ ?x _ _ => assert (E : x = s <| sy_running := false |>) end.
  { destruct s. cbn in *. by rewrite Hr. }
  by rewrite E in Hu3.
Qed.

(** The three queues are [qs], each once. *)
Record apart s (qs : list Z) : Prop := {
  ap_known : known s qs;
  ap_only : forall q, q ∈ qs -> q ∈ handles s;
  ap_distinct : (fi_queue (sy_color s) = fi_queue (sy_depth_ir s) -> fi_queue (sy_color s) = NULL) /\
                (fi_queue (sy_color s) = sy_sync_queue s -> sy_sync_queue s = NULL) /\
                (fi_queue (sy_depth_ir s) = sy_sync_queue s -> sy_sync_queue s = NULL)
}.

Lemma elem_without x q qs : x ∈ without q qs <-> x <> q /\ x ∈ qs.
Proof. unfold without. by rewrite list_elem_of_filter. Qed.

(** Everything the synchroniser consists of is taken apart again. *)
Lemma wp_unused_destroy_sync w0 h s qs w :
  unused w0 h s qs w -> apart s qs -> sy_lock s <> LockHeld ->
  wp (capturesync_destroy h) (fun _ w' => w' = w <| heap := heap w0 |>) w.
Proof.
  intros Hu [Hk Ho (D1 & D2 & D3)] Hl. eapply wp_if_handle_valid; [apply Hu|].
  apply wp_bind. eapply wp_mono; [by apply (wp_unused_stop _ _ _ _ _ Hu)|]. intros _ w1 [Hu1 Hc].
  set (qd := fi_queue (sy_depth_ir s)) in *. set (qc := fi_queue (sy_color s)) in *. set (qo := sy_sync_queue s) in *.
  eapply (wp_unused_next _ _ _ _ (without qd qs)); [exact Hu1|exact Hc|apply wp_unused_destroy; [exact Hu1|apply Hk; set_solver]|].
  intros w2 Hu2 Hc2.
  eapply (wp_unused_next _ _ _ _ (without qc (without qd qs))); [exact Hu2|exact Hc2|apply wp_unused_destroy; [exact Hu2|]|].
  { cbn. rewrite elem_without. destruct (Hk qc ltac:(set_solver)); [by left|].
    destruct (decide (qc = NULL)); [by left|right; split; [tauto|done]]. }
  intros w3 Hu3 Hc3.
  eapply (wp_unused_next _ _ _ _ (without qo (without qc (without qd qs)))); [exact Hu3|exact Hc3|apply wp_unused_destroy; [exact Hu3|]|].
  { cbn. rewrite !elem_without. destruct (Hk qo ltac:(set_solver)); [by left|].
    destruct (decide (qo = NULL)); [by left|right; split_and!; [|..|done]; intros E; symmetry in E; tauto]. }
  intros w4 Hu4 Hc4. eapply wp_destroy; [apply Hu4|].
  assert (Hnil : forall x, x ∉ without qo (without qc (without qd qs))).
  { intros x. rewrite !elem_without. intros (? & ? & ? & Hx). apply Ho in Hx. unfold handles in Hx. set_solver. }
  rewrite Hc4. cbn. f_equal. apply map_eq. intros x. destruct (decide (x = h)) as [->|Hx].
  - rewrite lookup_delete_eq. symmetry. apply (un_new _ _ _ _ _ Hu4). set_solver.
  - rewrite lookup_delete_ne by done. apply (un_frame _ _ _ _ _ Hu4). rewrite not_elem_of_cons. by split.
Qed.

(** The same, after a change elsewhere. *)
Lemma unused_rebase w0 w1 h s qs w x o :
  unused w0 h s qs w -> x ∉ h :: qs -> heap w1 = <[x := o]> (heap w0) ->
  unused w1 h s qs (w <| heap := <[x := o]> (heap w) |>).
Proof.
  intros [[Hn Hh] Hb Hq Hd Hf Hw] Hx E. rewrite not_elem_of_cons in Hx. destruct Hx as [Hxh Hxq]. split; try done.
  - split; [done|]. cbn. by rewrite lookup_insert_ne.
  - intros q Hqs. destruct (Hq q Hqs) as (c & [? Hc] & ?). exists c. split; [|done]. split; [done|]. cbn.
    rewrite lookup_insert_ne; [done|]. by intros ->.
  - intros y Hy. rewrite E. cbn. destruct (decide (y = x)) as [->|Hyx]; [by rewrite !lookup_insert_eq|].
    rewrite !lookup_insert_ne by done. by apply Hf.
  - intros y Hy. rewrite E, lookup_insert_ne; [by apply Hw|]. intros <-. rewrite elem_of_cons in Hy. tauto.
Qed.

(** ** Creating it *)

Definition live s : list Z := filter (fun q => q <> NULL) (handles s).

Lemma elem_live q s : q ∈ live s <-> q <> NULL /\ q ∈ handles s.
Proof. unfold live. by rewrite list_elem_of_filter. Qed.

Definition depth_of s (q : Z) : Z := if q =? sy_sync_queue s then QUEUE_DEFAULT_SIZE / 2 else QUEUE_DEFAULT_SIZE.

Definition distinct s : Prop :=
  (fi_queue (sy_color s) = fi_queue (sy_depth_ir s) -> fi_queue (sy_color s) = NULL) /\
  (fi_queue (sy_color s) = sy_sync_queue s -> sy_sync_queue s = NULL) /\
  (fi_queue (sy_depth_ir s) = sy_sync_queue s -> sy_sync_queue s = NULL).

(** The synchroniser while capturesync_create works on it. *)
Record building (busy : gset Z) (ext : ledger) (w0 : world) (h : Z) s w : Prop := {
  bd_unused : unused w0 h s (live s) w;
  bd_inv : Inv (busy ∪ {[h]}) ext w;
  bd_only : only_heap w0 w;
  bd_distinct : distinct s;
  bd_queues : forall q, q ∈ live s -> exists b, has w q (new_queue (depth_of s q) b)
}.

Lemma building_apart busy ext w0 h s w : building busy ext w0 h s w -> apart s (live s).
Proof.
  intros [_ _ _ Hd _]. split; [|by intros q [_ ?]%elem_live|exact Hd].
  intros q Hq. destruct (decide (q = NULL)); [by left|right]. by apply elem_live.
Qed.

Lemma sync_store_inv busy ext w h s s' :
  Inv (busy ∪ {[h]}) ext w -> has w h s -> obj_refs (OSync s') = obj_refs (OSync s) ->
  Inv (busy ∪ {[h]}) ext (w <| heap := <[h := OSync s']> (heap w) |>).
Proof.
  intros HI [_ Hh] Hr. eapply inv_store; [exact HI|exact Hh|done| |set_solver|set_solver|done|done].
  intros r. change (to_obj s) with (OSync s). rewrite Hr. cbn. case_decide; lia.
Qed.

Definition no_samples s : Prop := forall color, fi_capture (frame_of color s) = NULL /\ fi_image (frame_of color s) = NULL.

Lemma no_samples_refs s s' : no_samples s -> no_samples s' -> obj_refs (OSync s') = obj_refs (OSync s).
Proof.
  intros Hs Hs'. destruct (Hs true) as [E1 E2], (Hs false) as [E3 E4], (Hs' true) as [E5 E6], (Hs' false) as [E7 E8].
  cbn in *. unfold frame_refs. by rewrite E1, E2, E3, E4, E5, E6, E7, E8.
Qed.

Lemma wp_building_update busy ext w0 h s w f (Q : unit -> world -> Prop) :
  building busy ext w0 h s w -> no_samples (f s) -> handles (f s) = handles s ->
  (forall w', building busy ext w0 h (f s) w' -> Q tt w') -> wp (update h f) Q w.
Proof.
  intros [Hu HI Ho Hd Hq] Hn Hh HQ. eapply wp_update; [apply Hu|]. apply HQ.
  pose proof Hh as Hf. unfold handles in Hf. injection Hf as E1 E2 E3.
  assert (El : live (f s) = live s) by (unfold live; by rewrite Hh).
  pose proof (un_has _ _ _ _ _ Hu) as [_ Hhh].
  split.
  - rewrite El. by eapply unused_store.
  - eapply sync_store_inv; [exact HI|apply Hu|]. apply no_samples_refs; [exact (un_blank _ _ _ _ _ Hu)|done].
  - eapply only_heap_trans; [exact Ho|by apply only_heap_set].
  - unfold distinct. by rewrite E1, E2, E3.
  - rewrite El. intros q Hx. destruct (Hq q Hx) as (b & [Hqn Hqh]). exists b. unfold depth_of. rewrite E3.
    split; [done|]. cbn. rewrite lookup_insert_ne; [done|]. intros ->. by apply (un_distinct _ _ _ _ _ Hu).
Qed.

(** What a new queue in one of the fields has to leave alone. *)
Definition adds s (f : Z -> capturesync_context_t -> capturesync_context_t) (depth : Z) : Prop :=
  f NULL s = s /\
  forall q, no_samples (f q s) /\
    (forall x, x <> NULL -> (x ∈ handles (f q s) <-> x = q \/ x ∈ handles s)) /\
    (q <> NULL -> q ∉ handles s -> distinct (f q s) /\ depth_of (f q s) q = depth /\
       forall x, x ∈ live s -> depth_of (f q s) x = depth_of s x).

Lemma building_add busy ext w0 h s w w1 f depth b :
  building busy ext w0 h s w -> adds s f depth -> let q := fresh w in
  only_heap w w1 -> heap w1 = <[q := OQueue (new_queue depth b)]> (heap w) -> Inv (busy ∪ {[h]}) ext w1 ->
  q <> NULL -> heap w !! q = None ->
  has w1 h s /\ (q ∉ handles s) /\ building busy ext w0 h (f q s) (w1 <| heap := <[h := OSync (f q s)]> (heap w1) |>).
Proof.
  intros [Hu HI Ho Hd Hq] [_ Hf] q Ho1 Eh HI1 Hqn Hqh. destruct (un_has _ _ _ _ _ Hu) as [Hn Hh].
  assert (Hne : q <> h) by (intros E; rewrite E in Hqh; congruence).
  assert (Hql : q ∉ live s).
  { intros Hx. destruct (un_queues _ _ _ _ _ Hu q Hx) as (c & [_ Hc] & _). congruence. }
  assert (Hnh : q ∉ handles s) by (intros Hx; apply Hql, elem_live; done).
  assert (Hhs1 : has w1 h s) by (split; [done|]; by rewrite Eh, lookup_insert_ne).
  destruct (Hf q) as (Hns & Hhand & Hf2). destruct (Hf2 Hqn Hnh) as (Hd' & Hdq & Hdx).
  assert (Hlive : forall x, x ∈ live (f q s) <-> x = q \/ x ∈ live s).
  { intros x. rewrite !elem_live. split; [intros [Hx Hx']; apply Hhand in Hx'; tauto|].
    intros [-> | [Hx Hx']]; (split; [done|]; apply Hhand; [done|tauto]). }
  split_and!; [done..|]. set (w2 := w1 <| heap := _ |>).
  assert (Ew2 : forall x, x <> h -> heap w2 !! x = if decide (x = q) then Some (OQueue (new_queue depth b)) else heap w !! x).
  { intros x Hx. cbn. rewrite lookup_insert_ne by done. rewrite Eh. case_decide as E; [subst; apply lookup_insert_eq|by rewrite lookup_insert_ne]. }
  assert (Hkeep : forall x (c : queue_context_t), x ∈ live s -> has w x c -> has w2 x c).
  { intros x c Hx [Hxn Hxc]. split; [done|]. rewrite Ew2; [|intros ->; by apply (un_distinct _ _ _ _ _ Hu)].
    rewrite decide_False; [done|]. by intros ->. }
  assert (Hq2 : has w2 q (new_queue depth b)) by (split; [done|]; by rewrite Ew2, decide_True).
  split; [split| | |exact Hd'|].
  - exact (has_stored h _ w1 Hn).
  - exact Hns.
  - intros x [-> | Hx]%Hlive; [exists (new_queue depth b); split; [done|by split]|].
    destruct (un_queues _ _ _ _ _ Hu x Hx) as (c & Hc & Hr). exists c. split; [by apply Hkeep|done].
  - rewrite Hlive. intros [?|Hx]; [done|]. by apply (un_distinct _ _ _ _ _ Hu).
  - intros x Hx. rewrite not_elem_of_cons, Hlive in Hx. rewrite Ew2, decide_False by tauto.
    apply (un_frame _ _ _ _ _ Hu). rewrite not_elem_of_cons. tauto.
  - intros x. rewrite elem_of_cons, Hlive. intros [-> | [-> | Hx]]; [|rewrite <- (un_frame _ _ _ _ _ Hu); [done|]; by rewrite not_elem_of_cons|].
    all: apply (un_new _ _ _ _ _ Hu); set_solver.
  - eapply sync_store_inv; [exact HI1|exact Hhs1|]. apply no_samples_refs; [exact (un_blank _ _ _ _ _ Hu)|done].
  - eapply only_heap_trans; [exact Ho|]. eapply only_heap_trans; [exact Ho1|]. by apply only_heap_set.
  - intros x [-> | Hx]%Hlive; [exists b; by rewrite Hdq|].
    destruct (Hq x Hx) as (b' & Hb'). exists b'. rewrite Hdx by done. by apply Hkeep.
Qed.

(** A failed creation changes nothing. *)
Lemma building_heap busy ext w0 h s w w1 :
  building busy ext w0 h s w -> heap w1 = heap w -> only_heap w w1 -> Inv (busy ∪ {[h]}) ext w1 ->
  building busy ext w0 h s w1.
Proof.
  intros [Hu HI Ho Hd Hq] Eh Ho1 HI1. split; [|exact HI1|by eapply only_heap_trans|done|].
  - destruct Hu as [[Hn Hh] Hb Hqs Hdi Hfr Hnw].
    split; try done; try (split; [done|]); try (intros x Hx); rewrite ?Eh; try done; [|by apply Hfr].
    destruct (Hqs x Hx) as (c & [? ?] & ?). exists c. split; [|done]. split; [done|]. by rewrite Eh.
  - intros x Hx. destruct (Hq x Hx) as (b & [? ?]). exists b. split; [done|]. by rewrite Eh.
Qed.

(** The null context of a failed calloc is written through. *)
Definition no_memory (f : fault) : Prop := f = NullDeref /\ exists t, calloc_ok t = false.

(** [TRACE_CALL(queue_create(depth, name, &field))], where [field] is still
    null. *)
Lemma wp_building_queue busy ext w0 h s w depth (store : Z -> Mw unit) f (Q : zsa_result_t -> world -> Prop) :
  building busy ext w0 h s w -> 1 <= depth <= 10000 ->
  (forall q, store q = update h (f q)) -> adds s f depth ->
  (forall w', building busy ext w0 h s w' -> Q ZSA_RESULT_FAILED w') ->
  (forall q w', q <> NULL -> q ∉ handles s -> building busy ext w0 h (f q s) w' -> Q ZSA_RESULT_SUCCEEDED w') ->
  wp_or no_memory (create_queue depth store) Q w.
Proof.
  intros Hbd Hdep Est Hf HQ1 HQ2. pose proof (bd_inv _ _ _ _ _ _ Hbd) as HI.
  destruct (calloc_ok (tick w)) eqn:Ec.
  2: { eapply wp_or_fault; [apply bind_fault|by split; [|eexists]]. unfold queue_create, handle_create, ask, mbind, M_bind. rewrite Ec. cbn.
       rewrite (proj2 (Z.eqb_neq depth 0)), Z.gtb_ltb, (proj2 (Z.ltb_ge _ _)) by lia. done. }
  apply wp_or_wp. apply wp_bind. eapply wp_mono; [by apply (wp_queue_create (busy ∪ {[h]}) ext)|].
  intros [[] out] w1 [Ho1 Hout]; apply wp_bind; rewrite ?Est.
  - destruct Hout as (b & -> & [Hqn _] & Eh & HI1).
    destruct (building_add _ _ _ _ _ _ w1 f depth b Hbd Hf) as (Hhs1 & Hnh & Hbd1); try done; [by eapply inv_fresh_none|].
    rewrite Est. eapply wp_update; [exact Hhs1|]. by apply wp_ret, (HQ2 (fresh w)).
  - destruct Hout as (-> & Eh & HI1). pose proof (building_heap _ _ _ _ _ _ w1 Hbd Eh Ho1 HI1) as Hbd1.
    destruct Hf as [En Hf]. rewrite Est.
    eapply (wp_building_update busy ext w0 h s w1 (f NULL)); [exact Hbd1|apply Hf|by rewrite En|].
    intros w2 Hb2. rewrite En in Hb2. by apply wp_ret, HQ1.
Qed.

(** The context capturesync_create makes. *)
Record created s : Prop := {
  cr_lock : sy_lock s = LockFree;
  cr_stopped : sy_running s = false;
  cr_handles : forall q, q ∈ handles s -> q <> NULL;
  cr_color : fi_color_capture (sy_color s) = true /\ fi_get_typed_image (sy_color s) = fn_capture_get_color_image;
  cr_depth : fi_color_capture (sy_depth_ir s) = false /\ fi_get_typed_image (sy_depth_ir s) = fn_capture_get_ir_image
}.

Definition sync_create_post busy ext w (r : zsa_result_t * option Z) w' : Prop :=
  only_heap w w' /\
  match r with
  | (ZSA_RESULT_SUCCEEDED, out) => out = Some (fresh w) /\ exists s, building busy ext w (fresh w) s w' /\ created s
  | (ZSA_RESULT_FAILED, out) => out = Some NULL /\ heap w' = heap w
  end.

Lemma building_created busy ext w t :
  Inv busy ext w ->
  building busy ext w (fresh w) (zeroed (T := capturesync_context_t))
    (w <| tick := t |> <| heap := <[fresh w := to_obj (zeroed (T := capturesync_context_t))]> (heap w) |> <| fresh := fresh w + 1 |>).
Proof.
  intros HI. pose proof (inv_fresh _ _ _ HI) as Hf. pose proof (inv_fresh_none _ _ _ HI) as Hn.
  assert (Hl : forall q, q ∉ live (zeroed (T := capturesync_context_t))) by (intros q; by rewrite elem_live; set_solver).
  split.
  - split.
    + split; [unfold NULL; lia|apply lookup_insert_eq].
    + by intros [].
    + intros q Hq. by apply Hl in Hq.
    + apply Hl.
    + intros x Hx. cbn. rewrite lookup_insert_ne; [done|]. set_solver.
    + intros x [-> | Hx]%elem_of_cons; [done|]. by apply Hl in Hx.
  - by apply inv_created.
  - split; [done|cbn; lia].
  - by split_and!.
  - intros q Hq. by apply Hl in Hq.
Qed.

Lemma building_destroy busy ext w0 h s w :
  building busy ext w0 h s w -> sy_lock s <> LockHeld ->
  wp (capturesync_destroy h;; mret (ZSA_RESULT_FAILED, Some NULL))
     (fun r w' => only_heap w0 w' /\ r = (ZSA_RESULT_FAILED, Some NULL) /\ heap w' = heap w0) w.
Proof.
  intros Hbd Hl. apply wp_bind. eapply wp_mono.
  { apply (wp_unused_destroy_sync w0 h s (live s)); [apply Hbd|by eapply building_apart|exact Hl]. }
  intros _ w1 ->. apply wp_ret. split; [|done]. destruct (bd_only _ _ _ _ _ _ Hbd) as [E F]. split; [|exact F].
  rewrite E. by destruct w.
Qed.

(** Setting a field that is still null. *)
Definition set_queue (color : bool) (q : Z) : capturesync_context_t -> capturesync_context_t :=
  on_frame color (fun f => f <| fi_queue := q |>).

Lemma no_samples_set color q s : no_samples s -> no_samples (set_queue color q s).
Proof. intros Hs []; destruct (Hs true), (Hs false), color; done. Qed.

Lemma adds_frame color s :
  no_samples s -> distinct s -> fi_queue (frame_of color s) = NULL -> sy_sync_queue s = NULL ->
  adds s (set_queue color) QUEUE_DEFAULT_SIZE.
Proof.
  intros Hn (D1 & D2 & D3) Hq Ho. split.
  { destruct color; cbn in Hq; destruct s as [? [] [] ? ? ? ? ? ? ? ? ? ? ?]; cbn in *; by rewrite Hq. }
  intros q. split; [by apply no_samples_set|]. unfold handles, distinct, depth_of. split.
  - intros x Hx. destruct color; cbn in *; rewrite Hq; set_solver.
  - intros Hqn Hh. destruct color; cbn in *; rewrite Hq, Ho in *; rewrite !not_elem_of_cons in Hh; destruct Hh as (? & ? & ? & _);
      rewrite (proj2 (Z.eqb_neq q NULL)) by done; split_and!; try done; try (intros E; congruence).
Qed.

Lemma adds_out s :
  no_samples s -> distinct s -> sy_sync_queue s = NULL ->
  adds s (fun q s => s <| sy_sync_queue := q |>) (QUEUE_DEFAULT_SIZE / 2).
Proof.
  intros Hn (D1 & D2 & D3) Ho. split; [destruct s; cbn in *; by rewrite Ho|].
  intros q. split; [exact Hn|]. unfold handles, distinct, depth_of. cbn. rewrite Ho. split; [set_solver|].
  intros Hqn Hh. rewrite !not_elem_of_cons in Hh. destruct Hh as (Hc & Hd & _). rewrite Z.eqb_refl.
  split_and!; try done.
  intros x Hx. assert (Hx' : x ∈ live s) by (unfold live, handles; by rewrite Ho). apply elem_live in Hx' as [Hxn Hx'].
  rewrite (proj2 (Z.eqb_neq x NULL)) by done. rewrite (proj2 (Z.eqb_neq x q)); [done|].
  intros ->. unfold handles in Hx'. rewrite Ho in Hx'. set_solver.
Qed.

(** The contexts capturesync_create goes through. *)
Definition init_sync (l : LOCK_HANDLE) (qc qd qo : Z) (disable_sync ts_logging : bool) : capturesync_context_t :=
  (zeroed (T := capturesync_context_t)) <| sy_color := mkFrame fn_capture_get_color_image true qc NULL NULL 0 |>
    <| sy_depth_ir := mkFrame fn_capture_get_ir_image false qd NULL NULL 0 |> <| sy_sync_queue := qo |>
    <| sy_lock := l |> <| sy_disable_sync := disable_sync |> <| sy_enable_ts_logging := ts_logging |>.

Lemma init_no_samples l qc qd qo d t : no_samples (init_sync l qc qd qo d t).
Proof. by intros []. Qed.

(** After [n] of the three queues. *)
Definition progress (n : nat) (qc qd qo : Z) : Prop :=
  match n with
  | O => qd = NULL /\ qc = NULL /\ qo = NULL
  | 1%nat => qd <> NULL /\ qc = NULL /\ qo = NULL
  | 2%nat => qd <> NULL /\ qc <> NULL /\ qo = NULL
  | _ => qd <> NULL /\ qc <> NULL /\ qo <> NULL
  end.

Definition stage busy ext w0 h (n : nat) (r : zsa_result_t) w : Prop :=
  exists l qc qd qo d t, building busy ext w0 h (init_sync l qc qd qo d t) w /\ l <> LockHeld /\
    (r = ZSA_RESULT_SUCCEEDED -> l = LockFree /\ progress n qc qd qo).

Lemma wp_stage busy ext w0 h n r w depth (f : Z -> capturesync_context_t -> capturesync_context_t) (store : Z -> Mw unit) :
  stage busy ext w0 h n r w -> 1 <= depth <= 10000 -> (forall q, store q = update h (f q)) ->
  (forall l qc qd qo d t, progress n qc qd qo -> distinct (init_sync l qc qd qo d t) ->
     adds (init_sync l qc qd qo d t) f depth /\
     forall q, q <> NULL -> exists qc' qd' qo', f q (init_sync l qc qd qo d t) = init_sync l qc' qd' qo' d t /\ progress (S n) qc' qd' qo') ->
  wp_or no_memory (and_then r (create_queue depth store)) (stage busy ext w0 h (S n)) w.
Proof.
  intros (l & qc & qd & qo & d & t & Hb & Hl & Hs) Hdep Hst Hf. unfold and_then.
  destruct r; cbn [ZSA_SUCCEEDED].
  2: { apply wp_or_wp, wp_ret. exists l, qc, qd, qo, d, t. by split_and!. }
  destruct Hs as [-> Hp]; [done|]. destruct (Hf LockFree _ _ _ d t Hp (bd_distinct _ _ _ _ _ _ Hb)) as [Ha Hf'].
  eapply (wp_building_queue _ _ _ _ _ _ _ _ f); [exact Hb|done|done|done| |].
  - intros w' Hb'. exists LockFree, qc, qd, qo, d, t. by split_and!.
  - intros q w' Hq _ Hb'. destruct (Hf' q Hq) as (qc' & qd' & qo' & E & Hp'). rewrite E in Hb'.
    exists LockFree, qc', qd', qo', d, t. by split_and!.
Qed.

(** Disabling a queue that was never enabled. *)
Lemma wp_building_disable busy ext w0 h s w q (Q : unit -> world -> Prop) :
  building busy ext w0 h s w -> q ∈ handles s -> q <> NULL -> Q tt w -> wp (queue_disable q) Q w.
Proof.
  intros Hb Hq Hn HQ. destruct (bd_queues _ _ _ _ _ _ Hb q) as (b & Hqb); [by apply elem_live|].
  eapply wp_mono; [apply (wp_queue_disable_resting _ _ _ Hqb); by split|]. intros [] w' ->.
  rewrite (fin_maps.insert_id _ q) by apply Hqb. by destruct w.
Qed.

Lemma wp_capturesync_create busy ext w :
  Inv busy ext w -> wp_or no_memory (capturesync_create true) (sync_create_post busy ext w) w.
Proof.
  intros HI. pose proof (inv_fresh _ _ _ HI) as Hf0. unfold capturesync_create. cbn [negb].
  destruct (calloc_ok (tick w)) eqn:Ec.
  2: { eapply wp_or_fault; [|by split; [|eexists]]. unfold handle_create, ask, mbind, M_bind. by rewrite Ec. }
  eapply wp_or_call with (P := fun h w1 => h = fresh w /\ building busy ext w (fresh w) zeroed w1).
  { apply wp_handle_create_ok; [done|]. split; [done|by apply building_created]. }
  intros h w1 [-> Hb]. set (h := fresh w) in *. rewrite (proj2 (Z.eqb_neq h NULL)) by (unfold NULL; lia).
  apply wp_or_bind, wp_or_wp. eapply wp_building_update; [exact Hb|by intros []|done|]. clear w1 Hb. intros w1 Hb.
  apply wp_or_bind, wp_or_wp. eapply wp_building_update; [exact Hb|by intros []|done|]. clear w1 Hb. intros w1 Hb.
  eapply wp_or_call with (P := stage busy ext w h 0).
  { apply wp_bind, wp_Lock_Init. intros t l Hl. apply wp_bind.
    assert (Hb1 : building busy ext w h (init_sync LockNull NULL NULL NULL false false) (w1 <| tick := t |>)).
    { eapply building_heap; [exact Hb|done|by apply (only_heap_set w1 (heap w1) t (fresh w1))|apply inv_tick, Hb]. }
    eapply wp_building_update; [exact Hb1|by intros []|done|]. intros w2 Hb2. apply wp_ret.
    exists l, NULL, NULL, NULL, false, false. split_and!; [exact Hb2|done|]. case_bool_decide; [|done]. by destruct l. }
  clear w1 Hb. intros r w1 Hs. 
  apply wp_or_bind. eapply wp_or_mono; [apply (wp_stage _ _ _ _ _ _ _ _ (set_queue false) _ Hs); [done|done|]|].
  { intros l qc qd qo d t (-> & -> & ->) Hd. split; [apply adds_frame; [apply init_no_samples|done..]|].
    intros q Hq. by exists NULL, q, NULL. }
  clear r w1 Hs. intros r w1 Hs.
  apply wp_or_bind. eapply wp_or_mono; [apply (wp_stage _ _ _ _ _ _ _ _ (set_queue true) _ Hs); [done|done|]|].
  { intros l qc qd qo d t (Hqd & -> & ->) Hd. split; [apply adds_frame; [apply init_no_samples|done..]|].
    intros q Hq. by exists q, qd, NULL. }
  clear r w1 Hs. intros r w1 Hs.
  apply wp_or_bind. eapply wp_or_mono; [apply (wp_stage _ _ _ _ _ _ _ _ (fun q s => s <| sy_sync_queue := q |>) _ Hs); [done|done|]|].
  { intros l qc qd qo d t (Hqd & Hqc & ->) Hd. split; [apply adds_out; [apply init_no_samples|done..]|].
    intros q Hq. by exists qc, qd, q. }
  clear r w1 Hs. intros r w1 (l & qc & qd & qo & d & t & Hb & Hl & Hp).
  apply wp_or_wp, wp_bind. eapply wp_mono with (P := fun _ w2 => w2 = w1).
  { apply wp_when; intros Er; [|done]. destruct r; [|done]. destruct Hp as [-> (Hqd & Hqc & Hqo)]; [done|].
    apply wp_bind. eapply wp_load; [apply Hb|].
    do 2 (apply wp_bind; eapply wp_building_disable; [exact Hb|set_solver|done|]).
    eapply wp_building_disable; [exact Hb|set_solver|done|]. done. }
  intros _ ? ->.
  apply wp_bind. eapply wp_mono with (P := fun _ w2 => exists d, building busy ext w h (init_sync l qc qd qo d t) w2).
  { apply wp_when; intros _; [|by exists d]. eapply wp_building_update; [exact Hb|exact (init_no_samples _ _ _ _ _ _)|done|]. intros w2 Hb2. exists true. exact Hb2. }
  clear d Hb. intros _ w2 [d Hb].
  apply wp_bind. eapply wp_mono with (P := fun _ w2 => exists t, building busy ext w h (init_sync l qc qd qo d t) w2).
  { apply wp_when; intros _; [|by exists t]. eapply wp_building_update; [exact Hb|exact (init_no_samples _ _ _ _ _ _)|done|]. intros w3 Hb3. exists true. exact Hb3. }
  clear t w2 Hb. intros _ w2 [t Hb]. destruct r; cbn [ZSA_FAILED ZSA_SUCCEEDED negb].
  - destruct Hp as [-> (Hqd & Hqc & Hqo)]; [done|]. apply wp_ret. split; [apply Hb|]. split; [done|]. eexists. split; [exact Hb|].
    split; try done. intros q Hq. unfold handles in Hq. set_solver.
  - eapply wp_mono; [eapply building_destroy; [exact Hb|exact Hl]|]. intros ? w3 (Ho & -> & Eh). by split.
Qed.
End unused.

(** * A synchroniser in use *)

Section in_use.
Context `{Platform}.
Implicit Types (s : capturesync_context_t) (w : world).

(** A created synchroniser is ready; its queues are empty and disabled. *)
Lemma building_ready busy ext w0 h s w :
  building busy ext w0 h s w -> created s -> (forall x, x ∈ busy -> heap w0 !! x <> None) ->
  (forall k, k = KImage \/ k = KCapture -> unbusy k busy w0) ->
  exists Q out, ready busy ext h s Q out w /\ abs out = mkAqueue false 7 [] 0 /\
    forall color, abs (Q color) = mkAqueue false 15 [] 0.
Proof.
  intros [Hu HI Ho Hd Hq] [Hl Hrun Hn Hc Hdep] Hbusy Hun. pose proof (un_blank _ _ _ _ _ Hu) as Hbl.
  assert (Hnb : forall x, x ∈ h :: live s -> x ∉ busy).
  { intros x Hx Hb. apply (Hbusy x Hb). by eapply un_new. }
  assert (Hlv : forall q, q ∈ handles s -> q ∈ live s) by (intros q Hx; apply elem_live; auto).
  destruct Hd as (D1 & D2 & D3).
  pose proof (Hn (fi_queue (sy_color s)) ltac:(set_solver)) as Nc. pose proof (Hn (fi_queue (sy_depth_ir s)) ltac:(set_solver)) as Nd.
  pose proof (Hn (sy_sync_queue s) ltac:(set_solver)) as No.
  destruct (Hq (fi_queue (sy_color s))) as [bc Hqc]; [apply Hlv; set_solver|].
  destruct (Hq (fi_queue (sy_depth_ir s))) as [bd Hqd]; [apply Hlv; set_solver|].
  destruct (Hq (sy_sync_queue s)) as [bo Hqo]; [apply Hlv; set_solver|].
  unfold depth_of in Hqc, Hqd, Hqo. rewrite Z.eqb_refl in Hqo.
  rewrite (proj2 (Z.eqb_neq (fi_queue (sy_color s)) _)) in Hqc by tauto.
  rewrite (proj2 (Z.eqb_neq (fi_queue (sy_depth_ir s)) _)) in Hqd by tauto.
  exists (fun color => new_queue QUEUE_DEFAULT_SIZE (if color : bool then bc else bd)), (new_queue (QUEUE_DEFAULT_SIZE / 2) bo).
  split; [split; try done|].
  - split; [exact HI| |apply Hu| | |tauto].
    + intros k Hk x o [Hx|Hx%elem_of_singleton]%elem_of_union Ho'.
      * rewrite (un_frame _ _ _ _ _ Hu) in Ho'; [by apply (Hun k Hk x)|]. intros Hx'. by apply (Hnb x).
      * subst x. destruct (un_has _ _ _ _ _ Hu) as [_ Hh]. rewrite Hh in Ho'. injection Ho' as <-. by destruct Hk as [-> | ->].
    + intros []; (split; [done|]; split; [by apply new_queue_wf|]; apply Hnb, elem_of_cons; right; apply Hlv; set_solver).
    + split; [done|]. split; [by apply new_queue_wf|]. apply Hnb, elem_of_cons; right; apply Hlv; set_solver.
  - apply Hnb. set_solver.
  - intros color _. apply Hbl.
  - rewrite Hrun. done.
  - left. apply (Hbl true).
  - by split; [|intros []].
Qed.

(** ** Stopping *)

(** A frame whose sample was given up. *)
Definition given_up (f f' : frame_info_t) : Prop := same_sensor f f' /\ fi_capture f' = NULL /\ fi_image f' = NULL.

Lemma wp_stop_image busy ext h s Q out w color (R : unit -> world -> Prop) :
  syncing busy ext h s Q out w -> nonneg ext ->
  (forall w', syncing busy ext h (on_frame color (fun f => f <| fi_image := NULL |>) s) Q out w' -> modules_kept w w' -> R tt w') ->
  wp (f ← load_frame color h;
      when (negb (fi_image f =? NULL)) (
        image_dec_ref (fi_image f);;
        update_frame color h (fun f => f <| fi_image := NULL |>))) R w.
Proof.
  intros Hw He HR. apply wp_bind. eapply wp_load_frame; [exact Hw|]. set (i := fi_image (frame_of color s)).
  destruct (Z.eqb_spec i NULL) as [E|Hi]; cbn [negb when].
  - apply wp_ret, HR; [|apply kept_refl].
    enough (on_frame color (fun f => f <| fi_image := NULL |>) s = s) as -> by done.
    unfold i in E. destruct color; cbn in E; destruct s as [? [] [] ? ? ? ? ? ? ? ? ? ? ?]; cbn in *; by rewrite E.
  - apply wp_bind. eapply wp_sync_image_drop; [exact Hw|by apply parts_blocks, nonneg_parts| |].
    { eapply (syncing_rc _ _ _ _ _ _ _ color); [exact Hw|by apply He|]. unfold frame_refs. fold i.
      rewrite (nonnull_live KImage i) by done. set_solver. }
    intros w1 Hw1 Hk1. eapply wp_update; [apply Hw1|]. apply HR.
    + eapply syncing_store; [exact Hw1|by apply on_frame_links|]. intros r. rewrite on_frame_refs.
      unfold frame_refs. cbn. fold i. rewrite !count_ref_app, (nonnull_live KImage i) by done. ledger.
    + eapply kept_trans; [exact Hk1|]. by eapply kept_store, Hw1.
Qed.

Lemma wp_stop_sample busy ext h s Q out w color :
  syncing busy ext h s Q out w -> nonneg ext ->
  wp (stop_sample h color)
     (fun _ w' => modules_kept w w' /\
        exists f, given_up (frame_of color s) f /\ syncing busy ext h (on_frame color (fun _ => f) s) Q out w') w.
Proof.
  intros Hw He. apply wp_bind. eapply wp_load_frame; [exact Hw|]. set (c := fi_capture (frame_of color s)).
  assert (Hend : forall f w1, same_sensor (frame_of color s) f -> fi_capture f = NULL ->
    syncing busy ext h (on_frame color (fun _ => f) s) Q out w1 -> modules_kept w w1 ->
    wp (f ← load_frame color h; when (negb (fi_image f =? NULL)) (image_dec_ref (fi_image f);;
          update_frame color h (fun f => f <| fi_image := NULL |>)))
       (fun _ w' => modules_kept w w' /\
          exists f, given_up (frame_of color s) f /\ syncing busy ext h (on_frame color (fun _ => f) s) Q out w') w1).
  { intros f w1 Hs Hc Hw1 Hk1. eapply wp_stop_image; [exact Hw1|exact He|]. intros w2 Hw2 Hk2. rewrite on_frame_twice in Hw2.
    split; [by eapply kept_trans|]. exists (f <| fi_image := NULL |>). by split. }
  apply wp_bind. destruct (Z.eqb_spec c NULL) as [E|Hc]; cbn [negb when].
  - apply wp_ret. apply (Hend (frame_of color s)); [done|exact E| |apply kept_refl].
    enough (on_frame color (fun _ => frame_of color s) s = s) as -> by done. by destruct color, s.
  - apply wp_bind. eapply wp_sync_capture_drop; [exact Hw|by apply nonneg_parts| |].
    { exact (syncing_capture_rc _ _ _ _ _ _ _ color Hw (He KCapture _ ltac:(done)) Hc). }
    intros w1 Hw1 Hk1. eapply wp_update; [apply Hw1|]. rewrite on_frame_const.
    eapply (Hend ((frame_of color s) <| fi_capture := NULL |> <| fi_ts := UINT64_MAX |>)); [by repeat split|done| |eapply kept_trans; [exact Hk1|by eapply kept_store, Hw1]].
    rewrite <- (on_frame_const color (fun f => f <| fi_capture := NULL |> <| fi_ts := UINT64_MAX |>)).
    eapply syncing_store; [exact Hw1|by apply on_frame_links|]. intros r. rewrite on_frame_refs.
    unfold frame_refs. cbn. fold c. rewrite !count_ref_app, (nonnull_live KCapture c) by done. ledger.
Qed.

(** The configuration of [s], no longer running and without samples. *)
Definition halted s s' : Prop :=
  s' = s <| sy_running := false |> <| sy_color := sy_color s' |> <| sy_depth_ir := sy_depth_ir s' |> /\
  forall color, given_up (frame_of color s) (frame_of color s').

(** One of the sensors' queues, or the output queue, is disabled. *)
Lemma wp_sync_queue_disable busy ext h s Q out w color (R : unit -> world -> Prop) :
  syncing busy ext h s Q out w -> nonneg ext -> q_queue_pop_blocked (Q color) = 0 ->
  (forall q' w', syncing busy ext h s (upd Q color q') out w' -> abs q' = adisable (abs (Q color)) -> modules_kept w w' -> R tt w') ->
  wp (when_queue (fi_queue (frame_of color s)) queue_disable) R w.
Proof.
  intros Hw He Hb HR. destruct (syn_queue _ _ _ _ _ _ _ Hw color) as ([Hn Hq] & _).
  unfold when_queue. rewrite (proj2 (Z.eqb_neq _ _) Hn). cbn [negb when].
  eapply wp_mono; [apply (wp_queue_disable _ _ _ _ _ (syncing_pre _ _ _ _ _ _ _ color Hw He) Hb)|].
  intros [] w1 (q' & H1' & H2' & H3' & H4' & H5'). eapply HR; [|exact H3'|by eapply kept_frame]. by eapply syncing_queue.
Qed.

Lemma wp_sync_out_disable busy ext h s Q out w (R : unit -> world -> Prop) :
  syncing busy ext h s Q out w -> nonneg ext -> q_queue_pop_blocked out = 0 ->
  (forall out' w', syncing busy ext h s Q out' w' -> abs out' = adisable (abs out) -> modules_kept w w' -> R tt w') ->
  wp (when_queue (sy_sync_queue s) queue_disable) R w.
Proof.
  intros Hw He Hb HR. destruct (syn_out _ _ _ _ _ _ _ Hw) as ([Hn Hq] & _).
  unfold when_queue. rewrite (proj2 (Z.eqb_neq _ _) Hn). cbn [negb when].
  eapply wp_mono; [apply (wp_queue_disable _ _ _ _ _ (syncing_pre_out _ _ _ _ _ _ _ Hw He) Hb)|].
  intros [] w1 (q' & H1' & H2' & H3' & H4' & H5'). eapply HR; [|exact H3'|by eapply kept_frame]. by eapply syncing_queue_out.
Qed.

Lemma wp_capturesync_stop busy ext h s Q out w :
  ready busy ext h s Q out w -> nonneg ext ->
  (forall color, q_queue_pop_blocked (Q color) = 0) -> q_queue_pop_blocked out = 0 ->
  wp (capturesync_stop h)
     (fun _ w' => modules_kept w w' /\ exists s' Q' out', ready busy ext h s' Q' out' w' /\ Inv busy ext w' /\ halted s s' /\
        abs out' = adisable (abs out) /\ forall color, abs (Q' color) = adisable (abs (Q color))) w.
Proof.
  intros [Hw Hfree Hl Hok Hz Hp Hone] He Hb Hbo. eapply wp_if_handle_valid; [apply Hw|].
  apply wp_bind. eapply wp_Lock; [apply Hw|by rewrite Hl|].
  pose proof (syncing_lock _ _ _ _ _ _ _ LockHeld Hw) as Hw1. cbn [lock_acquire].
  pose proof (kept_store _ _ _ (s <| sy_lock := LockHeld |>) (syn_has _ _ _ _ _ _ _ Hw)) as Hk1.
  set (s1 := s <| sy_lock := LockHeld |> <| sy_running := false |>).
  apply wp_bind. eapply wp_update; [apply Hw1|].
  pose proof (kept_trans _ _ _ Hk1 (kept_store _ _ _ s1 (syn_has _ _ _ _ _ _ _ Hw1))) as Hk2.
  match goal with |- wp _ _ ?x => assert (Hw2 : syncing busy ext h s1 Q out x); [|change (modules_kept w x) in Hk2; set (w2 := x) in *] end.
  { eapply syncing_store; [exact Hw1|split; [done|by intros []]|]. intros r. cbn. lia. }
  clearbody w2. clear Hw1 Hk1.
  apply wp_bind. eapply wp_load; [apply Hw2|].
  apply wp_bind. eapply (wp_sync_queue_disable _ _ _ s1 _ _ _ true _ Hw2 He); [apply Hb|]. intros qc w3 Hw3 Hac Hk3.
  apply wp_bind. eapply wp_load; [apply Hw3|].
  apply wp_bind. eapply (wp_sync_queue_disable _ _ _ s1 _ _ _ false _ Hw3 He); [apply (Hb false)|]. intros qd w4 Hw4 Had Hk4.
  apply wp_bind. eapply wp_load; [apply Hw4|].
  apply wp_bind. eapply (wp_sync_out_disable _ _ _ s1 _ _ _ _ Hw4 He Hbo). intros qo w5 Hw5 Hao Hk5.
  apply wp_bind. eapply wp_mono; [apply (wp_stop_sample _ _ _ _ _ _ _ true Hw5 He)|]. intros _ w6 (Hk6 & fc & Hfc & Hw6).
  apply wp_bind. eapply wp_mono; [apply (wp_stop_sample _ _ _ _ _ _ _ false Hw6 He)|]. intros _ w7 (Hk7 & fd & Hfd & Hw7).
  eapply wp_Unlock; [apply Hw7|]. pose proof (syncing_lock _ _ _ _ _ _ _ LockFree Hw7) as Hw8.
  match type of Hw7 with syncing _ _ _ ?x _ _ _ => set (s2 := x) in * end.
  split.
  { eapply kept_trans; [|by eapply kept_store, Hw7]. repeat (eapply kept_trans; [eassumption|]). apply kept_refl. }
  exists (s2 <| sy_lock := LockFree |>), (upd (upd Q true qc) false qd), qo.
  split; [split; [exact Hw8|exact Hfree|done| | |done|left; apply Hfc]|].
  - intros []; intros _; [apply Hfc|apply Hfd].
  - intros []; cbn; [rewrite <- (Hz true)|rewrite <- (Hz false)]; by eapply abs_depth'.
  - split; [by eapply syncing_close|]. split; [|split; [exact Hao|intros []; [exact Hac|exact Had]]].
    split; [destruct s; cbn in *; by subst|]. intros []; [exact Hfc|exact Hfd].
Qed.

(** ** Starting *)

Definition fps_of (camera_fps : Z) : option Z :=
  if camera_fps =? ZSA_FRAMES_PER_SECOND_5 then Some 5
  else if camera_fps =? ZSA_FRAMES_PER_SECOND_15 then Some 15
  else if camera_fps =? ZSA_FRAMES_PER_SECOND_30 then Some 30
  else None.

Lemma wp_fps camera_fps fps w (R : Z -> world -> Prop) :
  fps_of camera_fps = Some fps -> R fps w -> wp (zsa_convert_fps_to_uint camera_fps) R w.
Proof.
  unfold fps_of, zsa_convert_fps_to_uint. destruct (_ =? _); [by intros [= ->]|]. destruct (_ =? _); [by intros [= ->]|].
  destruct (_ =? _); [by intros [= ->]|done].
Qed.

(** What a configuration makes of the context. *)
Definition started s (config : zsa_device_configuration_t) (fps : Z) : capturesync_context_t :=
  s <| sy_waiting_for_clean_depth_ts := true |> <| sy_synchronized_images_only := synchronized_images_only config |>
    <| sy_fps_period := 1000000 / fps |> <| sy_fps_1_quarter_period := 1000000 / fps / 4 |>
    <| sy_depth_delay_off_color_usec := depth_delay_off_color_usec config |>
    <| sy_sync_captures := negb ((color_resolution config =? ZSA_COLOR_RESOLUTION_OFF)
                                 || (depth_mode config =? ZSA_DEPTH_MODE_OFF)) |>
    <| sy_running := true |>.

Lemma wp_sync_queue_enable busy ext h s Q out w color (R : unit -> world -> Prop) :
  syncing busy ext h s Q out w -> nonneg ext ->
  (forall q' w', syncing busy ext h s (upd Q color q') out w' -> abs q' = aenable (abs (Q color)) -> R tt w') ->
  wp (queue_enable (fi_queue (frame_of color s))) R w.
Proof.
  intros Hw He HR.
  eapply wp_mono; [apply (wp_queue_enable _ _ _ _ _ (syncing_pre _ _ _ _ _ _ _ color Hw He))|].
  intros [] w1 (q' & H1' & H2' & H3' & H4' & H5'). eapply HR; [|exact H3']. by eapply syncing_queue.
Qed.

Lemma wp_sync_update busy ext h s Q out w f (R : unit -> world -> Prop) :
  syncing busy ext h s Q out w -> sy_color (f s) = sy_color s -> sy_depth_ir (f s) = sy_depth_ir s ->
  sy_sync_queue (f s) = sy_sync_queue s ->
  (forall w', syncing busy ext h (f s) Q out w' -> R tt w') -> wp (update h f) R w.
Proof.
  intros Hw E1 E2 E3 HR. eapply wp_update; [apply Hw|]. apply HR. eapply syncing_store; [exact Hw| |].
  - split; [done|]. intros []; cbn; by rewrite ?E1, ?E2.
  - intros r. cbn. rewrite E1, E2. lia.
Qed.

Lemma wp_capturesync_start busy ext h s Q out config fps w :
  ready busy ext h s Q out w -> nonneg ext -> fps_of (camera_fps config) = Some fps ->
  wp (capturesync_start h (Some config))
     (fun r w' => r = ZSA_RESULT_SUCCEEDED /\ exists Q' out', ready busy ext h (started s config fps) Q' out' w' /\
        Inv busy ext w' /\ abs out' = aenable (abs out) /\ forall color, abs (Q' color) = aenable (abs (Q color))) w.
Proof.
  intros [Hw Hfree Hl Hok Hz Hp Hone] He Hfps. eapply wp_if_handle_valid; [apply Hw|].
  assert (0 < fps /\ 0 < 1000000 / fps) as [Hpos Hper].
  { revert Hfps. unfold fps_of. repeat (destruct (_ =? _); [by intros [= <-]|]). done. }
  apply wp_bind. eapply wp_sync_update; [exact Hw|done..|]. clear w Hw. intros w Hw.
  apply wp_bind. eapply wp_fps; [exact Hfps|]. rewrite (proj2 (Z.gtb_lt fps 0)) by done. cbn [negb].
  apply wp_bind. eapply wp_sync_update; [exact Hw|done..|]. clear w Hw. intros w Hw.
  match type of Hw with syncing _ _ _ ?x _ _ _ => set (s1 := x) in * end.
  apply wp_bind. eapply wp_load; [apply Hw|].
  apply wp_bind. eapply (wp_sync_queue_enable _ _ _ s1 _ _ _ true _ Hw He). intros qc w1 Hw1 Hac.
  apply wp_bind. eapply (wp_sync_queue_enable _ _ _ s1 _ _ _ false _ Hw1 He). intros qd w2 Hw2 Had.
  apply wp_bind. eapply wp_mono; [apply (wp_queue_enable _ _ _ _ _ (syncing_pre_out _ _ _ _ _ _ _ Hw2 He))|].
  intros _ w3 (qo & H1' & H2' & H3' & H4' & H5').
  assert (Hw3 : syncing busy ext h s1 (upd (upd Q true qc) false qd) qo w3) by (by eapply syncing_queue_out).
  apply wp_bind. eapply wp_sync_update; [exact Hw3|done..|]. intros w4 Hw4. apply wp_ret. split; [done|].
  exists (upd (upd Q true qc) false qd), qo. split.
  - split; [exact Hw4|exact Hfree|exact Hl|exact Hok| |intros _; exact Hper|exact Hone].
    intros []; cbn; [rewrite <- (Hz true)|rewrite <- (Hz false)]; by eapply abs_depth'.
  - split; [by eapply syncing_close|]. split; [exact H3'|]. intros []; [exact Hac|exact Had].
Qed.
End in_use.

(** * Properties *)

Section properties.
Context `{Platform}.

(** C28: capturesync_create returns, or writes through a null context when the
    memory runs out.  When it succeeds there is a new synchroniser, ready,
    not running, with three empty and disabled queues, and no object that was
    there before has changed; when it fails (the lock could not be made, or a
    queue's memory) everything it had made is gone again. *)
Theorem capturesync_create_spec (busy : gset Z) (ext : ledger) (w : world)
  (HI : Inv busy ext w) (Hbusy : forall x, x ∈ busy -> heap w !! x <> None)
  (Hun : forall k, k = KImage \/ k = KCapture -> unbusy k busy w) :
  match capturesync_create true w with
  | Fault f => f = NullDeref /\ exists t, calloc_ok t = false
  | Done (r, out) w' =>
      Inv busy ext w' /\
      match r with
      | ZSA_RESULT_SUCCEEDED => exists h s Q o, out = Some h /\ heap w !! h = None /\
          ready busy ext h s Q o w' /\ sy_running s = false /\ abs o = mkAqueue false 7 [] 0 /\
          (forall color, abs (Q color) = mkAqueue false 15 [] 0) /\ (forall x, heap w !! x <> None -> heap w' !! x = heap w !! x)
      | ZSA_RESULT_FAILED => out = Some NULL /\ heap w' = heap w
      end
  end.
Proof.
  pose proof (wp_capturesync_create busy ext w HI) as Hw. unfold wp_or in Hw.
  destruct (capturesync_create true w) as [[r out] w'|f]; [|exact Hw]. destruct Hw as [Ho Hp]. destruct r.
  - destruct Hp as (-> & s & Hb & Hc). destruct (building_ready _ _ _ _ _ _ Hb Hc Hbusy Hun) as (Q & o & Hr & Ha & HQ).
    split; [eapply syncing_close; [apply Hr|apply Hc]|]. exists (fresh w), s, Q, o.
    split_and!; [done|by eapply inv_fresh_none|done|apply Hc|done|done|].
    intros x Hx. apply (un_frame _ _ _ _ _ (bd_unused _ _ _ _ _ _ Hb)). intros Hx'. apply Hx. by apply (un_new _ _ _ _ _ (bd_unused _ _ _ _ _ _ Hb)).
  - destruct Hp as [-> Eh]. split; [|done]. destruct Ho as [E F].
    eapply inv_restored; [exact HI|exact Eh|exact F|by rewrite E|by rewrite E].
Qed.

(** C22: a session.  From a ready synchroniser at which nobody waits,
    capturesync_start with a valid frame rate succeeds; the context then has
    the period, the window and the flags of the configuration, and the queues
    are enabled.  capturesync_stop after it leaves the synchroniser ready
    again, not running, without samples, with its queues disabled and empty,
    and with every reference it held given back. *)
Theorem capturesync_start_stop (busy : gset Z) (ext : ledger) (h : Z) (s : capturesync_context_t)
    (Q : bool -> queue_context_t) (out : queue_context_t) (config : zsa_device_configuration_t) (fps : Z) (w : world)
    (Hr : ready busy ext h s Q out w) (He : nonneg ext) (Hfps : fps_of (camera_fps config) = Some fps)
    (Hb : forall color, q_queue_pop_blocked (Q color) = 0) (Hbo : q_queue_pop_blocked out = 0) :
  wp (capturesync_start h (Some config))
     (fun r w1 => r = ZSA_RESULT_SUCCEEDED /\ exists Q1 out1, ready busy ext h (started s config fps) Q1 out1 w1 /\
        Inv busy ext w1 /\ abs out1 = aenable (abs out) /\ (forall color, abs (Q1 color) = aenable (abs (Q color))) /\
        wp (capturesync_stop h)
           (fun _ w2 => exists s2 Q2 out2, ready busy ext h s2 Q2 out2 w2 /\ Inv busy ext w2 /\
              halted (started s config fps) s2 /\ abs out2 = adisable (abs out) /\
              forall color, abs (Q2 color) = adisable (abs (Q color))) w1) w.
Proof.
  eapply wp_mono; [apply (wp_capturesync_start _ _ _ _ _ _ _ _ _ Hr He Hfps)|].
  intros r w1 (-> & Q1 & out1 & Hr1 & HI1 & Ho1 & HQ1). split; [done|]. exists Q1, out1. split_and!; [done..|].
  eapply wp_mono; [apply (wp_capturesync_stop _ _ _ _ _ _ _ Hr1 He)|].
  - intros color. change (aq_blocked (abs (Q1 color)) = 0). rewrite HQ1. apply Hb.
  - change (aq_blocked (abs out1) = 0). rewrite Ho1. apply Hbo.
  - intros _ w2 (_ & s2 & Q2 & out2 & Hr2 & HI2 & Hh & Ho2 & HQ2). exists s2, Q2, out2. split_and!; try done.
    + rewrite Ho2, Ho1. done.
    + intros color. by rewrite HQ2, HQ1.
Qed.
End properties.

Lemma capturesync_create_spec_witness :
  exists w' s Q o, capturesync_create true sample_full_world = Done (ZSA_RESULT_SUCCEEDED, Some 3) w' /\
    ready ∅ sample_ledger 3 s Q o w'.
Proof.
  pose proof (capturesync_create_spec ∅ sample_ledger sample_full_world (proj1 sample_full_inv)
    ltac:(intros x Hx; by apply elem_of_empty in Hx) ltac:(intros; apply unbusy_empty)) as Hs.
  assert (E : value_of (capturesync_create true) sample_full_world = Some (ZSA_RESULT_SUCCEEDED, Some 3)) by (vm_compute; reflexivity).
  unfold value_of in E. destruct (capturesync_create true sample_full_world) as [[r out] w'|f]; [|discriminate].
  injection E as -> ->. destruct Hs as (_ & h & s & Q & o & [= <-] & _ & Hr & _). exists w', s, Q, o.
  split; [reflexivity|exact Hr].
Defined.

Definition sample_config : zsa_device_configuration_t :=
  mkConfig ZSA_IMAGE_FORMAT_COLOR_MJPG ZSA_COLOR_RESOLUTION_720P ZSA_DEPTH_MODE_OFF ZSA_FRAMES_PER_SECOND_15 false (-5) ZSA_WIRED_SYNC_MODE_SUBORDINATE 1000 false.

Lemma capturesync_start_stop_witness :
  exists w1 w2, capturesync_start 6 (Some sample_config) sample_sync_world = Done ZSA_RESULT_SUCCEEDED w1 /\
    capturesync_stop 6 w1 = Done tt w2 /\ Inv ∅ sample_ledger w2.
Proof.
  pose proof (capturesync_start_stop ∅ sample_ledger 6 sample_sync (fun _ => sample_sensor_queue) sample_output_queue
    sample_config 15 sample_sync_world sample_ready sample_ledger_nonneg eq_refl ltac:(intros; reflexivity) eq_refl) as Hw.
  destruct (proj1 (wp_run _ _ _) Hw) as (r & w1 & E1 & -> & Q1 & o1 & _ & _ & _ & _ & Hw2).
  destruct (proj1 (wp_run _ _ _) Hw2) as ([] & w2 & E2 & s2 & Q2 & o2 & _ & HI & _). exists w1, w2.
  split; [exact E1|]. split; [exact E2|exact HI].
Defined.
