(* ===== verification/Usb.v ===== *)
(** src/usbcommand/usb_cmd_priv.h and the libusb it is written against: the
    constants and contexts of the USB modules, libusb as a typeclass of
    answers that may depend on every call made before, and the accounting of
    the resources libusb hands out. *)

From S2P Require Export Image.

(** * Constants *)

Definition USB_CMD_MAX_XFR_COUNT : Z := 8.
Definition USB_CMD_MAX_XFR_POOL : Z := 10000000.
Definition USB_MAX_TX_DATA : Z := 128.
Definition USB_CMD_PACKET_TYPE : Z := 0x06022009.
Definition USB_CMD_PACKET_TYPE_RESPONSE : Z := 0x0A6FE000.
Definition ZSA_MSFT_VID : Z := 0x045E.
Definition ZSA_RGB_PID : Z := 0x097D.
Definition ZSA_DEPTH_PID : Z := 0x097C.
Definition USB_CMD_DEFAULT_CONFIG : Z := 1.
Definition USB_CMD_DEPTH_INTERFACE : Z := 0.
Definition USB_CMD_DEPTH_IN_ENDPOINT : Z := 0x02.
Definition USB_CMD_DEPTH_OUT_ENDPOINT : Z := 0x81.
Definition USB_CMD_DEPTH_STREAM_ENDPOINT : Z := 0x83.
Definition USB_CMD_IMU_INTERFACE : Z := 2.
Definition USB_CMD_IMU_IN_ENDPOINT : Z := 0x04.
Definition USB_CMD_IMU_OUT_ENDPOINT : Z := 0x83.
Definition USB_CMD_IMU_STREAM_ENDPOINT : Z := 0x82.
Definition MAX_SERIAL_NUMBER_LENGTH : Z := 13 * 2.

(** Values of libusb's public enumerations. *)
Definition LIBUSB_SUCCESS : Z := 0.
Definition LIBUSB_ERROR_ACCESS : Z := -3.
Definition LIBUSB_LOG_LEVEL_NONE : Z := 0.
Definition LIBUSB_LOG_LEVEL_WARNING : Z := 2.
Definition LIBUSB_BT_CONTAINER_ID : Z := 4.
Definition LIBUSB_TRANSFER_COMPLETED : Z := 0.
Definition LIBUSB_TRANSFER_TIMED_OUT : Z := 2.
Definition LIBUSB_TRANSFER_CANCELLED : Z := 3.
Definition LIBUSB_TRANSFER_OVERFLOW : Z := 6.

Inductive usb_command_device_type_t : Set :=
| USB_DEVICE_DEPTH_PROCESSOR
| USB_DEVICE_COLOR_IMU_PROCESSOR
| USB_DEVICE_TYPE_COUNT.

Definition NULL_INDEX : Z := 0xFF.

(** * libusb *)

Record libusb_device_descriptor : Type := mkDescriptor {
  idVendor : Z;
  idProduct : Z;
  iSerialNumber : Z
}.

(** The answers of libusb and of the thread library.  The first argument is
    the list of all calls made before with their answers, so that a device may
    react to what it was sent.  An error code is negative; what a function
    stores through a pointer only counts when it succeeds. *)
Class Usb : Type := {
  libusb_init_answer : list event -> Z * Z;
  libusb_set_option_answer : list event -> Z -> Z -> Z;
  libusb_get_device_list_answer : list event -> Z -> Z * list Z;
  libusb_get_device_descriptor_answer : list event -> Z -> Z * libusb_device_descriptor;
  libusb_open_answer : list event -> Z -> Z * Z;
  (* the types of the device's capabilities *)
  libusb_get_bos_descriptor_answer : list event -> Z -> Z * list Z;
  libusb_get_container_id_descriptor_answer : list event -> Z -> Z * list Z;
  libusb_get_string_descriptor_answer : list event -> Z -> Z -> Z -> Z * list Z;
  libusb_get_configuration_answer : list event -> Z -> Z * Z;
  libusb_set_configuration_answer : list event -> Z -> Z -> Z;
  libusb_kernel_driver_active_answer : list event -> Z -> Z -> Z;
  libusb_detach_kernel_driver_answer : list event -> Z -> Z -> Z;
  libusb_claim_interface_answer : list event -> Z -> Z -> Z;
  libusb_release_interface_answer : list event -> Z -> Z -> Z;
  (* handle, endpoint, bytes sent, length: error, bytes moved, bytes received *)
  libusb_bulk_transfer_answer : list event -> Z -> Z -> list Z -> Z -> Z * (Z * list Z);
  libusb_alloc_transfer_ok : list event -> bool;
  libusb_submit_transfer_answer : list event -> Z -> Z;
  (* the transfers that completed: address, status, actual length *)
  libusb_handle_events_answer : list event -> Z -> Z * list (Z * Z * Z);
  ThreadAPI_Create_ok : nat -> bool;
  (* what the joined thread does before it exits *)
  ThreadAPI_Join_others : nat -> Z -> world -> world
}.

Section calls.
Context `{Platform} `{Usb}.

(** A call: its answer is appended to the trace. *)
Definition usb_call {A} (answer : list event -> A) (log : A -> usb_event) : Mw A := fun w =>
  let a := answer (trace w) in
  Done a (w <| trace := trace w ++ [EUsb (log a)] |>).

Definition usb_note (e : usb_event) : Mw unit := usb_call (fun _ => tt) (fun _ => e).

Definition libusb_init : Mw (Z * Z) := usb_call libusb_init_answer (fun '(err, ctx) => U_init err ctx).
Definition libusb_exit (ctx : Z) : Mw unit := usb_note (U_exit ctx).
Definition libusb_set_option (ctx level : Z) : Mw Z :=
  usb_call (fun t => libusb_set_option_answer t ctx level) (fun err => U_set_option ctx level err).

(** The count, and the list unless the count is an error. *)
Definition libusb_get_device_list (ctx : Z) : Mw (Z * option (list Z)) :=
  '(count, devs) ← usb_call (fun t => libusb_get_device_list_answer t ctx)
                     (fun '(count, devs) => U_get_device_list ctx count devs);
  mret (count, if count <? 0 then None else Some devs).

(** Nothing happens to a null list. *)
Definition libusb_free_device_list (devs : option (list Z)) : Mw unit :=
  match devs with None => mret tt | Some devs => usb_note (U_free_device_list devs) end.

Definition libusb_get_device_descriptor (dev : Z) : Mw (Z * libusb_device_descriptor) :=
  usb_call (fun t => libusb_get_device_descriptor_answer t dev)
    (fun '(err, _) => U_get_device_descriptor dev err).
Definition libusb_open (dev : Z) : Mw (Z * Z) :=
  usb_call (fun t => libusb_open_answer t dev) (fun '(err, handle) => U_open dev err handle).

(** Nothing happens to a null handle. *)
Definition libusb_close (handle : Z) : Mw unit :=
  if handle =? NULL then mret tt else usb_note (U_close handle).

Definition libusb_get_bos_descriptor (handle : Z) : Mw (Z * list Z) :=
  usb_call (fun t => libusb_get_bos_descriptor_answer t handle)
    (fun '(err, _) => U_get_bos_descriptor handle err).
Definition libusb_free_bos_descriptor (handle : Z) : Mw unit := usb_note (U_free_bos_descriptor handle).
Definition libusb_get_container_id_descriptor (cap : Z) : Mw (Z * list Z) :=
  usb_call (fun t => libusb_get_container_id_descriptor_answer t cap)
    (fun '(err, _) => U_get_container_id_descriptor err).
Definition libusb_get_string_descriptor_ascii (handle index length : Z) : Mw (Z * list Z) :=
  usb_call (fun t => libusb_get_string_descriptor_answer t handle index length)
    (fun '(err, _) => U_get_string_descriptor handle index err).
Definition libusb_get_configuration (handle : Z) : Mw (Z * Z) :=
  usb_call (fun t => libusb_get_configuration_answer t handle)
    (fun '(err, _) => U_get_configuration handle err).
Definition libusb_set_configuration (handle configuration : Z) : Mw Z :=
  usb_call (fun t => libusb_set_configuration_answer t handle configuration)
    (fun err => U_set_configuration handle configuration err).
Definition libusb_kernel_driver_active (handle interface : Z) : Mw Z :=
  w ← get_state; mret (libusb_kernel_driver_active_answer (trace w) handle interface).
Definition libusb_detach_kernel_driver (handle interface : Z) : Mw Z :=
  usb_call (fun t => libusb_detach_kernel_driver_answer t handle interface)
    (fun err => U_detach_kernel_driver handle interface err).
Definition libusb_claim_interface (handle interface : Z) : Mw Z :=
  usb_call (fun t => libusb_claim_interface_answer t handle interface)
    (fun err => U_claim_interface handle interface err).
Definition libusb_release_interface (handle interface : Z) : Mw Z :=
  usb_call (fun t => libusb_release_interface_answer t handle interface)
    (fun err => U_release_interface handle interface err).
Definition libusb_bulk_transfer (handle endpoint : Z) (data : list Z) (length : Z) : Mw (Z * (Z * list Z)) :=
  usb_call (fun t => libusb_bulk_transfer_answer t handle endpoint data length)
    (fun '(err, (count, received)) => U_bulk handle endpoint data length err count received).
Definition libusb_submit_transfer (bulk : Z) : Mw Z :=
  usb_call (fun t => libusb_submit_transfer_answer t bulk) (fun err => U_submit_transfer bulk err).
Definition libusb_cancel_transfer (bulk : Z) : Mw unit := usb_note (U_cancel_transfer bulk).

(** TraceLibUsbError: the macro ZSA_RESULT_FROM_LIBUSB. *)
Definition TraceLibUsbError (err : Z) : zsa_result_t := ZSA_RESULT_FROM_BOOL (negb (err <? 0)).
End calls.

(** * Contexts *)

#[export] Instance usb_Context : Context usbcmd_context_t := {
  to_obj := fun u => OModule (MUsb u);
  of_obj := fun o => match o with OModule (MUsb u) => Some u | _ => None end;
  of_to_obj := fun _ => eq_refl;
  to_of_obj := ltac:(module_inj);
  zeroed := mkUsb 0 NULL NULL 0 0 0 0 0 0 0 0 (replicate (Z.to_nat MAX_SERIAL_NUMBER_LENGTH) 0)
    (replicate 16 0) stream_cb_null NULL false (replicate (Z.to_nat USB_CMD_MAX_XFR_COUNT) NULL) 0 LockNull NULL
}.
#[export] Instance transfer_Context : Context usb_async_transfer_data_t := {
  to_obj := fun t => OModule (MTransfer t);
  of_obj := fun o => match o with OModule (MTransfer t) => Some t | _ => None end;
  of_to_obj := fun _ => eq_refl;
  to_of_obj := ltac:(module_inj);
  zeroed := mkTransfer NULL NULL NULL 0
}.
#[export] Instance bulk_Context : Context libusb_transfer := {
  to_obj := fun b => OModule (MBulk b);
  of_obj := fun o => match o with OModule (MBulk b) => Some b | _ => None end;
  of_to_obj := fun _ => eq_refl;
  to_of_obj := ltac:(module_inj);
  zeroed := mkBulk NULL 0 NULL 0 NULL 0 0 0
}.

(** * The resources of libusb *)

Inductive usb_res : Set :=
| RContext (ctx : Z)
| RHandle (handle : Z)
| RDeviceList
| RBosDescriptor.
#[export] Instance usb_res_eq_dec : EqDecision usb_res.
Proof. solve_decision. Defined.

(** The resource a successful call hands out, and the one a call takes
    back. *)
Definition acquired (e : event) : option usb_res :=
  match e with
  | EUsb (U_init err ctx) => if err <? 0 then None else Some (RContext ctx)
  | EUsb (U_get_device_list _ count _) => if count <? 0 then None else Some RDeviceList
  | EUsb (U_open _ err handle) => if err <? 0 then None else Some (RHandle handle)
  | EUsb (U_get_bos_descriptor _ err) => if err <? 0 then None else Some RBosDescriptor
  | _ => None
  end.

Definition returned (e : event) : option usb_res :=
  match e with
  | EUsb (U_exit ctx) => Some (RContext ctx)
  | EUsb (U_free_device_list _) => Some RDeviceList
  | EUsb (U_close handle) => Some (RHandle handle)
  | EUsb (U_free_bos_descriptor _) => Some RBosDescriptor
  | _ => None
  end.

Definition is_res (r : usb_res) (o : option usb_res) : Z := if decide (o = Some r) then 1 else 0.

(** How many of a resource are out. *)
Fixpoint outstanding (t : list event) (r : usb_res) : Z :=
  match t with
  | [] => 0
  | e :: t => is_res r (acquired e) - is_res r (returned e) + outstanding t r
  end.

Lemma outstanding_app t1 t2 r : outstanding (t1 ++ t2) r = outstanding t1 r + outstanding t2 r.
Proof. induction t1 as [|e t1 IH]; [done|]. cbn. rewrite IH. lia. Qed.

Lemma outstanding_snoc t e r :
  outstanding (t ++ [e]) r = outstanding t r + is_res r (acquired e) - is_res r (returned e).
Proof. rewrite outstanding_app. cbn. lia. Qed.

(** Since [w] the outstanding resources grew by [d]. *)
Definition res_change (d : usb_res -> Z) (w w' : world) : Prop :=
  forall r, outstanding (trace w') r = outstanding (trace w) r + d r.

Definition one_res (r0 r : usb_res) : Z := if decide (r0 = r) then 1 else 0.

Section call_rules.
Context `{Platform} `{Usb}.

Lemma wp_usb_call {A} (answer : list event -> A) (log : A -> usb_event) w (Q : A -> world -> Prop) :
  Q (answer (trace w)) (w <| trace := trace w ++ [EUsb (log (answer (trace w)))] |>) ->
  wp (usb_call answer log) Q w.
Proof. done. Qed.
End call_rules.

Section usb_rules.
Context `{Platform} `{Usb}.

(** A change of the context of a USB module moves no reference. *)
Lemma inv_usb busy busy' ext w h (u u' : usbcmd_context_t) :
  Inv busy ext w -> has w h u -> (h ∉ busy' -> uc_lock u' <> LockHeld) ->
  (forall x, x <> h -> x ∉ busy' -> x ∉ busy) ->
  Inv busy' ext (w <| heap := <[h := to_obj u']> (heap w) |>).
Proof.
  intros HI [_ Hh] Hl Hsub. eapply inv_store; [exact HI|exact Hh|done| |done|exact Hl|exact Hsub|done].
  intros r. cbn. case_decide; lia.
Qed.

Lemma usb_idle busy ext w h (u : usbcmd_context_t) : Inv busy ext w -> h ∉ busy -> has w h u -> uc_lock u <> LockHeld.
Proof. intros HI Hb [_ Hh]. exact (inv_idle _ _ _ HI _ _ Hh Hb). Qed.

Lemma wp_usb_lock busy ext h (u : usbcmd_context_t) w (Q : unit -> world -> Prop) :
  Inv busy ext w -> h ∉ busy -> has w h u ->
  (forall l w', lock_release l = uc_lock u -> w' = w <| heap := <[h := to_obj (u <| uc_lock := l |>)]> (heap w) |> ->
     Inv (busy ∪ {[h]}) ext w' -> has w' h (u <| uc_lock := l |>) -> Q tt w') ->
  wp (Lock uc_lock h) Q w.
Proof.
  intros HI Hb Hh HQ. pose proof (usb_idle _ _ _ _ _ HI Hb Hh) as Hl. pose proof Hh as [Hn _].
  assert (exists l, lock_acquire (uc_lock u) = Some l /\ lock_release l = uc_lock u) as (l & Ha & Hr).
  { destruct (uc_lock u); [by exists LockNull|by exists LockHeld|done]. }
  eapply wp_Lock; [exact Hh|exact Ha|]. apply (HQ l); [done|done| |by apply has_stored].
  eapply inv_usb; [exact HI|exact Hh| |]; set_solver.
Qed.

Lemma wp_usb_unlock busy ext h (u : usbcmd_context_t) w (Q : unit -> world -> Prop) :
  Inv (busy ∪ {[h]}) ext w -> has w h u -> lock_release (uc_lock u) <> LockHeld ->
  (forall w', w' = w <| heap := <[h := to_obj (u <| uc_lock := lock_release (uc_lock u) |>)]> (heap w) |> ->
     Inv busy ext w' -> has w' h (u <| uc_lock := lock_release (uc_lock u) |>) -> Q tt w') ->
  wp (Unlock uc_lock h) Q w.
Proof.
  intros HI Hh Hl HQ. pose proof Hh as [Hn _]. eapply wp_Unlock; [exact Hh|].
  apply HQ; [done| |by apply has_stored]. eapply inv_usb; [exact HI|exact Hh|done|set_solver].
Qed.

Lemma has_trace {T} `{!Context T} w h (c : T) t : has w h c -> has (w <| trace := t |>) h c.
Proof. done. Qed.
End usb_rules.
