(* ===== verification/UsbStream.v ===== *)
(** src/usbcommand/usbstreaming.c: streaming images over a bulk endpoint with
    up to eight asynchronous transfers, serviced by a thread of its own. *)

From S2P Require Export Usb.

(** The functions that clients register with usb_cmd_stream_register_cb. *)
Class StreamClient : Type := stream_client : Z -> zsa_result_t -> Z -> Z -> Mw unit.

(** * strtol in base 10, for the environment variable *)

Definition LONG_MAX : Z := 2 ^ 63 - 1.
Definition is_space (c : Z) : bool := (c =? 32) || ((9 <=? c) && (c <=? 13)).
Definition is_digit (c : Z) : bool := (48 <=? c) && (c <=? 57).

Fixpoint skip_space (s : list Z) : list Z :=
  match s with c :: s' => if is_space c then skip_space s' else s | [] => [] end.

Fixpoint read_digits (acc : Z) (s : list Z) : Z :=
  match s with
  | c :: s => if is_digit c then read_digits (acc * 10 + (c - 48)) s else acc
  | [] => acc
  end.

Definition strtol (s : list Z) : Z :=
  match skip_space s with
  | 45 :: s => Z.max (- LONG_MAX - 1) (- read_digits 0 s)
  | 43 :: s => Z.min LONG_MAX (read_digits 0 s)
  | s => Z.min LONG_MAX (read_digits 0 s)
  end.

(** * Operations *)

Section operations.
Context `{Platform} `{Usb} `{StreamClient}.

(** [usbcmd->callback(result, image, usbcmd->stream_context)] *)
Definition call_stream_cb (cb : usb_cmd_stream_cb_t) (result : zsa_result_t) (image context : Z) : Mw unit :=
  match cb with
  | stream_cb_null => throw NullDeref
  | stream_cb_client id => stream_client id result image context
  end.

Definition callback_set (cb : usb_cmd_stream_cb_t) : bool :=
  match cb with stream_cb_null => false | stream_cb_client _ => true end.

(** [free(p)] of a structure, and libusb_free_transfer. *)
Definition raw_free (T : Type) `{!Context T} (p : Z) : Mw unit :=
  if p =? NULL then mret tt
  else
    _ ← load T p;
    modify (fun w => w <| heap := delete p (heap w) |>).

(** [usbcmd->transfer_list[i] = p] and its reading. *)
Definition set_transfer (usbcmd i p : Z) : Mw unit :=
  u ← load usbcmd_context_t usbcmd;
  if (0 <=? i) && (i <? Z.of_nat (length (uc_transfer_list u))) then
    update usbcmd (fun u => u <| uc_transfer_list := <[Z.to_nat i := p]> (uc_transfer_list u) |>)
  else throw OutOfBounds.

Definition get_transfer (usbcmd i : Z) : Mw Z :=
  u ← load usbcmd_context_t usbcmd;
  need OutOfBounds (if 0 <=? i then uc_transfer_list u !! Z.to_nat i else None).

Definition usb_cmd_release_xfr (bulk_transfer : Z) : Mw unit :=
  b ← load libusb_transfer bulk_transfer;
  let transfer := lt_user_data b in
  t ← load usb_async_transfer_data_t transfer;
  let usbcmd := ut_usbcmd t in
  listed ← get_transfer usbcmd (ut_list_index t);
  when (listed =? transfer) (set_transfer usbcmd (ut_list_index t) NULL);;
  when (negb (ut_image t =? NULL)) (
    image_dec_ref (ut_image t);;
    update transfer (fun t => t <| ut_image := NULL |>));;
  raw_free libusb_transfer bulk_transfer;;
  raw_free usb_async_transfer_data_t transfer.

(** libusb_fill_bulk_transfer, with the transfer's image as the buffer. *)
Definition fill_bulk_transfer (bulk transfer usbcmd : Z) : Mw unit :=
  u ← load usbcmd_context_t usbcmd;
  t ← load usb_async_transfer_data_t transfer;
  buffer ← image_get_buffer (ut_image t);
  update bulk (fun b => b <| lt_dev_handle := uc_libusb u |> <| lt_endpoint := uc_stream_endpoint u |>
    <| lt_buffer := buffer |> <| lt_length := s32 (uc_stream_size u) |> <| lt_user_data := transfer |>
    <| lt_timeout := 2000 |>).

(** [image_create_empty_internal(source, stream_size, &transfer->image)] *)
Definition allocate_stream_image (usbcmd transfer : Z) : Mw zsa_result_t :=
  u ← load usbcmd_context_t usbcmd;
  '(result, out) ← image_create_empty_internal (uc_source u) (uc_stream_size u) true;
  (match out with Some i => update transfer (fun t => t <| ut_image := i |>) | None => mret tt end);;
  mret result.

(** The image of a completed transfer is delivered, and the transfer is
    submitted again with a fresh one. *)
Definition deliver_and_resubmit (bulk_transfer transfer usbcmd : Z) : Mw zsa_result_t :=
  b ← load libusb_transfer bulk_transfer;
  u ← load usbcmd_context_t usbcmd;
  t ← load usb_async_transfer_data_t transfer;
  (if (lt_status b =? LIBUSB_TRANSFER_COMPLETED) && callback_set (uc_callback u) then
     image_set_size (ut_image t) (u64 (lt_actual_length b));;
     call_stream_cb (uc_callback u) ZSA_RESULT_SUCCEEDED (ut_image t) (uc_stream_context u)
   else mret tt);;
  t ← load usb_async_transfer_data_t transfer;
  image_dec_ref (ut_image t);;
  update transfer (fun t => t <| ut_image := NULL |>);;
  result ← allocate_stream_image usbcmd transfer;
  if ZSA_FAILED result then mret result
  else
    fill_bulk_transfer bulk_transfer transfer usbcmd;;
    err ← libusb_submit_transfer bulk_transfer;
    if err =? LIBUSB_SUCCESS then mret result
    else
      t ← load usb_async_transfer_data_t transfer;
      image_dec_ref (ut_image t);;
      update transfer (fun t => t <| ut_image := NULL |>);;
      mret ZSA_RESULT_FAILED.

(** The error is passed on to the client, unless the stream is stopping. *)
Definition report_failure (bulk_transfer transfer usbcmd : Z) : Mw unit :=
  b ← load libusb_transfer bulk_transfer;
  u ← load usbcmd_context_t usbcmd;
  when (uc_stream_going u && negb (lt_status b =? LIBUSB_TRANSFER_CANCELLED)
        && negb (lt_status b =? LIBUSB_TRANSFER_OVERFLOW))
    (when (callback_set (uc_callback u)) (
       t ← load usb_async_transfer_data_t transfer;
       image_set_size (ut_image t) 0;;
       t ← load usb_async_transfer_data_t transfer;
       call_stream_cb (uc_callback u) ZSA_RESULT_FAILED (ut_image t) (uc_stream_context u))).

Definition usb_cmd_libusb_cb (bulk_transfer : Z) : Mw unit :=
  b ← load libusb_transfer bulk_transfer;
  let transfer := lt_user_data b in
  t ← load usb_async_transfer_data_t transfer;
  let usbcmd := ut_usbcmd t in
  result ← image_apply_system_timestamp (ut_image t);
  result ← (if ZSA_FAILED result then mret result
            else
              u ← load usbcmd_context_t usbcmd;
              if ((lt_status b =? LIBUSB_TRANSFER_COMPLETED) || (lt_status b =? LIBUSB_TRANSFER_TIMED_OUT))
                 && uc_stream_going u
              then deliver_and_resubmit bulk_transfer transfer usbcmd
              else mret ZSA_RESULT_FAILED);
  when (ZSA_FAILED result) (
    report_failure bulk_transfer transfer usbcmd;;
    usb_cmd_release_xfr bulk_transfer).

(** ** The thread *)

(** libusb_alloc_transfer(0) *)
Definition libusb_alloc_transfer : Mw Z :=
  w ← get_state;
  if libusb_alloc_transfer_ok (trace w) then
    let p := fresh w in
    modify (fun w => w <| heap := <[p := to_obj (zeroed (T := libusb_transfer))]> (heap w) |> <| fresh := p + 1 |>);;
    mret p
  else mret NULL.

(** The body of the set-up loop for index [i]. *)
Definition setup_transfer (usbcmd i : Z) : Mw zsa_result_t :=
  transfer ← handle_create usb_async_transfer_data_t;
  let result := ZSA_RESULT_FROM_BOOL (negb (transfer =? NULL)) in
  result ← (if ZSA_FAILED result then mret result
            else
              update transfer (fun t => t <| ut_usbcmd := usbcmd |> <| ut_list_index := i |>);;
              set_transfer usbcmd i transfer;;
              bulk ← libusb_alloc_transfer;
              update transfer (fun t => t <| ut_bulk_transfer := bulk |>);;
              mret (ZSA_RESULT_FROM_BOOL (negb (bulk =? NULL))));
  result ← (if ZSA_FAILED result then mret result else allocate_stream_image usbcmd transfer);
  result ← (if ZSA_FAILED result then mret result
            else
              t ← load usb_async_transfer_data_t transfer;
              fill_bulk_transfer (ut_bulk_transfer t) transfer usbcmd;;
              err ← libusb_submit_transfer (ut_bulk_transfer t);
              if negb (err =? LIBUSB_SUCCESS) && (i =? 0) then mret ZSA_RESULT_FAILED else mret result);
  when (ZSA_FAILED result) (
    when (negb (transfer =? NULL)) (
      t ← load usb_async_transfer_data_t transfer;
      when (negb (ut_image t =? NULL)) (image_dec_ref (ut_image t));;
      when (negb (ut_bulk_transfer t =? NULL)) (raw_free libusb_transfer (ut_bulk_transfer t));;
      raw_free usb_async_transfer_data_t transfer);;
    set_transfer usbcmd i NULL);;
  mret result.

(** [for (i = 0; i < USB_CMD_MAX_XFR_COUNT && xfer_pool < max_xfr_pool; i++)],
    with [n] indices left. *)
Fixpoint setup_transfers (n : nat) (usbcmd max_xfr_pool xfer_pool : Z) : Mw zsa_result_t :=
  match n with
  | O => mret ZSA_RESULT_SUCCEEDED
  | S n =>
      if negb (xfer_pool <? max_xfr_pool) then mret ZSA_RESULT_SUCCEEDED
      else
        u ← load usbcmd_context_t usbcmd;
        result ← setup_transfer usbcmd (USB_CMD_MAX_XFR_COUNT - Z.of_nat (S n));
        if ZSA_FAILED result then mret result
        else setup_transfers n usbcmd max_xfr_pool (u64 (xfer_pool + uc_stream_size u))
  end.

(** libusb_handle_events_timeout_completed: the other threads run, and the
    callback is called for every transfer that completed. *)
Definition handle_events (ctx : Z) : Mw Z :=
  ThreadAPI_Sleep;;
  '(err, completed) ← usb_call (fun t => libusb_handle_events_answer t ctx) (fun '(err, _) => U_handle_events ctx err);
  for_each completed (fun '(bulk, status, actual_length) =>
    update bulk (fun b => b <| lt_status := status |> <| lt_actual_length := actual_length |>);;
    usb_cmd_libusb_cb bulk);;
  mret err.

(** [while (usbcmd->stream_going)], serviced at most [fuel] times. *)
Fixpoint service_stream (fuel : nat) (usbcmd ctx : Z) (result : zsa_result_t) : Mw zsa_result_t :=
  u ← load usbcmd_context_t usbcmd;
  if negb (uc_stream_going u) then mret result
  else
    match fuel with
    | O => throw OutOfFuel
    | S fuel =>
        err ← handle_events ctx;
        if err <? 0 then
          update usbcmd (fun u => u <| uc_stream_going := false |>);;
          service_stream fuel usbcmd ctx ZSA_RESULT_FAILED
        else service_stream fuel usbcmd ctx result
    end.

Fixpoint cancel_transfers (n : nat) (usbcmd ctx : Z) (result : zsa_result_t) : Mw zsa_result_t :=
  match n with
  | O => mret result
  | S n =>
      transfer ← get_transfer usbcmd (USB_CMD_MAX_XFR_COUNT - Z.of_nat (S n));
      if transfer =? NULL then cancel_transfers n usbcmd ctx result
      else
        t ← load usb_async_transfer_data_t transfer;
        libusb_cancel_transfer (ut_bulk_transfer t);;
        err ← handle_events ctx;
        cancel_transfers n usbcmd ctx (if err <? 0 then ZSA_RESULT_FAILED else result)
  end.

(** [max_xfr_pool]: a (size_t) conversion of strtol's result. *)
Definition max_xfr_pool : Z :=
  match environment ENV_ZSA_MAX_LIBUSB_POOL with
  | Some (c :: s) => if c =? 0 then USB_CMD_MAX_XFR_POOL else u64 (strtol (c :: s))
  | _ => USB_CMD_MAX_XFR_POOL
  end.

Definition xfr_count : nat := Z.to_nat USB_CMD_MAX_XFR_COUNT.

Definition usb_cmd_lib_usb_thread (fuel : nat) (usbcmd : Z) : Mw zsa_result_t :=
  u ← load usbcmd_context_t usbcmd;
  let p_ctx := uc_libusb_context u in
  result ← (if uc_stream_size u >? INT32_MAX then mret ZSA_RESULT_FAILED
            else setup_transfers xfr_count usbcmd max_xfr_pool (uc_stream_size u));
  result ← (if ZSA_SUCCEEDED result then service_stream fuel usbcmd p_ctx result else mret result);
  cancel_transfers xfr_count usbcmd p_ctx result.

(** ** Starting and stopping *)

(** ThreadAPI_Create: the new thread's handle. *)
Definition ThreadAPI_Create : Mw (option Z) :=
  t ← gets tick;
  ok ← ask ThreadAPI_Create_ok;
  mret (if (ok : bool) then Some (Z.of_nat (S t)) else None).

(** ThreadAPI_Join: the thread runs to its end. *)
Definition ThreadAPI_Join (handle : Z) : Mw unit := fun w =>
  Done tt ((ThreadAPI_Join_others (tick w) handle w) <| tick := S (tick w) |>).

Definition usb_valid {A} (v : A) (h : Z) (rest : Mw A) : Mw A := if_handle_valid usbcmd_context_t v h rest.

Definition usb_cmd_stream_start (usbcmd_handle payload_size : Z) : Mw zsa_result_t :=
  usb_valid ZSA_RESULT_FAILED usbcmd_handle (
    if payload_size =? 0 then mret ZSA_RESULT_FAILED
    else
      let h := usbcmd_handle in
      Lock uc_lock h;;
      u ← load usbcmd_context_t h;
      result ← (if uc_stream_going u then mret ZSA_RESULT_FAILED
                else
                  update h (fun u => u <| uc_stream_size := payload_size |> <| uc_stream_going := true |>);;
                  t ← ThreadAPI_Create;
                  match t with
                  | Some t =>
                      update h (fun u => u <| uc_stream_handle := t |>);;
                      mret ZSA_RESULT_SUCCEEDED
                  | None =>
                      update h (fun u => u <| uc_stream_going := false |>);;
                      mret ZSA_RESULT_FAILED
                  end);
      Unlock uc_lock h;;
      mret result).

Definition usb_cmd_stream_stop (usbcmd_handle : Z) : Mw zsa_result_t :=
  usb_valid ZSA_RESULT_FAILED usbcmd_handle (
    let h := usbcmd_handle in
    Lock uc_lock h;;
    update h (fun u => u <| uc_stream_going := false |>);;
    u ← load usbcmd_context_t h;
    when (negb (uc_stream_handle u =? NULL)) (
      ThreadAPI_Join (uc_stream_handle u);;
      update h (fun u => u <| uc_stream_handle := NULL |>));;
    Unlock uc_lock h;;
    mret ZSA_RESULT_SUCCEEDED).
End operations.
