(* ===== verification/UsbCommand.v ===== *)
(** src/usbcommand/usbcommand.c: finding and opening the device through
    libusb, and the command protocol (command packet, data, response). *)

From S2P Require Export UsbStream.

(** * Packets *)

(** usb_command_header_t *)
Record usb_command_header_t : Type := mkHeader {
  hd_packet_type : Z;
  hd_packet_transaction_id : Z;
  hd_payload_size : Z;
  hd_command : Z;
  hd_reserved : Z
}.

(** usb_command_packet_t, as far as it is sent. *)
Definition packet_bytes (h : usb_command_header_t) (data : list Z) : list Z :=
  le32 (hd_packet_type h) ++ le32 (hd_packet_transaction_id h) ++ le32 (hd_payload_size h)
  ++ le32 (hd_command h) ++ le32 (hd_reserved h) ++ data.

Definition sizeof_usb_command_header_t : Z := 20.

(** usb_command_response_t *)
Record usb_command_response_t : Type := mkResponse {
  rs_packet_type : Z;
  rs_packet_transaction_id : Z;
  rs_status : Z;
  rs_reserved : Z
}.

Definition sizeof_usb_command_response_t : Z := 16.

Definition response_of_bytes (l : list Z) : option usb_command_response_t :=
  t ← word_at 0 l; id ← word_at 4 l; status ← word_at 8 l; reserved ← word_at 12 l;
  Some (mkResponse t id status reserved).

(** * uuid_to_string *)

Definition hex_digit (x : Z) : Z := if x <? 10 then 48 + x else 97 + (x - 10).
Definition hex2 (x : Z) : list Z := [hex_digit (x / 16); hex_digit (x mod 16)].

(** The order of the bytes in the format string, and where its dashes are. *)
Definition uuid_groups : list (list nat) :=
  [[3; 2; 1; 0]; [5; 4]; [7; 6]; [9; 8]; [10; 11; 12; 13; 14; 15]]%nat.

Definition dash : Z := 45.

Definition uuid_to_string (guid : list Z) : list Z :=
  let group g := concat (map (fun i => hex2 (nth i guid 0)) g) in
  [123] ++ concat (map (fun '(i, g) => (if (i =? 0)%nat then [] else [dash]) ++ group g)
                    (imap pair uuid_groups)) ++ [125].

Section operations.
Context `{Platform} `{Usb} `{StreamClient}.

(** * Discovery *)

Definition usb_cmd_set_libusb_debug_verbosity (h : Z) : Mw zsa_result_t :=
  u ← load usbcmd_context_t h;
  update h (fun u => u <| uc_libusb_verbosity := LIBUSB_LOG_LEVEL_WARNING |>);;
  err ← libusb_set_option (uc_libusb_context u) LIBUSB_LOG_LEVEL_WARNING;
  mret (TraceLibUsbError err).

Definition libusb_logging_disable (ctx : Z) : Mw unit :=
  _ ← libusb_set_option ctx LIBUSB_LOG_LEVEL_NONE;
  mret tt.

Definition libusb_logging_restore (ctx verbosity : Z) : Mw unit :=
  _ ← libusb_set_option ctx verbosity;
  mret tt.

(** The search for the container id among the device's capabilities: the
    index of the first one. *)
Definition find_container_cap (caps : list Z) : option nat :=
  fst <$> list_find (fun t => t = LIBUSB_BT_CONTAINER_ID) caps.

Definition populate_container_id (h : Z) : Mw zsa_result_t :=
  u ← load usbcmd_context_t h;
  '(err, caps) ← libusb_get_bos_descriptor (uc_libusb u);
  let result := TraceLibUsbError err in
  let cap := find_container_cap caps in
  let result := if ZSA_FAILED result then result else ZSA_RESULT_FROM_BOOL (bool_decide (is_Some cap)) in
  result ← (match result, cap with
            | ZSA_RESULT_SUCCEEDED, Some i =>
                '(err, id) ← libusb_get_container_id_descriptor (Z.of_nat i);
                if err <? 0 then mret ZSA_RESULT_FAILED
                else
                  update h (fun u => u <| uc_container_id := id |>);;
                  mret ZSA_RESULT_SUCCEEDED
            | _, _ => mret ZSA_RESULT_FAILED
            end);
  when (negb (err <? 0)) (libusb_free_bos_descriptor (uc_libusb u));;
  mret result.

(** The serial number is written into the context's array: the bytes of the
    answer and what was there behind them. *)
Definition populate_serialnumber (h : Z) (desc : libusb_device_descriptor) : Mw zsa_result_t :=
  if iSerialNumber desc =? 0 then mret ZSA_RESULT_FAILED
  else
    u ← load usbcmd_context_t h;
    '(err, s) ← libusb_get_string_descriptor_ascii (uc_libusb u) (iSerialNumber desc) MAX_SERIAL_NUMBER_LENGTH;
    if err <? 0 then mret ZSA_RESULT_FAILED
    else if MAX_SERIAL_NUMBER_LENGTH <? Z.of_nat (length s) then throw OutOfBounds
    else
      update h (fun u => u <| uc_serial_number := s ++ drop (length s) (uc_serial_number u) |>);;
      mret ZSA_RESULT_SUCCEEDED.

(** The local variables of find_libusb_device's loop. *)
Record find_state : Type := mkFind {
  fs_found : bool;
  fs_list_index : Z;
  fs_open_attempts : Z;
  fs_access_denied : Z;
  fs_desc : option libusb_device_descriptor
}.

Definition guid_match (container_id : option (list Z)) (own : list Z) : bool :=
  match container_id with None => true | Some id => bool_decide (id = own) end.

(** Opening one device whose vendor, product and index fit: whether it is the
    one that is looked for. *)
Definition try_device (h dev : Z) (container_id : option (list Z)) (s : find_state) : Mw find_state :=
  update h (fun u => u <| uc_libusb := NULL |>);;
  u ← load usbcmd_context_t h;
  let s := mkFind (fs_found s) (fs_list_index s) (s32 (fs_open_attempts s + 1)) (fs_access_denied s) (fs_desc s) in
  libusb_logging_disable (uc_libusb_context u);;
  '(err, handle) ← libusb_open dev;
  when (negb (err <? 0)) (update h (fun u => u <| uc_libusb := handle |>));;
  libusb_logging_restore (uc_libusb_context u) (uc_libusb_verbosity u);;
  let s := mkFind (fs_found s) (fs_list_index s) (fs_open_attempts s)
             (if err =? LIBUSB_ERROR_ACCESS then s32 (fs_access_denied s + 1) else fs_access_denied s) (fs_desc s) in
  if err <? LIBUSB_SUCCESS then mret s
  else
    result ← populate_container_id h;
    u ← load usbcmd_context_t h;
    let found := ZSA_SUCCEEDED result && guid_match container_id (uc_container_id u) in
    when (negb found) (
      libusb_close (uc_libusb u);;
      update h (fun u => u <| uc_libusb := NULL |>));;
    mret (mkFind found (fs_list_index s) (fs_open_attempts s) (fs_access_denied s) (fs_desc s)).

(** One turn of the loop. *)
Definition find_step (h dev device_index : Z) (container_id : option (list Z)) (s : find_state) : Mw find_state :=
  u ← load usbcmd_context_t h;
  '(err, desc) ← libusb_get_device_descriptor dev;
  if err <? 0 then
    update h (fun u => u <| uc_libusb := NULL |>);;
    libusb_close NULL;;
    update h (fun u => u <| uc_libusb := NULL |>);;
    mret s
  else
    let s := mkFind (fs_found s) (fs_list_index s) (fs_open_attempts s) (fs_access_denied s) (Some desc) in
    if negb (idVendor desc =? ZSA_MSFT_VID) || negb (idProduct desc =? uc_pid u) then mret s
    else
      let wrong_index := negb (device_index =? fs_list_index s) in
      let s := mkFind (fs_found s) (u8 (fs_list_index s + 1)) (fs_open_attempts s) (fs_access_denied s) (fs_desc s) in
      if wrong_index && bool_decide (container_id = None) then mret s
      else try_device h dev container_id s.

(** [for (loop = 0; loop < count && found == false; loop++)] *)
Fixpoint find_loop (h device_index : Z) (container_id : option (list Z)) (dev_list loops : list Z) (s : find_state)
    : Mw find_state :=
  match loops with
  | [] => mret s
  | loop :: loops =>
      if fs_found s then mret s
      else
        dev ← need OutOfBounds (dev_list !! Z.to_nat loop);
        s ← find_step h dev device_index container_id s;
        find_loop h device_index container_id dev_list loops s
  end.

Definition find_libusb_device (device_index : Z) (container_id : option (list Z)) (h : Z)
    : Mw (zsa_result_t * option libusb_device_descriptor) :=
  '(err, ctx) ← libusb_init;
  when (negb (err <? 0)) (update h (fun u => u <| uc_libusb_context := ctx |>));;
  result ← (if err <? 0 then mret ZSA_RESULT_FAILED else usb_cmd_set_libusb_debug_verbosity h);
  '(result, count, dev_list) ←
    (if ZSA_FAILED result then mret (result, 0, None)
     else
       u ← load usbcmd_context_t h;
       libusb_logging_disable (uc_libusb_context u);;
       '(count, devs) ← libusb_get_device_list (uc_libusb_context u);
       libusb_logging_restore (uc_libusb_context u) (uc_libusb_verbosity u);;
       mret (ZSA_RESULT_FROM_BOOL (count <? INT32_MAX), count, devs));
  let result := if ZSA_FAILED result then result else ZSA_RESULT_FROM_BOOL (negb (count =? 0)) in
  s ← (let s := mkFind false 0 0 0 None in
       if ZSA_FAILED result then mret s
       else find_loop h device_index container_id (default [] dev_list) (seqZ 0 count) s);
  when (negb (fs_found s)) (
    u ← load usbcmd_context_t h;
    when (negb (uc_libusb u =? NULL)) (
      libusb_close (uc_libusb u);;
      update h (fun u => u <| uc_libusb := NULL |>)));;
  libusb_free_device_list dev_list;;
  mret (ZSA_RESULT_FROM_BOOL (fs_found s), fs_desc s).

(** * Creating and destroying *)

Definition usb_cmd_destroy (usbcmd_handle : Z) : Mw unit :=
  usb_valid tt usbcmd_handle (
    let h := usbcmd_handle in
    _ ← usb_cmd_stream_stop h;
    u ← load usbcmd_context_t h;
    when (bool_decide (uc_lock u <> LockNull)) (Lock uc_lock h;; Unlock uc_lock h);;
    u ← load usbcmd_context_t h;
    when (negb (uc_libusb u =? NULL)) (
      _ ← libusb_release_interface (uc_libusb u) (uc_interface u);
      libusb_close (uc_libusb u);;
      update h (fun u => u <| uc_libusb := NULL |>));;
    u ← load usbcmd_context_t h;
    when (negb (uc_libusb_context u =? NULL)) (
      libusb_exit (uc_libusb_context u);;
      update h (fun u => u <| uc_libusb_context := NULL |>));;
    u ← load usbcmd_context_t h;
    when (bool_decide (uc_lock u <> LockNull)) (update h (fun u => u <| uc_lock := LockNull |>));;
    handle_destroy usbcmd_context_t h).

(** The endpoints of the two kinds of device. *)
Definition select_device (device_type : usb_command_device_type_t) (u : usbcmd_context_t) : usbcmd_context_t :=
  match device_type with
  | USB_DEVICE_DEPTH_PROCESSOR =>
      u <| uc_pid := ZSA_DEPTH_PID |> <| uc_interface := USB_CMD_DEPTH_INTERFACE |>
        <| uc_cmd_tx_endpoint := USB_CMD_DEPTH_IN_ENDPOINT |> <| uc_cmd_rx_endpoint := USB_CMD_DEPTH_OUT_ENDPOINT |>
        <| uc_stream_endpoint := USB_CMD_DEPTH_STREAM_ENDPOINT |> <| uc_source := ALLOCATION_SOURCE_USB_DEPTH |>
  | _ =>
      u <| uc_pid := ZSA_RGB_PID |> <| uc_interface := USB_CMD_IMU_INTERFACE |>
        <| uc_cmd_tx_endpoint := USB_CMD_IMU_IN_ENDPOINT |> <| uc_cmd_rx_endpoint := USB_CMD_IMU_OUT_ENDPOINT |>
        <| uc_stream_endpoint := USB_CMD_IMU_STREAM_ENDPOINT |> <| uc_source := ALLOCATION_SOURCE_USB_IMU |>
  end.

(** The configuration, the kernel's driver and the interface. *)
Definition claim_device (h : Z) : Mw zsa_result_t :=
  u ← load usbcmd_context_t h;
  '(err, activeConfig) ← libusb_get_configuration (uc_libusb u);
  result ← and_then (TraceLibUsbError err) (
    if activeConfig =? USB_CMD_DEFAULT_CONFIG then mret ZSA_RESULT_SUCCEEDED
    else
      err ← libusb_set_configuration (uc_libusb u) USB_CMD_DEFAULT_CONFIG;
      mret (TraceLibUsbError err));
  result ← and_then result (
    active ← libusb_kernel_driver_active (uc_libusb u) (uc_interface u);
    if active =? 1 then
      err ← libusb_detach_kernel_driver (uc_libusb u) (uc_interface u);
      mret (TraceLibUsbError err)
    else mret result);
  and_then result (
    err ← libusb_claim_interface (uc_libusb u) (uc_interface u);
    mret (TraceLibUsbError err)).

Definition usb_cmd_create (device_type : usb_command_device_type_t) (device_index : Z)
    (container_id : option (list Z)) (usbcmd_handle : bool) : Mw (zsa_result_t * option Z) :=
  match device_type with
  | USB_DEVICE_TYPE_COUNT => mret (ZSA_RESULT_FAILED, None)
  | _ =>
      if negb usbcmd_handle then throw NullDeref
      else
        h ← handle_create usbcmd_context_t;
        result ← and_then (ZSA_RESULT_FROM_BOOL (negb (h =? NULL))) (
          update h (fun u => u <| uc_stream_going := false |>);;
          l ← Lock_Init;
          update h (fun u => u <| uc_lock := l |>);;
          mret (ZSA_RESULT_FROM_BOOL (bool_decide (l <> LockNull))));
        '(result, desc) ← (if ZSA_FAILED result then mret (result, None)
                           else
                             update h (select_device device_type);;
                             find_libusb_device device_index container_id h);
        result ← and_then result (
          desc ← need Uninitialised desc;
          populate_serialnumber h desc);
        result ← and_then result (claim_device h);
        if ZSA_FAILED result then
          usb_cmd_destroy h;;
          mret (result, Some NULL)
        else mret (result, Some h)
  end.

(** The length of the string, its size in [*serial_number_size], and the
    caller's buffer afterwards. *)
Definition strlen (s : list Z) : option Z :=
  (fun p => Z.of_nat (fst p)) <$> list_find (fun c => c = 0) s.

Definition usb_cmd_get_serial_number (usbcmd_handle : Z) (serial_number : option (list Z))
    (serial_number_size : option Z) : Mw (zsa_buffer_result_t * option (list Z) * option Z) :=
  usb_valid (ZSA_BUFFER_RESULT_FAILED, serial_number, serial_number_size) usbcmd_handle (
    match serial_number_size with
    | None => mret (ZSA_BUFFER_RESULT_FAILED, serial_number, None)
    | Some size =>
        u ← load usbcmd_context_t usbcmd_handle;
        len ← need OutOfBounds (strlen (uc_serial_number u));
        let required_length := len + 1 in
        if required_length >? size then
          mret (ZSA_BUFFER_RESULT_TOO_SMALL, serial_number, Some required_length)
        else
          match serial_number with
          | None => mret (ZSA_BUFFER_RESULT_FAILED, None, Some size)
          | Some buffer =>
              if Z.of_nat (length buffer) <? required_length then throw OutOfBounds
              else
                mret (ZSA_BUFFER_RESULT_SUCCEEDED,
                      Some (take (Z.to_nat len) (uc_serial_number u) ++ [0] ++ drop (Z.to_nat required_length) buffer),
                      Some required_length)
          end
    end).

(** * The command protocol *)

(** What a caller finds behind the pointers it passed: the receive buffer,
    [*transfer_count] and [*cmd_status], where they were written. *)
Record io_out : Type := mkIo {
  io_result : zsa_result_t;
  io_rx : option (list Z);
  io_transfer_count : option Z;
  io_cmd_status : option Z
}.

(** [cmd_data_size] bytes from a pointer: the memcpy into the packet. *)
Definition copy_bytes (p : option (list Z)) (size : Z) : Mw (list Z) :=
  if size =? 0 then mret []
  else
    bytes ← need NullDeref p;
    if Z.of_nat (length bytes) <? size then throw OutOfBounds else mret (take (Z.to_nat size) bytes).

(** The arguments of LOG_TRACE: the first two words of the command data. *)
Definition trace_cmd_data (p_cmd_data : option (list Z)) (cmd_data_size : Z) : Mw unit :=
  match p_cmd_data with
  | Some bytes =>
      if cmd_data_size >? 0 then
        if (length bytes <? 8)%nat then throw OutOfBounds else mret tt
      else mret tt
  | None => mret tt
  end.

(** [count] bytes stored by libusb at the start of a buffer. *)
Definition receive_bytes (buffer received : list Z) (count : Z) : Mw (list Z) :=
  let bytes := take (Z.to_nat count) received in
  if (length buffer <? length bytes)%nat then throw OutOfBounds
  else mret (bytes ++ drop (length bytes) buffer).

Definition response_ok (rx_size transaction_id : Z) (response : option usb_command_response_t) : bool :=
  match response with
  | Some r => (rx_size =? sizeof_usb_command_response_t) && (rs_packet_transaction_id r =? transaction_id)
              && (rs_packet_type r =? USB_CMD_PACKET_TYPE_RESPONSE)
  | None => false
  end.

(** The status phase: [*cmd_status] when the response is the one expected. *)
Definition get_status (u : usbcmd_context_t) (transaction_id : Z) : Mw (option Z) :=
  '(err, (rx_size, received)) ← libusb_bulk_transfer (uc_libusb u) (uc_cmd_rx_endpoint u) []
                                  sizeof_usb_command_response_t;
  let response := response_of_bytes (take (Z.to_nat rx_size) received) in
  mret (if (err =? LIBUSB_SUCCESS) && response_ok rx_size transaction_id response
        then rs_status <$> response else None).

(** The data phase: whether to go on, the count and the receive buffer. *)
Definition move_data (u : usbcmd_context_t) (payload_size : Z) (p_rx_data p_tx_data : option (list Z))
    : Mw (bool * Z * option (list Z)) :=
  match p_tx_data, p_rx_data with
  | Some tx, _ =>
      if Z.of_nat (length tx) <? payload_size then throw OutOfBounds
      else
        '(err, (count, _)) ← libusb_bulk_transfer (uc_libusb u) (uc_cmd_tx_endpoint u)
                               (take (Z.to_nat payload_size) tx) payload_size;
        mret (if err =? LIBUSB_SUCCESS then (true, count, p_rx_data) else (false, 0, p_rx_data))
  | None, Some rx =>
      '(err, (count, received)) ← libusb_bulk_transfer (uc_libusb u) (uc_cmd_rx_endpoint u) [] payload_size;
      rx ← receive_bytes rx received count;
      mret (if err =? LIBUSB_SUCCESS then (true, count, Some rx) else (false, 0, Some rx))
  | None, None => mret (true, 0, None)
  end.

(** The transaction, with the lock held: the transfer count, the receive
    buffer and the status. *)
Definition exchange (u : usbcmd_context_t) (cmd transaction_id payload_size : Z) (data : list Z)
    (p_rx_data p_tx_data : option (list Z)) : Mw (Z * option (list Z) * option Z) :=
  let header := mkHeader USB_CMD_PACKET_TYPE transaction_id (u32 payload_size) cmd 0 in
  '(err, _) ← libusb_bulk_transfer (uc_libusb u) (uc_cmd_tx_endpoint u) (packet_bytes header data)
                (sizeof_usb_command_header_t + Z.of_nat (length data));
  if negb (err =? LIBUSB_SUCCESS) then mret (0, p_rx_data, None)
  else
    '(go_on, count, rx) ← move_data u payload_size p_rx_data p_tx_data;
    if negb (go_on : bool) then mret (count, rx, None)
    else
      status ← get_status u transaction_id;
      mret (count, rx, status).

Definition usb_cmd_io (usbcmd_handle cmd : Z) (p_cmd_data : option (list Z)) (cmd_data_size : Z)
    (p_rx_data : option (list Z)) (rx_data_size : Z) (p_tx_data : option (list Z)) (tx_data_size : Z)
    (transfer_count cmd_status : bool) : Mw io_out :=
  let failed := mkIo ZSA_RESULT_FAILED p_rx_data None None in
  usb_valid failed usbcmd_handle (
    if negb cmd_status then mret failed
    else if bool_decide (is_Some p_rx_data) && bool_decide (is_Some p_tx_data) then mret failed
    else
      let h := usbcmd_handle in
      let payload_size := if rx_data_size =? 0 then tx_data_size else rx_data_size in
      if negb (cmd_data_size <=? USB_MAX_TX_DATA) then mret failed
      else if negb (payload_size <=? INT32_MAX) then mret failed
      else
        trace_cmd_data p_cmd_data cmd_data_size;;
        Lock uc_lock h;;
        u ← load usbcmd_context_t h;
        let transaction_id := uc_transaction_id u in
        update h (fun u => u <| uc_transaction_id := u32 (transaction_id + 1) |>);;
        data ← copy_bytes p_cmd_data cmd_data_size;
        '(count, rx, status) ← exchange u cmd transaction_id payload_size data p_rx_data p_tx_data;
        Unlock uc_lock h;;
        mret (mkIo (ZSA_RESULT_FROM_BOOL (bool_decide (is_Some status))) rx
                (if transfer_count then Some count else None) status)).

(** A command that ended with a status other than 0 has failed. *)
Definition check_status (r : io_out) : zsa_result_t :=
  match io_result r, io_cmd_status r with
  | ZSA_RESULT_SUCCEEDED, Some status => ZSA_RESULT_FROM_BOOL (status =? 0)
  | result, _ => result
  end.

(** The result, the buffer [p_data] and [*bytes_read]. *)
Definition usb_cmd_read (usbcmd_handle cmd : Z) (p_cmd_data : option (list Z)) (cmd_data_size : Z)
    (p_data : option (list Z)) (data_size : Z) (bytes_read : bool) : Mw (zsa_result_t * option (list Z) * option Z) :=
  r ← usb_cmd_io usbcmd_handle cmd p_cmd_data cmd_data_size p_data data_size None 0 bytes_read true;
  mret (check_status r, io_rx r, io_transfer_count r).

Definition usb_cmd_read_with_status (usbcmd_handle cmd : Z) (p_cmd_data : option (list Z)) (cmd_data_size : Z)
    (p_data : option (list Z)) (data_size : Z) (bytes_read cmd_status : bool) : Mw io_out :=
  if negb cmd_status then mret (mkIo ZSA_RESULT_FAILED p_data None None)
  else usb_cmd_io usbcmd_handle cmd p_cmd_data cmd_data_size p_data data_size None 0 bytes_read cmd_status.

Definition usb_cmd_write (usbcmd_handle cmd : Z) (p_cmd_data : option (list Z)) (cmd_data_size : Z)
    (p_data : option (list Z)) (data_size : Z) : Mw zsa_result_t :=
  r ← usb_cmd_io usbcmd_handle cmd p_cmd_data cmd_data_size None 0 p_data data_size false true;
  mret (check_status r).

Definition usb_cmd_write_with_status (usbcmd_handle cmd : Z) (p_cmd_data : option (list Z)) (cmd_data_size : Z)
    (p_data : option (list Z)) (data_size : Z) (cmd_status : bool) : Mw io_out :=
  usb_cmd_io usbcmd_handle cmd p_cmd_data cmd_data_size None 0 p_data data_size false cmd_status.

Definition usb_cmd_stream_register_cb (usbcmd_handle : Z) (capture_ready_cb : usb_cmd_stream_cb_t) (context : Z)
    : Mw zsa_result_t :=
  usb_valid ZSA_RESULT_FAILED usbcmd_handle (
    update usbcmd_handle (fun u => u <| uc_callback := capture_ready_cb |> <| uc_stream_context := context |>);;
    mret ZSA_RESULT_SUCCEEDED).

Definition usb_cmd_get_container_id (usbcmd_handle : Z) : Mw (option (list Z)) :=
  usb_valid None usbcmd_handle (
    u ← load usbcmd_context_t usbcmd_handle;
    mret (Some (uc_container_id u))).

(** * Counting the devices *)

(** The loop: the result and the two counters. *)
Fixpoint count_devices (dev_list loops : list Z) (color depth : Z) : Mw (zsa_result_t * Z * Z) :=
  match loops with
  | [] => mret (ZSA_RESULT_SUCCEEDED, color, depth)
  | loop :: loops =>
      dev ← need OutOfBounds (dev_list !! Z.to_nat loop);
      '(err, desc) ← libusb_get_device_descriptor dev;
      if err <? 0 then mret (ZSA_RESULT_FAILED, color, depth)
      else if negb (idVendor desc =? ZSA_MSFT_VID) then count_devices dev_list loops color depth
      else if idProduct desc =? ZSA_RGB_PID then count_devices dev_list loops (u32 (color + 1)) depth
      else if idProduct desc =? ZSA_DEPTH_PID then count_devices dev_list loops color (u32 (depth + 1))
      else count_devices dev_list loops color depth
  end.

(** The result and [*p_device_count].  [dev_list] is not initialised: freeing
    it after libusb_get_device_list has failed reads it. *)
Definition usb_cmd_get_device_count (p_device_count : bool) : Mw (zsa_result_t * option Z) :=
  if negb p_device_count then mret (ZSA_RESULT_FAILED, None)
  else
    '(err, ctx) ← libusb_init;
    if err <? 0 then mret (ZSA_RESULT_FAILED, Some 0)
    else
      libusb_logging_disable ctx;;
      '(count, dev_list) ← libusb_get_device_list ctx;
      if count >? INT32_MAX then mret (ZSA_RESULT_FAILED, Some 0)
      else if count =? 0 then mret (ZSA_RESULT_FAILED, Some 0)
      else
        '(result, color, depth) ← count_devices (default [] dev_list) (seqZ 0 count) 0 0;
        devs ← need Uninitialised dev_list;
        libusb_free_device_list (Some devs);;
        libusb_exit ctx;;
        mret (result, Some (if color >? depth then color else depth)).
End operations.

(** * Encoding and decoding *)

(** What the firmware reads from the bytes of a command: the header, and the
    data behind it. *)
Definition decode_packet (l : list Z) : option (usb_command_header_t * list Z) :=
  t ← word_at 0 l; id ← word_at 4 l; size ← word_at 8 l; cmd ← word_at 12 l; reserved ← word_at 16 l;
  Some (mkHeader t id size cmd reserved, drop 20 l).

(** The bytes of a response. *)
Definition response_bytes (r : usb_command_response_t) : list Z :=
  le32 (rs_packet_type r) ++ le32 (rs_packet_transaction_id r) ++ le32 (rs_status r) ++ le32 (rs_reserved r).

Lemma decode_packet_bytes hd data :
  is_u32 (hd_packet_type hd) -> is_u32 (hd_packet_transaction_id hd) -> is_u32 (hd_payload_size hd) ->
  is_u32 (hd_command hd) -> is_u32 (hd_reserved hd) ->
  decode_packet (packet_bytes hd data) = Some (hd, data).
Proof.
  intros. unfold decode_packet, packet_bytes.
  rewrite !word_at_skip, !word_at_0 by done.
  by destruct hd.
Qed.

Lemma response_of_response_bytes r :
  is_u32 (rs_packet_type r) -> is_u32 (rs_packet_transaction_id r) -> is_u32 (rs_status r) ->
  is_u32 (rs_reserved r) -> response_of_bytes (response_bytes r) = Some r.
Proof.
  intros. unfold response_of_bytes, response_bytes.
  rewrite <- (app_nil_r (le32 (rs_reserved r))). rewrite !word_at_skip, !word_at_0 by done. by destruct r.
Qed.

Lemma length_packet_bytes hd data : length (packet_bytes hd data) = (20 + length data)%nat.
Proof. done. Qed.

(** Reading a container id back from its text. *)
Definition hex_value (c : Z) : Z := if c <? 58 then c - 48 else c - 87.

Fixpoint unhex (l : list Z) : list Z :=
  match l with a :: b :: l => (16 * hex_value a + hex_value b) :: unhex l | _ => [] end.

Definition uuid_of_string (s : list Z) : list Z :=
  let text := unhex (filter (fun c => c <> dash) (tail (removelast s))) in
  map (fun i => nth i text 0) (concat uuid_groups).

Lemma hex_digit_value x : 0 <= x < 16 -> hex_value (hex_digit x) = x /\ hex_digit x <> dash.
Proof.
  intros Hx. unfold hex_value, hex_digit, dash. destruct (Z.ltb_spec x 10).
  - destruct (Z.ltb_spec (48 + x) 58); lia.
  - destruct (Z.ltb_spec (97 + (x - 10)) 58); lia.
Qed.

Lemma byte_digits x : is_byte x -> 0 <= x / 16 < 16 /\ 0 <= x mod 16 < 16 /\ 16 * (x / 16) + x mod 16 = x.
Proof.
  unfold is_byte. intros Hx. pose proof (Z.div_mod x 16 ltac:(lia)). pose proof (Z.mod_pos_bound x 16 ltac:(lia)).
  lia.
Qed.

Lemma filter_hex2 x l : is_byte x -> filter (fun c => c <> dash) (hex2 x ++ l) = hex2 x ++ filter (fun c => c <> dash) l.
Proof.
  intros Hx. destruct (byte_digits x Hx) as (H1 & H2 & _). unfold hex2. cbn [app].
  rewrite !filter_cons_True; [done|apply hex_digit_value; lia|apply hex_digit_value; lia].
Qed.

Lemma filter_dash l : filter (fun c => c <> dash) (dash :: l) = filter (fun c => c <> dash) l.
Proof. rewrite filter_cons_False; [done|]. intros Hx. by apply Hx. Qed.

Lemma unhex_hex2 x l : is_byte x -> unhex (hex2 x ++ l) = x :: unhex l.
Proof.
  intros Hx. destruct (byte_digits x Hx) as (H1 & H2 & H3). unfold hex2. cbn [app unhex]. f_equal.
  rewrite (proj1 (hex_digit_value (x / 16) H1)), (proj1 (hex_digit_value (x mod 16) H2)). lia.
Qed.

(** The text of a container id has exactly the 38 characters that
    UUID_STR_LENGTH leaves room for, and determines the id. *)
Theorem uuid_round_trip (guid : list Z) (Hl : length guid = 16%nat) (Hb : Forall is_byte guid) :
  length (uuid_to_string guid) = 38%nat /\ uuid_of_string (uuid_to_string guid) = guid.
Proof.
  do 16 (destruct guid as [|? guid]; [discriminate Hl|]). destruct guid; [|discriminate Hl].
  split; [done|]. repeat (apply Forall_cons in Hb as [? Hb]).
  unfold uuid_of_string, uuid_to_string. rewrite app_assoc, removelast_last.
  change (tail ([123] ++ ?l)) with l. set (text := unhex _).
  assert (E : text = [z2; z1; z0; z; z4; z3; z6; z5; z8; z7; z9; z10; z11; z12; z13; z14]); [|by rewrite E].
  unfold text. cbn -[hex2]. rewrite <- !app_assoc. cbn [app].
  repeat first [rewrite filter_hex2 by done | rewrite filter_dash]. rewrite filter_nil.
  by rewrite !unhex_hex2 by done.
Qed.

Lemma uuid_round_trip_witness :
  let guid := [0; 17; 34; 51; 68; 85; 102; 119; 136; 153; 170; 187; 204; 221; 238; 255] in
  length (uuid_to_string guid) = 38%nat /\ uuid_of_string (uuid_to_string guid) = guid.
Proof. intros guid. apply uuid_round_trip; [reflexivity|]. repeat constructor; discriminate. Defined.

(** The firmware decodes from the bytes of a command packet the very
    header and data it was built from, and the host decodes from the bytes of
    a response the response the firmware sent; the two sizes are those the
    code announces to libusb. *)
Theorem packet_round_trip (hd : usb_command_header_t) (data : list Z) (rs : usb_command_response_t)
  (Hhd : Forall is_u32 [hd_packet_type hd; hd_packet_transaction_id hd; hd_payload_size hd; hd_command hd; hd_reserved hd])
  (Hrs : Forall is_u32 [rs_packet_type rs; rs_packet_transaction_id rs; rs_status rs; rs_reserved rs]) :
  decode_packet (packet_bytes hd data) = Some (hd, data) /\
  Z.of_nat (length (packet_bytes hd data)) = sizeof_usb_command_header_t + Z.of_nat (length data) /\
  response_of_bytes (response_bytes rs) = Some rs /\
  Z.of_nat (length (response_bytes rs)) = sizeof_usb_command_response_t.
Proof.
  repeat (apply Forall_cons in Hhd as [? Hhd]). repeat (apply Forall_cons in Hrs as [? Hrs]).
  split_and!; [by apply decode_packet_bytes| |by apply response_of_response_bytes|done].
  rewrite length_packet_bytes. unfold sizeof_usb_command_header_t. lia.
Qed.

Lemma packet_round_trip_witness :
  decode_packet (packet_bytes (mkHeader USB_CMD_PACKET_TYPE 4294967295 0 0x80000001 0) [1; 2; 3]) =
    Some (mkHeader USB_CMD_PACKET_TYPE 4294967295 0 0x80000001 0, [1; 2; 3]) /\
  response_of_bytes (response_bytes (mkResponse USB_CMD_PACKET_TYPE_RESPONSE 4294967295 0 0)) =
    Some (mkResponse USB_CMD_PACKET_TYPE_RESPONSE 4294967295 0 0).
Proof.
  destruct (packet_round_trip (mkHeader USB_CMD_PACKET_TYPE 4294967295 0 0x80000001 0) [1; 2; 3]
    (mkResponse USB_CMD_PACKET_TYPE_RESPONSE 4294967295 0 0)) as (H1 & _ & H2 & _).
  - repeat constructor; discriminate.
  - repeat constructor; discriminate.
  - split; [exact H1|exact H2].
Defined.

(** * A transaction *)

Section protocol.
Context `{Platform} `{Usb} `{StreamClient}.

(** libusb never moves more bytes than it was asked to. *)
Definition bulk_ok : Prop := forall t handle endpoint data length,
  let '(_, (count, _)) := libusb_bulk_transfer_answer t handle endpoint data length in count <= length.

Definition bulk_event (u : usbcmd_context_t) (endpoint : Z) (data : list Z) (length err count : Z)
    (received : list Z) : event :=
  EUsb (U_bulk (uc_libusb u) endpoint data length err count received).

(** The data phase that went well. *)
Definition data_phase (u : usbcmd_context_t) (payload : Z) (rx tx : option (list Z))
    (es : list event) (count : Z) (rx' : option (list Z)) : Prop :=
  match tx, rx with
  | Some bytes, _ =>
      rx' = rx /\ exists any,
        es = [bulk_event u (uc_cmd_tx_endpoint u) (take (Z.to_nat payload) bytes) payload LIBUSB_SUCCESS count any]
  | None, Some buffer =>
      exists received, es = [bulk_event u (uc_cmd_rx_endpoint u) [] payload LIBUSB_SUCCESS count received] /\
        let bytes := take (Z.to_nat count) received in rx' = Some (bytes ++ drop (length bytes) buffer)
  | None, None => es = [] /\ count = 0 /\ rx' = None
  end.

(** The response phase that went well. *)
Definition response_phase (u : usbcmd_context_t) (id : Z) (es : list event) (status : Z) : Prop :=
  exists received response,
    es = [bulk_event u (uc_cmd_rx_endpoint u) [] sizeof_usb_command_response_t LIBUSB_SUCCESS
            sizeof_usb_command_response_t received] /\
    response_of_bytes (take 16 received) = Some response /\
    rs_packet_type response = USB_CMD_PACKET_TYPE_RESPONSE /\
    rs_packet_transaction_id response = id /\ rs_status response = status.

(** What may follow the command packet, whose transfer ended with [err]: the
    outcome is what [exchange] returns. *)
Definition outcome_ok (u : usbcmd_context_t) (id payload : Z) (rx tx : option (list Z)) (err : Z)
    (es : list event) (r : Z * option (list Z) * option Z) : Prop :=
  let '(count, rx', status) := r in
  match status with
  | Some status =>
      err = LIBUSB_SUCCESS /\ exists es1 es2, es = es1 ++ es2 /\
        data_phase u payload rx tx es1 count rx' /\ response_phase u id es2 status
  | None =>
      (length es <= 2)%nat /\
      forall es1 es2 count rx' status, err = LIBUSB_SUCCESS -> es = es1 ++ es2 ->
        data_phase u payload rx tx es1 count rx' -> ~ response_phase u id es2 status
  end.

Lemma wp_get_status u id w :
  wp (get_status u id)
     (fun r w' => exists e, w' = w <| trace := trace w ++ [e] |> /\
        forall status, r = Some status <-> response_phase u id [e] status) w.
Proof.
  apply wp_bind, wp_usb_call. set (ans := libusb_bulk_transfer_answer _ _ _ _ _).
  destruct ans as [err [count received]] eqn:Ea. apply wp_ret. eexists. split; [done|]. intros status.
  unfold response_phase. split.
  - intros E. destruct (Z.eqb_spec err LIBUSB_SUCCESS) as [->|]; [|discriminate E]. cbn [andb] in E.
    destruct (response_of_bytes _) as [rs|] eqn:Er; [|discriminate E]. unfold response_ok in E.
    destruct (Z.eqb_spec count sizeof_usb_command_response_t) as [->|]; [|discriminate E].
    destruct (Z.eqb_spec (rs_packet_transaction_id rs) id) as [Ei|]; [|discriminate E].
    destruct (Z.eqb_spec (rs_packet_type rs) USB_CMD_PACKET_TYPE_RESPONSE) as [Et|]; [|discriminate E].
    injection E as E. exists received, rs. by split_and!.
  - intros (received' & rs & E & Er & Et & Ei & Es). injection E as -> -> ->.
    rewrite (Z.eqb_refl LIBUSB_SUCCESS). change (Z.to_nat sizeof_usb_command_response_t) with 16%nat.
    rewrite Er. cbn. rewrite Ei, Et, !Z.eqb_refl. cbn. by rewrite Es.
Qed.

Lemma wp_move_data u payload rx tx w :
  bulk_ok -> (forall bytes, tx = Some bytes -> payload <= Z.of_nat (length bytes)) ->
  (forall bytes, rx = Some bytes -> payload <= Z.of_nat (length bytes)) ->
  (rx = None \/ tx = None) ->
  wp (move_data u payload rx tx)
     (fun '(go_on, count, rx') w' => exists es, w' = w <| trace := trace w ++ es |> /\ (length es <= 1)%nat /\
        if go_on : bool then data_phase u payload rx tx es count rx'
        else length es = 1%nat /\ (tx <> None \/ rx <> None) /\
             forall es2 c r, ~ data_phase u payload rx tx (es ++ es2) c r) w.
Proof.
  intros Hok Htx Hrx Hone. unfold move_data. destruct tx as [tx|]; [|destruct rx as [rx|]].
  - specialize (Htx tx eq_refl). rewrite (proj2 (Z.ltb_ge _ _)) by lia.
    apply wp_bind, wp_usb_call. destruct (libusb_bulk_transfer_answer _ _ _ _ _) as [err [count any]].
    apply wp_ret. destruct (Z.eqb_spec err LIBUSB_SUCCESS) as [->|He]; (eexists; split; [done|]; split; [done|]).
    + split; [done|]. by exists any.
    + split; [done|]. split; [by left|]. intros es2 c r [_ [any' E]]. by injection E as -> -> -> _.
  - specialize (Hrx rx eq_refl). apply wp_bind, wp_usb_call.
    specialize (Hok (trace w) (uc_libusb u) (uc_cmd_rx_endpoint u) [] payload).
    destruct (libusb_bulk_transfer_answer _ _ _ _ _) as [err [count received]].
    unfold receive_bytes. rewrite (proj2 (Nat.ltb_ge _ _)) by (rewrite length_take; lia).
    apply wp_bind, wp_ret, wp_ret.
    destruct (Z.eqb_spec err LIBUSB_SUCCESS) as [->|He]; (eexists; split; [done|]; split; [done|]).
    + by exists received.
    + split; [done|]. split; [by right|]. intros es2 c r (received' & E & _). by injection E as -> -> -> _.
  - apply wp_ret. exists []. split; [by destruct w; cbn; rewrite app_nil_r|]. split; [cbn; lia|]. done.
Qed.

(** The events of a transaction: the command packet, and what follows. *)
Definition transaction (u : usbcmd_context_t) (cmd payload : Z) (data : list Z) (rx tx : option (list Z))
    (es : list event) (r : Z * option (list Z) * option Z) : Prop :=
  exists err count any es',
    es = bulk_event u (uc_cmd_tx_endpoint u)
           (packet_bytes (mkHeader USB_CMD_PACKET_TYPE (uc_transaction_id u) payload cmd 0) data)
           (sizeof_usb_command_header_t + Z.of_nat (length data)) err count any :: es' /\
    outcome_ok u (uc_transaction_id u) payload rx tx err es' r.

Lemma wp_exchange u cmd payload data rx tx w :
  bulk_ok -> 0 <= payload < 2 ^ 32 -> (forall bytes, tx = Some bytes -> payload <= Z.of_nat (length bytes)) ->
  (forall bytes, rx = Some bytes -> payload <= Z.of_nat (length bytes)) -> rx = None \/ tx = None ->
  wp (exchange u cmd (uc_transaction_id u) payload data rx tx)
     (fun r w' => exists es, w' = w <| trace := trace w ++ es |> /\
        transaction u cmd payload data rx tx es r) w.
Proof.
  intros Hok Hp Htx Hrx Hone. unfold exchange. rewrite u32_id by done.
  apply wp_bind, wp_usb_call. destruct (libusb_bulk_transfer_answer _ _ _ _ _) as [err [count any]].
  destruct (Z.eqb_spec err LIBUSB_SUCCESS) as [->|He]; cbn [negb].
  2: { apply wp_ret. eexists. split; [done|]. exists err, count, any, []. split; [done|]. split; [cbn; lia|]. by intros. }
  apply wp_bind. eapply wp_mono; [by apply wp_move_data|].
  intros [[go_on c] rx'] w1 (es1 & -> & Hl1 & Hm). destruct go_on; cbn [negb].
  2: { apply wp_ret. eexists. split; [cbn; by rewrite <- app_assoc|].
       exists LIBUSB_SUCCESS, count, any, es1. split; [done|]. destruct Hm as (Hl & Hdir & Hno). split; [lia|].
       intros e1 e2 c2 r2 st _ -> Hd _. destruct e1 as [|x e1].
       - destruct tx as [tx|]; [|destruct rx as [rx|]]; cbn in Hd; [by destruct Hd as [_ [? ?]]|by destruct Hd as (? & ? & _)|].
         by destruct Hdir.
       - destruct e1, e2; try done. apply (Hno [] c2 r2). by rewrite !app_nil_r in *. }
  apply wp_bind. eapply wp_mono; [apply wp_get_status|].
  intros status w2 (e & -> & Hst). apply wp_ret. eexists. split; [cbn; by rewrite <- !app_assoc|].
  exists LIBUSB_SUCCESS, count, any, (es1 ++ [e]). split; [done|].
  destruct status as [st|].
  - split; [done|]. exists es1, [e]. split_and!; [done|done|by apply Hst].
  - split; [rewrite length_app; cbn; lia|]. intros e1 e2 c2 r2 st _ Ee Hd Hr.
    pose proof Hr as (? & ? & -> & _). apply app_inj_tail in Ee as [_ ->].
    by apply Hst in Hr.
Qed.

(** The sizes a caller announces: those of its buffers. *)
Definition size_of (p : option (list Z)) : Z := match p with Some l => Z.of_nat (length l) | None => 0 end.
Definition payload_of (rx tx : option (list Z)) : Z := if size_of rx =? 0 then size_of tx else size_of rx.

(** Arguments that libusb and the packet have room for.  The log statement at
    the head of usb_cmd_io reads two words of command data when there is
    any. *)
Record io_args_ok (cmd_data rx tx : option (list Z)) : Prop := {
  args_data : size_of cmd_data = 0 \/ 8 <= size_of cmd_data <= USB_MAX_TX_DATA;
  args_rx : size_of rx <= INT32_MAX;
  args_tx : size_of tx <= INT32_MAX;
  args_one : rx = None \/ tx = None
}.

Definition usb_io (h cmd : Z) (cmd_data rx tx : option (list Z)) (transfer_count : bool) : Mw io_out :=
  usb_cmd_io h cmd cmd_data (size_of cmd_data) rx (size_of rx) tx (size_of tx) transfer_count true.

Definition io_post (busy : gset Z) (ext : ledger) (h : Z) (u : usbcmd_context_t) (cmd : Z)
    (cmd_data rx tx : option (list Z)) (transfer_count : bool) (w : world) (r : io_out) (w' : world) : Prop :=
  exists es count,
    trace w' = trace w ++ es /\ Inv busy ext w' /\
    has w' h (u <| uc_transaction_id := u32 (uc_transaction_id u + 1) |>) /\
    transaction u cmd (payload_of rx tx) (default [] cmd_data) rx tx es (count, io_rx r, io_cmd_status r) /\
    io_result r = ZSA_RESULT_FROM_BOOL (bool_decide (is_Some (io_cmd_status r))) /\
    io_transfer_count r = (if transfer_count then Some count else None).

Lemma size_of_nonneg p : 0 <= size_of p.
Proof. destruct p; cbn; lia. Qed.

Lemma wp_copy_bytes p w (Q : list Z -> world -> Prop) : Q (default [] p) w -> wp (copy_bytes p (size_of p)) Q w.
Proof.
  intros HQ. unfold copy_bytes. destruct p as [bytes|]; [|by apply wp_ret]. cbn [size_of default] in *.
  destruct (Z.eqb_spec (Z.of_nat (length bytes)) 0) as [E|E].
  { destruct bytes; [|cbn in E; lia]. by apply wp_ret. }
  apply wp_bind, wp_ret. rewrite (proj2 (Z.ltb_ge _ _)) by lia. apply wp_ret.
  by rewrite Nat2Z.id, take_ge.
Qed.

Lemma wp_usb_io busy ext h u cmd cmd_data rx tx transfer_count w :
  Inv busy ext w -> h ∉ busy -> has w h u -> bulk_ok -> io_args_ok cmd_data rx tx ->
  wp (usb_io h cmd cmd_data rx tx transfer_count) (io_post busy ext h u cmd cmd_data rx tx transfer_count w) w.
Proof.
  intros HI Hb Hh Hok [Hd Hrx Htx Hone]. pose proof Hh as [Hn _].
  pose proof (size_of_nonneg cmd_data) as Hd0. pose proof (size_of_nonneg rx) as Hr0. pose proof (size_of_nonneg tx) as Ht0.
  eapply wp_if_handle_valid; [exact Hh|]. cbn [negb].
  assert (E : bool_decide (is_Some rx) && bool_decide (is_Some tx) = false).
  { destruct Hone as [-> | ->]; [done|]. by rewrite andb_false_r. }
  rewrite E. fold (payload_of rx tx).
  assert (Hp : 0 <= payload_of rx tx <= INT32_MAX) by (unfold payload_of; destruct (_ =? 0); lia).
  rewrite (proj2 (Z.leb_le (size_of cmd_data) _)) by (unfold USB_MAX_TX_DATA in *; lia).
  rewrite (proj2 (Z.leb_le (payload_of rx tx) _)) by lia. cbn [negb].
  apply wp_bind. assert (Ht : forall Q, Q tt w -> wp (trace_cmd_data cmd_data (size_of cmd_data)) Q w).
  { intros Q HQ. unfold trace_cmd_data. destruct cmd_data as [bytes|]; [|by apply wp_ret]. cbn [size_of] in *.
    destruct (Z.of_nat (length bytes) >? 0) eqn:Eg; [|by apply wp_ret].
    rewrite (proj2 (Nat.ltb_ge _ _)) by lia. by apply wp_ret. }
  apply Ht. clear Ht. apply wp_bind. eapply wp_usb_lock; [done..|]. intros l w1 Hl -> HI1 Hh1.
  apply wp_bind. eapply wp_load; [exact Hh1|]. cbv zeta.
  apply wp_bind. eapply wp_update; [exact Hh1|].
  set (u1 := u <| uc_lock := l |>) in *. set (u2 := u1 <| uc_transaction_id := _ |>).
  set (w2 := _ <| heap := _ |>). assert (Hh2 : has w2 h u2) by (by apply has_stored).
  assert (HI2 : Inv (busy ∪ {[h]}) ext w2) by (eapply inv_usb; [exact HI1|exact Hh1|set_solver|set_solver]).
  apply wp_bind, wp_copy_bytes. apply wp_bind. eapply wp_mono.
  { apply (wp_exchange u1 cmd (payload_of rx tx)); [done|unfold INT32_MAX in *; lia| | |done].
    - intros bytes ->. destruct Hone as [->|]; [|done]. unfold payload_of. cbn. lia.
    - intros bytes ->. destruct Hone as [| ->]; [done|]. unfold payload_of. cbn. destruct (_ =? 0); lia. }
  intros [[count rx'] status] w3 (es & -> & Ht). apply wp_bind.
  assert (Hl0 : lock_release l <> LockHeld) by (rewrite Hl; exact (usb_idle _ _ _ _ _ HI Hb Hh)).
  eapply (wp_usb_unlock busy ext h u2); [|exact Hh2|exact Hl0|].
  { exact (inv_trace _ _ _ es HI2). }
  intros w4 -> HI4 Hh4. apply wp_ret. exists es, count.
  refine (conj eq_refl (conj HI4 (conj _ (conj Ht (conj eq_refl eq_refl))))).
  change (uc_lock u2) with l in Hh4 |- *. rewrite Hl in Hh4 |- *.
  assert (Eu : u2 <| uc_lock := uc_lock u |> = u <| uc_transaction_id := u32 (uc_transaction_id u + 1) |>) by (by destruct u).
  rewrite <- Eu. exact Hh4.
Qed.

(** C8: the command protocol.  Given room for its arguments, usb_cmd_io
    returns; the first packet it sends decodes to the request, with the
    context's transaction id, and at most two more transfers follow.  It
    succeeds exactly when that packet went out, the data phase (if there is
    one) went well, and the device answered with a full response packet that
    carries this very id; then the status and the data are those the device
    sent.  In every case the id moves on by one, modulo 2^32, the lock is free
    again and the books of the process balance. *)
Theorem usb_cmd_io_protocol busy ext h (u : usbcmd_context_t) cmd cmd_data rx tx transfer_count w
  (HI : Inv busy ext w) (Hb : h ∉ busy) (Hh : has w h u) (Hok : bulk_ok) (Ha : io_args_ok cmd_data rx tx)
  (Hc : is_u32 cmd) (Hid : is_u32 (uc_transaction_id u)) :
  exists r w' err count any packet es,
    usb_io h cmd cmd_data rx tx transfer_count w = Done r w' /\ Inv busy ext w' /\
    has w' h (u <| uc_transaction_id := u32 (uc_transaction_id u + 1) |>) /\
    trace w' = trace w ++ bulk_event u (uc_cmd_tx_endpoint u) packet (Z.of_nat (length packet)) err count any :: es /\
    decode_packet packet =
      Some (mkHeader USB_CMD_PACKET_TYPE (uc_transaction_id u) (payload_of rx tx) cmd 0, default [] cmd_data) /\
    (length es <= 2)%nat /\
    (io_result r = ZSA_RESULT_SUCCEEDED <->
       err = LIBUSB_SUCCESS /\ exists es1 es2 count rx' status, es = es1 ++ es2 /\
         data_phase u (payload_of rx tx) rx tx es1 count rx' /\
         response_phase u (uc_transaction_id u) es2 status) /\
    (io_result r = ZSA_RESULT_SUCCEEDED -> exists es1 es2 count status, es = es1 ++ es2 /\
       data_phase u (payload_of rx tx) rx tx es1 count (io_rx r) /\
       response_phase u (uc_transaction_id u) es2 status /\ io_cmd_status r = Some status /\
       io_transfer_count r = (if transfer_count then Some count else None)).
Proof.
  pose proof (wp_usb_io _ _ _ _ cmd _ _ _ transfer_count _ HI Hb Hh Hok Ha) as Hw.
  destruct (proj1 (wp_run _ _ _) Hw) as (r & w' & E & es & count & Et & HI' & Hh' & Htr & Er & Ec). clear Hw.
  destruct Htr as (err & c0 & any & es' & -> & Ho). destruct Ha as [_ Hrx Htx _].
  exists r, w', err, c0, any, (packet_bytes (mkHeader USB_CMD_PACKET_TYPE (uc_transaction_id u) (payload_of rx tx) cmd 0)
    (default [] cmd_data)), es'.
  assert (Hl : (length es' <= 2)%nat).
  { destruct (io_cmd_status r); [|apply Ho]. destruct Ho as (_ & es1 & es2 & -> & Hd & ? & ? & -> & _).
    rewrite length_app. destruct tx; [destruct Hd as (_ & ? & ->)|destruct rx; [destruct Hd as (? & -> & _)|destruct Hd as [-> _]]]; cbn; lia. }
  split_and!; [done|done|done| |apply decode_packet_bytes; try done|done| |].
  - rewrite Et. do 3 f_equal. rewrite length_packet_bytes. unfold sizeof_usb_command_header_t. lia.
  - pose proof (size_of_nonneg rx). pose proof (size_of_nonneg tx). unfold is_u32, payload_of, INT32_MAX in *. cbn.
    destruct (_ =? 0); lia.
  - rewrite Er. destruct (io_cmd_status r) as [status|].
    + split; [intros _|done]. destruct Ho as (-> & es1 & es2 & -> & Hd & Hr). split; [done|]. by exists es1, es2, count, (io_rx r), status.
    + destruct Ho as [_ Hno]. split; [done|]. intros (-> & es1 & es2 & c & rx' & status & Ee & Hd & Hr).
      by destruct (Hno es1 es2 c rx' status eq_refl Ee Hd).
  - rewrite Er. destruct (io_cmd_status r) as [status|]; [|done]. intros _.
    destruct Ho as (_ & es1 & es2 & -> & Hd & Hr). by exists es1, es2, count, status.
Qed.

(** ** Sessions *)

(** A request, as the arguments of usb_cmd_io. *)
Record request : Type := mkRequest {
  rq_cmd : Z;
  rq_data : option (list Z);
  rq_rx : option (list Z);
  rq_tx : option (list Z)
}.

Definition send (h : Z) (q : request) : Mw io_out := usb_io h (rq_cmd q) (rq_data q) (rq_rx q) (rq_tx q) true.

Fixpoint session (h : Z) (qs : list request) : Mw (list io_out) :=
  match qs with
  | [] => mret []
  | q :: qs => r ← send h q; rs ← session h qs; mret (r :: rs)
  end.

(** The [i]-th transaction of a session that starts with id [id]. *)
Definition exchanged (u : usbcmd_context_t) (id : Z) (q : request) (es : list event) (r : io_out) : Prop :=
  exists count, transaction (u <| uc_transaction_id := id |>) (rq_cmd q) (payload_of (rq_rx q) (rq_tx q))
    (default [] (rq_data q)) (rq_rx q) (rq_tx q) es (count, io_rx r, io_cmd_status r).

Definition request_ok (q : request) : Prop := io_args_ok (rq_data q) (rq_rx q) (rq_tx q).

Lemma u32_succ_add x i : u32 (u32 (x + 1) + i) = u32 (x + (1 + i)).
Proof. unfold u32. rewrite Zplus_mod_idemp_l. f_equal. lia. Qed.

Lemma wp_session busy ext h qs : forall u w,
  Inv busy ext w -> h ∉ busy -> has w h u -> bulk_ok -> Forall request_ok qs -> is_u32 (uc_transaction_id u) ->
  wp (session h qs) (fun rs w' => exists ess, trace w' = trace w ++ concat ess /\ Inv busy ext w' /\
     length rs = length qs /\ length ess = length qs /\
     forall i q, qs !! i = Some q -> exists es r, ess !! i = Some es /\ rs !! i = Some r /\
       exchanged u (u32 (uc_transaction_id u + Z.of_nat i)) q es r) w.
Proof.
  induction qs as [|q qs IH]; intros u w HI Hb Hh Hok Hqs Hid.
  { apply wp_ret. exists []. by rewrite app_nil_r. }
  apply Forall_cons in Hqs as [Hq Hqs].
  apply wp_bind. eapply wp_mono; [by apply (wp_usb_io busy ext h u)|].
  intros r w1 (es & count & Et & HI1 & Hh1 & Htr & _).
  apply wp_bind. eapply wp_mono; [apply (IH _ w1 HI1 Hb Hh1 Hok Hqs), u32_range|].
  intros rs w2 (ess & Et2 & HI2 & Hl1 & Hl2 & Hall). apply wp_ret. exists (es :: ess).
  cbn [length concat]. rewrite Hl1, Hl2. split_and!; [by rewrite Et2, Et, <- app_assoc|done..|].
  intros [|i] q' Eq; cbn in Eq.
  - injection Eq as <-. exists es, r. split_and!; [done..|]. exists count.
    rewrite Z.add_0_r, u32_id by done. by destruct u.
  - destruct (Hall i q' Eq) as (es' & r' & E1 & E2 & c & Hex). exists es', r'. split_and!; [done..|]. exists c.
    cbn in Hex. rewrite u32_succ_add in Hex. by rewrite Nat2Z.inj_succ, <- Z.add_1_l.
Qed.

Lemma u32_distinct x i j : 0 <= i < 2 ^ 32 -> 0 <= j < 2 ^ 32 -> u32 (x + i) = u32 (x + j) -> i = j.
Proof.
  unfold u32. intros Hi Hj E.
  pose proof (Z.div_mod (x + i) (2 ^ 32) ltac:(lia)). pose proof (Z.div_mod (x + j) (2 ^ 32) ltac:(lia)). nia.
Qed.

(** In a session of fewer than 2^32 commands no response is taken for
    that of another command: what the [i]-th command accepts as its response
    carries the id of the [i]-th command packet, and all these ids differ. *)
Theorem usb_session_ids busy ext h (u : usbcmd_context_t) qs w
  (HI : Inv busy ext w) (Hb : h ∉ busy) (Hh : has w h u) (Hok : bulk_ok)
  (Hqs : Forall request_ok qs) (Hid : is_u32 (uc_transaction_id u)) (Hn : Z.of_nat (length qs) < 2 ^ 32) :
  let id i := u32 (uc_transaction_id u + Z.of_nat i) in
  exists rs w' ess, session h qs w = Done rs w' /\ trace w' = trace w ++ concat ess /\ Inv busy ext w' /\
    length ess = length qs /\
    (forall i q, qs !! i = Some q -> exists es r, ess !! i = Some es /\ rs !! i = Some r /\
       exchanged u (id i) q es r /\
       forall status, io_cmd_status r = Some status -> exists es1 es2, es = es1 ++ es2 /\
         response_phase (u <| uc_transaction_id := id i |>) (id i) es2 status /\
         forall j status', (j < length qs)%nat -> j <> i ->
           ~ response_phase (u <| uc_transaction_id := id i |>) (id j) es2 status').
Proof.
  intros id. destruct (proj1 (wp_run _ _ _) (wp_session busy ext h qs u w HI Hb Hh Hok Hqs Hid))
    as (rs & w' & E & ess & Et & HI' & _ & Hl & Hall).
  exists rs, w', ess. split_and!; [done..|]. intros i q Eq.
  destruct (Hall i q Eq) as (es & r & E1 & E2 & c & Hex). exists es, r. split_and!; [done|done|by exists c|].
  intros status Es. destruct Hex as (err & c0 & any & es' & -> & Ho). rewrite Es in Ho.
  destruct Ho as (_ & es1 & es2 & -> & _ & Hr). eexists (_ :: es1), es2. split_and!; [done|exact Hr|].
  intros j status' Hj Hji Hr'. destruct Hr as (re & rs1 & Ee & Er & _ & Ei & _).
  destruct Hr' as (re' & rs2 & Ee' & Er' & _ & Ei' & _).
  assert (re' = re) as -> by (rewrite Ee in Ee'; by injection Ee').
  assert (rs2 = rs1) as -> by congruence. cbn in Ei. apply Hji.
  apply lookup_lt_Some in Eq. assert (Z.of_nat j = Z.of_nat i); [|lia].
  eapply (u32_distinct (uc_transaction_id u)); [lia|lia|]. unfold id in *. congruence.
Qed.
End protocol.

(** * A device *)

(** The id of the last command packet the host sent. *)
Fixpoint last_id (t : list event) (id : Z) : Z :=
  match t with
  | [] => id
  | EUsb (U_bulk _ _ sent _ _ _ _) :: t =>
      last_id t (match word_at 0 sent, word_at 4 sent with
                 | Some USB_CMD_PACKET_TYPE, Some i => i
                 | _, _ => id
                 end)
  | _ :: t => last_id t id
  end.

(** A device with one capability besides its container id, serial number
    ABC, and firmware that answers every command with data 7, 7, ... and
    status 0; a color camera on the same hub. *)
#[export] Instance sample_usb : Usb := {|
  libusb_init_answer _ := (0, 100);
  libusb_set_option_answer _ _ _ := 0;
  libusb_get_device_list_answer _ _ := (2, [201; 202]);
  libusb_get_device_descriptor_answer _ dev :=
    (0, mkDescriptor ZSA_MSFT_VID (if dev =? 201 then ZSA_RGB_PID else ZSA_DEPTH_PID) 3);
  libusb_open_answer _ dev := (0, Z.abs dev + 100);
  libusb_get_bos_descriptor_answer _ _ := (0, [2; LIBUSB_BT_CONTAINER_ID]);
  libusb_get_container_id_descriptor_answer _ _ := (0, replicate 16 17);
  libusb_get_string_descriptor_answer _ _ _ size := (4, take (Z.to_nat size) [65; 66; 67; 0]);
  libusb_get_configuration_answer _ _ := (0, 1);
  libusb_set_configuration_answer _ _ _ := 0;
  libusb_kernel_driver_active_answer _ _ _ := 0;
  libusb_detach_kernel_driver_answer _ _ _ := 0;
  libusb_claim_interface_answer _ _ _ := 0;
  libusb_release_interface_answer _ _ _ := 0;
  libusb_bulk_transfer_answer t _ _ sent length :=
    (0, (length,
      match sent with
      | [] => if length =? 16 then response_bytes (mkResponse USB_CMD_PACKET_TYPE_RESPONSE (last_id t 0) 0 0)
              else replicate (Z.to_nat length) 7
      | _ => []
      end));
  libusb_alloc_transfer_ok _ := true;
  libusb_submit_transfer_answer _ _ := 0;
  libusb_handle_events_answer _ _ := (0, []);
  ThreadAPI_Create_ok _ := true;
  ThreadAPI_Join_others _ _ w := w
|}.

Lemma sample_bulk_ok : bulk_ok.
Proof. intros t handle endpoint data length. cbn. lia. Qed.

(** An open depth processor whose transaction ids are about to wrap. *)
Definition sample_usbcmd : usbcmd_context_t :=
  (zeroed (T := usbcmd_context_t)) <| uc_libusb := 302 |> <| uc_cmd_tx_endpoint := 2 |> <| uc_cmd_rx_endpoint := 129 |>
    <| uc_transaction_id := 4294967295 |> <| uc_lock := LockFree |>.

Definition sample_usb_world : world :=
  init_world <| heap := {[1 := to_obj sample_usbcmd]} |> <| fresh := 2 |>.

Lemma sample_usb_inv : Inv ∅ no_refs sample_usb_world /\ has sample_usb_world 1 sample_usbcmd.
Proof.
  split; [|by split].
  pose proof (inv_created ∅ no_refs init_world 0%nat (to_obj sample_usbcmd) inv_init eq_refl eq_refl ltac:(done)) as HI.
  refine (inv_usb _ ∅ no_refs _ 1 sample_usbcmd sample_usbcmd HI _ (fun _ => _) _); [by split|done|].
  intros x Hx _ [Hx'|Hx']%elem_of_union; [by apply elem_of_empty in Hx'|by apply elem_of_singleton in Hx'].
Qed.

Definition sample_request (n : nat) : request := mkRequest 0x80000001 None (Some (replicate n 0)) None.

Lemma sample_request_ok n : (n <= 4096)%nat -> request_ok (sample_request n).
Proof. intros Hn. split; cbn; [by left|rewrite length_replicate; unfold INT32_MAX; lia|unfold INT32_MAX; lia|by right]. Qed.

Lemma usb_cmd_io_protocol_witness :
  exists w', usb_io 1 0x80000001 None (Some [0; 0; 0]) None true sample_usb_world =
    Done (mkIo ZSA_RESULT_SUCCEEDED (Some [7; 7; 7]) (Some 3) (Some 0)) w' /\
    has w' 1 (sample_usbcmd <| uc_transaction_id := 0 |>).
Proof.
  destruct sample_usb_inv as [HI Hh].
  destruct (usb_cmd_io_protocol ∅ no_refs 1 sample_usbcmd 0x80000001 None (Some [0; 0; 0]) None true sample_usb_world
    HI (not_elem_of_empty _) Hh sample_bulk_ok (sample_request_ok 3 ltac:(lia)) ltac:(split; reflexivity || discriminate)
    ltac:(split; reflexivity || discriminate)) as (r & w' & _ & _ & _ & _ & _ & E & _ & Hh' & _).
  exists w'. split; [|exact Hh'].
  assert (Er : value_of (usb_io 1 0x80000001 None (Some [0; 0; 0]) None true) sample_usb_world =
    Some (mkIo ZSA_RESULT_SUCCEEDED (Some [7; 7; 7]) (Some 3) (Some 0))) by (vm_compute; reflexivity).
  unfold value_of in Er. rewrite E in Er. injection Er as ->. exact E.
Defined.

Lemma usb_session_ids_witness :
  exists rs w' ess, session 1 [sample_request 3; sample_request 5] sample_usb_world = Done rs w' /\
    trace w' = trace sample_usb_world ++ concat ess /\ length ess = 2%nat.
Proof.
  destruct sample_usb_inv as [HI Hh].
  destruct (usb_session_ids ∅ no_refs 1 sample_usbcmd [sample_request 3; sample_request 5] sample_usb_world
    HI (not_elem_of_empty _) Hh sample_bulk_ok
    ltac:(repeat apply Forall_cons_2; [apply sample_request_ok; lia|apply sample_request_ok; lia|apply Forall_nil_2])
    ltac:(split; reflexivity || discriminate) ltac:(reflexivity)) as (rs & w' & ess & E & Et & _ & Hl & _).
  exists rs, w', ess. split; [exact E|]. split; [exact Et|exact Hl].
Defined.

(** * The serial number *)

Section serial.
Context `{Platform} `{Usb} `{StreamClient}.

Lemma wp_get_serial_number h (u : usbcmd_context_t) len buffer size w :
  has w h u -> strlen (uc_serial_number u) = Some len ->
  (forall b, buffer = Some b -> size <= Z.of_nat (length b)) ->
  wp (usb_cmd_get_serial_number h buffer (Some size))
     (fun r w' => w' = w /\ r =
        if size <? len + 1 then (ZSA_BUFFER_RESULT_TOO_SMALL, buffer, Some (len + 1))
        else match buffer with
             | None => (ZSA_BUFFER_RESULT_FAILED, None, Some size)
             | Some b => (ZSA_BUFFER_RESULT_SUCCEEDED,
                 Some (take (Z.to_nat len) (uc_serial_number u) ++ [0] ++ drop (Z.to_nat (len + 1)) b), Some (len + 1))
             end) w.
Proof.
  intros Hh Hl Hb. eapply wp_if_handle_valid; [exact Hh|]. apply wp_bind. eapply wp_load; [exact Hh|].
  rewrite Hl. apply wp_bind, wp_ret. cbv zeta. rewrite Z.gtb_ltb. destruct (Z.ltb_spec size (len + 1)) as [Hs|Hs]; [by apply wp_ret|].
  destruct buffer as [b|]; [|by apply wp_ret]. specialize (Hb b eq_refl).
  rewrite (proj2 (Z.ltb_ge _ _)) by lia. by apply wp_ret.
Qed.

Lemma strlen_Some s len :
  strlen s = Some len <->
  exists n, len = Z.of_nat n /\ s !! n = Some 0 /\ forall i c, s !! i = Some c -> (i < n)%nat -> c <> 0.
Proof.
  unfold strlen. rewrite fmap_Some. split.
  - intros ([n c] & (Hn & -> & Hlt)%list_find_Some & ->). exists n. split; [done|]. split; [done|].
    intros i c Hi Hin. by eapply Hlt.
  - intros (n & -> & Hn & Hlt). exists (n, 0). split; [|done]. apply list_find_Some. split; [done|]. split; [done|].
    intros i c Hi Hin. by eapply Hlt.
Qed.

Lemma strlen_stored s len rest : strlen s = Some len -> strlen (take (Z.to_nat len) s ++ [0] ++ rest) = Some len.
Proof.
  intros (n & -> & Hn & Hlt)%strlen_Some. rewrite Nat2Z.id. apply lookup_lt_Some in Hn as Hl.
  apply strlen_Some. exists n. split; [done|]. split.
  - rewrite lookup_app_r by (rewrite length_take; lia). rewrite length_take. by replace (n - n `min` length s)%nat with 0%nat by lia.
  - intros i c Hi Hin. rewrite lookup_app_l, lookup_take_lt in Hi by (rewrite ?length_take; lia). by eapply Hlt.
Qed.

(** The two-call protocol of usb_cmd_get_serial_number.  A first call
    without a buffer and with size 0 asks for the size; a second call with a
    buffer of at least that size stores the serial number with its
    terminator, says how many bytes it stored, and leaves the rest of the
    buffer alone: reading the string back gives the serial number.  A buffer
    that is one byte too small is refused, untouched. *)
Theorem usb_serial_number_two_calls (h : Z) (u : usbcmd_context_t) (len : Z) (buffer : list Z) (w : world)
  (Hh : has w h u) (Hl : strlen (uc_serial_number u) = Some len) (Hb : len + 1 <= Z.of_nat (length buffer)) :
  usb_cmd_get_serial_number h None (Some 0) w = Done (ZSA_BUFFER_RESULT_TOO_SMALL, None, Some (len + 1)) w /\
  (exists stored, usb_cmd_get_serial_number h (Some buffer) (Some (Z.of_nat (length buffer))) w =
      Done (ZSA_BUFFER_RESULT_SUCCEEDED, Some stored, Some (len + 1)) w /\
    length stored = length buffer /\ strlen stored = Some len /\
    take (Z.to_nat len) stored = take (Z.to_nat len) (uc_serial_number u) /\
    drop (Z.to_nat (len + 1)) stored = drop (Z.to_nat (len + 1)) buffer) /\
  usb_cmd_get_serial_number h (Some buffer) (Some len) w = Done (ZSA_BUFFER_RESULT_TOO_SMALL, Some buffer, Some (len + 1)) w.
Proof.
  assert (Hrun : forall b size, (forall b', b = Some b' -> size <= Z.of_nat (length b')) -> _) by
    (intros b size Hb'; exact (proj1 (wp_run _ _ _) (wp_get_serial_number h u len b size w Hh Hl Hb'))).
  apply strlen_Some in Hl as Hn. destruct Hn as (n & -> & Hn & _). apply lookup_lt_Some in Hn.
  assert (Hlen : length (take n (uc_serial_number u)) = n) by (rewrite length_take; lia).
  split; [|split].
  - destruct (Hrun None 0 ltac:(done)) as (r & w' & E & -> & ->). rewrite E.
    by rewrite (proj2 (Z.ltb_lt _ _)) by lia.
  - destruct (Hrun (Some buffer) (Z.of_nat (length buffer)) ltac:(by intros ? [= ->])) as (r & w' & E & -> & ->).
    rewrite (proj2 (Z.ltb_ge _ _)) in E by lia. eexists. split; [exact E|].
    split; [rewrite !length_app, length_drop, Nat2Z.id, Hlen; cbn; lia|].
    split; [by apply strlen_stored|]. rewrite Nat2Z.id.
    split; [by rewrite take_app_length' by exact (eq_sym Hlen)|].
    rewrite app_assoc. apply drop_app_length'. rewrite length_app, Hlen. cbn. lia.
  - destruct (Hrun (Some buffer) (Z.of_nat n) ltac:(intros ? [= ->]; lia)) as (r & w' & E & -> & ->). rewrite E.
    by rewrite (proj2 (Z.ltb_lt _ _)) by lia.
Qed.
End serial.

Lemma usb_serial_number_two_calls_witness :
  let u := sample_usbcmd <| uc_serial_number := [65; 66; 67; 0; 9] |> in
  let w := init_world <| heap := {[1 := to_obj u]} |> in
  has w 1 u /\ strlen (uc_serial_number u) = Some 3 /\
  usb_cmd_get_serial_number 1 None (Some 0) w = Done (ZSA_BUFFER_RESULT_TOO_SMALL, None, Some 4) w.
Proof.
  split; [by split|]. split; [reflexivity|].
  apply (usb_serial_number_two_calls 1 (sample_usbcmd <| uc_serial_number := [65; 66; 67; 0; 9] |>) 3 [8; 8; 8; 8; 8]);
    [by split|reflexivity|cbn; lia].
Defined.
