(* ===== verification/UsbTransfer.v ===== *)
(** Ownership in a USB stream (usbstreaming.c): a transfer owns its image from
    the moment it is set up until the callback hands the image on or gives it
    back, and a transfer that is not submitted again leaves nothing behind. *)

From S2P Require Export UsbStream UsbCommand.

Section rules.
Context `{Platform} `{Usb} `{StreamClient}.
Implicit Types (u : usbcmd_context_t) (t : usb_async_transfer_data_t) (b : libusb_transfer) (w : world).

(** The outside holds no negative number of references, but perhaps to what
    is being worked on. *)
Definition settled (busy : gset Z) (ext : ledger) : Prop :=
  blocks_nonneg ext /\ forall k x, k <> KSource -> x ∉ busy -> 0 <= ext (k, x).

Lemma nonneg_settled busy ext : nonneg ext -> settled busy ext.
Proof. intros He. split; [intros b; by apply He|]. intros k x Hk _. by apply He. Qed.

(** The contexts and transfers of [w], but those in [ps], are still there,
    unchanged. *)
Definition keep (ps : list Z) (w w' : world) : Prop :=
  forall x m, x ∉ ps -> heap w !! x = Some (OModule m) -> heap w' !! x = Some (OModule m).

Lemma keep_refl ps w : keep ps w w.
Proof. by intros x m. Qed.
Lemma keep_heap ps w w' : heap w' = heap w -> keep ps w w'.
Proof. by intros E x m _ Hx; rewrite E. Qed.
Lemma keep_trans ps w1 w2 w3 : keep ps w1 w2 -> keep ps w2 w3 -> keep ps w1 w3.
Proof. intros H12 H23 x m Hx Hm. by apply H23, H12. Qed.
Lemma keep_weaken ps ps' w w' : keep ps w w' -> ps ⊆ ps' -> keep ps' w w'.
Proof. intros Hk Hs x m Hx. apply Hk. set_solver. Qed.

Lemma keep_usb ps w w' h u : keep ps w w' -> h ∉ ps -> has w h u -> has w' h u.
Proof. intros Hk Hx [Hn Hh]. split; [done|]. by apply Hk. Qed.
Lemma keep_transfer ps w w' h t : keep ps w w' -> h ∉ ps -> has w h t -> has w' h t.
Proof. intros Hk Hx [Hn Hh]. split; [done|]. by apply Hk. Qed.
Lemma keep_bulk ps w w' h b : keep ps w w' -> h ∉ ps -> has w h b -> has w' h b.
Proof. intros Hk Hx [Hn Hh]. split; [done|]. by apply Hk. Qed.

Lemma keep_store w h o o' :
  heap w !! h = Some o -> obj_kind o <> KModule -> keep [] w (w <| heap := <[h := o']> (heap w) |>).
Proof.
  intros Ho Hk x m _ Hx. cbn. rewrite lookup_insert_ne; [done|]. intros ->. rewrite Ho in Hx. injection Hx as ->. done.
Qed.

Lemma keep_module w p o : keep [p] w (w <| heap := <[p := o]> (heap w) |>).
Proof. intros x m Hx Hm. cbn. rewrite lookup_insert_ne; [done|]. set_solver. Qed.

Lemma keep_delete w p : keep [p] w (w <| heap := delete p (heap w) |>).
Proof. intros x m Hx Hm. cbn. rewrite lookup_delete_ne; [done|]. set_solver. Qed.

Lemma keep_image_step w w' : rc_step [KImage; KBlock] w w' -> keep [] w w'.
Proof. intros Hs x m _ Hx. eapply rc_step_other; [exact Hs|exact Hx|]. cbn. set_solver. Qed.

(** Addresses are not handed out twice. *)
Definition no_reuse (w w' : world) : Prop :=
  fresh w <= fresh w' /\ forall x, x < fresh w -> heap w !! x = None -> heap w' !! x = None.

Lemma no_reuse_refl w : no_reuse w w.
Proof. by split. Qed.
Lemma no_reuse_trans w1 w2 w3 : no_reuse w1 w2 -> no_reuse w2 w3 -> no_reuse w1 w3.
Proof. intros [Hf1 H12] [Hf2 H23]. split; [lia|]. intros x Hx Hn. apply H23; [lia|by apply H12]. Qed.
Lemma no_reuse_heap w w' : fresh w' = fresh w -> heap w' = heap w -> no_reuse w w'.
Proof. intros Ef Eh. split; [lia|]. by rewrite Eh. Qed.
Lemma no_reuse_store w p o o' : heap w !! p = Some o -> no_reuse w (w <| heap := <[p := o']> (heap w) |>).
Proof.
  intros Hp. split; [done|]. intros x _ Hx. cbn. rewrite lookup_insert_ne; [done|]. intros ->. congruence.
Qed.
Lemma no_reuse_delete w p : no_reuse w (w <| heap := delete p (heap w) |>).
Proof. split; [done|]. intros x _ Hx. cbn. by apply lookup_delete_None; right. Qed.
Lemma no_reuse_step ks w w' : rc_step ks w w' -> no_reuse w w'.
Proof.
  intros [Ef Hs]. split; [lia|]. intros x _ Hx. destruct (Hs x) as [E|(o & Ho & _)]; [by rewrite E|congruence].
Qed.

(** An image in the hands of a transfer. *)
Lemma owned_image busy ext w p t :
  Inv busy ext w -> settled busy ext -> has w p t -> ut_image t <> NULL -> ut_image t ∉ busy ->
  exists i : image_context_t, has w (ut_image t) i.
Proof.
  intros HI He [_ Hp] Hn Hb. set (img := ut_image t) in *.
  destruct (inv_live _ _ _ KImage img HI) as (Hn' & o & Ho & Hk); [done| |].
  - pose proof (slots_ge _ _ _ (KImage, img) Hp) as Hs. cbn in Hs. fold img in Hs.
    rewrite (nonnull_live KImage) in Hs by done. rewrite count_ref_cons, decide_True, count_ref_nil in Hs by done.
    pose proof (proj2 He KImage img ltac:(done) Hb). lia.
  - destruct o; try done. by exists i.
Qed.

(** The transfer forgets an image whose reference was dropped, or takes one
    over. *)
Lemma inv_set_image busy ext w p t img :
  Inv busy ext w -> has w p t ->
  Inv busy (fun r => ext r + count_ref r (nonnull KImage (ut_image t)) - count_ref r (nonnull KImage img))
    (w <| heap := <[p := to_obj (t <| ut_image := img |>)]> (heap w) |>).
Proof.
  intros HI [_ Hp]. eapply inv_store; [exact HI|exact Hp|done| |done|done|done|done].
  intros r. cbn. case_decide; lia.
Qed.

(** Updates of an image that leave its count, its lock and its memory alone. *)
Definition image_quiet (f : image_context_t -> image_context_t) : Prop :=
  forall i, img_ref_count (f i) = img_ref_count i /\ img_lock (f i) = img_lock i /\ img_buffer (f i) = img_buffer i /\
    img_memory_free_cb (f i) = img_memory_free_cb i.

Lemma inv_image_quiet busy ext w h (i : image_context_t) f :
  Inv busy ext w -> has w h i -> image_quiet f ->
  Inv busy ext (w <| heap := <[h := OImage (f i)]> (heap w) |>) /\
  keep [] w (w <| heap := <[h := OImage (f i)]> (heap w) |>).
Proof.
  intros HI [Hn Hh] Hf. destruct (Hf i) as (Er & El & Eb & Ec). split; [|by eapply keep_store].
  eapply inv_store; [exact HI|exact Hh|done| | | |done|done].
  - intros r. cbn. rewrite Er, Eb, Ec. case_decide; lia.
  - intros Hb _. cbn. rewrite Er. exact (inv_pos _ _ _ HI _ _ Hh Hb eq_refl).
  - intros Hb. cbn. rewrite El. exact (inv_idle _ _ _ HI _ _ Hh Hb).
Qed.

Lemma wp_image_apply_system_timestamp busy ext h (i : image_context_t) w :
  Inv busy ext w -> has w h i ->
  wp (image_apply_system_timestamp h)
     (fun _ w' => Inv busy ext w' /\ keep [] w w' /\ no_reuse w w' /\
        exists i' : image_context_t, has w' h i' /\ img_buffer_size i' = img_buffer_size i) w.
Proof.
  intros HI Hh. eapply wp_if_handle_valid; [exact Hh|]. apply wp_bind, wp_ask. destruct (clock_gettime _) as [err [s n]].
  set (w1 := w <| tick := _ |>). assert (HI1 : Inv busy ext w1) by (by apply inv_tick).
  assert (Hh1 : has w1 h i) by exact Hh. apply wp_bind, wp_when; intros _; [|apply wp_ret; split_and!; [done|by apply keep_heap|by apply no_reuse_heap|by exists i]].
  eapply wp_update; [exact Hh1|]. apply wp_ret.
  match goal with |- context [to_obj (?f i)] => destruct (inv_image_quiet busy ext w1 h i f HI1 Hh1 ltac:(done)) as [HI2 Hk] end.
  split_and!; [exact HI2|exact Hk|apply (no_reuse_trans _ w1); [by apply no_reuse_heap|eapply no_reuse_store, Hh1]|]. eexists. split; [apply has_stored, Hh|done].
Qed.

Lemma wp_image_set_size busy ext h (i : image_context_t) size w :
  Inv busy ext w -> has w h i -> size <= img_buffer_size i ->
  wp (image_set_size h size)
     (fun _ w' => Inv busy ext w' /\ keep [] w w' /\ has w' h (i <| img_buffer_size := size |>)) w.
Proof.
  intros HI Hh Hs. eapply wp_if_handle_valid; [exact Hh|]. apply wp_bind. eapply wp_load; [exact Hh|].
  rewrite (proj2 (Z.geb_le _ _)) by done. apply wp_bind, wp_ret.
  eapply wp_update; [exact Hh|]. destruct (inv_image_quiet busy ext w h i _ HI Hh
    (ltac:(done) : image_quiet (fun i => i <| img_buffer_size := size |>))) as [HI2 Hk].
  split_and!; [exact HI2|exact Hk|apply has_stored, Hh].
Qed.

(** The transfer gives its image back. *)
Definition drop_image (p : Z) (img : Z) : Mw unit :=
  image_dec_ref img;;
  update p (fun t => t <| ut_image := NULL |>).

Lemma wp_drop_image busy ext p t w :
  Inv busy ext w -> settled busy ext -> has w p t -> ut_image t <> NULL -> ut_image t ∉ busy ->
  wp (drop_image p (ut_image t))
     (fun _ w' => Inv busy ext w' /\ keep [p] w w' /\ no_reuse w w' /\ has w' p (t <| ut_image := NULL |>)) w.
Proof.
  intros HI He Hp Hn Hb. destruct (owned_image _ _ _ _ _ HI He Hp Hn Hb) as [i Hi].
  apply wp_bind. eapply wp_mono; [apply (wp_image_dec_ref busy ext _ i); [exact HI|apply He|done..]|].
  intros _ w1 (HI1 & [Hs _] & _). apply keep_image_step in Hs as Hk1.
  assert (Hp1 : has w1 p t) by (eapply keep_transfer; [exact Hk1|set_solver|exact Hp]).
  eapply wp_update; [exact Hp1|]. split_and!; [| |eapply no_reuse_trans; [by eapply no_reuse_step|eapply no_reuse_store, Hp1]|apply has_stored, Hp].
  - eapply inv_ext; [exact (inv_set_image _ _ _ _ _ NULL HI1 Hp1)|]. intros r. cbn.
    rewrite (nonnull_live KImage) by done. ledger.
  - eapply keep_trans; [eapply keep_weaken; [exact Hk1|set_solver]|apply keep_module].
Qed.

(** ** Allocation *)

(** What the code that sizes a stream has to respect, and what is known about
    addresses being worked on: only that of the context itself. *)
Record stream_ok (busy : gset Z) (h : Z) (u : usbcmd_context_t) : Prop := {
  stream_busy : forall x, x ∈ busy -> x = h;
  stream_source : uc_source u <> ALLOCATION_SOURCE_USER /\ bad_source (uc_source u) = false;
  stream_sized : 0 < uc_stream_size u /\ uc_stream_size u + sizeof_allocation_context_t <= INT32_MAX
}.

(** A failed allocation may leave one unreachable context behind. *)
Definition leaked (h source : Z) (ext : ledger) : ledger := gain (lose ext (KImage, h)) (KSource, source).

Definition books (busy : gset Z) (ext : ledger) (source : Z) (w' : world) : Prop :=
  Inv busy ext w' \/ exists h, Inv (busy ∪ {[h]}) (leaked h source ext) w'.

Lemma wp_allocate_stream_image busy ext h u p t w :
  Inv busy ext w -> settled busy ext -> has w h u -> has w p t -> ut_image t = NULL -> stream_ok busy h u ->
  wp (allocate_stream_image h p)
     (fun r w' => keep [p] w w' /\
        match r with
        | ZSA_RESULT_SUCCEEDED => exists img i, Inv busy ext w' /\ has w' p (t <| ut_image := img |>) /\
            has w' img (empty_image i (uc_stream_size u)) /\ heap w !! img = None
        | ZSA_RESULT_FAILED => books busy ext (uc_source u) w' /\ has w' p t
        end) w.
Proof.
  intros HI He Hh Hp Ht [Hb [Hs1 Hs2] [Hz1 Hz2]]. apply wp_bind. eapply wp_load; [exact Hh|].
  unfold image_create_empty_internal. cbn [negb]. rewrite (proj2 (Z.eqb_neq _ _) Hs1).
  rewrite (proj2 (Z.eqb_neq (uc_stream_size u) 0)) by lia.
  apply wp_bind. eapply wp_mono.
  { apply (wp_image_create_empty_image busy ext); [exact HI|apply He| |done|done|done].
    intros Hx. apply Hb in Hx. destruct Hh as [_ Hh]. pose proof (inv_range _ _ _ HI _ _ Hh). lia. }
  intros [r out] w1 Hpost. destruct r.
  - destruct Hpost as (img & b & ctx & -> & Himg & Hn1 & Hn2 & Eh & HI1).
    assert (Hk1 : keep [] w w1).
    { intros x m _ Hx. rewrite Eh. rewrite !lookup_insert_ne; [done|congruence..]. }
    assert (Hp1 : has w1 p t) by (eapply keep_transfer; [exact Hk1|set_solver|exact Hp]).
    apply wp_bind. eapply wp_update; [exact Hp1|]. apply wp_ret.
    split; [eapply keep_trans; [eapply keep_weaken; [exact Hk1|set_solver]|apply keep_module]|].
    assert (Hpi : p <> img) by (intros ->; destruct Hp as [_ Hp]; congruence).
    exists img, (b + sizeof_allocation_context_t). split_and!; [|apply has_stored, Hp| |done].
    + eapply inv_ext; [exact (inv_set_image _ _ _ _ _ img HI1 Hp1)|]. intros r. rewrite Ht. cbn.
      rewrite (nonnull_live KImage) by apply Himg. ledger.
    + split; [apply Himg|]. cbn. rewrite lookup_insert_ne by done. apply Himg.
  - destruct Hpost as [-> Hpost].
    assert (Hk1 : keep [] w w1).
    { destruct Hpost as [[_ E]|(x & Hx & E & _)]; intros y m _ Hy; rewrite E; [done|].
      rewrite lookup_insert_ne; [done|congruence]. }
    assert (Hp1 : has w1 p t) by (eapply keep_transfer; [exact Hk1|set_solver|exact Hp]).
    apply wp_bind. eapply wp_update; [exact Hp1|]. apply wp_ret.
    assert (Et : t <| ut_image := NULL |> = t) by (rewrite <- Ht; by destruct t). rewrite Et.
    assert (Ew : w1 <| heap := <[p := to_obj t]> (heap w1) |> = w1).
    { destruct Hp1 as [_ Hp1]. rewrite fin_maps.insert_id by done. by destruct w1. }
    rewrite Ew. split; [eapply keep_weaken; [exact Hk1|set_solver]|]. split; [|exact Hp1].
    destruct Hpost as [[HI1 _]|(x & Hx & _ & HI1)]; [by left|by right; exists x].
Qed.

(** ** Filling and submitting *)

Lemma wp_fill_bulk_transfer busy ext bulk b h u p t (i : image_context_t) w :
  Inv busy ext w -> has w bulk b -> has w h u -> has w p t -> has w (ut_image t) i ->
  wp (fill_bulk_transfer bulk p h)
     (fun _ w' => Inv busy ext w' /\ (forall x, x <> bulk -> heap w' !! x = heap w !! x) /\
        exists b', has w' bulk b' /\ lt_user_data b' = p /\ lt_buffer b' = img_buffer i /\
          lt_length b' = s32 (uc_stream_size u)) w.
Proof.
  intros HI Hb Hh Hp Hi. apply wp_bind. eapply wp_load; [exact Hh|]. apply wp_bind. eapply wp_load; [exact Hp|].
  apply wp_bind. eapply wp_if_handle_valid; [exact Hi|]. apply wp_bind. eapply wp_load; [exact Hi|]. apply wp_ret.
  eapply wp_update; [exact Hb|]. split_and!; [|intros x Hx; cbn; by rewrite lookup_insert_ne|].
  - eapply inv_module; [exact HI|apply Hb|done|done].
  - eexists. split_and!; [apply has_stored, Hb|done..].
Qed.

(** ** The clients *)

(** What a stream's client may do: anything that keeps the books and the
    USB modules, such as putting the image into a capture and the capture into
    a queue. *)
Definition client_ok : Prop := forall id result image context busy ext w,
  Inv busy ext w -> settled busy ext ->
  (image = NULL \/ (image ∉ busy) /\ (exists i : image_context_t, has w image i)) ->
  wp (stream_client id result image context) (fun _ w' => Inv busy ext w' /\ keep [] w w') w.

Lemma wp_call_stream_cb busy ext cb result image context w :
  client_ok -> callback_set cb = true -> Inv busy ext w -> settled busy ext ->
  (image = NULL \/ (image ∉ busy) /\ (exists i : image_context_t, has w image i)) ->
  wp (call_stream_cb cb result image context) (fun _ w' => Inv busy ext w' /\ keep [] w w') w.
Proof. intros Hc Hcb HI He Hi. destruct cb as [|id]; [done|]. by apply Hc. Qed.

(** ** The callback *)

(** A transfer that libusb has completed: its two structures point at each
    other, it is listed in its context, and its image has room for what
    arrived. *)
Record completed (busy : gset Z) (w : world) (bulk : Z) (b : libusb_transfer) (p : Z) (t : usb_async_transfer_data_t)
    (h : Z) (u : usbcmd_context_t) (i : image_context_t) : Prop := {
  co_bulk : has w bulk b;
  co_user_data : lt_user_data b = p;
  co_transfer : has w p t;
  co_owner : ut_usbcmd t = h;
  co_context : has w h u;
  co_listed : 0 <= ut_list_index t /\ uc_transfer_list u !! Z.to_nat (ut_list_index t) = Some p;
  co_image : has w (ut_image t) i;
  co_free : ut_image t ∉ busy;
  co_fits : 0 <= lt_actual_length b <= img_buffer_size i;
  co_size : img_buffer_size i < 2 ^ 64
}.

Lemma has_kinds_differ w (p bulk h : Z) (t : usb_async_transfer_data_t) (b : libusb_transfer) (u : usbcmd_context_t) :
  has w p t -> has w bulk b -> has w h u -> p <> bulk /\ p <> h /\ bulk <> h.
Proof. intros [_ H1'] [_ H2'] [_ H3']. cbn in *. split_and!; intros ->; congruence. Qed.

(** What the callback leaves of a transfer: it is submitted again, with a
    fresh image of its own, or it is gone, from the list, too. *)
Definition resubmitted (busy : gset Z) (ext : ledger) (bulk p h : Z) (t : usb_async_transfer_data_t) (u : usbcmd_context_t)
    (w' : world) : Prop :=
  Inv busy ext w' /\ exists b img i, has w' bulk b /\ lt_user_data b = p /\ has w' p (t <| ut_image := img |>) /\
    has w' img (empty_image i (uc_stream_size u)) /\
    lt_buffer b = i /\ lt_length b = uc_stream_size u /\ has w' h u.

Definition released_transfer (busy : gset Z) (ext : ledger) (bulk p h : Z) (t : usb_async_transfer_data_t)
    (u : usbcmd_context_t) (w' : world) : Prop :=
  books busy ext (uc_source u) w' /\ heap w' !! bulk = None /\ heap w' !! p = None /\
  has w' h (u <| uc_transfer_list := <[Z.to_nat (ut_list_index t) := NULL]> (uc_transfer_list u) |>).

Lemma settled_leaked busy ext h source : settled busy ext -> settled (busy ∪ {[h]}) (leaked h source ext).
Proof.
  intros [Hb Hk]. split.
  - intros b. specialize (Hb b). unfold leaked. ledger.
  - intros k x Hs Hx. specialize (Hk k x Hs ltac:(set_solver)). unfold leaked, gain, lose.
    assert (x <> h) by set_solver. repeat case_decide; simplify_eq; lia.
Qed.

Lemma books_step busy ext source w1 w2 :
  books busy ext source w1 ->
  (forall busy' ext', Inv busy' ext' w1 -> Inv busy' ext' w2) -> books busy ext source w2.
Proof. intros [HI|[x HI]] Hs; [left; by apply Hs|right; exists x; by apply Hs]. Qed.

Lemma wp_raw_free {T} `{!Context T} (p : Z) (c : T) w (Q : unit -> world -> Prop) :
  has w p c -> Q tt (w <| heap := delete p (heap w) |>) -> wp (raw_free T p) Q w.
Proof.
  intros Hp HQ. unfold raw_free. rewrite (proj2 (Z.eqb_neq p NULL)) by apply Hp.
  apply wp_bind. eapply wp_load; [exact Hp|]. exact HQ.
Qed.

Lemma inv_free_module busy ext w p m :
  Inv busy ext w -> heap w !! p = Some (OModule m) -> module_refs m = [] -> Inv busy ext (w <| heap := delete p (heap w) |>).
Proof.
  intros HI Hp Hr. eapply inv_delete; [exact HI|exact Hp|done|]. intros r. cbn. rewrite Hr. case_decide; rewrite count_ref_nil; lia.
Qed.

Lemma wp_set_transfer h u i v w (Q : unit -> world -> Prop) :
  has w h u -> 0 <= i < Z.of_nat (length (uc_transfer_list u)) ->
  Q tt (w <| heap := <[h := to_obj (u <| uc_transfer_list := <[Z.to_nat i := v]> (uc_transfer_list u) |>)]> (heap w) |>) ->
  wp (set_transfer h i v) Q w.
Proof.
  intros Hh Hi HQ. apply wp_bind. eapply wp_load; [exact Hh|].
  rewrite (proj2 (Z.leb_le _ _)), (proj2 (Z.ltb_lt _ _)) by lia. cbn [andb]. eapply wp_update; [exact Hh|exact HQ].
Qed.

Lemma wp_free_pair busy ext bulk b p t w :
  Inv busy ext w -> has w bulk b -> has w p t -> p <> bulk -> ut_image t = NULL ->
  wp (raw_free libusb_transfer bulk;; raw_free usb_async_transfer_data_t p)
     (fun _ w' => Inv busy ext w' /\ heap w' !! bulk = None /\ heap w' !! p = None /\ keep [bulk; p] w w' /\ no_reuse w w') w.
Proof.
  intros HI Hb Hp Hpb Ht. apply wp_bind. eapply wp_raw_free; [exact Hb|]. set (w1 := w <| heap := _ |>).
  assert (HI1 : Inv busy ext w1) by (eapply inv_free_module; [done|apply Hb|done]).
  assert (Hp1 : has w1 p t) by (eapply keep_transfer; [apply keep_delete|set_solver|exact Hp]).
  eapply wp_raw_free; [exact Hp1|]. split_and!.
  - eapply inv_free_module; [done|apply Hp1|]. cbn. by rewrite Ht.
  - cbn. rewrite lookup_delete_ne by done. apply lookup_delete_eq.
  - cbn. apply lookup_delete_eq.
  - apply (keep_trans _ _ w1); eapply keep_weaken; [exact (keep_delete w bulk)|set_solver|exact (keep_delete w1 p)|set_solver].
  - apply (no_reuse_trans _ w1); apply no_reuse_delete.
Qed.

(** A listed transfer, with or without an image. *)
Record listed (w : world) (bulk : Z) (b : libusb_transfer) (p : Z) (t : usb_async_transfer_data_t)
    (h : Z) (u : usbcmd_context_t) : Prop := {
  li_bulk : has w bulk b;
  li_user_data : lt_user_data b = p;
  li_transfer : has w p t;
  li_owner : ut_usbcmd t = h;
  li_context : has w h u;
  li_listed : 0 <= ut_list_index t /\ uc_transfer_list u !! Z.to_nat (ut_list_index t) = Some p
}.

Lemma listed_keep w w' bulk b p t h u : keep [] w w' -> listed w bulk b p t h u -> listed w' bulk b p t h u.
Proof.
  intros Hk [? ? ? ? ? ?]. split; try done.
  - eapply keep_bulk; [exact Hk|set_solver|done].
  - eapply keep_transfer; [exact Hk|set_solver|done].
  - eapply keep_usb; [exact Hk|set_solver|done].
Qed.

Lemma listed_image w w' bulk b p t img h u :
  keep [p] w w' -> has w' p (t <| ut_image := img |>) -> listed w bulk b p t h u ->
  listed w' bulk b p (t <| ut_image := img |>) h u.
Proof.
  intros Hk Hp' [Hb ? Hp ? Hh ?]. destruct (has_kinds_differ _ _ _ _ _ _ _ Hp Hb Hh) as (Hpb & Hph & _). split; try done.
  - eapply keep_bulk; [exact Hk|set_solver|done].
  - eapply keep_usb; [exact Hk|set_solver|done].
Qed.

Definition unlisted (u : usbcmd_context_t) (t : usb_async_transfer_data_t) : usbcmd_context_t :=
  u <| uc_transfer_list := <[Z.to_nat (ut_list_index t) := NULL]> (uc_transfer_list u) |>.

(** usb_cmd_release_xfr: the image, if there is one, and both structures are
    given back. *)
Lemma wp_release_xfr_inv busy ext bulk b p t h u w :
  Inv busy ext w -> settled busy ext -> (ut_image t <> NULL -> ut_image t ∉ busy) -> listed w bulk b p t h u ->
  wp (usb_cmd_release_xfr bulk)
     (fun _ w' => Inv busy ext w' /\ heap w' !! bulk = None /\ heap w' !! p = None /\ has w' h (unlisted u t) /\
                  keep [bulk; p; h] w w' /\ no_reuse w w') w.
Proof.
  intros HI He Hfree [Hb Eb Hp Eo Hh [Hi Hl]]. destruct (has_kinds_differ _ _ _ _ _ _ _ Hp Hb Hh) as (Hpb & Hph & Hbh).
  apply wp_bind. eapply wp_load; [exact Hb|]. rewrite Eb. apply wp_bind. eapply wp_load; [exact Hp|]. rewrite Eo.
  apply wp_bind. unfold get_transfer. apply wp_bind. eapply wp_load; [exact Hh|].
  rewrite (proj2 (Z.leb_le 0 _)) by done. eapply wp_need; [exact Hl|]. rewrite Z.eqb_refl. cbn [when].
  apply wp_bind. eapply wp_set_transfer; [exact Hh|split; [done|]; apply lookup_lt_Some in Hl; lia|].
  fold (unlisted u t). set (w1 := w <| heap := _ |>).
  assert (Hb1 : has w1 bulk b) by (eapply keep_bulk; [apply keep_module|set_solver|exact Hb]).
  assert (Hp1 : has w1 p t) by (eapply keep_transfer; [apply keep_module|set_solver|exact Hp]).
  assert (Hh1 : has w1 h (unlisted u t)) by (apply has_stored, Hh).
  assert (HI1 : Inv busy ext w1) by (eapply inv_module; [done|apply Hh|done|done]).
  assert (Hk1 : keep [bulk; p; h] w w1) by (eapply keep_weaken; [apply keep_module|set_solver]).
  apply wp_bind. eapply wp_mono with (P := fun _ w2 => Inv busy ext w2 /\ keep [p] w1 w2 /\ no_reuse w1 w2 /\
    has w2 p (t <| ut_image := NULL |>)).
  - destruct (Z.eqb_spec (ut_image t) NULL) as [Ht|Ht]; cbn [negb when].
    + apply wp_ret. split_and!; [done|apply keep_refl|apply no_reuse_refl|]. rewrite <- Ht. by destruct t.
    + by apply (wp_drop_image busy ext p t); [| |..|apply Hfree].
  - intros _ w2 (HI2 & Hk & Hn & Hp2).
    assert (Hb2 : has w2 bulk b) by (eapply keep_bulk; [exact Hk|set_solver|exact Hb1]).
    eapply wp_mono; [by eapply wp_free_pair|]. intros _ w3 (HB3 & Hn1 & Hn2 & Hk3 & Hn3). split_and!; [done..| | |].
    + eapply keep_usb; [exact Hk3|set_solver|]. eapply keep_usb; [exact Hk|set_solver|exact Hh1].
    + apply (keep_trans _ _ w1); [done|]. apply (keep_trans _ _ w2); (eapply keep_weaken; [eassumption|set_solver]).
    + apply (no_reuse_trans _ w1); [eapply no_reuse_store, Hh|by apply (no_reuse_trans _ w2)].
Qed.

Lemma wp_release_xfr busy ext source bulk b p t h u w :
  (if ut_image t =? NULL then books busy ext source w else Inv busy ext w) -> settled busy ext -> ut_image t ∉ busy ->
  listed w bulk b p t h u ->
  wp (usb_cmd_release_xfr bulk)
     (fun _ w' => books busy ext source w' /\ heap w' !! bulk = None /\ heap w' !! p = None /\ has w' h (unlisted u t)) w.
Proof.
  intros HB He Hfree Hli. destruct (Z.eqb_spec (ut_image t) NULL) as [Ht|Ht]; [destruct HB as [HI|[x HI]]|].
  - eapply wp_mono; [by apply (wp_release_xfr_inv busy ext bulk b p t h u)|]. intros _ w1 (? & ? & ? & ? & _). by split; [left|].
  - eapply wp_mono; [by apply (wp_release_xfr_inv _ _ bulk b p t h u _ HI (settled_leaked _ _ _ _ He))|].
    intros _ w1 (? & ? & ? & ? & _). by split; [right; exists x|].
  - eapply wp_mono; [by apply (wp_release_xfr_inv busy ext bulk b p t h u)|]. intros _ w1 (? & ? & ? & ? & _). by split; [left|].
Qed.

(** The error is reported to the client, with the image the transfer still
    has, or none. *)
Lemma wp_report_failure busy ext source bulk b p t h u w :
  client_ok -> (if ut_image t =? NULL then books busy ext source w else Inv busy ext w) -> settled busy ext ->
  ut_image t ∉ busy -> (ut_image t <> NULL -> exists i : image_context_t, has w (ut_image t) i /\ 0 <= img_buffer_size i) ->
  listed w bulk b p t h u ->
  wp (report_failure bulk p h)
     (fun _ w' => (if ut_image t =? NULL then books busy ext source w' else Inv busy ext w') /\ keep [] w w') w.
Proof.
  intros Hc HB He Hfree Hi [Hb _ Hp _ Hh _]. apply wp_bind. eapply wp_load; [exact Hb|].
  apply wp_bind. eapply wp_load; [exact Hh|]. apply wp_when; intros _; [|split; [done|apply keep_refl]].
  apply wp_when; intros Hcb; [|split; [done|apply keep_refl]].
  apply wp_bind. eapply wp_load; [exact Hp|]. apply wp_bind. destruct (Z.eqb_spec (ut_image t) NULL) as [Ht|Ht].
  - rewrite Ht. apply wp_if_handle_null, wp_bind. eapply wp_load; [exact Hp|]. rewrite Ht.
    destruct HB as [HI|[x HI]].
    + eapply wp_mono; [apply (wp_call_stream_cb busy ext); [done..|by left]|]. intros _ w1 [HI1 Hk]. split; [by left|done].
    + eapply wp_mono; [apply (wp_call_stream_cb (busy ∪ {[x]}) (leaked x source ext)); [done..|by apply settled_leaked|by left]|].
      intros _ w1 [HI1 Hk]. split; [by right; exists x|done].
  - destruct (Hi Ht) as (i & Himg & Hs). eapply wp_mono; [by apply (wp_image_set_size busy ext _ i 0)|].
    intros _ w1 (HI1 & Hk1 & Himg1). apply wp_bind. eapply wp_load; [eapply keep_transfer; [exact Hk1|set_solver|exact Hp]|].
    eapply wp_mono; [apply (wp_call_stream_cb busy ext); [done..|right; split; [done|by eexists]]|].
    intros _ w2 [HI2 Hk2]. split; [done|]. by eapply keep_trans.
Qed.

Lemma completed_listed busy w bulk b p t h u i : completed busy w bulk b p t h u i -> listed w bulk b p t h u.
Proof. intros [? ? ? ? ? ? ? ? ? ?]. by split. Qed.

(** A transfer that lost its image. *)
Definition emptied (busy : gset Z) (ext : ledger) (bulk p h : Z) (t : usb_async_transfer_data_t) (u : usbcmd_context_t)
    (w' : world) : Prop :=
  books busy ext (uc_source u) w' /\ exists b, listed w' bulk b p (t <| ut_image := NULL |>) h u.

Lemma wp_libusb_submit_transfer bulk w (Q : Z -> world -> Prop) :
  (forall err e, Q err (w <| trace := trace w ++ [e] |>)) -> wp (libusb_submit_transfer bulk) Q w.
Proof. intros HQ. apply wp_usb_call, HQ. Qed.

(** The second half of deliver_and_resubmit, from the transfer without its
    image on. *)
Lemma wp_resubmit busy ext bulk b p t h u w :
  Inv busy ext w -> settled busy ext -> stream_ok busy h u -> listed w bulk b p (t <| ut_image := NULL |>) h u ->
  wp (result ← allocate_stream_image h p;
      if ZSA_FAILED result then mret result
      else
        fill_bulk_transfer bulk p h;;
        err ← libusb_submit_transfer bulk;
        if err =? LIBUSB_SUCCESS then mret result
        else
          t ← load usb_async_transfer_data_t p;
          drop_image p (ut_image t);;
          mret ZSA_RESULT_FAILED)
     (fun r w' => match r with
        | ZSA_RESULT_SUCCEEDED => resubmitted busy ext bulk p h t u w'
        | ZSA_RESULT_FAILED => emptied busy ext bulk p h t u w'
        end) w.
Proof.
  intros HI He Hok Hli. set (t0 := t <| ut_image := NULL |>) in *.
  apply wp_bind. eapply wp_mono; [apply (wp_allocate_stream_image busy ext h u p t0); try apply Hli; done|].
  intros r w1 [Hk1 Hpost]. destruct r; cbn [ZSA_FAILED ZSA_SUCCEEDED negb].
  2: { destruct Hpost as [HB Hp1]. apply wp_ret. split; [done|]. exists b.
       eapply (listed_image w w1 bulk b p t0 NULL); [exact Hk1|exact Hp1|exact Hli]. }
  destruct Hpost as (img & buf & HI1 & Hp1 & Himg & _).
  assert (Hli1 : listed w1 bulk b p (t0 <| ut_image := img |>) h u) by (by eapply listed_image).
  assert (Hf : img ∉ busy).
  { intros Hx. apply (stream_busy _ _ _ Hok) in Hx as ->. destruct (li_context _ _ _ _ _ _ _ Hli1) as [_ Hh], Himg as [_ Himg].
    cbn in *. congruence. }
  apply wp_bind. eapply wp_mono; [apply (wp_fill_bulk_transfer busy ext bulk b h u p (t0 <| ut_image := img |>) (empty_image buf (uc_stream_size u)) w1 HI1);
    try apply Hli1; exact Himg|].
  intros _ w2 (HI2 & Hk2 & b2 & Hb2 & Eu & Eb & El).
  destruct (has_kinds_differ _ _ _ _ _ _ _ (li_transfer _ _ _ _ _ _ _ Hli1) (li_bulk _ _ _ _ _ _ _ Hli1)
    (li_context _ _ _ _ _ _ _ Hli1)) as (Hpb & Hph & Hbh).
  assert (Hk2' : keep [bulk] w1 w2) by (intros x m Hx Hm; rewrite Hk2; [done|set_solver]).
  assert (Hp2 : has w2 p (t0 <| ut_image := img |>)) by (eapply keep_transfer; [exact Hk2'|set_solver|exact Hp1]).
  assert (Hh2 : has w2 h u) by (eapply keep_usb; [exact Hk2'|set_solver|apply Hli1]).
  apply wp_bind, wp_libusb_submit_transfer. intros err e. set (w3 := w2 <| trace := _ |>).
  assert (HI3 : Inv busy ext w3) by (by apply inv_trace).
  destruct (err =? LIBUSB_SUCCESS).
  - apply wp_ret. split; [exact HI3|]. exists b2, img, buf. split_and!; [done|done|exact Hp2| |exact Eb| |exact Hh2].
    + split; [apply Himg|]. cbn. rewrite Hk2; [apply Himg|]. intros ->.
      destruct (li_bulk _ _ _ _ _ _ _ Hli1) as [_ Hx], Himg as [_ Hy]. cbn in *. congruence.
    + rewrite El. apply s32_id. destruct Hok as [_ _ [? ?]]. unfold INT32_MAX, sizeof_allocation_context_t in *. lia.
  - apply wp_bind. eapply wp_load; [exact Hp2|].
    apply wp_bind. eapply wp_mono; [apply (wp_drop_image busy ext p _ w3 HI3 He Hp2); [apply Himg|exact Hf]|].
    intros _ w4 (HI4 & Hk4 & _ & Hp4). apply wp_ret. split; [by left|]. exists b2. split; try done; try apply Hli.
    + eapply keep_bulk; [exact Hk4|set_solver|exact Hb2].
    + eapply keep_usb; [exact Hk4|set_solver|exact Hh2].
Qed.

Lemma wp_deliver_and_resubmit busy ext bulk b p t h u i w :
  client_ok -> Inv busy ext w -> settled busy ext -> stream_ok busy h u -> completed busy w bulk b p t h u i ->
  wp (deliver_and_resubmit bulk p h)
     (fun r w' => match r with
        | ZSA_RESULT_SUCCEEDED => resubmitted busy ext bulk p h t u w'
        | ZSA_RESULT_FAILED => emptied busy ext bulk p h t u w'
        end) w.
Proof.
  intros Hc HI He Hok Hco. pose proof (completed_listed _ _ _ _ _ _ _ _ _ Hco) as Hli.
  destruct Hco as [Hb Eb Hp Eo Hh Hl Hi Hfree Hfit Hsz].
  apply wp_bind. eapply wp_load; [exact Hb|]. apply wp_bind. eapply wp_load; [exact Hh|].
  apply wp_bind. eapply wp_load; [exact Hp|]. apply wp_bind.
  eapply wp_mono with (P := fun _ w1 => Inv busy ext w1 /\ keep [] w w1).
  { destruct (_ && callback_set _) eqn:E; [|apply wp_ret; split; [done|apply keep_refl]].
    apply andb_true_iff in E as [_ Hcb]. rewrite u64_id by lia.
    apply wp_bind. eapply wp_mono; [apply (wp_image_set_size busy ext _ i); [done|done|apply Hfit]|].
    intros _ w1 (HI1 & Hk1 & Hi1).
    eapply wp_mono; [apply (wp_call_stream_cb busy ext); [done..|right; split; [done|by eexists]]|].
    intros _ w2 [HI2 Hk2]. split; [done|]. by eapply keep_trans. }
  intros _ w1 [HI1 Hk1]. pose proof (listed_keep _ _ _ _ _ _ _ _ Hk1 Hli) as Hli1.
  apply wp_bind. eapply wp_load; [exact (li_transfer _ _ _ _ _ _ _ Hli1)|].
  assert (Hassoc : forall A (m1 m2 : Mw unit) (k : Mw A) Q w, wp (((m1;; m2));; k) Q w -> wp (m1;; m2;; k) Q w).
  { intros A m1 m2 k Q w'. unfold wp, mbind, M_bind. by destruct (m1 w'). }
  apply Hassoc. apply wp_bind. fold (drop_image p (ut_image t)).
  eapply wp_mono; [apply (wp_drop_image busy ext p t w1 HI1 He (li_transfer _ _ _ _ _ _ _ Hli1)); [apply Hi|exact Hfree]|].
  intros _ w2 (HI2 & Hk2 & _ & Hp2).
  pose proof (listed_image _ _ _ _ _ _ _ _ _ Hk2 Hp2 Hli1) as Hli2.
  eapply wp_mono; [|intros r w' Hr; exact Hr].
  pose proof (wp_resubmit busy ext bulk b p t h u w2 HI2 He Hok Hli2) as Hw.
  unfold wp, mbind, M_bind in *. destruct (allocate_stream_image h p w2) as [r w3|]; [|done].
  destruct (ZSA_FAILED r); [exact Hw|]. destruct (fill_bulk_transfer bulk p h w3) as [[] w4|]; [|done].
  destruct (libusb_submit_transfer bulk w4) as [err w5|]; [|done]. destruct (err =? LIBUSB_SUCCESS); [exact Hw|].
  destruct (load usb_async_transfer_data_t p w5) as [t5 w6|]; [|done].
  unfold drop_image, mbind, M_bind in Hw. by destruct (image_dec_ref (ut_image t5) w6).
Qed.

End rules.

(** * Witnesses *)

(** A client that only looks. *)
#[export] Instance idle_client : StreamClient := fun _ _ _ _ => mret tt.

Lemma idle_client_ok : client_ok.
Proof. intros id result image context busy ext w HI _ _. apply wp_ret. split; [done|apply keep_refl]. Qed.

(** The image of [sample_image_world] has been read from a stream by the only
    transfer of an open depth processor. *)
Definition sample_stream : usbcmd_context_t :=
  sample_usbcmd <| uc_source := ALLOCATION_SOURCE_USB_DEPTH |> <| uc_stream_going := true |>
    <| uc_stream_size := 1000 |> <| uc_callback := stream_cb_client 5 |>
    <| uc_transfer_list := 3 :: replicate 7 NULL |>.
Definition sample_bulk : libusb_transfer := mkBulk 302 131 4096 1000 3 2000 LIBUSB_TRANSFER_COMPLETED 600.
Definition sample_transfer_world : world :=
  let w := add_object (MBulk sample_bulk) (add_object (MTransfer (mkTransfer 2 4 NULL 0))
             (add_object (MUsb sample_stream) sample_image_world)) in
  w <| heap := <[3 := OModule (MTransfer (mkTransfer 2 4 1 0))]> (heap w) |>.

Lemma sample_transfer_inv : Inv ∅ no_refs sample_transfer_world.
Proof.
  pose proof (inv_add_module _ _ _ _ (inv_add_module _ _ _ _ (inv_add_module _ _ _ _ (proj1 sample_image_inv)
    (eq_refl : module_refs (MUsb sample_stream) = []) ltac:(done))
    (eq_refl : module_refs (MTransfer (mkTransfer 2 4 NULL 0)) = []) ltac:(done))
    (eq_refl : module_refs (MBulk sample_bulk) = []) ltac:(done)) as HI.
  eapply inv_ext; [eapply (inv_set_image _ _ _ 3 (mkTransfer 2 4 NULL 0) 1 HI); by split|].
  intros r. cbn [ut_image]. rewrite (nonnull_live KImage 1) by done. unfold nonnull. cbn [Z.eqb NULL]. ledger.
Qed.

