(* ===== verification/UsbStop.v ===== *)
(** The end of a USB stream (usbstreaming.c): when usb_cmd_stream_stop clears
    stream_going, the stream's thread leaves its loop, cancels what is still
    in flight and gives everything back, so that the join returns. *)

From S2P Require Export UsbTransfer.

Section stop.
Context `{Platform} `{Usb} `{StreamClient}.
Implicit Types (u : usbcmd_context_t) (t : usb_async_transfer_data_t) (b : libusb_transfer) (w : world).

(** ** What the thread relies on *)

(** [e] is the last event of [tr]. *)
Definition ends_with (tr : list event) (e : event) : Prop := last tr = Some e.

(** libusb reports a transfer that was cancelled with the next events it
    handles, and nothing of a device that is silent. *)
Record cancellation : Prop := {
  cancel_reported : forall tr ctx bulk, ends_with tr (EUsb (U_cancel_transfer bulk)) ->
    exists n, libusb_handle_events_answer tr ctx = (LIBUSB_SUCCESS, [(bulk, LIBUSB_TRANSFER_CANCELLED, n)]);
  silent : forall tr ctx, (forall bulk, ~ ends_with tr (EUsb (U_cancel_transfer bulk))) ->
    snd (libusb_handle_events_answer tr ctx) = []
}.

(** The other threads, one of which stops the stream no later than at the
    [N]th answer of the platform.  They leave the other modules alone and do
    not start the stream again: usb_cmd_stream_stop holds the lock until the
    thread is joined. *)
Definition stopped_by (N : nat) (h : Z) : Prop := forall n busy ext w u,
  Inv busy ext w -> has w h u -> exists g,
    Inv busy ext (others n w) /\ keep [h] w (others n w) /\ no_reuse w (others n w) /\
    trace (others n w) = trace w /\ has (others n w) h (u <| uc_stream_going := g |>) /\
    (uc_stream_going u = false \/ (N <= n)%nat -> g = false).

(** ** Transfers in flight *)

(** The [i]th entry of the list is a transfer that libusb works on. *)
Record flight (busy : gset Z) (w : world) (h i p : Z) (t : usb_async_transfer_data_t) (b : libusb_transfer) : Prop := {
  fl_transfer : has w p t;
  fl_owner : ut_usbcmd t = h;
  fl_index : ut_list_index t = i;
  fl_bulk : has w (ut_bulk_transfer t) b;
  fl_user_data : lt_user_data b = p;
  fl_image : ut_image t <> NULL /\ ut_image t ∉ busy
}.

Definition flying (busy : gset Z) (w : world) (h i p : Z) : Prop := exists t b, flight busy w h i p t b.

(** Every entry of the list, from the [k]th on, is empty or in flight; the
    entries before are empty. *)
Definition in_flight (busy : gset Z) (w : world) (h : Z) (k : nat) (l : list Z) : Prop :=
  length l = xfr_count /\
  (forall i p, l !! i = Some p -> if (i <? k)%nat then p = NULL else p = NULL \/ flying busy w h (Z.of_nat i) p).

Lemma flight_keep ps busy w w' h i p t b :
  keep ps w w' -> p ∉ ps -> ut_bulk_transfer t ∉ ps -> flight busy w h i p t b -> flight busy w' h i p t b.
Proof.
  intros Hk Hp Hb [? ? ? ? ? ?]. split; try done; [by eapply keep_transfer|by eapply keep_bulk].
Qed.

(** Two entries do not share a structure. *)
Lemma flights_apart busy w h i j p q t b t' b' :
  flight busy w h i p t b -> flight busy w h j q t' b' -> i <> j ->
  p <> q /\ ut_bulk_transfer t <> ut_bulk_transfer t' /\ p <> ut_bulk_transfer t' /\ ut_bulk_transfer t <> q.
Proof.
  intros [Hp _ Ei Hb Eb _] [Hq _ Ej Hb' Eb' _] Hij.
  assert (Hpq : p <> q) by (intros <-; by pose proof (has_inj _ _ _ _ Hp Hq); congruence).
  split_and!; [done| | |].
  - intros E. rewrite <- E in Hb'. pose proof (has_inj _ _ _ _ Hb Hb'). congruence.
  - intros E. rewrite <- E in Hb'. destruct Hp as [_ Hp], Hb' as [_ Hb']. cbn in *. congruence.
  - intros E. rewrite E in Hb. destruct Hq as [_ Hq], Hb as [_ Hb]. cbn in *. congruence.
Qed.

Lemma in_flight_keep busy w w' h k l :
  keep [h] w w' -> (exists u, has w h u) -> in_flight busy w h k l -> in_flight busy w' h k l.
Proof.
  intros Hk [u Hh] [Hl Hf]. split; [done|]. intros i p Hp. specialize (Hf i p Hp).
  destruct (i <? k)%nat; [done|]. destruct Hf as [?|(t & b & Hfl)]; [by left|right]. exists t, b.
  destruct (has_kinds_differ _ _ _ _ _ _ _ (fl_transfer _ _ _ _ _ _ _ Hfl) (fl_bulk _ _ _ _ _ _ _ Hfl) Hh) as (? & ? & ?).
  eapply flight_keep; [exact Hk|set_solver..|done].
Qed.

(** ** One call of libusb_handle_events *)

(** The callback on a cancelled transfer gives everything back. *)
Lemma wp_cb_cancelled busy ext bulk b p t h u w :
  Inv busy ext w -> settled busy ext -> ut_image t <> NULL -> ut_image t ∉ busy ->
  lt_status b = LIBUSB_TRANSFER_CANCELLED -> listed w bulk b p t h u ->
  wp (usb_cmd_libusb_cb bulk)
     (fun _ w' => Inv busy ext w' /\ heap w' !! bulk = None /\ heap w' !! p = None /\ has w' h (unlisted u t) /\
                  keep [bulk; p; h] w w' /\ no_reuse w w') w.
Proof.
  intros HI He Hn Hfree Hs Hli. destruct (owned_image _ _ _ _ _ HI He (li_transfer _ _ _ _ _ _ _ Hli) Hn Hfree) as [i Hi].
  pose proof (listed_keep w w bulk b p t h u (keep_refl _ _) Hli) as [Hb Eb Hp Eo Hh _].
  apply wp_bind. eapply wp_load; [exact Hb|]. rewrite Eb. apply wp_bind. eapply wp_load; [exact Hp|]. rewrite Eo.
  apply wp_bind. eapply wp_mono; [apply (wp_image_apply_system_timestamp busy ext _ _ _ HI Hi)|].
  intros r w1 (HI1 & Hk1 & Hn1 & _). pose proof (listed_keep _ _ _ _ _ _ _ _ Hk1 Hli) as Hli1.
  apply wp_bind. eapply wp_mono with (P := fun r w2 => r = ZSA_RESULT_FAILED /\ w2 = w1).
  { destruct (ZSA_FAILED r) eqn:Er; [destruct r; [done|]; by apply wp_ret|].
    apply wp_bind. eapply wp_load; [apply Hli1|]. rewrite Hs. cbn [Z.eqb andb orb]. by apply wp_ret. }
  intros ? ? [-> ->]. cbn [ZSA_FAILED when]. apply wp_bind. eapply wp_mono with (P := fun _ w2 => w2 = w1).
  { apply wp_bind. eapply wp_load; [apply Hli1|]. apply wp_bind. eapply wp_load; [apply Hli1|].
    rewrite Hs. replace (_ && _) with false by (by destruct (uc_stream_going u)). by apply wp_ret. }
  intros _ ? ->. eapply wp_mono; [by apply (wp_release_xfr_inv busy ext bulk b p t h u)|].
  intros _ w2 (HI2 & Hb2 & Hp2 & Hh2 & Hk2 & Hn2). split_and!; [done..| |].
  - apply (keep_trans _ _ w1); [eapply keep_weaken; [exact Hk1|set_solver]|done].
  - by apply (no_reuse_trans _ w1).
Qed.

Context (N : nat) (h : Z).
Hypothesis Hcancel : cancellation.
Hypothesis Hothers : stopped_by N h.

Definition no_cancel_pending (w : world) : Prop := forall bulk, ~ ends_with (trace w) (EUsb (U_cancel_transfer bulk)).

Lemma no_cancel_snoc w tr e : (forall bulk, e <> EUsb (U_cancel_transfer bulk)) -> no_cancel_pending (w <| trace := tr ++ [e] |>).
Proof. intros He bulk. unfold ends_with. cbn. rewrite last_snoc. intros [= E]. by apply (He bulk). Qed.

Lemma wp_handle_silent busy ext ctx u w :
  Inv busy ext w -> has w h u -> no_cancel_pending w ->
  wp (handle_events ctx)
     (fun _ w' => exists g, Inv busy ext w' /\ keep [h] w w' /\ no_reuse w w' /\ has w' h (u <| uc_stream_going := g |>) /\
        (uc_stream_going u = false \/ (N <= tick w)%nat -> g = false) /\ tick w' = S (tick w) /\ no_cancel_pending w') w.
Proof.
  intros HI Hh Hc. destruct (Hothers (tick w) _ _ _ _ HI Hh) as (g & HI1 & Hk1 & Hn1 & Et & Hh1 & Hg).
  apply wp_bind. unfold ThreadAPI_Sleep, wp at 1. set (w1 := _ <| tick := _ |>).
  apply wp_bind, wp_usb_call. assert (Etr : trace w1 = trace w) by exact Et. rewrite Etr.
  pose proof (silent Hcancel (trace w) ctx Hc) as Hs. destruct (libusb_handle_events_answer (trace w) ctx) as [err done_]. cbn in Hs. subst done_.
  apply wp_bind, wp_ret, wp_ret. exists g. split_and!; [rewrite <- Etr; apply inv_trace, inv_tick, HI1|exact Hk1|exact Hn1|exact Hh1|done|done|].
  by apply no_cancel_snoc.
Qed.

Lemma wp_handle_cancelled busy ext ctx bulk b p t u w :
  Inv busy ext w -> settled busy ext -> ut_image t <> NULL -> ut_image t ∉ busy -> listed w bulk b p t h u ->
  ends_with (trace w) (EUsb (U_cancel_transfer bulk)) -> uc_stream_going u = false ->
  wp (handle_events ctx)
     (fun err w' => err = LIBUSB_SUCCESS /\ Inv busy ext w' /\ heap w' !! bulk = None /\ heap w' !! p = None /\
        has w' h (unlisted u t) /\ keep [bulk; p; h] w w' /\ no_reuse w w') w.
Proof.
  intros HI He Hn Hfree [Hb Eb Hp Eo Hh Hl] Hc Hs. destruct (has_kinds_differ _ _ _ _ _ _ _ Hp Hb Hh) as (Hpb & Hph & Hbh).
  destruct (Hothers (tick w) _ _ _ _ HI Hh) as (g & HI1 & Hk1 & Hn1 & Et & Hh1 & Hg). rewrite Hg in Hh1 by auto.
  assert (Eu : u <| uc_stream_going := false |> = u) by (rewrite <- Hs; by destruct u). rewrite Eu in Hh1.
  apply wp_bind. unfold ThreadAPI_Sleep, wp at 1. set (w1 := _ <| tick := _ |>).
  apply wp_bind, wp_usb_call. assert (Etr : trace w1 = trace w) by exact Et. rewrite Etr.
  destruct (cancel_reported Hcancel (trace w) ctx bulk Hc) as [n ->]. set (w2 := w1 <| trace := _ |>).
  assert (HI2 : Inv busy ext w2) by (unfold w2; rewrite <- Etr; apply inv_trace, inv_tick, HI1).
  assert (Hb2 : has w2 bulk b) by (eapply (keep_bulk [h] w); [exact Hk1|set_solver|exact Hb]).
  assert (Hp2 : has w2 p t) by (eapply (keep_transfer [h] w); [exact Hk1|set_solver|exact Hp]).
  apply wp_bind. cbn [for_each]. apply wp_bind, wp_bind. eapply wp_update; [exact Hb2|].
  match goal with |- context [to_obj (_ <| lt_actual_length := n |>)] =>
    set (b3 := b <| lt_status := LIBUSB_TRANSFER_CANCELLED |> <| lt_actual_length := n |>) end.
  set (w3 := w2 <| heap := _ |>).
  assert (HI3 : Inv busy ext w3) by (eapply inv_module; [exact HI2|apply Hb2|done|done]).
  assert (Hk3 : keep [bulk] w2 w3) by apply keep_module.
  assert (Hli3 : listed w3 bulk b3 p t h u).
  { split; [apply has_stored, Hb2|done| |done| |done].
    - eapply keep_transfer; [exact Hk3|set_solver|exact Hp2].
    - eapply keep_usb; [exact Hk3|set_solver|exact Hh1]. }
  eapply wp_mono; [by apply (wp_cb_cancelled busy ext bulk b3 p t h u)|].
  intros _ w4 (HI4 & Hb4 & Hp4 & Hh4 & Hk4 & Hn4). apply wp_ret, wp_ret. split_and!; [done..| |].
  - apply (keep_trans _ _ w2); [eapply keep_weaken; [exact Hk1|set_solver]|].
    apply (keep_trans _ _ w3); [eapply keep_weaken; [exact Hk3|set_solver]|done].
  - apply (no_reuse_trans _ w2); [exact Hn1|]. apply (no_reuse_trans _ w3); [eapply no_reuse_store, Hb2|done].
Qed.

(** ** The two loops *)

Lemma wp_service_stream fuel busy ext ctx r u w :
  Inv busy ext w -> has w h u -> no_cancel_pending w -> (uc_stream_going u = false \/ (N - tick w < fuel)%nat) ->
  wp (service_stream fuel h ctx r)
     (fun _ w' => Inv busy ext w' /\ keep [h] w w' /\ no_reuse w w' /\ has w' h (u <| uc_stream_going := false |>)) w.
Proof.
  revert r u w. induction fuel as [|fuel IH]; intros r u w HI Hh Hc Hf;
    (apply wp_bind; eapply wp_load; [exact Hh|]; destruct (uc_stream_going u) eqn:Eg; cbn [negb];
     [destruct Hf as [?|Hf]; [done|]|
      apply wp_ret; split_and!; [done|apply keep_refl|apply no_reuse_refl|by rewrite <- Eg; destruct u]]); [lia|].
  apply wp_bind. eapply wp_mono; [by apply (wp_handle_silent busy ext ctx u)|].
  intros err w1 (g & HI1 & Hk1 & Hn1 & Hh1 & Hg & Et & Hc1). destruct (err <? 0).
  - apply wp_bind. eapply wp_update; [exact Hh1|]. set (w2 := w1 <| heap := _ |>).
    assert (HI2 : Inv busy ext w2) by (eapply inv_module; [exact HI1|apply Hh1|done|done]).
    eapply wp_mono; [apply (IH _ (u <| uc_stream_going := false |>) w2 HI2); [apply has_stored, Hh|exact Hc1|by left]|].
    intros _ w3 (HI3 & Hk3 & Hn3 & Hh3). split_and!; [done| | |exact Hh3].
    + apply (keep_trans _ _ w1); [done|]. apply (keep_trans _ _ w2); [apply keep_module|done].
    + apply (no_reuse_trans _ w1); [done|]. apply (no_reuse_trans _ w2); [eapply no_reuse_store, Hh1|done].
  - eapply wp_mono; [apply (IH _ (u <| uc_stream_going := g |>) w1 HI1 Hh1 Hc1)|].
    + destruct g eqn:Egg; [right|by left]. destruct (decide (N <= tick w)%nat) as [Hle|Hle]; [by discriminate Hg; right|]. lia.
    + intros _ w3 (HI3 & Hk3 & Hn3 & Hh3). split_and!; [done|by eapply keep_trans|by eapply no_reuse_trans|exact Hh3].
Qed.

Lemma in_flight_released busy w w' k p t b (u : usbcmd_context_t) :
  has w h u -> in_flight busy w h k (uc_transfer_list u) -> flight busy w h (Z.of_nat k) p t b ->
  (k < xfr_count)%nat -> keep [ut_bulk_transfer t; p; h] w w' ->
  in_flight busy w' h (S k) (uc_transfer_list (unlisted u t)) /\
  forall i q t' b', (i <> k)%nat -> flight busy w h (Z.of_nat i) q t' b' -> flight busy w' h (Z.of_nat i) q t' b'.
Proof.
  intros Hh [Hl Hf] Hfl Hk Hkeep.
  assert (Hrest : forall i q t' b', (i <> k)%nat -> flight busy w h (Z.of_nat i) q t' b' -> flight busy w' h (Z.of_nat i) q t' b').
  { intros i q t' b' Hik Hq.
    destruct (flights_apart _ _ _ _ _ _ _ _ _ _ _ Hq Hfl ltac:(lia)) as (? & ? & ? & ?).
    destruct (has_kinds_differ _ _ _ _ _ _ _ (fl_transfer _ _ _ _ _ _ _ Hq) (fl_bulk _ _ _ _ _ _ _ Hq) Hh) as (? & ? & ?).
    eapply flight_keep; [exact Hkeep|set_solver..|exact Hq]. }
  split; [|exact Hrest]. cbn. rewrite (fl_index _ _ _ _ _ _ _ Hfl), Nat2Z.id.
  split; [by rewrite length_insert|]. intros i q Hq. destruct (decide (i = k)) as [->|Hik].
  - rewrite list_lookup_insert_eq in Hq by lia. injection Hq as <-. by rewrite (proj2 (Nat.ltb_lt _ _)) by lia.
  - rewrite list_lookup_insert_ne in Hq by done. specialize (Hf i q Hq).
    destruct (Nat.ltb_spec i k), (Nat.ltb_spec i (S k)); try lia.
    destruct Hf as [?|(t' & b' & Hfl')]; [by left|right]. exists t', b'. by apply Hrest.
Qed.

Lemma wp_cancel_transfers n k busy ext ctx r u w :
  (k + n = xfr_count)%nat -> Inv busy ext w -> settled busy ext -> has w h u -> uc_stream_going u = false ->
  in_flight busy w h k (uc_transfer_list u) ->
  wp (cancel_transfers n h ctx r)
     (fun r' w' => r' = r /\ Inv busy ext w' /\ no_reuse w w' /\
        has w' h (u <| uc_transfer_list := replicate xfr_count NULL |>) /\
        forall i p t b, flight busy w h (Z.of_nat i) p t b -> uc_transfer_list u !! i = Some p ->
          heap w' !! p = None /\ heap w' !! ut_bulk_transfer t = None) w.
Proof.
  revert k r u w. induction n as [|n IH]; intros k r u w Ek HI He Hh Hs Hf.
  - apply wp_ret. split_and!; [done|done|apply no_reuse_refl| |].
    + replace (replicate xfr_count NULL) with (uc_transfer_list u); [by destruct u|]. symmetry.
      apply replicate_as_Forall. destruct Hf as [Hl Hf]. split; [done|]. apply Forall_lookup. intros i p Hp.
      specialize (Hf i p Hp). apply lookup_lt_Some in Hp. rewrite (proj2 (Nat.ltb_lt _ _)) in Hf by lia. done.
    + intros i p t b Hfl Hp. destruct Hf as [Hl Hf]. specialize (Hf i p Hp). apply lookup_lt_Some in Hp.
      rewrite (proj2 (Nat.ltb_lt _ _)) in Hf by lia. by destruct (fl_transfer _ _ _ _ _ _ _ Hfl).
  - cbn [cancel_transfers]. replace (USB_CMD_MAX_XFR_COUNT - Z.of_nat (S n)) with (Z.of_nat k)
      by (change USB_CMD_MAX_XFR_COUNT with (Z.of_nat xfr_count); lia).
    assert (Hk : (k < xfr_count)%nat) by lia.
    destruct (lookup_lt_is_Some_2 (uc_transfer_list u) k) as [p Hp]; [by rewrite (proj1 Hf)|].
    apply wp_bind, wp_bind. eapply wp_load; [exact Hh|]. rewrite (proj2 (Z.leb_le 0 _)), Nat2Z.id by lia.
    eapply wp_need; [exact Hp|]. pose proof (proj2 Hf k p Hp) as Hfp. rewrite Nat.ltb_irrefl in Hfp.
    destruct Hfp as [-> |(t & b & Hfl)].
    + cbn [Z.eqb NULL]. eapply wp_mono; [apply (IH (S k)); try done; [lia|]|done].
      split; [apply Hf|]. intros i q Hq. pose proof (proj2 Hf i q Hq) as Hi.
      destruct (Nat.ltb_spec i k), (Nat.ltb_spec i (S k)); try lia; [|done]. replace i with k in Hq by lia. congruence.
    + pose proof Hfl as [Ht Eo Ei Hb Eb [Hin Hfree]]. rewrite (proj2 (Z.eqb_neq p NULL)) by apply Ht.
      apply wp_bind. eapply wp_load; [exact Ht|]. apply wp_bind, wp_usb_call. set (w1 := w <| trace := _ |>).
      apply wp_bind. eapply wp_mono.
      { apply (wp_handle_cancelled busy ext ctx (ut_bulk_transfer t) b p t u w1); try done; [by apply inv_trace| |].
        - split; try done. rewrite Ei, Nat2Z.id. split; [lia|done].
        - unfold ends_with. cbn. apply last_snoc. }
      intros err w2 (-> & HI2 & Hb2 & Hp2 & Hh2 & Hk2 & Hn2). change (LIBUSB_SUCCESS <? 0) with false. cbv iota.
      destruct (in_flight_released busy w w2 k p t b u Hh Hf Hfl Hk Hk2) as [Hf2 Hrest].
      eapply wp_mono; [by apply (IH (S k) r (unlisted u t) w2); [lia|..]|].
      intros r' w3 (-> & HI3 & Hn3 & Hh3 & Hgone). split_and!; [done|done|by apply (no_reuse_trans _ w2)|exact Hh3|].
      intros i q t' b' Hq Hiq. destruct (decide (i = k)) as [->|Hik].
      * rewrite Hp in Hiq. injection Hiq as <-.
        rewrite <- (has_inj _ _ _ _ Ht (fl_transfer _ _ _ _ _ _ _ Hq)).
        pose proof (inv_range _ _ _ HI _ _ (proj2 Ht)). pose proof (inv_range _ _ _ HI _ _ (proj2 Hb)).
        destruct Hn2 as [Hfr _]. cbn in Hfr. split; apply Hn3; first [done|lia].
      * apply (Hgone i q t' b'); [by apply Hrest|]. cbn. rewrite Ei, Nat2Z.id. by rewrite list_lookup_insert_ne.
Qed.

End stop.

(** * Witness *)

(** The other threads stop the stream of context 2 at the third answer. *)
Definition stop_stream (n : nat) (w : world) : world :=
  match heap w !! 2 with
  | Some (OModule (MUsb u)) =>
      if (2 <=? n)%nat then w <| heap := <[2 := to_obj (u <| uc_stream_going := false |>)]> (heap w) |> else w
  | _ => w
  end.

Definition stopping_platform : Platform := {|
  ndebug := false;
  calloc_ok _ := true;
  Lock_Init_ok _ := true;
  Condition_Init_ok _ := true;
  user_alloc _ id _ := (true, id);
  clock_gettime _ := (0, (5, 7));
  environment _ := None;
  others := stop_stream;
  Condition_Wait_others _ _ w := (COND_TIMEOUT, w);
  patience := 0
|}.

Lemma stop_stream_stops : @stopped_by stopping_platform 2 2.
Proof.
  intros n busy ext w u HI Hh. pose proof Hh as [_ Ho]. cbn in Ho. unfold others. cbn. unfold stop_stream. rewrite Ho.
  destruct (Nat.leb_spec 2 n) as [Hn|Hn].
  - exists false. split_and!; [by eapply inv_module|apply keep_module|by eapply no_reuse_store|done|by apply has_stored|done].
  - exists (uc_stream_going u). split_and!; [done|apply keep_refl|apply no_reuse_refl|done|by destruct u|].
    intros [?|?]; [done|lia].
Qed.

(** A libusb that reports the cancelled transfer with the next events. *)
Definition cancelling_usb : Usb := {|
  libusb_init_answer := @libusb_init_answer sample_usb;
  libusb_set_option_answer := @libusb_set_option_answer sample_usb;
  libusb_get_device_list_answer := @libusb_get_device_list_answer sample_usb;
  libusb_get_device_descriptor_answer := @libusb_get_device_descriptor_answer sample_usb;
  libusb_open_answer := @libusb_open_answer sample_usb;
  libusb_get_bos_descriptor_answer := @libusb_get_bos_descriptor_answer sample_usb;
  libusb_get_container_id_descriptor_answer := @libusb_get_container_id_descriptor_answer sample_usb;
  libusb_get_string_descriptor_answer := @libusb_get_string_descriptor_answer sample_usb;
  libusb_get_configuration_answer := @libusb_get_configuration_answer sample_usb;
  libusb_set_configuration_answer := @libusb_set_configuration_answer sample_usb;
  libusb_kernel_driver_active_answer := @libusb_kernel_driver_active_answer sample_usb;
  libusb_detach_kernel_driver_answer := @libusb_detach_kernel_driver_answer sample_usb;
  libusb_claim_interface_answer := @libusb_claim_interface_answer sample_usb;
  libusb_release_interface_answer := @libusb_release_interface_answer sample_usb;
  libusb_bulk_transfer_answer := @libusb_bulk_transfer_answer sample_usb;
  libusb_alloc_transfer_ok := @libusb_alloc_transfer_ok sample_usb;
  libusb_submit_transfer_answer := @libusb_submit_transfer_answer sample_usb;
  libusb_handle_events_answer tr _ :=
    match last tr with
    | Some (EUsb (U_cancel_transfer bulk)) => (LIBUSB_SUCCESS, [(bulk, LIBUSB_TRANSFER_CANCELLED, 0)])
    | _ => (LIBUSB_SUCCESS, [])
    end;
  ThreadAPI_Create_ok := @ThreadAPI_Create_ok sample_usb;
  ThreadAPI_Join_others := @ThreadAPI_Join_others sample_usb
|}.

Lemma cancelling_usb_cancels : @cancellation cancelling_usb.
Proof.
  split.
  - intros tr ctx bulk Hl. exists 0. cbn. by rewrite Hl.
  - intros tr ctx Hl. cbn. destruct (last tr) as [[| |[]| |]|] eqn:E; try done. by contradiction (Hl bulk_transfer).
Qed.

