(* ===== verification/UsbDevice.v ===== *)
(** Finding, opening and closing the device (usbcommand.c): what the code
    relies on in libusb, and that every path of usb_cmd_create,
    usb_cmd_destroy and usb_cmd_get_device_count accounts for the resources
    libusb handed out. *)

From S2P Require Export UsbCommand.

(** * What libusb promises *)

(** A successful libusb_init or libusb_open stores a pointer, a device list
    has the length that is returned, and no more bytes are stored than there
    is room for. *)
Class UsbOk `{Usb} : Prop := {
  init_ok : forall t, let '(err, ctx) := libusb_init_answer t in 0 <= err -> ctx <> NULL;
  open_ok : forall t dev, let '(err, handle) := libusb_open_answer t dev in 0 <= err -> handle <> NULL;
  list_ok : forall t ctx, let '(count, devs) := libusb_get_device_list_answer t ctx in count <= Z.of_nat (length devs);
  string_ok : forall t handle index size, 0 <= size ->
    let '(err, s) := libusb_get_string_descriptor_answer t handle index size in
    0 <= err -> Z.of_nat (length s) <= size
}.

(** * A context and what it holds *)

(** The resources recorded in the context. *)
Definition held_handle (u : usbcmd_context_t) (r : usb_res) : Z :=
  if uc_libusb u =? NULL then 0 else one_res (RHandle (uc_libusb u)) r.
Definition held_context (u : usbcmd_context_t) (r : usb_res) : Z :=
  if uc_libusb_context u =? NULL then 0 else one_res (RContext (uc_libusb_context u)) r.

(** Since [w0] nothing changed but the context at [h], which is [u] now, the
    trace and the clock; of libusb's resources [extra] are out besides those
    that [u] records. *)
Record owns (w0 : world) (h : Z) (extra : usb_res -> Z) (u : usbcmd_context_t) (w : world) : Prop := mkOwns {
  owns_handle : h <> NULL;
  owns_world : w = w0 <| heap := <[h := to_obj u]> (heap w0) |> <| trace := trace w |> <| tick := tick w |>;
  owns_res : res_change (fun r => held_handle u r + held_context u r + extra r) w0 w
}.

Definition none (r : usb_res) : Z := 0.

(** What the search and the set-up leave alone. *)
Definition same_config (u u' : usbcmd_context_t) : Prop :=
  u' = u <| uc_libusb := uc_libusb u' |> <| uc_libusb_context := uc_libusb_context u' |>
         <| uc_libusb_verbosity := uc_libusb_verbosity u' |> <| uc_serial_number := uc_serial_number u' |>
         <| uc_container_id := uc_container_id u' |>.

Lemma same_config_refl u : same_config u u.
Proof. by destruct u. Qed.
Lemma same_config_trans u1 u2 u3 : same_config u1 u2 -> same_config u2 u3 -> same_config u1 u3.
Proof. intros E1 E2. unfold same_config in *. rewrite E2, E1. by destruct u1. Qed.
#[export] Hint Resolve same_config_refl : core.

Section rules.
Context `{Platform} `{Usb} `{StreamClient} `{!UsbOk}.
Implicit Types (u : usbcmd_context_t) (w : world).

Lemma owns_has w0 h extra u w : owns w0 h extra u w -> has w h u.
Proof. intros [Hn Hw _]. split; [done|]. rewrite Hw. apply lookup_insert_eq. Qed.

Lemma owns_ext w0 h extra extra' u w : owns w0 h extra u w -> (forall r, extra' r = extra r) -> owns w0 h extra' u w.
Proof. intros [Hn Hw Hr] He. split; [done..|]. intros r. by rewrite He, Hr. Qed.

Lemma wp_owns_load w0 h extra u w (Q : usbcmd_context_t -> world -> Prop) :
  owns w0 h extra u w -> Q u w -> wp (load usbcmd_context_t h) Q w.
Proof. intros Ho. eapply wp_load, owns_has, Ho. Qed.

(** A store that only forgets or records a resource that [extra] accounts
    for. *)
Lemma wp_owns_update w0 h extra extra' u f w (Q : unit -> world -> Prop) :
  owns w0 h extra u w ->
  (forall r, held_handle (f u) r + held_context (f u) r + extra' r = held_handle u r + held_context u r + extra r) ->
  (forall w', owns w0 h extra' (f u) w' -> Q tt w') ->
  wp (update h f) Q w.
Proof.
  intros Ho Hr HQ. eapply wp_update; [exact (owns_has _ _ _ _ _ Ho)|]. apply HQ. destruct Ho as [Hn Hw Hres].
  split; [done| |].
  - rewrite Hw. cbn. by rewrite fin_maps.insert_insert_eq.
  - intros r. cbn. rewrite Hres. by rewrite Hr.
Qed.

Lemma wp_owns_ask {A} w0 h extra u w (f : nat -> A) (Q : A -> world -> Prop) :
  owns w0 h extra u w -> (forall a w', owns w0 h extra u w' -> Q a w') -> wp (ask f) Q w.
Proof. intros [Hn Hw Hr] HQ. apply wp_ask, HQ. split; [done| |done]. by rewrite Hw. Qed.

Lemma wp_owns_call {A} w0 h extra u w (answer : list event -> A) log (Q : A -> world -> Prop) :
  owns w0 h extra u w ->
  (forall w' a, a = answer (trace w) ->
     owns w0 h (fun r => extra r + is_res r (acquired (EUsb (log a))) - is_res r (returned (EUsb (log a)))) u w' -> Q a w') ->
  wp (usb_call answer log) Q w.
Proof.
  intros [Hn Hw Hr] HQ. apply wp_usb_call, HQ; [done|]. split; [done| |].
  - by rewrite Hw.
  - intros r. cbn [trace update_field]. rewrite outstanding_snoc, Hr. lia.
Qed.

(** A call that hands out and takes back nothing. *)
Lemma wp_owns_neutral {A} w0 h extra u w (answer : list event -> A) log (Q : A -> world -> Prop) :
  owns w0 h extra u w -> (forall a, acquired (EUsb (log a)) = None /\ returned (EUsb (log a)) = None) ->
  (forall w', owns w0 h extra u w' -> Q (answer (trace w)) w') -> wp (usb_call answer log) Q w.
Proof.
  intros Ho Hl HQ. eapply wp_owns_call; [exact Ho|]. intros w' a -> Ho'. apply HQ.
  eapply owns_ext; [exact Ho'|]. intros r. destruct (Hl (answer (trace w))) as [Ea Er]. cbv beta. rewrite Ea, Er.
  unfold is_res. rewrite decide_False by done. lia.
Qed.

(** ** The steps of the search *)

Ltac neutral Ho := eapply wp_owns_neutral; [exact Ho|by intros []; split|].

Lemma wp_owns_set_option w0 h extra u w ctx level (Q : Z -> world -> Prop) :
  owns w0 h extra u w -> (forall err w', owns w0 h extra u w' -> Q err w') -> wp (libusb_set_option ctx level) Q w.
Proof. intros Ho HQ. neutral Ho. intros w' Ho'. by apply HQ. Qed.

Lemma wp_owns_logging w0 h extra u w ctx level (Q : unit -> world -> Prop) :
  owns w0 h extra u w -> (forall w', owns w0 h extra u w' -> Q tt w') ->
  wp (_ ← libusb_set_option ctx level; mret tt) Q w.
Proof. intros Ho HQ. apply wp_bind. eapply wp_owns_set_option; [exact Ho|]. intros err w' Ho'. by apply wp_ret, HQ. Qed.

(** The device handle is closed and forgotten. *)
Lemma wp_owns_close w0 h extra u w (Q : unit -> world -> Prop) :
  owns w0 h extra u w -> (forall w', owns w0 h extra (u <| uc_libusb := NULL |>) w' -> Q tt w') ->
  wp (libusb_close (uc_libusb u);; update h (fun u => u <| uc_libusb := NULL |>)) Q w.
Proof.
  intros Ho HQ. apply wp_bind. unfold libusb_close. destruct (Z.eqb_spec (uc_libusb u) NULL) as [E|E].
  - apply wp_ret. eapply wp_owns_update; [exact Ho| |exact HQ]. intros r. unfold held_handle. by rewrite E.
  - eapply wp_owns_call; [exact Ho|]. intros w' a _ Ho'. eapply wp_owns_update; [exact Ho'| |exact HQ].
    intros r. unfold held_handle, held_context, is_res, one_res. cbn. rewrite (proj2 (Z.eqb_neq _ _) E).
    repeat case_decide; simplify_eq; try lia.
Qed.

Lemma wp_populate_container_id w0 h extra u w :
  owns w0 h extra u w ->
  wp (populate_container_id h)
     (fun r w' => exists u', owns w0 h extra u' w' /\ same_config u u' /\
        uc_libusb u' = uc_libusb u /\ uc_libusb_context u' = uc_libusb_context u) w.
Proof.
  intros Ho. apply wp_bind. eapply wp_owns_load; [exact Ho|]. apply wp_bind. eapply wp_owns_call; [exact Ho|].
  intros w1 [err caps] _ Ho1.
  apply wp_bind. eapply wp_mono with (P := fun _ w2 => exists u2 ,
    owns w0 h (fun r => extra r + is_res r (if err <? 0 then None else Some RBosDescriptor)) u2 w2 /\
    same_config u u2 /\ uc_libusb u2 = uc_libusb u /\ uc_libusb_context u2 = uc_libusb_context u).
  - assert (Ho1' : owns w0 h (fun r => extra r + is_res r (if err <? 0 then None else Some RBosDescriptor)) u w1).
    { eapply owns_ext; [exact Ho1|]. intros r. cbn. unfold is_res. destruct (err <? 0); cbn; repeat case_decide; simplify_eq; lia. }
    assert (Hfail : wp (mret ZSA_RESULT_FAILED) (fun _ w2 => exists u2 ,
      owns w0 h (fun r => extra r + is_res r (if err <? 0 then None else Some RBosDescriptor)) u2 w2 /\
      same_config u u2 /\ uc_libusb u2 = uc_libusb u /\ uc_libusb_context u2 = uc_libusb_context u) w1)
      by (apply wp_ret; by exists u).
    destruct (ZSA_FAILED _); [destruct (TraceLibUsbError err) eqn:Et|]; cbn.
    all: destruct (find_container_cap caps) as [i|]; cbn; try exact Hfail.
    all: try (destruct (bool_decide _); [|exact Hfail]).
    all: apply wp_bind; neutral Ho1'; intros w2 Ho2;
      destruct (libusb_get_container_id_descriptor_answer _ _) as [err2 id]; cbn.
    all: destruct (err2 <? 0); [apply wp_ret; by exists u|].
    all: apply wp_bind; eapply wp_owns_update; [exact Ho2|done|]; intros w3 Ho3; apply wp_ret;
      eexists; split; [exact Ho3|]; by destruct u.
  - intros r w2 (u2 & Ho2 & Hc & El & Ec). apply wp_bind, wp_when; intros E.
    + eapply wp_owns_call; [exact Ho2|]. intros w3 [] _ Ho3. apply wp_ret. exists u2. split; [|done].
      eapply owns_ext; [exact Ho3|]. intros x. cbn. unfold is_res. destruct (err <? 0); [done|].
      repeat case_decide; simplify_eq; lia.
    + apply wp_ret. exists u2. split; [|done]. eapply owns_ext; [exact Ho2|]. intros x. cbn.
      destruct (err <? 0); [|done]. unfold is_res. rewrite decide_False by done. lia.
Qed.

Lemma wp_populate_serialnumber w0 h extra u w desc :
  owns w0 h extra u w ->
  wp (populate_serialnumber h desc)
     (fun r w' => exists s, owns w0 h extra (u <| uc_serial_number := s |>) w') w.
Proof.
  intros Ho. unfold populate_serialnumber.
  assert (Hfail : forall w', owns w0 h extra u w' ->
    wp (mret ZSA_RESULT_FAILED) (fun r w' => exists s, owns w0 h extra (u <| uc_serial_number := s |>) w') w').
  { intros w' Ho'. apply wp_ret. exists (uc_serial_number u). by destruct u. }
  destruct (_ =? 0); [by apply Hfail|]. apply wp_bind. eapply wp_owns_load; [exact Ho|]. apply wp_bind. neutral Ho.
  intros w1 Ho1. pose proof (string_ok (trace w) (uc_libusb u) (iSerialNumber desc) MAX_SERIAL_NUMBER_LENGTH ltac:(done)) as Hs.
  destruct (libusb_get_string_descriptor_answer _ _ _ _) as [err s].
  destruct (Z.ltb_spec err 0); [by apply Hfail|]. rewrite (proj2 (Z.ltb_ge _ _)) by auto.
  apply wp_bind. eapply wp_owns_update; [exact Ho1|done|]. intros w2 Ho2. apply wp_ret. by eexists.
Qed.

(** How far the search has come: nothing found and no device open, or a
    device open that has the container id asked for. *)
Definition searched (container_id : option (list Z)) (u : usbcmd_context_t) (s : find_state) : Prop :=
  if fs_found s then uc_libusb u <> NULL /\ guid_match container_id (uc_container_id u) = true /\ is_Some (fs_desc s)
  else uc_libusb u = NULL.

Definition search_post (w0 : world) (h : Z) (extra : usb_res -> Z) (container_id : option (list Z))
    (u : usbcmd_context_t) (s : find_state) (w : world) : Prop :=
  exists u', owns w0 h extra u' w /\ same_config u u' /\ uc_libusb_context u' = uc_libusb_context u /\
    searched container_id u' s.

Lemma wp_try_device w0 h extra u w dev container_id s :
  owns w0 h extra u w -> uc_libusb u = NULL -> is_Some (fs_desc s) -> fs_found s = false ->
  wp (try_device h dev container_id s) (search_post w0 h extra container_id u) w.
Proof.
  intros Ho El Hd Hf. unfold try_device. apply wp_bind.
  eapply wp_owns_update; [exact Ho|intros r; unfold held_handle; by rewrite El|]. intros w1 Ho1.
  assert (Eu : u <| uc_libusb := NULL |> = u) by (rewrite <- El; by destruct u). rewrite Eu in Ho1. clear w Ho Eu.
  apply wp_bind. eapply wp_owns_load; [exact Ho1|]. cbv zeta. apply wp_bind.
  eapply wp_owns_logging; [exact Ho1|]. intros w2 Ho2. apply wp_bind. eapply wp_owns_call; [exact Ho2|].
  intros w3 [err handle] Ea Ho3. pose proof (open_ok (trace w2) dev) as Hok. rewrite <- Ea in Hok. cbn [acquired returned] in Ho3.
  apply wp_bind. set (u1 := if err <? 0 then u else u <| uc_libusb := handle |>).
  eapply wp_mono with (P := fun _ w4 => owns w0 h extra u1 w4).
  { apply wp_when; unfold u1; destruct (Z.ltb_spec err 0) as [He|He]; try done; intros _.
    - eapply wp_owns_update; [exact Ho3| |by intros]. intros r. unfold held_handle, held_context, is_res, one_res. cbn.
      rewrite El, Z.eqb_refl. rewrite (proj2 (Z.eqb_neq handle NULL)) by auto.
      repeat case_decide; simplify_eq; try lia.
    - apply wp_ret. eapply owns_ext; [exact Ho3|]. intros r. cbn. unfold is_res. rewrite decide_False by done. lia. }
  intros _ w4 Ho4. apply wp_bind. eapply wp_owns_logging; [exact Ho4|]. intros w5 Ho5.
  unfold LIBUSB_SUCCESS. destruct (Z.ltb_spec err 0) as [He|He]; unfold u1 in *; clear u1.
  { apply wp_ret. exists u. split_and!; [exact Ho5|done|done|]. unfold searched. cbn. by rewrite Hf. }
  apply wp_bind. eapply wp_mono; [apply (wp_populate_container_id _ _ _ _ _ Ho5)|].
  intros r w6 (u2 & Ho6 & Hc & El2 & Ec2). apply wp_bind. eapply wp_owns_load; [exact Ho6|]. cbv zeta.
  assert (Hc2 : same_config u u2) by (eapply same_config_trans; [|exact Hc]; by destruct u).
  apply wp_bind, wp_when; intros Ef.
  - eapply wp_owns_close; [exact Ho6|]. intros w7 Ho7. apply wp_ret. eexists. split; [exact Ho7|].
    split; [eapply same_config_trans; [exact Hc2|]; by destruct u2|]. split; [exact Ec2|].
    unfold searched. cbn. by destruct (_ && _).
  - apply wp_ret. exists u2. split_and!; [exact Ho6|done|done|]. unfold searched. cbn.
    apply negb_false_iff in Ef. rewrite Ef. apply andb_true_iff in Ef as [_ Ef]. split_and!; [|done|done].
    rewrite El2. by apply Hok.
Qed.

Lemma wp_find_step w0 h extra u w dev device_index container_id s :
  owns w0 h extra u w -> uc_libusb u = NULL -> fs_found s = false ->
  wp (find_step h dev device_index container_id s) (search_post w0 h extra container_id u) w.
Proof.
  intros Ho El Hf. unfold find_step. apply wp_bind. eapply wp_owns_load; [exact Ho|]. apply wp_bind. neutral Ho.
  intros w1 Ho1. destruct (libusb_get_device_descriptor_answer _ _) as [err desc].
  assert (Hstay : forall s w', fs_found s = false -> owns w0 h extra u w' -> search_post w0 h extra container_id u s w').
  { intros s' w' Hs Ho'. exists u. split_and!; [done..|]. unfold searched. by rewrite Hs. }
  destruct (err <? 0).
  - assert (Eu : u <| uc_libusb := NULL |> = u) by (rewrite <- El; by destruct u).
    apply wp_bind. eapply wp_owns_update; [exact Ho1|by rewrite Eu|]. rewrite Eu. intros w2 Ho2.
    apply wp_bind, wp_ret, wp_bind. eapply wp_owns_update; [exact Ho2|by rewrite Eu|]. rewrite Eu. intros w3 Ho3.
    by apply wp_ret, Hstay.
  - cbv zeta. destruct (_ || _); [by apply wp_ret, Hstay|]. destruct (_ && _); [by apply wp_ret, Hstay|].
    by apply wp_try_device.
Qed.

Lemma search_post_trans w0 h extra container_id u u' s w :
  same_config u u' -> uc_libusb_context u' = uc_libusb_context u ->
  search_post w0 h extra container_id u' s w -> search_post w0 h extra container_id u s w.
Proof.
  intros Hc Ec (u2 & Ho & Hc2 & Ec2 & Hs). exists u2. split_and!; [done| |congruence|done].
  by eapply same_config_trans.
Qed.

Lemma wp_find_loop h extra device_index container_id devs w0 loops : forall u w s,
  owns w0 h extra u w -> searched container_id u s ->
  (forall i, i ∈ loops -> 0 <= i < Z.of_nat (length devs)) ->
  wp (find_loop h device_index container_id devs loops s) (search_post w0 h extra container_id u) w.
Proof.
  induction loops as [|i loops IH]; intros u w s Ho Hs Hl.
  { apply wp_ret. by exists u. }
  cbn [find_loop]. destruct (fs_found s) eqn:Hf; [apply wp_ret; by exists u|].
  destruct (lookup_lt_is_Some_2 devs (Z.to_nat i)) as [dev Ed]; [specialize (Hl i ltac:(set_solver)); lia|].
  rewrite Ed. apply wp_bind, wp_ret, wp_bind. unfold searched in Hs. rewrite Hf in Hs.
  eapply wp_mono; [apply (wp_find_step _ _ _ _ _ dev device_index container_id s Ho Hs Hf)|].
  intros s1 w1 (u1 & Ho1 & Hc & Ec & Hs1). eapply wp_mono; [apply (IH u1 w1 s1 Ho1 Hs1)|].
  - intros j Hj. apply Hl. set_solver.
  - intros s2 w2 Hp. by eapply search_post_trans.
Qed.

Definition found_post (w0 : world) (h : Z) (container_id : option (list Z)) (u : usbcmd_context_t)
    (r : zsa_result_t * option libusb_device_descriptor) (w : world) : Prop :=
  exists u', owns w0 h none u' w /\ same_config u u' /\
    (fst r = ZSA_RESULT_SUCCEEDED ->
       uc_libusb u' <> NULL /\ guid_match container_id (uc_container_id u') = true /\ is_Some (snd r)).

(** libusb_init, and the context it stores. *)
Lemma wp_init_context w0 h u w (Q : Z -> world -> Prop) :
  owns w0 h none u w -> uc_libusb_context u = NULL ->
  (forall err ctx w', owns w0 h none (if err <? 0 then u else u <| uc_libusb_context := ctx |>) w' -> Q err w') ->
  wp ('(err, ctx) ← libusb_init;
      when (negb (err <? 0)) (update h (fun u => u <| uc_libusb_context := ctx |>));;
      mret err) Q w.
Proof.
  intros Ho Ec HQ. apply wp_bind. eapply wp_owns_call; [exact Ho|]. intros w1 [err ctx] Ea Ho1.
  pose proof (init_ok (trace w)) as Hok. rewrite <- Ea in Hok. cbn [acquired returned] in Ho1. specialize (HQ err ctx).
  apply wp_bind. destruct (Z.ltb_spec err 0) as [He|He]; cbn.
  - apply wp_ret, HQ. eapply owns_ext; [exact Ho1|]. intros r. unfold is_res, none. by rewrite !decide_False by done.
  - eapply wp_owns_update; [exact Ho1| |]; [|intros w2 Ho2; by apply wp_ret, HQ].
    intros r. unfold held_handle, held_context, is_res, one_res, none. cbn. rewrite Ec, Z.eqb_refl.
    rewrite (proj2 (Z.eqb_neq ctx NULL)) by auto. repeat case_decide; simplify_eq; try lia.
Qed.

Definition list_res (devs : option (list Z)) (r : usb_res) : Z :=
  match devs with Some _ => one_res RDeviceList r | None => 0 end.

Lemma wp_owns_get_list w0 h u w ctx (Q : Z * option (list Z) -> world -> Prop) :
  owns w0 h none u w ->
  (forall count devs w', owns w0 h (list_res devs) u w' ->
     (0 < count -> exists l, devs = Some l /\ count <= Z.of_nat (length l)) -> Q (count, devs) w') ->
  wp (libusb_get_device_list ctx) Q w.
Proof.
  intros Ho HQ. apply wp_bind. eapply wp_owns_call; [exact Ho|]. intros w1 [count devs] Ea Ho1.
  pose proof (list_ok (trace w) ctx) as Hok. rewrite <- Ea in Hok. cbn [acquired returned] in Ho1.
  apply wp_ret, HQ.
  - eapply owns_ext; [exact Ho1|]. intros r. unfold list_res, is_res, one_res, none.
    destruct (count <? 0); repeat case_decide; simplify_eq; lia.
  - intros Hc. rewrite (proj2 (Z.ltb_ge count 0)) by lia. by exists devs.
Qed.

Lemma wp_owns_free_list w0 h u w devs (Q : unit -> world -> Prop) :
  owns w0 h (list_res devs) u w -> (forall w', owns w0 h none u w' -> Q tt w') ->
  wp (libusb_free_device_list devs) Q w.
Proof.
  intros Ho HQ. destruct devs as [devs|]; [|by apply wp_ret, HQ].
  eapply wp_owns_call; [exact Ho|]. intros w1 [] _ Ho1. apply HQ. eapply owns_ext; [exact Ho1|].
  intros r. cbn. unfold is_res, one_res, none. repeat case_decide; simplify_eq; lia.
Qed.

Lemma wp_find_libusb_device w0 h u w device_index container_id :
  owns w0 h none u w -> uc_libusb_context u = NULL -> uc_libusb u = NULL ->
  wp (find_libusb_device device_index container_id h) (found_post w0 h container_id u) w.
Proof.
  intros Ho Ec El. unfold find_libusb_device.
  pose proof (wp_init_context w0 h u w) as Hi.
  assert (Hbind : forall (f : Z -> Mw (zsa_result_t * option libusb_device_descriptor)) Q,
    wp (e ← ('(err, ctx) ← libusb_init;
      when (negb (err <? 0)) (update h (fun u => u <| uc_libusb_context := ctx |>));; mret err); f e) Q w ->
    wp ('(err, ctx) ← libusb_init;
      when (negb (err <? 0)) (update h (fun u => u <| uc_libusb_context := ctx |>));; f err) Q w).
  { intros f Q. unfold wp, mbind, M_bind, libusb_init, usb_call, mret, M_ret.
    destruct (libusb_init_answer (trace w)) as [err ctx]. by destruct (when _ _ _). }
  apply Hbind, wp_bind. apply Hi; [exact Ho|exact Ec|]. clear Hbind Hi. intros err ctx w1 Ho1.
  set (u1 := if err <? 0 then u else u <| uc_libusb_context := ctx |>) in *.
  assert (Hc1 : same_config u u1) by (unfold u1; destruct (err <? 0), u; done).
  assert (El1 : uc_libusb u1 = NULL) by (unfold u1; by destruct (err <? 0)).
  apply wp_bind. eapply wp_mono with (P := fun _ w2 => exists u2, owns w0 h none u2 w2 /\ same_config u u2 /\ uc_libusb u2 = NULL).
  { destruct (err <? 0); [apply wp_ret; by exists u1|]. unfold usb_cmd_set_libusb_debug_verbosity.
    apply wp_bind. eapply wp_owns_load; [exact Ho1|]. apply wp_bind. eapply wp_owns_update; [exact Ho1|done|].
    intros w2 Ho2. apply wp_bind. eapply wp_owns_set_option; [exact Ho2|]. intros e w3 Ho3. apply wp_ret.
    eexists. split; [exact Ho3|]. split; [|done]. eapply same_config_trans; [exact Hc1|]. by destruct u1. }
  clear Ho1 Hc1 El1. clearbody u1. intros result w2 (u2 & Ho2 & Hc2 & El2).
  apply wp_bind. eapply wp_mono with (P := fun '(_, count, devs) w3 => owns w0 h (list_res devs) u2 w3 /\
    (0 < count -> exists l, devs = Some l /\ count <= Z.of_nat (length l))).
  { destruct (ZSA_FAILED result); [apply wp_ret; split; [exact Ho2|lia]|].
    apply wp_bind. eapply wp_owns_load; [exact Ho2|]. apply wp_bind. eapply wp_owns_logging; [exact Ho2|].
    intros w3 Ho3. apply wp_bind. eapply wp_owns_get_list; [exact Ho3|]. intros count devs w4 Ho4 Hl.
    apply wp_bind. eapply wp_owns_logging; [exact Ho4|]. intros w5 Ho5. by apply wp_ret. }
  intros [[result' count] devs] w3 [Ho3 Hl]. cbv zeta.
  apply wp_bind. eapply wp_mono with (P := search_post w0 h (list_res devs) container_id u2).
  { destruct (ZSA_FAILED _); [apply wp_ret; by exists u2|]. eapply wp_find_loop; [exact Ho3|done|].
    intros i Hin. apply elem_of_seqZ in Hin. destruct Hl as (l & -> & Hl); [lia|]. cbn. lia. }
  intros s w4 (u4 & Ho4 & Hc4 & Ec4 & Hs). apply wp_bind.
  eapply wp_mono with (P := fun _ w5 => exists u5, owns w0 h (list_res devs) u5 w5 /\ same_config u u5 /\
    (fs_found s = true -> u5 = u4)).
  { apply wp_when; intros Hf.
    - apply wp_bind. eapply wp_owns_load; [exact Ho4|]. apply negb_true_iff in Hf. apply wp_when; intros _.
      + eapply wp_owns_close; [exact Ho4|]. intros w5 Ho5. eexists. split; [exact Ho5|].
        split; [|congruence]. eapply same_config_trans; [exact Hc2|]. eapply same_config_trans; [exact Hc4|]. by destruct u4.
      + exists u4. split; [exact Ho4|]. split; [|done]. by eapply same_config_trans.
    - exists u4. split; [exact Ho4|]. split; [|done]. by eapply same_config_trans. }
  intros _ w5 (u5 & Ho5 & Hc5 & E5). apply wp_bind. eapply wp_owns_free_list; [exact Ho5|]. intros w6 Ho6.
  apply wp_ret. exists u5. split; [exact Ho6|]. split; [exact Hc5|]. cbn. destruct (fs_found s) eqn:Hf; [|done].
  intros _. rewrite (E5 eq_refl). unfold searched in Hs. by rewrite Hf in Hs.
Qed.

Lemma wp_claim_device w0 h extra u w :
  owns w0 h extra u w -> wp (claim_device h) (fun _ w' => owns w0 h extra u w') w.
Proof.
  intros Ho. unfold claim_device. apply wp_bind. eapply wp_owns_load; [exact Ho|]. apply wp_bind. neutral Ho.
  intros w1 Ho1. destruct (libusb_get_configuration_answer _ _) as [err config].
  assert (Hthen : forall result w' (m : Mw zsa_result_t), owns w0 h extra u w' ->
    wp m (fun _ w'' => owns w0 h extra u w'') w' -> wp (and_then result m) (fun _ w'' => owns w0 h extra u w'') w').
  { intros result w' m Ho' Hm. unfold and_then. destruct (ZSA_SUCCEEDED result); [exact Hm|by apply wp_ret]. }
  apply wp_bind. eapply wp_mono; [apply Hthen; [exact Ho1|]|].
  { destruct (config =? _); [by apply wp_ret|]. apply wp_bind. neutral Ho1. intros w2 Ho2. by apply wp_ret. }
  intros r2 w2 Ho2. apply wp_bind. eapply wp_mono; [apply Hthen; [exact Ho2|]|].
  { apply wp_bind. change (wp (libusb_kernel_driver_active (uc_libusb u) (uc_interface u)) ?Q w2) with
      (Q (libusb_kernel_driver_active_answer (trace w2) (uc_libusb u) (uc_interface u)) w2). cbv beta.
    destruct (_ =? 1); [|by apply wp_ret]. apply wp_bind. neutral Ho2. intros w3 Ho3. by apply wp_ret. }
  intros r3 w3 Ho3. apply Hthen; [exact Ho3|]. apply wp_bind. neutral Ho3. intros w4 Ho4. by apply wp_ret.
Qed.

(** ** Closing *)

Lemma wp_owns_lock w0 h extra u w (Q : unit -> world -> Prop) :
  owns w0 h extra u w -> uc_lock u <> LockHeld ->
  (forall w', owns w0 h extra (u <| uc_lock := match uc_lock u with LockNull => LockNull | _ => LockHeld end |>) w' -> Q tt w') ->
  wp (Lock uc_lock h) Q w.
Proof.
  intros Ho Hl HQ. apply wp_bind. eapply wp_owns_load; [exact Ho|]. apply wp_bind.
  destruct (uc_lock u); [apply wp_ret|apply wp_ret|done]; (eapply wp_owns_update; [exact Ho|done|exact HQ]).
Qed.

Lemma wp_owns_unlock w0 h extra u w (Q : unit -> world -> Prop) :
  owns w0 h extra u w -> (forall w', owns w0 h extra (u <| uc_lock := lock_release (uc_lock u) |>) w' -> Q tt w') ->
  wp (Unlock uc_lock h) Q w.
Proof.
  intros Ho HQ. apply wp_bind. eapply wp_owns_load; [exact Ho|]. eapply wp_owns_update; [exact Ho|done|exact HQ].
Qed.

(** Stopping a stream that is not going. *)
Lemma wp_stream_stop_idle w0 h extra u w :
  owns w0 h extra u w -> uc_lock u <> LockHeld -> uc_stream_handle u = NULL ->
  wp (usb_cmd_stream_stop h) (fun _ w' => owns w0 h extra (u <| uc_stream_going := false |>) w') w.
Proof.
  intros Ho Hl Hs. eapply wp_if_handle_valid; [exact (owns_has _ _ _ _ _ Ho)|].
  apply wp_bind. eapply wp_owns_lock; [exact Ho|exact Hl|]. intros w1 Ho1.
  apply wp_bind. eapply wp_owns_update; [exact Ho1|done|]. intros w2 Ho2.
  apply wp_bind. eapply wp_owns_load; [exact Ho2|]. apply wp_bind, wp_when; intros E; [cbn in E; by rewrite Hs in E|].
  apply wp_bind. eapply wp_owns_unlock; [exact Ho2|]. intros w3 Ho3. apply wp_ret.
  match type of Ho3 with owns _ _ _ ?v _ => assert (Ev : v = u <| uc_stream_going := false |>) end.
  { destruct u; cbn in *. by destruct uc_lock. }
  rewrite Ev in Ho3. exact Ho3.
Qed.

(** After usb_cmd_destroy the context is gone, and so is everything it
    recorded. *)
Lemma wp_usb_cmd_destroy w0 h u w :
  owns w0 h none u w -> uc_lock u <> LockHeld -> uc_stream_handle u = NULL ->
  wp (usb_cmd_destroy h) (fun _ w' => w' = w0 <| heap := delete h (heap w0) |> <| trace := trace w' |> <| tick := tick w' |> /\
    res_change none w0 w') w.
Proof.
  intros Ho Hl Hs. eapply wp_if_handle_valid; [exact (owns_has _ _ _ _ _ Ho)|].
  apply wp_bind. eapply wp_mono; [apply (wp_stream_stop_idle _ _ _ _ _ Ho Hl Hs)|]. intros r0 w1 Ho1. cbv beta in Ho1.
  assert (exists u1, owns w0 h none u1 w1 /\ uc_lock u1 <> LockHeld) as (u1 & Ho2 & Hl2) by (eexists; split; [exact Ho1|done]).
  clear u w Ho Hl Hs Ho1. rename u1 into u, Ho2 into Ho, Hl2 into Hl.
  apply wp_bind. eapply wp_owns_load; [exact Ho|]. apply wp_bind.
  eapply wp_mono with (P := fun _ w2 => exists u2, owns w0 h none u2 w2).
  { apply wp_when; intros _; [|by exists u]. apply wp_bind. eapply wp_owns_lock; [exact Ho|exact Hl|]. intros w2 Ho2.
    eapply wp_owns_unlock; [exact Ho2|]. intros w3 Ho3. by eexists. }
  clear u Ho Hl. intros _ w2 [u Ho]. apply wp_bind. eapply wp_owns_load; [exact Ho|]. apply wp_bind.
  eapply wp_mono with (P := fun _ w3 => exists u3, owns w0 h none u3 w3 /\ uc_libusb u3 = NULL).
  { apply wp_when; intros E.
    - apply wp_bind. neutral Ho. intros w3 Ho3. eapply wp_owns_close; [exact Ho3|]. intros w4 Ho4. by eexists.
    - exists u. split; [exact Ho|]. by apply negb_false_iff, Z.eqb_eq in E. }
  clear u Ho. intros _ w3 (u & Ho & El). apply wp_bind. eapply wp_owns_load; [exact Ho|]. apply wp_bind.
  eapply wp_mono with (P := fun _ w4 => exists u4, owns w0 h none u4 w4 /\ uc_libusb u4 = NULL /\ uc_libusb_context u4 = NULL).
  { apply wp_when; intros E.
    - apply negb_true_iff, Z.eqb_neq in E. apply wp_bind. eapply wp_owns_call; [exact Ho|]. intros w4 [] _ Ho4.
      eapply wp_owns_update with (extra' := none); [exact Ho4| |intros w5 Ho5; by eexists].
      intros r. unfold held_handle, held_context, is_res, one_res, none. cbn.
      rewrite (proj2 (Z.eqb_neq _ _) E). repeat case_decide; simplify_eq; try lia.
    - exists u. split_and!; [exact Ho|done|]. by apply negb_false_iff, Z.eqb_eq in E. }
  clear u Ho El. intros _ w4 (u & Ho & El & Ec). apply wp_bind. eapply wp_owns_load; [exact Ho|]. apply wp_bind.
  eapply wp_mono with (P := fun _ w5 => exists u5, owns w0 h none u5 w5 /\ uc_libusb u5 = NULL /\ uc_libusb_context u5 = NULL).
  { apply wp_when; intros E; [|by exists u]. eapply wp_owns_update; [exact Ho|done|]. intros w5 Ho5. by eexists. }
  clear u Ho El Ec. intros _ w5 (u & Ho & El & Ec). eapply wp_destroy; [exact (owns_has _ _ _ _ _ Ho)|].
  destruct Ho as [_ Hw Hr]. split.
  - rewrite Hw. cbn. by rewrite fin_maps.delete_insert_eq.
  - intros r. cbn. rewrite Hr. unfold held_handle, held_context, none. by rewrite El, Ec.
Qed.

(** ** Opening *)

Definition opened (device_type : usb_command_device_type_t) (container_id : option (list Z)) (u : usbcmd_context_t) : Prop :=
  same_config (select_device device_type ((zeroed (T := usbcmd_context_t)) <| uc_lock := LockFree |>)) u /\
  uc_libusb u <> NULL /\ guid_match container_id (uc_container_id u) = true.

(** A world in which only calls were made. *)
Definition only_calls (w w' : world) : Prop :=
  w' = w <| trace := trace w' |> <| tick := tick w' |> /\ res_change none w w'.

(** Whichever step fails, usb_cmd_create leaves nothing behind; if none
    does, the context describes the device that was asked for. *)
Definition create_post (device_type : usb_command_device_type_t) (container_id : option (list Z)) (w : world)
    (r : zsa_result_t * option Z) (w' : world) : Prop :=
  match r with
  | (ZSA_RESULT_SUCCEEDED, out) =>
      out = Some (fresh w) /\ exists u, owns (w <| fresh := fresh w + 1 |>) (fresh w) none u w' /\
        opened device_type container_id u
  | (ZSA_RESULT_FAILED, out) =>
      out = Some NULL /\ exists n, 0 <= n <= 1 /\ only_calls (w <| fresh := fresh w + n |>) w'
  end.

Lemma owns_created w t : heap w !! fresh w = None -> 0 < fresh w ->
  owns (w <| fresh := fresh w + 1 |>) (fresh w) none (zeroed (T := usbcmd_context_t))
    (w <| tick := t |> <| heap := <[fresh w := to_obj (zeroed (T := usbcmd_context_t))]> (heap w) |> <| fresh := fresh w + 1 |>).
Proof.
  intros Hn Hf. split; [unfold NULL; lia|by destruct w|]. intros r. cbn. unfold none. lia.
Qed.

(** A step that failed: the context, which is still the only thing made, goes
    away again. *)
Lemma wp_create_failed device_type container_id u result w w' :
  heap w !! fresh w = None -> owns (w <| fresh := fresh w + 1 |>) (fresh w) none u w' ->
  uc_lock u <> LockHeld -> uc_stream_handle u = NULL -> ZSA_FAILED result = true ->
  wp (usb_cmd_destroy (fresh w);; mret (result, Some NULL)) (create_post device_type container_id w) w'.
Proof.
  intros Hnone Ho Hl Hs Hr. apply wp_bind. eapply wp_mono; [exact (wp_usb_cmd_destroy _ _ _ _ Ho Hl Hs)|].
  intros _ w2 [E Hres]. apply wp_ret. destruct result; [done|]. split; [done|]. exists 1. split; [done|]. split.
  - rewrite E. cbn. by rewrite delete_id.
  - exact Hres.
Qed.

(** usb_cmd_create, from the new context on. *)
Lemma wp_create_steps device_type device_index container_id w t :
  0 < fresh w -> heap w !! fresh w = None -> device_type <> USB_DEVICE_TYPE_COUNT ->
  wp (
    result ← and_then (ZSA_RESULT_FROM_BOOL (negb (fresh w =? NULL))) (
      update (fresh w) (fun u => u <| uc_stream_going := false |>);;
      l ← Lock_Init;
      update (fresh w) (fun u => u <| uc_lock := l |>);;
      mret (ZSA_RESULT_FROM_BOOL (bool_decide (l <> LockNull))));
    '(result, desc) ← (if ZSA_FAILED result then mret (result, None)
                       else
                         update (fresh w) (select_device device_type);;
                         find_libusb_device device_index container_id (fresh w));
    result ← and_then result (desc ← need Uninitialised desc; populate_serialnumber (fresh w) desc);
    result ← and_then result (claim_device (fresh w));
    if ZSA_FAILED result then usb_cmd_destroy (fresh w);; mret (result, Some NULL)
    else mret (result, Some (fresh w))) (create_post device_type container_id w)
  (w <| tick := t |> <| heap := <[fresh w := to_obj (zeroed (T := usbcmd_context_t))]> (heap w) |> <| fresh := fresh w + 1 |>).
Proof.
  intros Hf Hnone Hd. set (w0 := w <| fresh := fresh w + 1 |>).
  pose proof (owns_created w t Hnone Hf) as Ho. fold w0 in Ho.
  set (h := fresh w) in *. rewrite (proj2 (Z.eqb_neq h NULL)) by (unfold NULL; lia). cbn [negb].
  apply wp_bind, wp_bind. eapply wp_owns_update; [exact Ho|done|]. intros w1 Ho1.
  apply wp_bind, wp_bind. eapply wp_owns_ask; [exact Ho1|]. intros ok w2 Ho2. apply wp_ret.
  apply wp_bind. eapply wp_owns_update; [exact Ho2|done|]. intros w3 Ho3. apply wp_ret.
  destruct ok; cbn [negb].
  2: { apply wp_bind, wp_ret, wp_bind, wp_ret, wp_bind, wp_ret. by eapply wp_create_failed. }
  apply wp_bind, wp_bind. eapply wp_owns_update; [exact Ho3|by destruct device_type|]. intros w4 Ho4.
  eapply wp_mono; [apply (wp_find_libusb_device _ _ _ _ device_index container_id Ho4); by destruct device_type|].
  intros [result desc] w5 (u5 & Ho5 & Hc5 & Hs5). cbn [fst snd] in Hs5.
  assert (Hu5 : uc_lock u5 <> LockHeld /\ uc_stream_handle u5 = NULL) by (rewrite Hc5; by destruct device_type).
  destruct Hu5 as [Hl5 Hh5]. destruct result; cbn [ZSA_FAILED ZSA_SUCCEEDED negb and_then].
  2: { apply wp_bind, wp_ret, wp_bind, wp_ret. by eapply wp_create_failed. }
  destruct Hs5 as (El5 & Eg5 & [d ->]); [done|]. apply wp_bind, wp_bind, wp_ret.
  eapply wp_mono; [apply (wp_populate_serialnumber _ _ _ _ _ d Ho5)|]. intros result w6 [s Ho6]. apply wp_bind.
  eapply wp_mono with (P := fun _ w7 => owns w0 h none (u5 <| uc_serial_number := s |>) w7).
  { unfold and_then. destruct (ZSA_SUCCEEDED result); [by apply wp_claim_device|by apply wp_ret]. }
  intros result' w7 Ho7. destruct result'; [|by eapply wp_create_failed]. apply wp_ret. split; [done|].
  eexists. split; [exact Ho7|]. split; [|split; [exact El5|exact Eg5]].
  eapply same_config_trans; [|eapply same_config_trans; [exact Hc5|by destruct u5]]. by destruct device_type.
Qed.

Lemma wp_usb_cmd_create busy ext w device_type device_index container_id :
  Inv busy ext w -> device_type <> USB_DEVICE_TYPE_COUNT ->
  wp (usb_cmd_create device_type device_index container_id true) (create_post device_type container_id w) w.
Proof.
  intros HI Hd. pose proof (inv_fresh _ _ _ HI) as Hf. pose proof (inv_fresh_none _ _ _ HI) as Hnone.
  unfold usb_cmd_create. destruct device_type; [..|done]; cbn [negb]; apply wp_bind;
    (apply wp_handle_create; [exact Hf| |intros t; by apply wp_create_steps]); intros t.
  all: do 4 apply wp_bind, wp_ret; cbn [ZSA_FAILED ZSA_SUCCEEDED negb and_then].
  all: apply wp_bind; (apply wp_if_handle_null, wp_ret; split; [done|]; exists 0; split; [done|]; split).
  all: first [by destruct w; cbn; rewrite Z.add_0_r | intros r; cbn; unfold none; lia].
Qed.

(** * Properties *)

Lemma only_calls_inv busy ext n w w' : 
  Inv busy ext w -> 0 <= n -> only_calls (w <| fresh := fresh w + n |>) w' -> Inv busy ext w'.
Proof.
  intros HI Hn [-> _].
  apply (inv_frame _ _ (w <| fresh := fresh w + n |>)); try done; [|intros g Hg; by eapply (inv_allocator _ _ _ HI)].
  destruct HI as [Ha Hp Hr Hi Hb Hg Hf]. split; try done; cbn.
  - intros h o Ho. specialize (Hr h o Ho). lia.
  - lia.
Qed.

Lemma inv_opened busy ext w u w' :
  Inv busy ext w -> owns (w <| fresh := fresh w + 1 |>) (fresh w) none u w' -> uc_lock u <> LockHeld -> Inv busy ext w'.
Proof.
  intros HI [Hn Hw _] Hl.
  pose proof (inv_created busy ext w (tick w) (to_obj (zeroed (T := usbcmd_context_t))) HI eq_refl eq_refl ltac:(done)) as HI1.
  pose proof (inv_usb _ busy ext _ (fresh w) _ u HI1 (conj Hn (lookup_insert_eq _ _ _)) (fun _ => Hl)) as HI2.
  specialize (HI2 ltac:(set_solver)). rewrite Hw. cbn in HI2. rewrite fin_maps.insert_insert_eq in HI2.
  apply (inv_frame _ _ _ _ HI2); try done. intros g Hg. eapply (inv_allocator _ _ _ HI). exact Hg.
Qed.


(** Opening a device and closing it again. *)
Definition open_close (device_type : usb_command_device_type_t) (device_index : Z) (container_id : option (list Z)) : Mw zsa_result_t :=
  '(result, out) ← usb_cmd_create device_type device_index container_id true;
  (match out with Some h => usb_cmd_destroy h | None => mret tt end);;
  mret result.


(** ** Counting *)

Definition devices_of (d : Z -> libusb_device_descriptor) (pid : Z) (devs : list Z) : Z :=
  Z.of_nat (length (filter (fun dev => idVendor (d dev) = ZSA_MSFT_VID /\ idProduct (d dev) = pid) devs)).

(** Descriptors are read from memory since libusb 1.0.16: that always
    succeeds. *)
Definition descriptors (d : Z -> libusb_device_descriptor) : Prop :=
  forall t dev, libusb_get_device_descriptor_answer t dev = (0, d dev).

Lemma devices_of_cons d pid dev devs :
  devices_of d pid (dev :: devs) =
    (if bool_decide (idVendor (d dev) = ZSA_MSFT_VID /\ idProduct (d dev) = pid) then 1 else 0) + devices_of d pid devs.
Proof. unfold devices_of. rewrite filter_cons. case_bool_decide; [rewrite decide_True by done|rewrite decide_False by done]; cbn; lia. Qed.

Lemma devices_of_le d pid devs : 0 <= devices_of d pid devs <= Z.of_nat (length devs).
Proof. unfold devices_of. pose proof (length_filter (fun dev => idVendor (d dev) = ZSA_MSFT_VID /\ idProduct (d dev) = pid) devs). lia. Qed.

Definition neutral_calls (w w' : world) : Prop :=
  exists es, w' = w <| trace := trace w ++ es |> /\ forall r, outstanding es r = 0.

Lemma neutral_calls_trans w1 w2 w3 : neutral_calls w1 w2 -> neutral_calls w2 w3 -> neutral_calls w1 w3.
Proof.
  intros (e1 & -> & H1') (e2 & -> & H2'). exists (e1 ++ e2). split; [cbn; by rewrite <- app_assoc|].
  intros r. rewrite outstanding_app, H1', H2'. done.
Qed.

Lemma wp_count_devices d devs : descriptors d -> forall n i w color depth,
  i + Z.of_nat n = Z.of_nat (length devs) -> 0 <= i ->
  0 <= color -> 0 <= depth -> color + Z.of_nat n < 2 ^ 32 -> depth + Z.of_nat n < 2 ^ 32 ->
  wp (count_devices devs (seqZ i (Z.of_nat n)) color depth)
     (fun r w' => neutral_calls w w' /\ r = (ZSA_RESULT_SUCCEEDED, color + devices_of d ZSA_RGB_PID (drop (Z.to_nat i) devs),
        depth + devices_of d ZSA_DEPTH_PID (drop (Z.to_nat i) devs))) w.
Proof.
  intros Hd. induction n as [|n IH]; intros i w color depth Hi Hi0 Hc Hdp Hc2 Hd2.
  { apply wp_ret. split; [exists []; by destruct w; cbn; rewrite app_nil_r|].
    rewrite drop_ge by lia. unfold devices_of. cbn. by rewrite !Z.add_0_r. }
  rewrite seqZ_cons by lia. cbn [count_devices].
  destruct (lookup_lt_is_Some_2 devs (Z.to_nat i)) as [dev Ed]; [lia|].
  rewrite Ed. apply wp_bind, wp_ret, wp_bind, wp_usb_call. rewrite Hd. cbn [Z.ltb Z.compare].
  rewrite (drop_S _ dev) by done. rewrite !devices_of_cons.
  set (w1 := w <| trace := _ |>).
  assert (Hn : neutral_calls w w1) by (by eexists).
  replace (Z.pred (Z.of_nat (S n))) with (Z.of_nat n) by lia. replace (S (Z.to_nat i)) with (Z.to_nat (Z.succ i)) by lia.
  assert (Hgo : forall color' depth' c1 d1, color' = color + c1 -> depth' = depth + d1 -> 0 <= c1 <= 1 -> 0 <= d1 <= 1 ->
    wp (count_devices devs (seqZ (Z.succ i) (Z.of_nat n)) color' depth')
     (fun r w' => neutral_calls w w' /\ r = (ZSA_RESULT_SUCCEEDED,
        color + (c1 + devices_of d ZSA_RGB_PID (drop (Z.to_nat (Z.succ i)) devs)),
        depth + (d1 + devices_of d ZSA_DEPTH_PID (drop (Z.to_nat (Z.succ i)) devs)))) w1).
  { intros ? ? c1 d1 -> -> ? ?. eapply wp_mono; [apply IH; lia|]. intros r w2 [Hn2 ->].
    split; [by eapply neutral_calls_trans|]. by rewrite !Z.add_assoc. }
  destruct (Z.eqb_spec (idVendor (d dev)) ZSA_MSFT_VID) as [Ev|Ev]; cbn [negb].
  2: { rewrite !bool_decide_eq_false_2 by naive_solver. apply Hgo; lia. }
  destruct (Z.eqb_spec (idProduct (d dev)) ZSA_RGB_PID) as [Ep|Ep].
  { rewrite bool_decide_eq_true_2 by done. rewrite bool_decide_eq_false_2 by (rewrite Ep; by intros [_ ?]).
    rewrite u32_id by lia. apply Hgo; lia. }
  destruct (Z.eqb_spec (idProduct (d dev)) ZSA_DEPTH_PID) as [Ep'|Ep'].
  - rewrite bool_decide_eq_false_2 by naive_solver. rewrite bool_decide_eq_true_2 by done.
    rewrite u32_id by lia. apply Hgo; lia.
  - rewrite !bool_decide_eq_false_2 by naive_solver. apply Hgo; lia.
Qed.

(** Computing the outstanding resources of a few concrete calls. *)
Ltac balance r :=
  unfold res_change, none; intros r; cbn [trace update_field]; rewrite <- ?app_assoc, ?outstanding_app;
  cbn [outstanding acquired returned app]; unfold is_res, one_res; cbn; repeat case_decide; simplify_eq; try lia.

(** With at least one device on the bus, usb_cmd_get_device_count
    succeeds; the count is the larger of the numbers of color cameras and of
    depth processors, and everything libusb handed out is returned. *)
Theorem usb_cmd_get_device_count_spec w ctx d devs
  (Hi : libusb_init_answer (trace w) = (0, ctx))
  (Hl : forall t, libusb_get_device_list_answer t ctx = (Z.of_nat (length devs), devs))
  (Hn : 1 <= Z.of_nat (length devs) <= INT32_MAX) (Hd : descriptors d) :
  exists w', usb_cmd_get_device_count true w =
      Done (ZSA_RESULT_SUCCEEDED, Some (Z.max (devices_of d ZSA_RGB_PID devs) (devices_of d ZSA_DEPTH_PID devs))) w' /\
    w' = w <| trace := trace w' |> /\ res_change none w w'.
Proof.
  assert (Hw : wp (usb_cmd_get_device_count true) (fun r w' =>
    r = (ZSA_RESULT_SUCCEEDED, Some (Z.max (devices_of d ZSA_RGB_PID devs) (devices_of d ZSA_DEPTH_PID devs))) /\
    w' = w <| trace := trace w' |> /\ res_change none w w') w).
  2: { destruct (proj1 (wp_run _ _ _) Hw) as (r & w' & E & -> & Hp). by exists w'. }
  unfold usb_cmd_get_device_count. cbn [negb]. apply wp_bind, wp_usb_call. rewrite Hi. cbn [Z.ltb Z.compare].
  apply wp_bind, wp_bind, wp_usb_call, wp_ret. apply wp_bind, wp_bind, wp_usb_call. rewrite Hl. apply wp_ret.
  unfold INT32_MAX in *. rewrite Z.gtb_ltb, (proj2 (Z.ltb_ge _ _)) by lia. rewrite (proj2 (Z.eqb_neq _ 0)) by lia.
  rewrite (proj2 (Z.ltb_ge (Z.of_nat (length devs)) 0)) by lia. cbn [default].
  match goal with |- wp _ _ ?w1 => set (w1' := w1) end.
  apply wp_bind. eapply wp_mono; [apply (wp_count_devices d devs Hd (length devs) 0 w1' 0 0); lia|].
  intros r w2 [(es & -> & Hes) ->]. apply wp_bind, wp_ret, wp_bind, wp_usb_call, wp_bind, wp_usb_call, wp_ret.
  rewrite !Z.add_0_l, drop_0. split_and!.
  - do 2 f_equal. rewrite Z.gtb_ltb. destruct (Z.ltb_spec (devices_of d ZSA_DEPTH_PID devs) (devices_of d ZSA_RGB_PID devs)); lia.
  - done.
  - unfold w1'. intros r. cbn [trace update_field]. rewrite <- !app_assoc, !outstanding_app, Hes.
    cbn [outstanding acquired returned]. rewrite (proj2 (Z.ltb_ge (Z.of_nat (length devs)) 0)) by lia.
    unfold is_res, none. cbn. repeat case_decide; simplify_eq; lia.
Qed.

(** With no device on the bus usb_cmd_get_device_count fails and keeps
    the libusb context and the (empty) device list it was given for ever. *)
Theorem usb_cmd_get_device_count_leak w ctx devs
  (Hi : libusb_init_answer (trace w) = (0, ctx)) (Hl : forall t, libusb_get_device_list_answer t ctx = (0, devs)) :
  exists w', usb_cmd_get_device_count true w = Done (ZSA_RESULT_FAILED, Some 0) w' /\
    res_change (fun r => one_res (RContext ctx) r + one_res RDeviceList r) w w'.
Proof.
  assert (Hw : wp (usb_cmd_get_device_count true) (fun r w' => r = (ZSA_RESULT_FAILED, Some 0) /\
    res_change (fun r => one_res (RContext ctx) r + one_res RDeviceList r) w w') w).
  2: { destruct (proj1 (wp_run _ _ _) Hw) as (r & w' & E & -> & Hp). by exists w'. }
  unfold usb_cmd_get_device_count. cbn [negb]. apply wp_bind, wp_usb_call. rewrite Hi. cbn [Z.ltb Z.compare].
  apply wp_bind, wp_bind, wp_usb_call, wp_ret. apply wp_bind, wp_bind, wp_usb_call. rewrite Hl. apply wp_ret, wp_ret.
  split; [done|]. balance r.
Qed.
End rules.

(** * Witnesses *)

#[export] Instance sample_usb_ok : UsbOk.
Proof.
  split.
  - intros t. done.
  - intros t dev. cbn. unfold NULL. lia.
  - intros t ctx. cbn. lia.
  - intros t handle index size Hs. cbn -[take]. intros _. rewrite length_take. cbn. lia.
Qed.



Definition sample_descriptor (dev : Z) : libusb_device_descriptor :=
  mkDescriptor ZSA_MSFT_VID (if dev =? 201 then ZSA_RGB_PID else ZSA_DEPTH_PID) 3.

Lemma usb_cmd_get_device_count_spec_witness :
  exists w', usb_cmd_get_device_count true init_world = Done (ZSA_RESULT_SUCCEEDED, Some 1) w' /\
    res_change none init_world w'.
Proof.
  destruct (@usb_cmd_get_device_count_spec sample_usb init_world 100 sample_descriptor [201; 202] eq_refl (fun _ => eq_refl)
    ltac:(split; discriminate) (fun _ _ => eq_refl)) as (w' & E & _ & Hr).
  exists w'. split; [exact E|exact Hr].
Defined.

(** The same host with nothing plugged in. *)
Definition empty_bus : Usb :=
  let answers := sample_usb in
  {| libusb_init_answer := @libusb_init_answer answers;
     libusb_set_option_answer := @libusb_set_option_answer answers;
     libusb_get_device_list_answer _ _ := (0, []);
     libusb_get_device_descriptor_answer := @libusb_get_device_descriptor_answer answers;
     libusb_open_answer := @libusb_open_answer answers;
     libusb_get_bos_descriptor_answer := @libusb_get_bos_descriptor_answer answers;
     libusb_get_container_id_descriptor_answer := @libusb_get_container_id_descriptor_answer answers;
     libusb_get_string_descriptor_answer := @libusb_get_string_descriptor_answer answers;
     libusb_get_configuration_answer := @libusb_get_configuration_answer answers;
     libusb_set_configuration_answer := @libusb_set_configuration_answer answers;
     libusb_kernel_driver_active_answer := @libusb_kernel_driver_active_answer answers;
     libusb_detach_kernel_driver_answer := @libusb_detach_kernel_driver_answer answers;
     libusb_claim_interface_answer := @libusb_claim_interface_answer answers;
     libusb_release_interface_answer := @libusb_release_interface_answer answers;
     libusb_bulk_transfer_answer := @libusb_bulk_transfer_answer answers;
     libusb_alloc_transfer_ok := @libusb_alloc_transfer_ok answers;
     libusb_submit_transfer_answer := @libusb_submit_transfer_answer answers;
     libusb_handle_events_answer := @libusb_handle_events_answer answers;
     ThreadAPI_Create_ok := @ThreadAPI_Create_ok answers;
     ThreadAPI_Join_others := @ThreadAPI_Join_others answers |}.

Lemma usb_cmd_get_device_count_leak_witness :
  exists w', @usb_cmd_get_device_count empty_bus true init_world = Done (ZSA_RESULT_FAILED, Some 0) w' /\
    res_change (fun r => one_res (RContext 100) r + one_res RDeviceList r) init_world w'.
Proof.
  destruct (@usb_cmd_get_device_count_leak empty_bus init_world 100 [] eq_refl (fun _ => eq_refl)) as (w' & E & Hr).
  exists w'. split; [exact E|exact Hr].
Defined.
