(* ===== verification/UsbClient.v ===== *)
(** What a client does with an open USB device (usbcommand.c and
    usbstreaming.c): any sequence of commands, registrations, starts and stops
    of the stream leaves a context of the type its operations rely on. *)

From S2P Require Export UsbDevice.

Section client.
Context `{Platform} `{Usb} `{StreamClient} `{!UsbOk}.
Implicit Types (u : usbcmd_context_t) (w : world).

(** ** The type of a context *)

(** What the device type decides. *)
Definition static_config (u : usbcmd_context_t) : Z * Z * Z * (Z * Z * Z) :=
  (uc_source u, uc_pid u, uc_interface u, (uc_cmd_tx_endpoint u, uc_cmd_rx_endpoint u, uc_stream_endpoint u)).

(** The context of an open device between two calls: the constants of its
    device type, a device handle, a 32-bit transaction id, the eight entries
    of the transfer list, a size_t, a lock that is free, and a thread to join
    whenever the stream is going. *)
Record usbcmd_typed (device_type : usb_command_device_type_t) (u : usbcmd_context_t) : Prop := {
  ty_config : static_config u = static_config (select_device device_type (zeroed (T := usbcmd_context_t)));
  ty_open : uc_libusb u <> NULL;
  ty_id : is_u32 (uc_transaction_id u);
  ty_list : length (uc_transfer_list u) = xfr_count;
  ty_size : 0 <= uc_stream_size u < 2 ^ 64;
  ty_going : uc_stream_going u = true -> uc_stream_handle u <> NULL;
  ty_lock : uc_lock u = LockFree
}.

Lemma opened_typed device_type container_id u : opened device_type container_id u -> usbcmd_typed device_type u.
Proof.
  intros (Hc & Hn & _). rewrite Hc. split; by destruct device_type.
Qed.

(** ** The calls *)

Inductive usb_request : Type :=
| RqRegister (cb : usb_cmd_stream_cb_t) (context : Z)
| RqStart (payload_size : Z)
| RqStop
| RqCommand (q : request)
| RqContainerId.

Definition issue (h : Z) (c : usb_request) : Mw unit :=
  match c with
  | RqRegister cb context => _ ← usb_cmd_stream_register_cb h cb context; mret tt
  | RqStart payload_size => _ ← usb_cmd_stream_start h payload_size; mret tt
  | RqStop => _ ← usb_cmd_stream_stop h; mret tt
  | RqCommand q => _ ← send h q; mret tt
  | RqContainerId => _ ← usb_cmd_get_container_id h; mret tt
  end.

(** Arguments of their C types, and enough room for what is received. *)
Definition usb_request_ok (c : usb_request) : Prop :=
  match c with
  | RqStart payload_size => 0 <= payload_size < 2 ^ 64
  | RqCommand q => request_ok q
  | _ => True
  end.

(** The thread that usb_cmd_stream_stop joins keeps the books; of the context
    it changes the transfer list, which stays one of eight entries. *)
Definition joined_ok : Prop := forall n thread busy ext w h u, Inv busy ext w -> has w h u ->
  exists l, let w' := ThreadAPI_Join_others n thread w in
    Inv busy ext w' /\ has w' h (u <| uc_transfer_list := l |>) /\ length l = length (uc_transfer_list u).

Lemma wp_stream_start device_type busy ext h u payload_size w :
  Inv busy ext w -> h ∉ busy -> has w h u -> usbcmd_typed device_type u -> 0 <= payload_size < 2 ^ 64 ->
  wp (usb_cmd_stream_start h payload_size)
     (fun r w' => Inv busy ext w' /\ exists u', has w' h u' /\ usbcmd_typed device_type u' /\
        (r = ZSA_RESULT_SUCCEEDED <-> uc_stream_going u = false /\ uc_stream_going u' = true)) w.
Proof.
  intros HI Hb Hh Ht Hp. eapply wp_if_handle_valid; [exact Hh|]. destruct (Z.eqb_spec payload_size 0) as [E|E].
  { apply wp_ret. split; [done|]. exists u. split_and!; [done..|]. split; [done|]. intros [E1 E2]. congruence. }
  apply wp_bind. eapply wp_usb_lock; [done..|]. intros l w1 Hl -> HI1 Hh1. set (w1 := w <| heap := _ |>) in *.
  apply wp_bind. eapply wp_load; [exact Hh1|]. apply wp_bind. cbn [uc_stream_going update_field].
  eapply wp_mono with (P := fun r w2 => exists u2, Inv (busy ∪ {[h]}) ext w2 /\ has w2 h u2 /\ uc_lock u2 = l /\
    usbcmd_typed device_type (u2 <| uc_lock := LockFree |>) /\
    (r = ZSA_RESULT_SUCCEEDED <-> uc_stream_going u = false /\ uc_stream_going u2 = true)).
  - assert (Hty : usbcmd_typed device_type (u <| uc_lock := l |> <| uc_lock := LockFree |>)) by (destruct Ht; by split).
    destruct (uc_stream_going u) eqn:Eg.
    + apply wp_ret. eexists. split_and!; [exact HI1|exact Hh1|done|done|]. split; [done|]. intros [? _]. done.
    + apply wp_bind. eapply wp_update; [exact Hh1|]. set (w2 := w1 <| heap := _ |>).
      assert (HI2 : Inv (busy ∪ {[h]}) ext w2) by (eapply inv_usb; [exact HI1|exact Hh1|set_solver|set_solver]).
      apply wp_bind, wp_bind, wp_gets, wp_bind, wp_ask. set (w3 := w2 <| tick := _ |>).
      assert (HI3 : Inv (busy ∪ {[h]}) ext w3) by (by apply inv_tick).
      assert (Hh3 : has w3 h (u <| uc_lock := l |> <| uc_stream_size := payload_size |> <| uc_stream_going := true |>))
        by (apply has_stored, Hh).
      apply wp_ret. destruct (ThreadAPI_Create_ok _).
      * apply wp_bind. eapply wp_update; [exact Hh3|]. apply wp_ret. eexists. split_and!; [|apply has_stored, Hh|done| |done].
        -- eapply inv_usb; [exact HI3|exact Hh3|set_solver|set_solver].
        -- destruct Ht. by split.
      * apply wp_bind. eapply wp_update; [exact Hh3|]. apply wp_ret. eexists. split_and!; [|apply has_stored, Hh|done| |].
        -- eapply inv_usb; [exact HI3|exact Hh3|set_solver|set_solver].
        -- destruct Ht. by split.
        -- split; [done|]. intros [_ ?]. done.
  - intros r w2 (u2 & HI2 & Hh2 & El & Hty & Hr). apply wp_bind.
    assert (Hfree : lock_release l = LockFree) by (rewrite Hl; apply (ty_lock _ _ Ht)).
    eapply (wp_usb_unlock busy ext h u2); [exact HI2|exact Hh2|by rewrite El, Hfree|].
    intros w3 -> HI3 Hh3. apply wp_ret. split; [exact HI3|]. eexists. split; [exact Hh3|]. rewrite El, Hfree. by split.
Qed.

Lemma wp_stream_stop device_type busy ext h u w :
  joined_ok -> Inv busy ext w -> h ∉ busy -> has w h u -> usbcmd_typed device_type u ->
  wp (usb_cmd_stream_stop h)
     (fun r w' => r = ZSA_RESULT_SUCCEEDED /\ Inv busy ext w' /\ exists u', has w' h u' /\ usbcmd_typed device_type u' /\
        uc_stream_going u' = false /\ uc_stream_handle u' = NULL) w.
Proof.
  intros Hj HI Hb Hh Ht. eapply wp_if_handle_valid; [exact Hh|].
  apply wp_bind. eapply wp_usb_lock; [done..|]. intros l w1 Hl -> HI1 Hh1. set (w1 := w <| heap := _ |>) in *.
  apply wp_bind. eapply wp_update; [exact Hh1|]. set (u2 := _ <| uc_stream_going := false |>). set (w2 := w1 <| heap := _ |>).
  assert (HI2 : Inv (busy ∪ {[h]}) ext w2) by (eapply inv_usb; [exact HI1|exact Hh1|set_solver|set_solver]).
  assert (Hh2 : has w2 h u2) by (apply has_stored, Hh).
  assert (Hfree : lock_release l = LockFree) by (rewrite Hl; apply (ty_lock _ _ Ht)).
  apply wp_bind. eapply wp_load; [exact Hh2|]. apply wp_bind.
  eapply wp_mono with (P := fun _ w3 => exists u3, Inv (busy ∪ {[h]}) ext w3 /\ has w3 h u3 /\ uc_lock u3 = l /\
    usbcmd_typed device_type (u3 <| uc_lock := LockFree |>) /\ uc_stream_going u3 = false /\ uc_stream_handle u3 = NULL).
  - apply wp_when; intros Es.
    + apply wp_bind. unfold ThreadAPI_Join, wp at 1.
      destruct (Hj (tick w2) (uc_stream_handle u2) _ _ w2 h u2 HI2 Hh2) as (tl & HI3 & Hh3 & El). set (w3 := _ <| tick := _ |>).
      assert (HI3' : Inv (busy ∪ {[h]}) ext w3) by (by apply inv_tick).
      assert (Hh3' : has w3 h (u2 <| uc_transfer_list := tl |>)) by exact Hh3.
      eapply wp_update; [exact Hh3'|]. eexists. split_and!; [|apply has_stored, Hh|done| |done|done].
      * eapply inv_usb; [exact HI3'|exact Hh3'|set_solver|set_solver].
      * destruct Ht as [? ? ? Hlist ? ? ?]. split; try done. cbn. rewrite El. exact Hlist.
    + exists u2. apply negb_false_iff, Z.eqb_eq in Es. split_and!; [done..| |done|done]. destruct Ht. by split.
  - intros _ w3 (u3 & HI3 & Hh3 & El & Hty & Hg & Es). apply wp_bind.
    eapply (wp_usb_unlock busy ext h u3); [exact HI3|exact Hh3|by rewrite El, Hfree|].
    intros w4 -> HI4 Hh4. apply wp_ret. split; [done|]. split; [exact HI4|]. eexists. split; [exact Hh4|].
    rewrite El, Hfree. by split.
Qed.

Lemma wp_issue device_type busy ext h u c w :
  joined_ok -> bulk_ok -> Inv busy ext w -> h ∉ busy -> has w h u -> usbcmd_typed device_type u -> usb_request_ok c ->
  wp (issue h c) (fun _ w' => Inv busy ext w' /\ exists u', has w' h u' /\ usbcmd_typed device_type u') w.
Proof.
  intros Hj Hbulk HI Hb Hh Ht Hc. destruct c as [cb context|payload_size| |q|]; apply wp_bind.
  - eapply wp_if_handle_valid; [exact Hh|]. apply wp_bind. eapply wp_update; [exact Hh|]. apply wp_ret, wp_ret. split.
    + eapply inv_usb; [exact HI|exact Hh|cbn; by rewrite (ty_lock _ _ Ht)|done].
    + eexists. split; [apply has_stored, Hh|]. destruct Ht. by split.
  - eapply wp_mono; [by eapply wp_stream_start|]. intros r w1 (HI1 & u' & Hh1 & Ht1 & _). split; [done|by exists u'].
  - eapply wp_mono; [by eapply wp_stream_stop|]. intros r w1 (_ & HI1 & u' & Hh1 & Ht1 & _). split; [done|by exists u'].
  - eapply wp_mono; [by apply (wp_usb_io busy ext h u)|]. intros r w1 (es & count & _ & HI1 & Hh1 & _).
    split; [done|]. eexists. split; [exact Hh1|]. destruct Ht. split; try done. apply u32_range.
  - eapply wp_if_handle_valid; [exact Hh|]. apply wp_bind. eapply wp_load; [exact Hh|]. apply wp_ret, wp_ret.
    split; [done|by exists u].
Qed.

Lemma wp_issue_all device_type busy ext h cs : forall u w,
  joined_ok -> bulk_ok -> Inv busy ext w -> h ∉ busy -> has w h u -> usbcmd_typed device_type u -> Forall usb_request_ok cs ->
  wp (for_each cs (issue h)) (fun _ w' => Inv busy ext w' /\ exists u', has w' h u' /\ usbcmd_typed device_type u') w.
Proof.
  induction cs as [|c cs IH]; intros u w Hj Hbulk HI Hb Hh Ht Hcs; [apply wp_ret; split; [done|by exists u]|].
  apply Forall_cons in Hcs as [Hc Hcs]. apply wp_bind. eapply wp_mono; [by eapply wp_issue|].
  intros _ w1 (HI1 & u1 & Hh1 & Ht1). by apply (IH u1).
Qed.

(** A client of a device: it opens the device, makes its calls, and stops the
    stream, which usb_cmd_destroy would do, too. *)
Definition usb_client (device_type : usb_command_device_type_t) (device_index : Z) (container_id : option (list Z))
    (cs : list usb_request) : Mw (zsa_result_t * option Z) :=
  '(result, out) ← usb_cmd_create device_type device_index container_id true;
  (match result, out with
   | ZSA_RESULT_SUCCEEDED, Some h => for_each cs (issue h);; _ ← usb_cmd_stream_stop h; mret tt
   | _, _ => mret tt
   end);;
  mret (result, out).

(** C13: the type of a USB context is an invariant of its module.  From
    usb_cmd_create on, whatever a client asks for and in whatever order
    (commands, starting a stream twice, stopping one that is not going), every
    call returns, and the context keeps its type: the endpoints of its device,
    a transaction id of 32 bits, a transfer list of eight entries, a free
    lock, and a stream that is only going while there is a thread to join.
    After usb_cmd_stream_stop there is neither. *)
Theorem usb_context_typed (ext : ledger) (w : world) (device_type : usb_command_device_type_t) (device_index : Z)
  (container_id : option (list Z)) (cs : list usb_request)
  (HI : Inv ∅ ext w) (Hd : device_type <> USB_DEVICE_TYPE_COUNT) (Hbulk : bulk_ok) (Hj : joined_ok)
  (Hcs : Forall usb_request_ok cs) :
  exists r out w', usb_client device_type device_index container_id cs w = Done (r, Some out) w' /\ Inv ∅ ext w' /\
    match r with
    | ZSA_RESULT_FAILED => out = NULL
    | ZSA_RESULT_SUCCEEDED => exists u, has w' out u /\ usbcmd_typed device_type u /\
        uc_stream_going u = false /\ uc_stream_handle u = NULL
    end.
Proof.
  assert (Hw : wp (usb_client device_type device_index container_id cs) (fun '(r, out) w' => exists h, out = Some h /\ Inv ∅ ext w' /\
    match r with
    | ZSA_RESULT_FAILED => h = NULL
    | ZSA_RESULT_SUCCEEDED => exists u, has w' h u /\ usbcmd_typed device_type u /\
        uc_stream_going u = false /\ uc_stream_handle u = NULL
    end) w).
  2: { destruct (proj1 (wp_run _ _ _) Hw) as ([r out] & w' & E & h & -> & HI' & Hr). by exists r, h, w'. }
  apply wp_bind. eapply wp_mono; [by apply (wp_usb_cmd_create ∅ ext w device_type device_index container_id)|].
  intros [r out] w1 Hp. destruct r.
  - destruct Hp as [-> (u & Ho & Hop)]. pose proof (owns_has _ _ _ _ _ Ho) as Hh. apply opened_typed in Hop.
    assert (HI1 : Inv ∅ ext w1) by (eapply inv_opened; [exact HI|exact Ho|by rewrite (ty_lock _ _ Hop)]).
    apply wp_bind, wp_bind. eapply wp_mono; [by apply (wp_issue_all device_type ∅ ext (fresh w) cs u)|].
    intros _ w2 (HI2 & u2 & Hh2 & Ht2). apply wp_bind. eapply wp_mono; [by eapply wp_stream_stop|].
    intros _ w3 (_ & HI3 & u3 & Hh3 & Ht3 & Hg & Hs). apply wp_ret, wp_ret. exists (fresh w). split_and!; [done..|]. by exists u3.
  - destruct Hp as [-> (n & Hn & Hc)]. apply wp_bind, wp_ret, wp_ret. exists NULL. split_and!; [done| |done].
    eapply (only_calls_inv _ _ n); [exact HI|lia|exact Hc].
Qed.
End client.

(** * Witness *)

Lemma sample_joined_ok : joined_ok.
Proof. intros n thread busy ext w h u HI Hh. exists (uc_transfer_list u). split_and!; [done|by destruct u|done]. Qed.

Lemma usb_context_typed_witness :
  exists out w', usb_client USB_DEVICE_DEPTH_PROCESSOR 0 None
      [RqStart 4096; RqStart 512; RqCommand (sample_request 3); RqStop; RqStop; RqContainerId] init_world
        = Done (ZSA_RESULT_SUCCEEDED, Some out) w' /\
    exists u, has w' out u /\ usbcmd_typed USB_DEVICE_DEPTH_PROCESSOR u /\ uc_stream_going u = false.
Proof.
  destruct (usb_context_typed no_refs init_world USB_DEVICE_DEPTH_PROCESSOR 0 None
    [RqStart 4096; RqStart 512; RqCommand (sample_request 3); RqStop; RqStop; RqContainerId]
    inv_init ltac:(discriminate) sample_bulk_ok sample_joined_ok) as (r & out & w' & E & _ & Hr).
  - repeat apply Forall_cons_2; try apply Forall_nil_2; try exact I; try (cbn; lia). apply sample_request_ok. lia.
  - assert (Er : fst <$> value_of (usb_client USB_DEVICE_DEPTH_PROCESSOR 0 None
      [RqStart 4096; RqStart 512; RqCommand (sample_request 3); RqStop; RqStop; RqContainerId]) init_world
        = Some ZSA_RESULT_SUCCEEDED) by (vm_compute; reflexivity).
    unfold value_of in Er. rewrite E in Er. injection Er as ->.
    exists out, w'. split; [exact E|]. destruct Hr as (u & Hh & Ht & Hg & _). exists u. split; [exact Hh|]. split; [exact Ht|exact Hg].
Defined.
