(* ===== verification/ColorMcu.v ===== *)
(** src/color_mcu/color_mcu.c and colorcommands.h: the controller of the color
    camera, the IMU and the synchronisation jacks, commanded over USB. *)

From S2P Require Export UsbDevice.

(** * Constants *)

Definition DEV_CMD_RESET : Z := 0x80000000.
Definition DEV_CMD_SET_SYS_CFG : Z := 0x80000001.
Definition DEV_CMD_GET_SYS_CFG : Z := 0x80000002.
Definition DEV_CMD_IMU_STREAM_START : Z := 0x80000003.
Definition DEV_CMD_IMU_STREAM_STOP : Z := 0x80000004.
Definition DEV_CMD_GET_JACK_STATE : Z := 0x80000006.

(** The sizes of the packed structures of an IMU payload. *)
Definition sizeof_xyz_vector_t : Z := 14.
Definition sizeof_imu_payload_metadata_t : Z := 8 + 10 + 10.
Definition IMU_MAX_ACC_COUNT_IN_PAYLOAD : Z := 8.
Definition IMU_MAX_GYRO_COUNT_IN_PAYLOAD : Z := 8.
Definition IMU_MAX_PAYLOAD_SIZE : Z :=
  sizeof_imu_payload_metadata_t + sizeof_xyz_vector_t * IMU_MAX_ACC_COUNT_IN_PAYLOAD
  + sizeof_xyz_vector_t * IMU_MAX_GYRO_COUNT_IN_PAYLOAD.

(** external_sync_mode_t *)
Definition EXTERNAL_SYNC_MODE_STANDALONE : Z := 0.
Definition EXTERNAL_SYNC_MODE_MASTER : Z := 1.
Definition EXTERNAL_SYNC_MODE_SUBORDINATE : Z := 2.

(** The packed structure of DEV_CMD_SET_SYS_CFG. *)
Record synchronization_config_t : Type := mkSyncConfig {
  sc_mode : Z;                             (* uint32_t *)
  sc_subordinate_delay_off_master_pts : Z; (* uint32_t *)
  sc_depth_delay_off_color_pts : Z;        (* int32_t *)
  sc_enable_privacy_led : Z                (* uint8_t *)
}.

Definition sync_config_bytes (c : synchronization_config_t) : list Z :=
  le32 (sc_mode c) ++ le32 (sc_subordinate_delay_off_master_pts c) ++ le32 (u32 (sc_depth_delay_off_color_pts c))
  ++ [sc_enable_privacy_led c].

Definition sizeof_synchronization_config_t : Z := 13.

#[export] Instance colormcu_Context : Context colormcu_context_t := {
  to_obj := fun c => OModule (MColorMcu c);
  of_obj := fun o => match o with OModule (MColorMcu c) => Some c | _ => None end;
  of_to_obj := fun _ => eq_refl;
  to_of_obj := ltac:(module_inj);
  zeroed := mkColorMcu NULL
}.

(** * Operations *)

Section operations.
Context `{Platform} `{Usb} `{StreamClient}.

Definition colormcu_valid {A} (v : A) (h : Z) (rest : Mw A) : Mw A := if_handle_valid colormcu_context_t v h rest.

Definition colormcu_destroy (colormcu_handle : Z) : Mw unit :=
  colormcu_valid tt colormcu_handle (
    let h := colormcu_handle in
    c ← load colormcu_context_t h;
    when (negb (cm_usb_cmd c =? NULL)) (
      usb_cmd_destroy (cm_usb_cmd c);;
      update h (fun c => c <| cm_usb_cmd := NULL |>));;
    handle_destroy colormcu_context_t h).

(** colormcu_create and colormcu_create_by_index differ in what they pass on
    to usb_cmd_create. *)
Definition create_colormcu (device_index : Z) (container_id : option (list Z)) (colormcu_handle : bool)
    : Mw (zsa_result_t * option Z) :=
  if negb colormcu_handle then mret (ZSA_RESULT_FAILED, None)
  else
    h ← handle_create colormcu_context_t;
    result ← and_then (ZSA_RESULT_FROM_BOOL (negb (h =? NULL))) (
      '(result, out) ← usb_cmd_create USB_DEVICE_COLOR_IMU_PROCESSOR device_index container_id true;
      (match out with Some usb => update h (fun c => c <| cm_usb_cmd := usb |>) | None => mret tt end);;
      mret result);
    if ZSA_FAILED result then
      colormcu_destroy h;;
      mret (result, Some NULL)
    else mret (result, Some h).

Definition colormcu_create (container_id : option (list Z)) (colormcu_handle : bool) : Mw (zsa_result_t * option Z) :=
  create_colormcu NULL_INDEX container_id colormcu_handle.

Definition colormcu_create_by_index (device_index : Z) (colormcu_handle : bool) : Mw (zsa_result_t * option Z) :=
  create_colormcu device_index None colormcu_handle.

Definition colormcu_get_usb_serialnum (colormcu_handle : Z) (serial_number : option (list Z))
    (serial_number_size : option Z) : Mw (zsa_buffer_result_t * option (list Z) * option Z) :=
  colormcu_valid (ZSA_BUFFER_RESULT_FAILED, serial_number, serial_number_size) colormcu_handle (
    match serial_number_size with
    | None => mret (ZSA_BUFFER_RESULT_FAILED, serial_number, None)
    | Some _ =>
        c ← load colormcu_context_t colormcu_handle;
        usb_cmd_get_serial_number (cm_usb_cmd c) serial_number serial_number_size
    end).

Definition colormcu_imu_start_streaming (colormcu_handle : Z) : Mw zsa_result_t :=
  colormcu_valid ZSA_RESULT_FAILED colormcu_handle (
    c ← load colormcu_context_t colormcu_handle;
    result ← usb_cmd_write (cm_usb_cmd c) DEV_CMD_IMU_STREAM_START None 0 None 0;
    and_then result (usb_cmd_stream_start (cm_usb_cmd c) IMU_MAX_PAYLOAD_SIZE)).

Definition colormcu_imu_stop_streaming (colormcu_handle : Z) : Mw unit :=
  colormcu_valid tt colormcu_handle (
    c ← load colormcu_context_t colormcu_handle;
    _ ← usb_cmd_stream_stop (cm_usb_cmd c);
    _ ← usb_cmd_write (cm_usb_cmd c) DEV_CMD_IMU_STREAM_STOP None 0 None 0;
    mret tt).

Definition colormcu_imu_register_stream_cb (colormcu_handle : Z) (frame_ready_cb : usb_cmd_stream_cb_t) (context : Z)
    : Mw zsa_result_t :=
  colormcu_valid ZSA_RESULT_FAILED colormcu_handle (
    c ← load colormcu_context_t colormcu_handle;
    usb_cmd_stream_register_cb (cm_usb_cmd c) frame_ready_cb context).

(** The result and the two booleans, where they are written.  [state] is what
    the local variable happens to hold before the command is sent. *)
Definition colormcu_get_external_sync_jack_state (state : Z) (colormcu_handle : Z)
    (sync_in_jack_connected sync_out_jack_connected : bool) : Mw (zsa_result_t * option bool * option bool) :=
  let failed := (ZSA_RESULT_FAILED, None, None) in
  colormcu_valid failed colormcu_handle (
    if negb sync_in_jack_connected && negb sync_out_jack_connected then mret failed
    else
      c ← load colormcu_context_t colormcu_handle;
      '(result, data, bytes_read) ←
        usb_cmd_read (cm_usb_cmd c) DEV_CMD_GET_JACK_STATE None 0 (Some [state]) 1 true;
      result ← (if ZSA_FAILED result then mret result
                else
                  n ← need Uninitialised bytes_read;
                  mret (ZSA_RESULT_FROM_BOOL (n =? 1)));
      if ZSA_FAILED result then mret (result, None, None)
      else
        data ← need NullDeref data;
        state ← need OutOfBounds (head data);
        mret (result,
              if sync_in_jack_connected then Some (negb (Z.land state 1 =? 0)) else None,
              if sync_out_jack_connected then Some (negb (Z.land state 2 =? 0)) else None)).

(** The switch over config->wired_sync_mode. *)
Definition external_sync_mode (wired_sync_mode : Z) : option Z :=
  if wired_sync_mode =? ZSA_WIRED_SYNC_MODE_STANDALONE then Some EXTERNAL_SYNC_MODE_STANDALONE
  else if wired_sync_mode =? ZSA_WIRED_SYNC_MODE_MASTER then Some EXTERNAL_SYNC_MODE_MASTER
  else if wired_sync_mode =? ZSA_WIRED_SYNC_MODE_SUBORDINATE then Some EXTERNAL_SYNC_MODE_SUBORDINATE
  else None.

Definition sync_config_of (mode : Z) (config : zsa_device_configuration_t) : synchronization_config_t :=
  mkSyncConfig mode
    (ZSA_USEC_TO_90K_HZ_TICK_u32 (subordinate_delay_off_master_usec config))
    (ZSA_USEC_TO_90K_HZ_TICK_s32 (depth_delay_off_color_usec config))
    (if disable_streaming_indicator config then 0 else 1).

Definition colormcu_set_multi_device_mode (colormcu_handle : Z) (config : zsa_device_configuration_t)
    : Mw zsa_result_t :=
  colormcu_valid ZSA_RESULT_FAILED colormcu_handle (
    c ← load colormcu_context_t colormcu_handle;
    match external_sync_mode (wired_sync_mode config) with
    | None => mret ZSA_RESULT_FAILED
    | Some mode =>
        usb_cmd_write (cm_usb_cmd c) DEV_CMD_SET_SYS_CFG (Some (sync_config_bytes (sync_config_of mode config)))
          sizeof_synchronization_config_t None 0
    end).

Definition colormcu_reset_device (colormcu_handle : Z) : Mw zsa_result_t :=
  colormcu_valid ZSA_RESULT_FAILED colormcu_handle (
    c ← load colormcu_context_t colormcu_handle;
    usb_cmd_write (cm_usb_cmd c) DEV_CMD_RESET None 0 None 0).
End operations.

(** * Opening and closing *)

(** Between [w] and [w'] the heap, the clock and the trace moved. *)
Definition calls_only (w w' : world) : Prop :=
  w' = w <| heap := heap w' |> <| fresh := fresh w' |> <| tick := tick w' |> <| trace := trace w' |> /\ fresh w <= fresh w'.

Lemma calls_only_refl w : calls_only w w.
Proof. split; [by destruct w|done]. Qed.

Lemma calls_only_trans w1 w2 w3 : calls_only w1 w2 -> calls_only w2 w3 -> calls_only w1 w3.
Proof. intros [E1 F1] [E2 F2]. split; [rewrite E2, E1; by destruct w3|lia]. Qed.

Lemma calls_only_set w m f t es :
  fresh w <= f -> calls_only w (w <| heap := m |> <| fresh := f |> <| tick := t |> <| trace := es |>).
Proof. by split. Qed.

Lemma only_heap_calls w w' : only_heap w w' -> calls_only w w'.
Proof. intros [E F]. split; [rewrite E; by destruct w|done]. Qed.

Section life.
Context `{Platform} `{Usb} `{StreamClient} `{!UsbOk}.
Implicit Types (u : usbcmd_context_t) (w : world).

Definition held u (r : usb_res) : Z := held_handle u r + held_context u r.

(** An open USB module, not streaming. *)
Definition quiet_usb u : Prop := uc_lock u <> LockHeld /\ uc_stream_handle u = NULL.

(** An open controller at [h], over the USB module at [usb]. *)
Record mcu_open (w : world) (h usb : Z) u : Prop := {
  mo_mcu : has w h (mkColorMcu usb);
  mo_usb : has w usb u;
  mo_quiet : quiet_usb u
}.

Lemma owns_here w usb u t :
  has w usb u -> (forall r, outstanding (trace w) r = outstanding t r + held u r) ->
  owns (w <| heap := delete usb (heap w) |> <| trace := t |>) usb none u w.
Proof.
  intros [Hn Hh] Hr. split; [done| |].
  - destruct w; cbn in *. by rewrite insert_delete_id.
  - intros r. rewrite Hr. unfold held, none. cbn. lia.
Qed.

Lemma wp_colormcu_destroy w h usb u t :
  mcu_open w h usb u -> (forall r, outstanding (trace w) r = outstanding t r + held u r) ->
  wp (colormcu_destroy h)
     (fun _ w' => calls_only w w' /\ heap w' = delete h (delete usb (heap w)) /\
        forall r, outstanding (trace w') r = outstanding t r) w.
Proof.
  intros [Hm Hu [Hl Hs]] Hr. pose proof Hu as [Hun Huh]. pose proof Hm as [Hmn Hmh].
  assert (Hne : h <> usb) by (intros ->; cbn in *; congruence).
  eapply wp_if_handle_valid; [exact Hm|]. apply wp_bind. eapply wp_load; [exact Hm|]. cbn [cm_usb_cmd].
  rewrite (proj2 (Z.eqb_neq usb NULL)) by done. cbn [negb when].
  apply wp_bind, wp_bind. eapply wp_mono; [apply (wp_usb_cmd_destroy _ _ _ _ (owns_here w usb u t Hu Hr) Hl Hs)|].
  intros _ w1 [E Hr1]. cbn in E. rewrite delete_delete_eq in E.
  assert (Hm1 : has w1 h (mkColorMcu usb)) by (split; [done|]; rewrite E; cbn; by rewrite lookup_delete_ne).
  eapply wp_update; [exact Hm1|]. eapply wp_destroy; [apply has_stored, Hmn|]. split_and!.
  - rewrite E. by apply calls_only_set.
  - cbn. rewrite E. cbn. by rewrite delete_insert_eq.
  - intros r. cbn. rewrite Hr1. cbn. unfold none. lia.
Qed.

(** Whichever step fails, nothing is left. *)
Lemma wp_create_colormcu busy ext w device_index container_id :
  Inv busy ext w ->
  wp (create_colormcu device_index container_id true)
     (fun r w' => calls_only w w' /\
        match r with
        | (ZSA_RESULT_SUCCEEDED, out) => exists h usb u, out = Some h /\ mcu_open w' h usb u /\
            heap w !! h = None /\ heap w !! usb = None /\
            heap w' = <[usb := to_obj u]> (<[h := to_obj (mkColorMcu usb)]> (heap w)) /\
            (forall r, outstanding (trace w') r = outstanding (trace w) r + held u r) /\ Inv busy ext w'
        | (ZSA_RESULT_FAILED, out) => out = Some NULL /\ heap w' = heap w /\ res_change none w w'
        end) w.
Proof.
  intros HI. pose proof (inv_fresh _ _ _ HI) as Hf. pose proof (inv_fresh_none _ _ _ HI) as Hnone.
  unfold create_colormcu. cbn [negb]. apply wp_bind, wp_handle_create; [done| |]; intros t.
  - apply wp_bind, wp_ret. cbn [ZSA_FAILED ZSA_SUCCEEDED negb].
    apply wp_bind, wp_if_handle_null, wp_ret. split; [by apply (calls_only_set w (heap w) (fresh w) t (trace w))|].
    split_and!; [done|done|]. intros r. unfold none. cbn. lia.
  - set (h := fresh w) in *. set (w1 := _ <| fresh := _ |>). assert (Hn : h <> NULL) by (unfold NULL; lia).
    rewrite (proj2 (Z.eqb_neq h NULL)) by done. cbn [negb ZSA_RESULT_FROM_BOOL and_then ZSA_SUCCEEDED].
    assert (HI1 : Inv (busy ∪ {[h]}) ext w1) by (by apply (inv_created busy ext w t (to_obj (zeroed (T := colormcu_context_t))))).
    assert (Hh1 : has w1 h (mkColorMcu NULL)) by (split; [done|apply lookup_insert_eq]).
    apply wp_bind, wp_bind. eapply wp_mono; [by apply (wp_usb_cmd_create _ _ _ _ device_index container_id HI1)|].
    intros [[] out] w2 Hp; apply wp_bind.
    + destruct Hp as [-> (u & Ho & Hop)]. destruct (owns_has _ _ _ _ _ Ho) as [Hun Huh]. set (usb := fresh w1) in *.
      assert (Hne : usb <> h) by (unfold usb, w1; cbn; lia).
      assert (E2 : heap w2 = <[usb := to_obj u]> (heap w1)) by (destruct Ho as [_ -> _]; done).
      eapply wp_update; [split; [exact Hn|]; rewrite E2, lookup_insert_ne by done; apply Hh1|].
      apply wp_ret. cbn [ZSA_FAILED ZSA_SUCCEEDED negb]. apply wp_ret. cbn [heap update_field]. rewrite E2.
      rewrite fin_maps.insert_insert_ne by done. unfold w1. cbn [heap update_field]. rewrite fin_maps.insert_insert_eq. split.
      { destruct Ho as [_ -> _]. apply calls_only_set. change (h <= h + 1 + 1). lia. }
      assert (Hq : quiet_usb u) by (destruct Hop as [-> _]; by split).
      exists h, usb, u. split_and!; [done| |done| |done| |].
      * split; [|split; [done|apply lookup_insert_eq]|exact Hq].
        split; [done|]. cbn. by rewrite lookup_insert_ne, lookup_insert_eq.
      * eapply inv_above; [exact HI|]. unfold usb, w1. cbn -[Z.add]. fold h. lia.
      * intros r. destruct Ho as [_ _ Hr]. specialize (Hr r). unfold held, none in *. cbn in *. lia.
      * pose proof (inv_opened _ _ _ _ _ HI1 Ho (proj1 Hq)) as HI2.
        assert (Hh2 : heap w2 !! h = Some (to_obj (mkColorMcu NULL))) by (rewrite E2, lookup_insert_ne by done; apply Hh1).
        replace (<[usb := to_obj u]> _) with (<[h := to_obj (mkColorMcu usb)]> (heap w2)).
        { eapply inv_store; [exact HI2|exact Hh2|done| |done|done|set_solver|done]. intros r. cbn. case_decide; rewrite !count_ref_nil; lia. }
        rewrite E2. cbn. by rewrite fin_maps.insert_insert_ne, fin_maps.insert_insert_eq.
    + destruct Hp as [-> (n & Hn2 & [E Hr])]. rewrite E.
      eapply wp_update; [exact Hh1|]. apply wp_ret. cbn [ZSA_FAILED ZSA_SUCCEEDED negb].
      apply wp_bind. eapply wp_if_handle_valid; [apply has_stored, Hn|]. apply wp_bind. eapply wp_load; [apply has_stored, Hn|].
      apply wp_bind, wp_ret. eapply wp_destroy; [apply has_stored, Hn|]. apply wp_ret. cbn.
      rewrite delete_insert_eq, delete_insert_id by done. split; [apply calls_only_set; change (h <= h + 1 + n); lia|]. split_and!; [done|done|].
      intros r. specialize (Hr r). cbn in *. exact Hr.
Qed.
End life.

(** * Configuring the device *)

(** What the firmware reads from the bytes of DEV_CMD_SET_SYS_CFG. *)
Definition decode_sync_config (l : list Z) : option synchronization_config_t :=
  mode ← word_at 0 l; delay ← word_at 4 l; depth ← word_at 8 l; led ← l !! 12%nat;
  Some (mkSyncConfig mode delay (s32 depth) led).

Lemma s32_u32 x : - 2 ^ 31 <= x < 2 ^ 31 -> s32 (u32 x) = x.
Proof.
  intros Hx. unfold s32, u32. destruct (Z.neg_nonneg_cases x) as [Hn|Hn].
  - rewrite <- (Z.mod_add x 1 (2 ^ 32)) by lia. rewrite (Z.mod_small (x + 1 * 2 ^ 32)) by lia.
    replace (x + 1 * 2 ^ 32 + 2 ^ 31) with (x + 2 ^ 31 + 1 * 2 ^ 32) by lia. rewrite Z.mod_add, Z.mod_small by lia. lia.
  - rewrite (Z.mod_small x), Z.mod_small by lia. lia.
Qed.

Lemma decode_sync_config_bytes c :
  is_u32 (sc_mode c) -> is_u32 (sc_subordinate_delay_off_master_pts c) ->
  - 2 ^ 31 <= sc_depth_delay_off_color_pts c < 2 ^ 31 -> decode_sync_config (sync_config_bytes c) = Some c.
Proof.
  intros Hm Hd Hs. unfold decode_sync_config, sync_config_bytes.
  pose proof (u32_range (sc_depth_delay_off_color_pts c)).
  rewrite !word_at_skip, !word_at_0 by done. destruct c as [m d s l]. cbn -[s32 u32 le32 lookup]. 
  cbn [sc_depth_delay_off_color_pts] in *. rewrite s32_u32 by done. done.
Qed.

Lemma ticks_u32_range x : is_u32 (ZSA_USEC_TO_90K_HZ_TICK_u32 x).
Proof.
  unfold ZSA_USEC_TO_90K_HZ_TICK_u32, is_u32. pose proof (u32_range (x * 9)).
  split; [apply Z.div_pos; lia|apply Z.div_lt_upper_bound; lia].
Qed.

Lemma ticks_s32_range x : - 2 ^ 31 <= ZSA_USEC_TO_90K_HZ_TICK_s32 x < 2 ^ 31.
Proof.
  unfold ZSA_USEC_TO_90K_HZ_TICK_s32, s32. set (y := _ - 2 ^ 31).
  assert (- 2 ^ 31 <= y < 2 ^ 31) by (unfold y; pose proof (Z.mod_pos_bound (x * 9 + 2 ^ 31) (2 ^ 32) ltac:(lia)); lia).
  pose proof (Z.quot_rem' y 100). pose proof (Z.rem_bound_abs y 100 ltac:(lia)). lia.
Qed.

(** The conversion of delays from microseconds to ticks of 90 kHz is
    exact up to truncation as long as the 32-bit product with 9 does not wrap,
    and wrong beyond: 477218588 is the largest unsigned delay, and 238609294
    the largest signed one in either direction, for which it is right.  Below
    the bound, converting back loses less than 12 microseconds. *)
Theorem usec_ticks_bounds (x : Z) :
  (is_u32 x -> (ZSA_USEC_TO_90K_HZ_TICK_u32 x = x * 9 / 100 <-> x <= 477218588)) /\
  (- 2 ^ 31 <= x < 2 ^ 31 -> (ZSA_USEC_TO_90K_HZ_TICK_s32 x = Z.quot (x * 9) 100 <-> - 238609294 <= x <= 238609294)) /\
  (0 <= x <= 477218588 -> x - 12 < ZSA_90K_HZ_TICK_TO_USEC (ZSA_USEC_TO_90K_HZ_TICK_u32 x) <= x).
Proof.
  unfold is_u32, ZSA_USEC_TO_90K_HZ_TICK_u32, ZSA_USEC_TO_90K_HZ_TICK_s32, ZSA_90K_HZ_TICK_TO_USEC. split; [|split].
  - intros Hx. split.
    + intros E. destruct (Z.le_gt_cases x 477218588) as [?|Hgt]; [done|]. exfalso.
      pose proof (Z.div_mod (x * 9) (2 ^ 32) ltac:(lia)). pose proof (Z.mod_pos_bound (x * 9) (2 ^ 32) ltac:(lia)).
      unfold u32 in E. assert (1 <= x * 9 / 2 ^ 32) by (apply Z.div_le_lower_bound; lia).
      assert (x * 9 mod 2 ^ 32 + 2 ^ 32 <= x * 9) by nia.
      pose proof (Z.div_le_mono (x * 9 mod 2 ^ 32 + 42949672 * 100) (x * 9) 100 ltac:(lia) ltac:(lia)) as Hd.
      rewrite Z.div_add in Hd by lia. lia.
    + intros Hle. by rewrite u32_id by lia.
  - intros Hx. split.
    + intros E. destruct (Z.le_gt_cases (Z.abs x) 238609294) as [?|Hgt]; [lia|]. exfalso.
      set (y := s32 (x * 9)) in *. assert (Hy : exists k, y = x * 9 + k * 2 ^ 32 /\ - 2 ^ 31 <= y < 2 ^ 31).
      { exists (- ((x * 9 + 2 ^ 31) / 2 ^ 32)). unfold y, s32. pose proof (Z.div_mod (x * 9 + 2 ^ 31) (2 ^ 32) ltac:(lia)).
        pose proof (Z.mod_pos_bound (x * 9 + 2 ^ 31) (2 ^ 32) ltac:(lia)). lia. }
      destruct Hy as (k & Ey & Hy).
      pose proof (Z.quot_rem' y 100). pose proof (Z.rem_bound_abs y 100 ltac:(lia)).
      pose proof (Z.quot_rem' (x * 9) 100). pose proof (Z.rem_bound_abs (x * 9) 100 ltac:(lia)). 
      assert (k <> 0) by (intros ->; lia). lia.
    + intros Hle. by rewrite s32_id by lia.
  - intros Hx. rewrite u32_id by lia.
    pose proof (Z.div_mod (x * 9) 100 ltac:(lia)). pose proof (Z.mod_pos_bound (x * 9) 100 ltac:(lia)).
    set (t := x * 9 / 100) in *. rewrite (u64_id t), u64_id by lia.
    pose proof (Z.div_mod (t * 100) 9 ltac:(lia)). pose proof (Z.mod_pos_bound (t * 100) 9 ltac:(lia)). lia.
Qed.

Section configuring.
Context `{Platform} `{Usb} `{StreamClient}.

End configuring.

(** * Witnesses *)

Lemma usec_ticks_bounds_witness :
  ZSA_USEC_TO_90K_HZ_TICK_u32 477218588 = 42949672 /\ ZSA_USEC_TO_90K_HZ_TICK_u32 477218589 <> 477218589 * 9 / 100.
Proof.
  split.
  - rewrite (proj2 (proj1 (usec_ticks_bounds 477218588) ltac:(split; lia))); [reflexivity|lia].
  - intros E. apply (proj1 (usec_ticks_bounds 477218589) ltac:(split; lia)) in E. lia.
Defined.

(** The controller over the open module of [sample_usb_world]. *)
Definition sample_mcu_world : world := add_object (MColorMcu (mkColorMcu 1)) sample_usb_world.

