(* ===== verification/Color.v ===== *)
(** src/color/color.cpp: the color camera module, a thin state machine over
    the camera reader.  There are two readers, for Linux (uvc_camerareader.cpp,
    modelled in Uvc.v) and for Windows; the module is proved against either, so
    that the reader is a typeclass of answers here, as is the tick counter of
    the azure shared utility. *)

From S2P Require Export Image.

Definition ZSA_COLOR_CONTROL_EXPOSURE_TIME_ABSOLUTE : Z := 0.
Definition ZSA_COLOR_CONTROL_POWERLINE_FREQUENCY : Z := 9.
Definition ZSA_COLOR_CONTROL_MODE_AUTO : Z := 0.
Definition ZSA_COLOR_CONTROL_MODE_MANUAL : Z := 1.

(** The answers of the reader's methods and of the tick counter; the list
    holds all calls made before. *)
Class CameraReader : Type := {
  reader_new_ok : nat -> bool;                         (* new (std::nothrow) UVCCameraReader *)
  reader_Init : list event -> zsa_result_t;
  reader_Start : list event -> Z -> Z -> Z -> Z -> zsa_result_t;
  reader_Stop_others : nat -> world -> world;          (* the reader's thread, until it has stopped *)
  reader_GetCameraControlCapabilities : list event -> Z -> zsa_result_t * color_control_cap_t;
  reader_GetCameraControl : list event -> Z -> zsa_result_t * (Z * Z);
  reader_SetCameraControl : list event -> Z -> Z -> Z -> zsa_result_t;
  tickcounter_create_answer : list event -> Z;
  tickcounter_get_current_ms_answer : list event -> Z -> Z * Z
}.

(** The function that zsa_device_open registers. *)
Class ColorClient : Type := color_capture_ready_fn : zsa_result_t -> Z -> Z -> Mw unit.

#[export] Instance color_Context : Context color_context_t := {
  to_obj := fun c => OModule (MColor c);
  of_obj := fun o => match o with OModule (MColor c) => Some c | _ => None end;
  of_to_obj := fun _ => eq_refl;
  to_of_obj := ltac:(module_inj);
  zeroed := mkColor NULL color_cb_null NULL 0
    (replicate (Z.to_nat (ZSA_COLOR_CONTROL_POWERLINE_FREQUENCY + 1)) (mkCap 0 0 0 0 0 false false)) false
}.

Section operations.
Context `{Platform} `{CameraReader} `{ColorClient}.

(** A call of a method: its answer is appended to the trace. *)
Definition reader_call {A} (answer : list event -> A) (log : A -> reader_event) : Mw A := fun w =>
  let a := answer (trace w) in
  Done a (w <| trace := trace w ++ [EReader (log a)] |>).

Definition tickcounter_create : Mw Z := reader_call tickcounter_create_answer T_create.
Definition tickcounter_destroy (h : Z) : Mw unit := reader_call (fun _ => tt) (fun _ => T_destroy h).
Definition tickcounter_get_current_ms (h : Z) : Mw (Z * Z) :=
  reader_call (fun t => tickcounter_get_current_ms_answer t h) (fun '(err, _) => T_current_ms h err).

Definition reader_stop : Mw unit := fun w =>
  Done tt ((reader_Stop_others (tick w) (w <| trace := trace w ++ [EReader R_stop] |>)) <| tick := S (tick w) |>).

Definition color_valid {A} (v : A) (h : Z) (rest : Mw A) : Mw A := if_handle_valid color_context_t v h rest.

Definition color_stop (color_handle : Z) : Mw unit :=
  color_valid tt color_handle (
    let h := color_handle in
    update h (fun c => c <| cl_sensor_start_time_tick := 0 |>);;
    c ← load color_context_t h;
    when (cl_m_spCameraReader c) reader_stop).

Definition color_destroy (color_handle : Z) : Mw unit :=
  color_valid tt color_handle (
    let h := color_handle in
    color_stop h;;
    c ← load color_context_t h;
    when (cl_m_spCameraReader c) (
      reader_call (fun _ => tt) (fun _ => R_shutdown);;
      update h (fun c => c <| cl_m_spCameraReader := false |>));;
    handle_destroy color_context_t h).

Definition color_create (tick_handle : Z) (container_id serial_number : option (list Z))
    (capture_ready : color_cb_streaming_capture_t) (capture_ready_context : Z) (color_handle : bool)
    : Mw (zsa_result_t * option Z) :=
  if tick_handle =? NULL then mret (ZSA_RESULT_FAILED, None)
  else if negb color_handle then mret (ZSA_RESULT_FAILED, None)
  else if bool_decide (container_id = None) then mret (ZSA_RESULT_FAILED, None)
  else if bool_decide (serial_number = None) then mret (ZSA_RESULT_FAILED, None)
  else
    h ← handle_create color_context_t;
    result ← and_then (ZSA_RESULT_FROM_BOOL (negb (h =? NULL))) (
      update h (fun c => c <| cl_capture_ready_cb := capture_ready |>
        <| cl_capture_ready_cb_context := capture_ready_context |> <| cl_sensor_start_time_tick := 0 |>
        <| cl_tick := tick_handle |>);;
      ok ← ask reader_new_ok;
      update h (fun c => c <| cl_m_spCameraReader := ok |>);;
      if negb (ok : bool) then mret ZSA_RESULT_FAILED else reader_call reader_Init R_init);
    if ZSA_FAILED result then
      color_destroy h;;
      mret (result, Some NULL)
    else mret (result, Some h).

(** The callback of the reader. *)
Definition color_capture_available (result : zsa_result_t) (capture_handle context : Z) : Mw unit :=
  color ← load color_context_t context;
  (match cl_capture_ready_cb color with
   | color_cb_null => mret tt
   | color_capture_ready_cb => color_capture_ready_fn result capture_handle (cl_capture_ready_cb_context color)
   end);;
  if bool_decide (result <> ZSA_RESULT_SUCCEEDED) then c_assert (capture_handle =? NULL) else mret tt.

(** The two switches of color_start; its frame rate is 30.0f, 15.0f or
    5.0f. *)
Definition color_start_resolution (resolution : Z) : option (Z * Z) :=
  if resolution =? ZSA_COLOR_RESOLUTION_720P then Some (1280, 720)
  else if resolution =? ZSA_COLOR_RESOLUTION_2160P then Some (3840, 2160)
  else if resolution =? ZSA_COLOR_RESOLUTION_1440P then Some (2560, 1440)
  else if resolution =? ZSA_COLOR_RESOLUTION_1080P then Some (1920, 1080)
  else if resolution =? ZSA_COLOR_RESOLUTION_3072P then Some (4096, 3072)
  else if resolution =? ZSA_COLOR_RESOLUTION_1536P then Some (2048, 1536)
  else None.

Definition color_start_fps (fps : Z) : option Z :=
  if fps =? ZSA_FRAMES_PER_SECOND_30 then Some 30
  else if fps =? ZSA_FRAMES_PER_SECOND_15 then Some 15
  else if fps =? ZSA_FRAMES_PER_SECOND_5 then Some 5
  else None.

Definition color_start (color_handle : Z) (config : option zsa_device_configuration_t) : Mw zsa_result_t :=
  color_valid ZSA_RESULT_FAILED color_handle (
    match config with
    | None => mret ZSA_RESULT_FAILED
    | Some config =>
        let h := color_handle in
        match color_start_resolution (color_resolution config), color_start_fps (camera_fps config) with
        | Some (width, height), Some fps =>
            c ← load color_context_t h;
            '(err, now) ← tickcounter_get_current_ms (cl_tick c);
            when (err =? 0) (update h (fun c => c <| cl_sensor_start_time_tick := now |>));;
            result ← and_then (ZSA_RESULT_FROM_BOOL (err =? 0)) (
              c ← load color_context_t h;
              if negb (cl_m_spCameraReader c) then throw NullDeref
              else
                reader_call (fun t => reader_Start t width height fps (color_format config))
                  (R_start width height fps (color_format config)));
            when (ZSA_FAILED result) (color_stop h);;
            mret result
        | _, _ => mret ZSA_RESULT_FAILED
        end
    end).

Definition color_get_sensor_start_time_tick (handle : Z) : Mw Z :=
  color_valid 0 handle (
    c ← load color_context_t handle;
    mret (cl_sensor_start_time_tick c)).

Definition control_in_range (command : Z) : bool :=
  negb ((command <? ZSA_COLOR_CONTROL_EXPOSURE_TIME_ABSOLUTE) || (command >? ZSA_COLOR_CONTROL_POWERLINE_FREQUENCY)).

(** The result and, on success, what is stored through the out pointers
    (whether each is given is [outs]). *)
Definition color_get_control_capabilities (handle command : Z) (outs : list bool)
    : Mw (zsa_result_t * option color_control_cap_t) :=
  color_valid (ZSA_RESULT_FAILED, None) handle (
    if negb (control_in_range command) || negb (forallb id outs) then mret (ZSA_RESULT_FAILED, None)
    else
      c ← load color_context_t handle;
      cap ← need OutOfBounds (cl_control_cap c !! Z.to_nat command);
      result ← (if negb (cap_valid cap) then
                  if negb (cl_m_spCameraReader c) then throw NullDeref
                  else
                    '(result, cap) ← reader_call (fun t => reader_GetCameraControlCapabilities t command)
                                       (fun '(result, _) => R_capabilities command result);
                    update handle (fun c => c <| cl_control_cap := <[Z.to_nat command := cap]> (cl_control_cap c) |>);;
                    mret result
                else mret ZSA_RESULT_SUCCEEDED);
      if ZSA_FAILED result then mret (result, None)
      else
        c ← load color_context_t handle;
        cap ← need OutOfBounds (cl_control_cap c !! Z.to_nat command);
        mret (result, Some cap)).

Definition color_get_control (handle command : Z) (mode value : bool) : Mw (zsa_result_t * (Z * Z)) :=
  color_valid (ZSA_RESULT_FAILED, (0, 0)) handle (
    if negb (control_in_range command) || negb mode || negb value then mret (ZSA_RESULT_FAILED, (0, 0))
    else
      c ← load color_context_t handle;
      if negb (cl_m_spCameraReader c) then throw NullDeref
      else reader_call (fun t => reader_GetCameraControl t command) (fun '(result, _) => R_get_control command result)).

Definition color_set_control (handle command mode value : Z) : Mw zsa_result_t :=
  color_valid ZSA_RESULT_FAILED handle (
    if negb (control_in_range command) then mret ZSA_RESULT_FAILED
    else if negb (mode =? ZSA_COLOR_CONTROL_MODE_AUTO) && negb (mode =? ZSA_COLOR_CONTROL_MODE_MANUAL)
    then mret ZSA_RESULT_FAILED
    else
      c ← load color_context_t handle;
      if negb (cl_m_spCameraReader c) then throw NullDeref
      else reader_call (fun t => reader_SetCameraControl t command mode value) (R_set_control command mode value)).
End operations.

(** * Starting the camera *)

Section starting.
Context `{Platform} `{CameraReader} `{ColorClient}.

(** The frame rates both color_start and capturesync_start accept. *)
Definition fps_value (camera_fps : Z) : option Z :=
  if camera_fps =? ZSA_FRAMES_PER_SECOND_5 then Some 5
  else if camera_fps =? ZSA_FRAMES_PER_SECOND_15 then Some 15
  else if camera_fps =? ZSA_FRAMES_PER_SECOND_30 then Some 30
  else None.

(** The table in color_start is the one of the conversion helper, and the
    frame rates are those of zsa_convert_fps_to_uint, each in another order. *)
Lemma color_start_resolution_table resolution :
  color_start_resolution resolution = zsa_convert_resolution_to_width_height resolution.
Proof.
  unfold color_start_resolution, zsa_convert_resolution_to_width_height.
  repeat match goal with |- context [Z.eqb resolution ?x] => destruct (Z.eqb_spec resolution x); subst; try reflexivity end.
Qed.

Lemma color_start_fps_table fps : color_start_fps fps = fps_value fps.
Proof.
  unfold color_start_fps, fps_value.
  repeat match goal with |- context [Z.eqb fps ?x] => destruct (Z.eqb_spec fps x); subst; try reflexivity end.
Qed.

Lemma wp_reader_call {A} (answer : list event -> A) log w (Q : A -> world -> Prop) :
  Q (answer (trace w)) (w <| trace := trace w ++ [EReader (log (answer (trace w)))] |>) -> wp (reader_call answer log) Q w.
Proof. done. Qed.

Lemma wp_color_stop h c w :
  has w h c -> (forall t w, reader_Stop_others t w = w) ->
  wp (color_stop h)
     (fun _ w' => has w' h (c <| cl_sensor_start_time_tick := 0 |>) /\
        trace w' = trace w ++ (if cl_m_spCameraReader c then [EReader R_stop] else [])) w.
Proof.
  intros Hh Ho. pose proof Hh as [Hn _]. eapply wp_if_handle_valid; [exact Hh|].
  apply wp_bind. eapply wp_update; [exact Hh|]. apply wp_bind. eapply wp_load; [apply has_stored, Hn|].
  cbn [cl_m_spCameraReader update_field]. destruct (cl_m_spCameraReader c); cbn [when].
  - unfold reader_stop, wp. rewrite Ho. split; [apply has_stored, Hn|done].
  - apply wp_ret. split; [apply has_stored, Hn|]. cbn. by rewrite app_nil_r.
Qed.

(** C35: color_start on a camera with its reader.  A resolution or frame rate
    the conversion tables do not know is refused, and nothing is done.
    Otherwise the reader is started with the width, height and rate of the
    tables and the format of the configuration, after the tick counter was
    read; success is the reader's success, and then the start time is the one
    read.  If the tick counter or the reader fails, the reader is stopped and
    the start time is 0. *)
Theorem color_start_spec (h : Z) (c : color_context_t) (config : zsa_device_configuration_t) (w : world)
  (Hh : has w h c) (Hr : cl_m_spCameraReader c = true) (Ho : forall t w, reader_Stop_others t w = w) :
  match zsa_convert_resolution_to_width_height (color_resolution config), fps_value (camera_fps config) with
  | Some (width, height), Some fps =>
      let '(err, now) := tickcounter_get_current_ms_answer (trace w) (cl_tick c) in
      let asked := trace w ++ [EReader (T_current_ms (cl_tick c) err)] in
      let result := if err =? 0 then reader_Start asked width height fps (color_format config) else ZSA_RESULT_FAILED in
      exists w', color_start h (Some config) w = Done result w' /\
        has w' h (c <| cl_sensor_start_time_tick := if ZSA_SUCCEEDED result then now else 0 |>) /\
        trace w' = asked ++ (if err =? 0 then [EReader (R_start width height fps (color_format config) result)] else [])
                         ++ (if ZSA_SUCCEEDED result then [] else [EReader R_stop])
  | _, _ => color_start h (Some config) w = Done ZSA_RESULT_FAILED w
  end.
Proof.
  rewrite <- color_start_resolution_table, <- color_start_fps_table. pose proof Hh as [Hn _].
  assert (Hrefuse : forall m, (forall Q, wp m Q w -> wp (color_start h (Some config)) Q w) -> m = mret ZSA_RESULT_FAILED ->
    color_start h (Some config) w = Done ZSA_RESULT_FAILED w).
  { intros m Hm ->. destruct (proj1 (wp_run _ _ _) (Hm (fun r w' => r = ZSA_RESULT_FAILED /\ w' = w) ltac:(by apply wp_ret)))
      as (r & w' & E & -> & ->). exact E. }
  destruct (color_start_resolution _) as [[width height]|] eqn:Er.
  2: { eapply Hrefuse; [|reflexivity]. intros Q HQ. eapply wp_if_handle_valid; [exact Hh|]. by rewrite Er. }
  destruct (color_start_fps _) as [fps|] eqn:Ef.
  2: { eapply Hrefuse; [|reflexivity]. intros Q HQ. eapply wp_if_handle_valid; [exact Hh|]. by rewrite Er, Ef. }
  clear Hrefuse. destruct (tickcounter_get_current_ms_answer _ _) as [err now] eqn:Et. cbv zeta.
  set (asked := trace w ++ _). set (result := if err =? 0 then _ else _).
  assert (Hw : wp (color_start h (Some config)) (fun r w' => r = result /\
    has w' h (c <| cl_sensor_start_time_tick := if ZSA_SUCCEEDED result then now else 0 |>) /\
    trace w' = asked ++ (if err =? 0 then [EReader (R_start width height fps (color_format config) result)] else [])
                     ++ (if ZSA_SUCCEEDED result then [] else [EReader R_stop])) w).
  2: { destruct (proj1 (wp_run _ _ _) Hw) as (r & w' & E & -> & Hp). by exists w'. }
  eapply wp_if_handle_valid; [exact Hh|]. rewrite Er, Ef. apply wp_bind. eapply wp_load; [exact Hh|].
  apply wp_bind, wp_reader_call. rewrite Et. fold asked. set (w1 := w <| trace := _ |>).
  assert (Hh1 : has w1 h c) by exact Hh. unfold result. clear result. destruct (err =? 0) eqn:E0; cbn [when ZSA_RESULT_FROM_BOOL and_then ZSA_SUCCEEDED].
  - apply wp_bind. eapply wp_update; [exact Hh1|]. apply wp_bind, wp_bind. eapply wp_load; [apply has_stored, Hn|].
    cbn [cl_m_spCameraReader update_field]. rewrite Hr. cbn [negb]. apply wp_reader_call. cbn [trace update_field].
    set (result := reader_Start _ _ _ _ _). apply wp_bind. destruct result; cbn [ZSA_FAILED ZSA_SUCCEEDED negb when].
    + apply wp_ret, wp_ret. split; [done|]. split; [exact (has_stored h _ w1 Hn)|]. done.
    + eapply wp_mono; [apply wp_color_stop; [exact (has_stored h _ w1 Hn)|exact Ho]|]. intros _ w2 [Hh2 Et2].
      apply wp_ret. split; [done|]. split; [exact Hh2|]. rewrite Et2. cbn. by rewrite <- app_assoc.
  - apply wp_bind, wp_ret, wp_bind, wp_ret, wp_bind. eapply wp_mono; [by apply (wp_color_stop h c)|]. intros _ w2 [Hh2 Et2].
    apply wp_ret. split; [done|]. split; [exact Hh2|]. rewrite Hr in Et2. by rewrite Et2.
Qed.
End starting.

(** * Witnesses *)

(** A camera that works; nobody else runs. *)
#[export] Instance sample_reader : CameraReader := {|
  reader_new_ok _ := true;
  reader_Init _ := ZSA_RESULT_SUCCEEDED;
  reader_Start _ _ _ _ _ := ZSA_RESULT_SUCCEEDED;
  reader_Stop_others _ w := w;
  reader_GetCameraControlCapabilities _ _ := (ZSA_RESULT_SUCCEEDED, mkCap 500 133330 100 33333 ZSA_COLOR_CONTROL_MODE_AUTO true true);
  reader_GetCameraControl _ _ := (ZSA_RESULT_SUCCEEDED, (ZSA_COLOR_CONTROL_MODE_MANUAL, 8333));
  reader_SetCameraControl _ _ _ _ := ZSA_RESULT_SUCCEEDED;
  tickcounter_create_answer _ := 77;
  tickcounter_get_current_ms_answer _ _ := (0, 1234)
|}.

Definition sample_color : color_context_t := (zeroed (T := color_context_t)) <| cl_tick := 77 |> <| cl_m_spCameraReader := true |>.
Definition sample_color_world : world := init_world <| heap := {[1 := to_obj sample_color]} |> <| fresh := 2 |>.

Lemma color_start_spec_witness :
  exists w', color_start 1 (Some (mkConfig ZSA_IMAGE_FORMAT_COLOR_MJPG ZSA_COLOR_RESOLUTION_1440P ZSA_DEPTH_MODE_OFF
      ZSA_FRAMES_PER_SECOND_15 false 0 ZSA_WIRED_SYNC_MODE_STANDALONE 0 false)) sample_color_world = Done ZSA_RESULT_SUCCEEDED w' /\
    has w' 1 (sample_color <| cl_sensor_start_time_tick := 1234 |>) /\
    trace w' = [EReader (T_current_ms 77 0); EReader (R_start 2560 1440 15 0 ZSA_RESULT_SUCCEEDED)].
Proof.
  exact (color_start_spec 1 sample_color (mkConfig ZSA_IMAGE_FORMAT_COLOR_MJPG ZSA_COLOR_RESOLUTION_1440P ZSA_DEPTH_MODE_OFF
      ZSA_FRAMES_PER_SECOND_15 false 0 ZSA_WIRED_SYNC_MODE_STANDALONE 0 false) sample_color_world
    ltac:(split; [discriminate|reflexivity]) eq_refl (fun _ _ => eq_refl)).
Defined.
