(* ===== verification/Uvc.v ===== *)
(** src/color/uvc_camerareader.cpp and uvc_camerareader.h: the reader of the
    color camera on Linux.  libuvc and the MJPEG decoder are a typeclass of
    answers; the parser of the frame metadata (ksmetadata.h), the mapping of
    exposure times (color_priv.h) and the delivery of captures are here. *)

From S2P Require Export Capture Color.

(** * Constants *)

Definition COLOR_CAMERA_VID : Z := 0x045e.
Definition COLOR_CAMERA_PID : Z := 0x097d.
Definition UVC_AUTO_EXPOSURE_MODE_MANUAL : Z := 1.
Definition UVC_AUTO_EXPOSURE_MODE_AUTO : Z := 2.
Definition UVC_AUTO_EXPOSURE_MODE_SHUTTER_PRIORITY : Z := 4.
Definition UVC_AUTO_EXPOSURE_MODE_APERTURE_PRIORITY : Z := 8.
Definition CONV_100USEC_TO_USEC : Z := 100.

Definition ZSA_COLOR_CONTROL_AUTO_EXPOSURE_PRIORITY : Z := 1.
Definition ZSA_COLOR_CONTROL_BRIGHTNESS : Z := 2.
Definition ZSA_COLOR_CONTROL_CONTRAST : Z := 3.
Definition ZSA_COLOR_CONTROL_SATURATION : Z := 4.
Definition ZSA_COLOR_CONTROL_SHARPNESS : Z := 5.
Definition ZSA_COLOR_CONTROL_WHITEBALANCE : Z := 6.
Definition ZSA_COLOR_CONTROL_BACKLIGHT_COMPENSATION : Z := 7.
Definition ZSA_COLOR_CONTROL_GAIN : Z := 8.

(** libuvc's frame formats, by what the reader calls them. *)
Inductive uvc_frame_format : Set := UVC_COLOR_FORMAT_MJPEG | UVC_COLOR_FORMAT_NV12 | UVC_COLOR_FORMAT_YUYV.

Definition frame_format_code (f : uvc_frame_format) : Z :=
  match f with UVC_COLOR_FORMAT_MJPEG => 7 | UVC_COLOR_FORMAT_NV12 => 17 | UVC_COLOR_FORMAT_YUYV => 3 end.

(** ksmetadata.h *)
Definition MetadataId_CaptureStats : Z := 0x00000003.
Definition MetadataId_FrameAlignInfo : Z := 0x80000001.
Definition CAPTURESTATS_FLAG_EXPOSURETIME : Z := 0x00000001.
Definition CAPTURESTATS_FLAG_ISOSPEED : Z := 0x00000004.
Definition CAPTURESTATS_FLAG_WHITEBALANCE : Z := 0x00000020.
Definition sizeof_KSCAMERA_METADATA_ITEMHEADER : Z := 8.

(** color_priv.h *)
Record color_exposure_mapping_t : Type := mkExposure {
  exponent : Z;
  exposure_usec : Z;
  exposure_mapped_50Hz_usec : Z;
  exposure_mapped_60Hz_usec : Z
}.

Definition device_exposure_mapping : list color_exposure_mapping_t :=
  [ mkExposure (-11)     488    500    500;
    mkExposure (-10)     977   1250   1250;
    mkExposure  (-9)    1953   2500   2500;
    mkExposure  (-8)    3906  10000   8330;
    mkExposure  (-7)    7813  20000  16670;
    mkExposure  (-6)   15625  30000  33330;
    mkExposure  (-5)   31250  40000  41670;
    mkExposure  (-4)   62500  50000  50000;
    mkExposure  (-3)  125000  60000  66670;
    mkExposure  (-2)  250000  80000  83330;
    mkExposure  (-1)  500000 100000 100000;
    mkExposure     0 1000000 120000 116670;
    mkExposure     1 2000000 130000 133330 ].

Definition mapped (is_using_60hz : bool) (e : color_exposure_mapping_t) : Z :=
  if is_using_60hz then exposure_mapped_60Hz_usec e else exposure_mapped_50Hz_usec e.

Definition MAX_EXPOSURE (is_using_60hz : bool) : Z :=
  default 0 (mapped is_using_60hz <$> last device_exposure_mapping).

(** The loop of both mappings: the first entry that is not below [x]. *)
Fixpoint map_exposure (is_using_60hz : bool) (x : Z) (l : list color_exposure_mapping_t) : option Z :=
  match l with
  | [] => None
  | e :: l =>
      let mapped_exposure := mapped is_using_60hz e in
      if x <=? mapped_exposure then Some mapped_exposure else map_exposure is_using_60hz x l
  end.

Definition MapK4aExposureToLinux (r : UVCCameraReader) (K4aExposure_usec : Z) : Z :=
  let hz := uv_using_60hz_power r in
  match map_exposure hz K4aExposure_usec device_exposure_mapping with
  | Some mapped_exposure => mapped_exposure / CONV_100USEC_TO_USEC
  | None => MAX_EXPOSURE hz / CONV_100USEC_TO_USEC
  end.

(** An int32_t multiplied by 100: undefined when the product does not fit. *)
Definition fits_s32 (x : Z) : option Z := if bool_decide (- 2 ^ 31 <= x < 2 ^ 31) then Some x else None.

Definition MapLinuxExposureToK4a (r : UVCCameraReader) (LinuxExposure : Z) : option Z :=
  let hz := uv_using_60hz_power r in
  x ← fits_s32 (LinuxExposure * CONV_100USEC_TO_USEC);
  Some (default (MAX_EXPOSURE hz) (map_exposure hz x device_exposure_mapping)).

(** * libuvc and the decoder *)

(** The types of the controls' values. *)
Definition s16 (x : Z) : Z := (x + 2 ^ 15) mod 2 ^ 16 - 2 ^ 15.

Definition uvc_value (c : uvc_control) (x : Z) : Z :=
  match c with
  | UVC_ae_mode | UVC_white_balance_temperature_auto | UVC_power_line_frequency => u8 x
  | UVC_exposure_abs => u32 x
  | UVC_brightness => s16 x
  | _ => u16 x
  end.

(** libuvc's uvc_frame_t: data_bytes bytes at data, metadata_bytes at
    metadata. *)
Record uvc_frame_t : Type := mkUvcFrame {
  fr_data : list Z;
  fr_data_bytes : Z;
  fr_width : Z;
  fr_height : Z;
  fr_step : Z;
  fr_metadata : list Z;
  fr_metadata_bytes : Z;
  fr_tv_sec : Z;
  fr_tv_nsec : Z
}.

(** The answers may depend on all calls made before.  What a function stores
    through a pointer counts when it succeeds. *)
Class Uvc : Type := {
  uvc_init_answer : list event -> Z * Z;
  uvc_find_device_answer : list event -> Z -> Z -> Z -> option (list Z) -> Z * Z;
  uvc_open_answer : list event -> Z -> Z * Z;
  uvc_get_stream_ctrl_format_size_answer : list event -> Z -> Z -> Z -> Z -> Z -> Z;
  uvc_start_streaming_answer : list event -> Z -> Z;
  (* the callbacks that run until the stream has stopped *)
  uvc_stop_streaming_others : nat -> world -> world;
  uvc_get_answer : list event -> Z -> uvc_control -> uvc_req_code -> Z * Z;
  uvc_set_answer : list event -> Z -> uvc_control -> Z -> Z;
  tjInitDecompress_answer : list event -> Z;
  (* decoder, input, width, height: the status and the bytes stored *)
  tjDecompress2_answer : list event -> Z -> list Z -> Z -> Z -> Z * list Z
}.

(** The functions that are passed to Start. *)
Class ReaderClient : Type := reader_client : Z -> zsa_result_t -> Z -> Z -> Mw unit.

#[export] Instance uvc_Context : Context UVCCameraReader := {
  to_obj := fun r => OModule (MUvc r);
  of_obj := fun o => match o with OModule (MUvc r) => Some r | _ => None end;
  of_to_obj := fun _ => eq_refl;
  to_of_obj := ltac:(module_inj);
  (* a new UVCCameraReader; the image format cache has no initialiser *)
  zeroed := mkUvc LockFree NULL NULL NULL false true 0 0 0 0 stream_callback_null NULL NULL
}.

#[export] Instance cap_eta : RecordEta color_control_cap_t := fun r =>
  mkCap (cap_minValue r) (cap_maxValue r) (cap_stepValue r) (cap_defaultValue r) (cap_defaultMode r)
    (cap_supportAuto r) (cap_valid r).

(** * Operations *)

Section operations.
Context `{Platform} `{Uvc} `{ReaderClient}.

Definition uvc_call {A} (answer : list event -> A) (log : A -> uvc_event) : Mw A := fun w =>
  let a := answer (trace w) in
  Done a (w <| trace := trace w ++ [EUvc (log a)] |>).
Definition uvc_note (e : uvc_event) : Mw unit := uvc_call (fun _ => tt) (fun _ => e).

Definition uvc_get (handle : Z) (c : uvc_control) (req : uvc_req_code) : Mw (Z * Z) :=
  '(err, x) ← uvc_call (fun t => uvc_get_answer t handle c req) (fun '(err, x) => V_get handle c req err x);
  mret (err, uvc_value c x).
Definition uvc_set (handle : Z) (c : uvc_control) (x : Z) : Mw Z :=
  uvc_call (fun t => uvc_set_answer t handle c (uvc_value c x)) (fun err => V_set handle c (uvc_value c x) err).

Definition uvc_stop_others : Mw unit := fun w =>
  Done tt ((uvc_stop_streaming_others (tick w) w) <| tick := S (tick w) |>).
Definition uvc_stop_streaming (handle : Z) : Mw unit := uvc_note (V_stop_streaming handle);; uvc_stop_others.

Definition IsInitialized (r : UVCCameraReader) : bool :=
  negb (uv_pContext r =? NULL) && negb (uv_pDevice r =? NULL) && negb (uv_pDeviceHandle r =? NULL).

(** ** Starting and stopping *)

Definition Stop (this : Z) : Mw unit :=
  Lock uv_mutex this;;
  r ← load UVCCameraReader this;
  if uv_streaming r then
    update this (fun r => r <| uv_streaming := false |> <| uv_pCallback := stream_callback_null |>
      <| uv_pCallbackContext := NULL |>);;
    Unlock uv_mutex this;;
    r ← load UVCCameraReader this;
    uvc_stop_streaming (uv_pDeviceHandle r)
  else Unlock uv_mutex this.

Definition Shutdown (this : Z) : Mw unit :=
  Stop this;;
  r ← load UVCCameraReader this;
  when (negb (uv_pDeviceHandle r =? NULL)) (
    uvc_note (V_close (uv_pDeviceHandle r));;
    update this (fun r => r <| uv_pDeviceHandle := NULL |>));;
  r ← load UVCCameraReader this;
  when (negb (uv_pDevice r =? NULL)) (
    uvc_note (V_unref_device (uv_pDevice r));;
    update this (fun r => r <| uv_pDevice := NULL |>));;
  r ← load UVCCameraReader this;
  when (negb (uv_pContext r =? NULL)) (
    uvc_note (V_exit (uv_pContext r));;
    update this (fun r => r <| uv_pContext := NULL |>));;
  r ← load UVCCameraReader this;
  when (negb (uv_decoder r =? NULL)) (
    uvc_note (V_decoder_destroy (uv_decoder r));;
    update this (fun r => r <| uv_decoder := NULL |>)).

Definition Init (this : Z) (serialNumber : option (list Z)) : Mw zsa_result_t :=
  r ← load UVCCameraReader this;
  if IsInitialized r then mret ZSA_RESULT_FAILED
  else
    Shutdown this;;
    '(res, ctx) ← uvc_call uvc_init_answer (fun '(err, ctx) => V_init err ctx);
    if res <? 0 then mret ZSA_RESULT_FAILED
    else
      update this (fun r => r <| uv_pContext := ctx |>);;
      '(res, dev) ← uvc_call (fun t => uvc_find_device_answer t ctx COLOR_CAMERA_VID COLOR_CAMERA_PID serialNumber)
                      (fun '(err, dev) => V_find_device ctx COLOR_CAMERA_VID COLOR_CAMERA_PID err dev);
      if res <? 0 then Shutdown this;; mret ZSA_RESULT_FAILED
      else
        update this (fun r => r <| uv_pDevice := dev |>);;
        '(res, handle) ← uvc_call (fun t => uvc_open_answer t dev) (fun '(err, handle) => V_open dev err handle);
        if res <? 0 then Shutdown this;; mret ZSA_RESULT_FAILED
        else
          update this (fun r => r <| uv_pDeviceHandle := handle |>);;
          mret ZSA_RESULT_SUCCEEDED.

(** The switch over the image format: the format delivered, the format asked
    of the camera, and libuvc's name for it. *)
Definition start_format (imageFormat : Z) : option (Z * uvc_frame_format) :=
  if imageFormat =? ZSA_IMAGE_FORMAT_COLOR_MJPG then Some (imageFormat, UVC_COLOR_FORMAT_MJPEG)
  else if imageFormat =? ZSA_IMAGE_FORMAT_COLOR_NV12 then Some (imageFormat, UVC_COLOR_FORMAT_NV12)
  else if imageFormat =? ZSA_IMAGE_FORMAT_COLOR_YUY2 then Some (imageFormat, UVC_COLOR_FORMAT_YUYV)
  else if imageFormat =? ZSA_IMAGE_FORMAT_COLOR_BGRA32 then Some (ZSA_IMAGE_FORMAT_COLOR_MJPG, UVC_COLOR_FORMAT_MJPEG)
  else None.

(** Start with the lock held; [fps] is the frame rate as an int. *)
Definition start_locked (this width height fps imageFormat : Z) (pCallback : color_cb_stream_t) (pCallbackContext : Z)
    : Mw zsa_result_t :=
  r ← load UVCCameraReader this;
  if negb (IsInitialized r) then mret ZSA_RESULT_FAILED
  else if uv_streaming r then mret ZSA_RESULT_FAILED
  else
    match start_format imageFormat with
    | None => mret ZSA_RESULT_FAILED
    | Some (input, frameFormat) =>
        update this (fun r => r <| uv_output_image_format := imageFormat |> <| uv_input_image_format := input |>
          <| uv_width_pixels := width |> <| uv_height_pixels := height |>);;
        let handle := uv_pDeviceHandle r in
        let code := frame_format_code frameFormat in
        res ← uvc_call (fun t => uvc_get_stream_ctrl_format_size_answer t handle code width height fps)
                (fun err => V_get_stream_ctrl handle code width height fps err);
        if res <? 0 then mret ZSA_RESULT_FAILED
        else
          update this (fun r => r <| uv_pCallback := pCallback |> <| uv_pCallbackContext := pCallbackContext |>);;
          res ← uvc_call (fun t => uvc_start_streaming_answer t handle) (fun err => V_start_streaming handle err);
          if res <? 0 then
            update this (fun r => r <| uv_width_pixels := 0 |> <| uv_height_pixels := 0 |>
              <| uv_pCallback := stream_callback_null |> <| uv_pCallbackContext := NULL |>);;
            mret ZSA_RESULT_FAILED
          else
            update this (fun r => r <| uv_streaming := true |>);;
            mret ZSA_RESULT_SUCCEEDED
    end.

Definition Start (this width height fps imageFormat : Z) (pCallback : color_cb_stream_t) (pCallbackContext : Z)
    : Mw zsa_result_t :=
  match pCallback with
  | stream_callback_null => mret ZSA_RESULT_FAILED
  | stream_callback _ =>
      if pCallbackContext =? NULL then mret ZSA_RESULT_FAILED
      else
        Lock uv_mutex this;;
        result ← start_locked this width height fps imageFormat pCallback pCallbackContext;
        Unlock uv_mutex this;;
        mret result
  end.
(** ** Camera controls *)

(** The controls with nothing but a value. *)
Definition plain_control (command : Z) : option uvc_control :=
  if command =? ZSA_COLOR_CONTROL_BRIGHTNESS then Some UVC_brightness
  else if command =? ZSA_COLOR_CONTROL_CONTRAST then Some UVC_contrast
  else if command =? ZSA_COLOR_CONTROL_SATURATION then Some UVC_saturation
  else if command =? ZSA_COLOR_CONTROL_SHARPNESS then Some UVC_sharpness
  else if command =? ZSA_COLOR_CONTROL_BACKLIGHT_COMPENSATION then Some UVC_backlight_compensation
  else if command =? ZSA_COLOR_CONTROL_GAIN then Some UVC_gain
  else if command =? ZSA_COLOR_CONTROL_POWERLINE_FREQUENCY then Some UVC_power_line_frequency
  else None.

(** The modes that the camera reports; [None]: an invalid one. *)
Definition ae_mode_value (ae_mode : Z) : option Z :=
  if (ae_mode =? UVC_AUTO_EXPOSURE_MODE_MANUAL) || (ae_mode =? UVC_AUTO_EXPOSURE_MODE_SHUTTER_PRIORITY)
  then Some ZSA_COLOR_CONTROL_MODE_MANUAL
  else if (ae_mode =? UVC_AUTO_EXPOSURE_MODE_AUTO) || (ae_mode =? UVC_AUTO_EXPOSURE_MODE_APERTURE_PRIORITY)
  then Some ZSA_COLOR_CONTROL_MODE_AUTO
  else None.
Definition wb_mode_value (wb_mode : Z) : option Z :=
  if wb_mode =? 0 then Some ZSA_COLOR_CONTROL_MODE_MANUAL
  else if wb_mode =? 1 then Some ZSA_COLOR_CONTROL_MODE_AUTO
  else None.

(** A getter; [fail] when it returns an error. *)
Definition get_or {A} (fail : A) (handle : Z) (c : uvc_control) (req : uvc_req_code) (next : Z -> Mw A) : Mw A :=
  '(res, x) ← uvc_get handle c req;
  if res <? 0 then mret fail else next x.

(** The four reads of every range: minimum, maximum, step, default. *)
Definition get_range {A} (fail : A) (handle : Z) (c : uvc_control) (next : Z -> Z -> Z -> Z -> Mw A) : Mw A :=
  get_or fail handle c UVC_GET_MIN (fun min =>
  get_or fail handle c UVC_GET_MAX (fun max =>
  get_or fail handle c UVC_GET_RES (fun step =>
  get_or fail handle c UVC_GET_DEF (fun def => next min max step def)))).

(** The result and what *capabilities holds afterwards. *)
Definition GetCameraControlCapabilities (this command : Z) (capabilities : option color_control_cap_t)
    : Mw (zsa_result_t * option color_control_cap_t) :=
  match capabilities with
  | None => mret (ZSA_RESULT_FAILED, None)
  | Some cap =>
      r ← load UVCCameraReader this;
      let handle := uv_pDeviceHandle r in
      if command =? ZSA_COLOR_CONTROL_EXPOSURE_TIME_ABSOLUTE then
        get_or (ZSA_RESULT_FAILED, Some cap) handle UVC_ae_mode UVC_GET_DEF (fun default_ae_mode =>
          match ae_mode_value default_ae_mode with
          | None => mret (ZSA_RESULT_FAILED, Some cap)
          | Some mode =>
              let cap := cap <| cap_defaultMode := mode |> in
              get_range (ZSA_RESULT_FAILED, Some cap) handle UVC_exposure_abs (fun min max step def =>
                minValue ← need SignedOverflow (MapLinuxExposureToK4a r (s32 min));
                maxValue ← need SignedOverflow (MapLinuxExposureToK4a r (s32 max));
                defaultValue ← need SignedOverflow (MapLinuxExposureToK4a r (s32 def));
                mret (ZSA_RESULT_SUCCEEDED, Some (mkCap minValue maxValue
                  (s32 (u32 (step * CONV_100USEC_TO_USEC))) defaultValue mode true true)))
          end)
      else if command =? ZSA_COLOR_CONTROL_WHITEBALANCE then
        get_or (ZSA_RESULT_FAILED, Some cap) handle UVC_white_balance_temperature_auto UVC_GET_DEF (fun default_wb_mode =>
          match wb_mode_value default_wb_mode with
          | None => mret (ZSA_RESULT_FAILED, Some cap)
          | Some mode =>
              let cap := cap <| cap_defaultMode := mode |> in
              get_range (ZSA_RESULT_FAILED, Some cap) handle UVC_white_balance_temperature (fun min max step def =>
                mret (ZSA_RESULT_SUCCEEDED, Some (mkCap min max step def mode true true)))
          end)
      else if command =? ZSA_COLOR_CONTROL_AUTO_EXPOSURE_PRIORITY then
        mret (ZSA_RESULT_SUCCEEDED, Some (mkCap 0 0 0 0 ZSA_COLOR_CONTROL_MODE_MANUAL false true))
      else
        match plain_control command with
        | None => mret (ZSA_RESULT_FAILED, Some cap)
        | Some c =>
            get_range (ZSA_RESULT_FAILED, Some cap) handle c (fun min max step def =>
              mret (ZSA_RESULT_SUCCEEDED, Some (mkCap min max step def ZSA_COLOR_CONTROL_MODE_MANUAL false true)))
        end
  end.

(** The result and what *mode and *pValue hold afterwards; the arguments are
    what they hold before, [None] for a null pointer. *)
Definition GetCameraControl (this command : Z) (mode pValue : option Z) : Mw (zsa_result_t * (option Z * option Z)) :=
  match mode, pValue with
  | Some _, Some value =>
      r ← load UVCCameraReader this;
      if negb (IsInitialized r) then mret (ZSA_RESULT_FAILED, (mode, pValue))
      else
        let handle := uv_pDeviceHandle r in
        let manual := ZSA_COLOR_CONTROL_MODE_MANUAL in
        let fail m := (ZSA_RESULT_FAILED, (Some m, Some value)) in
        let succeed m v := (ZSA_RESULT_SUCCEEDED, (Some m, Some v)) in
        if command =? ZSA_COLOR_CONTROL_EXPOSURE_TIME_ABSOLUTE then
          get_or (fail manual) handle UVC_ae_mode UVC_GET_CUR (fun ae_mode =>
            match ae_mode_value ae_mode with
            | None => mret (fail manual)
            | Some m =>
                get_or (fail m) handle UVC_exposure_abs UVC_GET_CUR (fun exposure_time =>
                  v ← need SignedOverflow (MapLinuxExposureToK4a r (s32 exposure_time));
                  mret (succeed m v))
            end)
        else if command =? ZSA_COLOR_CONTROL_WHITEBALANCE then
          get_or (fail manual) handle UVC_white_balance_temperature_auto UVC_GET_CUR (fun wb_mode =>
            match wb_mode_value wb_mode with
            | None => mret (fail manual)
            | Some m =>
                get_or (fail m) handle UVC_white_balance_temperature UVC_GET_CUR (fun white_balance =>
                  mret (succeed m white_balance))
            end)
        else if command =? ZSA_COLOR_CONTROL_AUTO_EXPOSURE_PRIORITY then mret (succeed manual 0)
        else
          match plain_control command with
          | None => mret (fail manual)
          | Some c => get_or (fail manual) handle c UVC_GET_CUR (fun v => mret (succeed manual v))
          end
  | _, _ => mret (ZSA_RESULT_FAILED, (mode, pValue))
  end.

Definition set_or (handle : Z) (c : uvc_control) (x : Z) (next : Mw zsa_result_t) : Mw zsa_result_t :=
  res ← uvc_set handle c x;
  if res <? 0 then mret ZSA_RESULT_FAILED else next.

Definition SetCameraControl (this command mode newValue : Z) : Mw zsa_result_t :=
  r ← load UVCCameraReader this;
  if negb (IsInitialized r) then mret ZSA_RESULT_FAILED
  else
    let handle := uv_pDeviceHandle r in
    let succeed := mret ZSA_RESULT_SUCCEEDED in
    if command =? ZSA_COLOR_CONTROL_EXPOSURE_TIME_ABSOLUTE then
      if mode =? ZSA_COLOR_CONTROL_MODE_MANUAL then
        set_or handle UVC_ae_mode UVC_AUTO_EXPOSURE_MODE_MANUAL (
        set_or handle UVC_exposure_abs (u32 (MapK4aExposureToLinux r newValue)) succeed)
      else if mode =? ZSA_COLOR_CONTROL_MODE_AUTO then
        set_or handle UVC_ae_mode UVC_AUTO_EXPOSURE_MODE_APERTURE_PRIORITY succeed
      else mret ZSA_RESULT_FAILED
    else if command =? ZSA_COLOR_CONTROL_WHITEBALANCE then
      if mode =? ZSA_COLOR_CONTROL_MODE_MANUAL then
        set_or handle UVC_white_balance_temperature_auto 0 (
        set_or handle UVC_white_balance_temperature newValue succeed)
      else if mode =? ZSA_COLOR_CONTROL_MODE_AUTO then
        set_or handle UVC_white_balance_temperature_auto 1 succeed
      else mret ZSA_RESULT_FAILED
    else if command =? ZSA_COLOR_CONTROL_AUTO_EXPOSURE_PRIORITY then succeed
    else
      match plain_control command with
      | None => mret ZSA_RESULT_FAILED
      | Some c =>
          if negb (mode =? ZSA_COLOR_CONTROL_MODE_MANUAL) then mret ZSA_RESULT_FAILED
          else if (command =? ZSA_COLOR_CONTROL_POWERLINE_FREQUENCY) && (newValue =? 0) then mret ZSA_RESULT_FAILED
          else
            set_or handle c newValue (
              when (command =? ZSA_COLOR_CONTROL_POWERLINE_FREQUENCY)
                (update this (fun r => r <| uv_using_60hz_power := newValue =? 2 |>));;
              succeed)
      end.

(** ** Frames *)

(** What the metadata of a frame tells. *)
Record frame_metadata_t : Type := mkMetadata {
  md_framePTS : Z;
  md_exposure_time : Z;
  md_iso_speed : Z;
  md_white_balance : Z
}.

Definition has_flag (flags flag : Z) : bool := negb (Z.land flags flag =? 0).

(** The item at byte offset [item]: the switch on its id.  The structures of
    ksmetadata.h are packed. *)
Definition metadata_item (metadata : list Z) (item : nat) (m : frame_metadata_t) : Mw frame_metadata_t :=
  MetadataId ← need OutOfBounds (word_at item metadata);
  if MetadataId =? MetadataId_FrameAlignInfo then
    FramePTS ← need OutOfBounds (dword_at (16 + item) metadata);
    mret (mkMetadata FramePTS (md_exposure_time m) (md_iso_speed m) (md_white_balance m))
  else if MetadataId =? MetadataId_CaptureStats then
    Flags ← need OutOfBounds (word_at (8 + item) metadata);
    exposure_time ← (if has_flag Flags CAPTURESTATS_FLAG_EXPOSURETIME then
                       ExposureTime ← need OutOfBounds (dword_at (16 + item) metadata);
                       mret (ExposureTime / 10)
                     else mret (md_exposure_time m));
    iso_speed ← (if has_flag Flags CAPTURESTATS_FLAG_ISOSPEED
                 then need OutOfBounds (word_at (36 + item) metadata) else mret (md_iso_speed m));
    white_balance ← (if has_flag Flags CAPTURESTATS_FLAG_WHITEBALANCE
                     then need OutOfBounds (word_at (48 + item) metadata) else mret (md_white_balance m));
    mret (mkMetadata (md_framePTS m) exposure_time iso_speed white_balance)
  else mret m.

(** The while loop. *)
Fixpoint metadata_loop (fuel : nat) (metadata : list Z) (item : nat) (bufferLeft : Z) (m : frame_metadata_t)
    : Mw frame_metadata_t :=
  match fuel with
  | O => throw OutOfFuel
  | S fuel =>
      if bufferLeft >? 0 then
        m ← metadata_item metadata item m;
        Size ← need OutOfBounds (word_at (4 + item) metadata);
        if Size =? 0 then mret m
        else
          let bufferLeft := u64 (bufferLeft - Size) in
          if bufferLeft <? sizeof_KSCAMERA_METADATA_ITEMHEADER then mret m
          else metadata_loop fuel metadata (item + Z.to_nat Size) bufferLeft m
      else mret m
  end.

Definition parse_metadata (metadata : list Z) (metadata_bytes : Z) : Mw frame_metadata_t :=
  let m := mkMetadata 0 0 0 0 in
  if metadata_bytes >=? sizeof_KSCAMERA_METADATA_ITEMHEADER
  then metadata_loop (S (length metadata)) metadata 0 metadata_bytes m
  else mret m.

(** Bytes stored from the start of a buffer of allocator_alloc on. *)
Definition write_buffer (buffer : Z) (bytes : list Z) : Mw unit :=
  let full_buffer := buffer - sizeof_allocation_context_t in
  w ← get_state;
  match heap w !! full_buffer with
  | Some (OBlock b) =>
      if blk_size b <? sizeof_allocation_context_t + Z.of_nat (length bytes) then throw OutOfBounds
      else modify (fun w => w <| heap := <[full_buffer :=
             OBlock (b <| blk_data := bytes ++ drop (length bytes) (blk_data b) |>)]> (heap w) |>)
  | _ => throw UseAfterFree
  end.

(** [memcpy(buffer, from, size)] *)
Definition memcpy_from (buffer : Z) (from : list Z) (size : Z) : Mw unit :=
  if Z.of_nat (length from) <? size then throw OutOfBounds else write_buffer buffer (take (Z.to_nat size) from).

Definition DecodeMJPEGtoBGRA32 (this : Z) (in_buf : list Z) (in_size out_buf out_size : Z) : Mw zsa_result_t :=
  r ← load UVCCameraReader this;
  if u32 (u32 (uv_width_pixels r * uv_height_pixels r) * 4) >? out_size then mret ZSA_RESULT_FAILED
  else
    when (uv_decoder r =? NULL) (
      d ← uvc_call tjInitDecompress_answer V_decoder_init;
      update this (fun r => r <| uv_decoder := d |>));;
    r ← load UVCCameraReader this;
    if uv_decoder r =? NULL then mret ZSA_RESULT_FAILED
    else if Z.of_nat (length in_buf) <? in_size then throw OutOfBounds
    else
      let input := take (Z.to_nat in_size) in_buf in
      let width := s32 (uv_width_pixels r) in
      let height := s32 (uv_height_pixels r) in
      '(decompressStatus, bytes) ←
        uvc_call (fun t => tjDecompress2_answer t (uv_decoder r) input width height)
                 (fun '(status, _) => V_decode (uv_decoder r) input width height status);
      write_buffer out_buf bytes;;
      mret (if negb (decompressStatus =? 0) then ZSA_RESULT_FAILED else ZSA_RESULT_SUCCEEDED).

(** m_pCallback(result, capture, m_pCallbackContext) *)
Definition stream_callback_call (callback : color_cb_stream_t) (result : zsa_result_t) (capture context : Z) : Mw unit :=
  match callback with
  | stream_callback_null => throw NullDeref
  | stream_callback id => reader_client id result capture context
  end.

(** The pixels of a frame in a buffer of the SDK: stride, buffer, its size and
    the result so far. *)
Definition frame_decodes (r : UVCCameraReader) : bool :=
  (uv_input_image_format r =? ZSA_IMAGE_FORMAT_COLOR_MJPG) && (uv_output_image_format r =? ZSA_IMAGE_FORMAT_COLOR_BGRA32).

Definition frame_layout (r : UVCCameraReader) (frame : uvc_frame_t) : Mw (Z * Z) :=
  if frame_decodes r then
    stride ← need SignedOverflow (fits_s32 (s32 (fr_width frame) * 4));
    mret (stride, u64 (u64 stride * fr_height frame))
  else mret (s32 (fr_step frame), fr_data_bytes frame).

Definition frame_pixels (this : Z) (r : UVCCameraReader) (frame : uvc_frame_t) (buffer buffer_size : Z) : Mw zsa_result_t :=
  if frame_decodes r then DecodeMJPEGtoBGRA32 this (fr_data frame) (fr_data_bytes frame) buffer buffer_size
  else memcpy_from buffer (fr_data frame) buffer_size;; mret ZSA_RESULT_SUCCEEDED.

(** The image over the buffer, or the cleanup if there was an error. *)
Definition frame_image (this : Z) (result : zsa_result_t) (stride buffer buffer_size : Z) : Mw (zsa_result_t * Z) :=
  if ZSA_SUCCEEDED result then
    r ← load UVCCameraReader this;
    '(result, image) ← image_create_from_buffer (uv_output_image_format r) (s32 (uv_width_pixels r))
      (s32 (uv_height_pixels r)) stride buffer buffer_size uvc_camerareader_free_allocation_cb NULL true;
    mret (result, default NULL image)
  else allocator_free buffer;; mret (result, NULL).

Definition frame_timestamp_nsec (frame : uvc_frame_t) : Z :=
  u64 (u64 (u64 (fr_tv_sec frame) * 1000000000) + u64 (fr_tv_nsec frame)).

Definition frame_fill (frame : uvc_frame_t) (m : frame_metadata_t) (image capture : Z) : Mw unit :=
  image_set_system_timestamp_nsec image (frame_timestamp_nsec frame);;
  image_set_device_timestamp_usec image (ZSA_90K_HZ_TICK_TO_USEC (md_framePTS m));;
  image_set_exposure_usec image (md_exposure_time m);;
  image_set_iso_speed image (md_iso_speed m);;
  image_set_white_balance image (md_white_balance m);;
  capture_set_color_image capture image.

(** Callback with the lock held, on a stream that is going. *)
Definition callback_locked (this : Z) (frame : uvc_frame_t) : Mw unit :=
  m ← parse_metadata (fr_metadata frame) (fr_metadata_bytes frame);
  if md_framePTS m =? 0 then mret tt
  else
    r ← load UVCCameraReader this;
    '(stride, buffer_size) ← frame_layout r frame;
    buffer ← allocator_alloc ALLOCATION_SOURCE_COLOR buffer_size;
    result ← and_then (ZSA_RESULT_FROM_BOOL (negb (buffer =? NULL))) (frame_pixels this r frame buffer buffer_size);
    '(result, image) ← frame_image this result stride buffer buffer_size;
    '(result, capture) ← (if ZSA_SUCCEEDED result then
                            '(result, capture) ← capture_create true; mret (result, default NULL capture)
                          else mret (result, NULL));
    when (ZSA_SUCCEEDED result) (frame_fill frame m image capture);;
    r ← load UVCCameraReader this;
    stream_callback_call (uv_pCallback r) result capture (uv_pCallbackContext r);;
    when (negb (image =? NULL)) (image_dec_ref image);;
    when (negb (capture =? NULL)) (capture_dec_ref capture).

Definition Callback (this : Z) (frame : option uvc_frame_t) : Mw unit :=
  Lock uv_mutex this;;
  r ← load UVCCameraReader this;
  (match frame with
   | Some frame => when (uv_streaming r) (callback_locked this frame)
   | None => mret tt
   end);;
  Unlock uv_mutex this.

(** The function that is passed to libuvc. *)
Definition UVCFrameCallback (frame : option uvc_frame_t) (ptr : Z) : Mw unit :=
  if negb (ptr =? NULL) && bool_decide (frame <> None) then Callback ptr frame else mret tt.
End operations.
