(* ===== verification/UvcMetadata.v ===== *)
(** src/color/ksmetadata.h: the metadata that the driver appends to a frame,
    as a list of items, and what the parser of uvc_camerareader.cpp makes of
    their bytes. *)

From S2P Require Export Uvc.

(** * Items and their bytes *)

(** The two structures of ksmetadata.h, and items of any other kind. *)
Inductive metadata_item_t : Type :=
| FrameAlignInfo (Flags Reserved FramePTS PTSReference USBSoFSeqNum USBSoFPTS : Z)
| CaptureStats (Flags Reserved ExposureTime ExposureCompensationFlags ExposureCompensationValue IsoSpeed FocusState
    LensPosition WhiteBalance Flash FlashPower ZoomFactor SceneMode SensorFramerate : Z)
| OtherItem (MetadataId : Z) (payload : list Z).

Definition item_id (i : metadata_item_t) : Z :=
  match i with
  | FrameAlignInfo _ _ _ _ _ _ => MetadataId_FrameAlignInfo
  | CaptureStats _ _ _ _ _ _ _ _ _ _ _ _ _ _ => MetadataId_CaptureStats
  | OtherItem id _ => id
  end.

Definition item_payload (i : metadata_item_t) : list Z :=
  match i with
  | FrameAlignInfo flags reserved pts ref seq sof =>
      le32 flags ++ le32 reserved ++ le64 pts ++ le32 ref ++ le64 seq ++ le64 sof
  | CaptureStats flags reserved exposure ecf ecv iso focus lens wb flash power zoom scene rate =>
      le32 flags ++ le32 reserved ++ le64 exposure ++ le64 ecf ++ le32 (u32 ecv) ++ le32 iso ++ le32 focus ++
      le32 lens ++ le32 wb ++ le32 flash ++ le32 power ++ le32 zoom ++ le64 scene ++ le64 rate
  | OtherItem _ payload => payload
  end.

Definition item_size (i : metadata_item_t) : Z := 8 + Z.of_nat (length (item_payload i)).
Definition item_bytes (i : metadata_item_t) : list Z := le32 (item_id i) ++ le32 (item_size i) ++ item_payload i.
Definition items_bytes (l : list metadata_item_t) : list Z := l ≫= item_bytes.

Definition is_u64 (x : Z) : Prop := 0 <= x < 2 ^ 64.

(** The members that are read fit their types. *)
Definition item_ok (i : metadata_item_t) : Prop :=
  match i with
  | FrameAlignInfo _ _ pts _ _ _ => is_u64 pts
  | CaptureStats flags _ exposure _ _ iso _ _ wb _ _ _ _ _ => is_u32 flags /\ is_u64 exposure /\ is_u32 iso /\ is_u32 wb
  | OtherItem id _ => is_u32 id /\ id <> MetadataId_FrameAlignInfo /\ id <> MetadataId_CaptureStats
  end /\ is_u32 (item_size i).

(** What an item tells: the timestamp; exposure time in microseconds, gain and
    color temperature, each if its flag says that it is there. *)
Definition item_tells (m : frame_metadata_t) (i : metadata_item_t) : frame_metadata_t :=
  match i with
  | FrameAlignInfo _ _ pts _ _ _ => mkMetadata pts (md_exposure_time m) (md_iso_speed m) (md_white_balance m)
  | CaptureStats flags _ exposure _ _ iso _ _ wb _ _ _ _ _ =>
      mkMetadata (md_framePTS m) (if Z.testbit flags 0 then exposure / 10 else md_exposure_time m)
        (if Z.testbit flags 2 then iso else md_iso_speed m) (if Z.testbit flags 5 then wb else md_white_balance m)
  | OtherItem _ _ => m
  end.

(** * Parsing *)

Lemma word_at_app (pre l : list Z) k : word_at (k + length pre) (pre ++ l) = word_at k l.
Proof. unfold word_at. by rewrite Nat.add_comm, <- drop_drop, drop_app_length. Qed.
Lemma dword_at_app (pre l : list Z) k : dword_at (k + length pre) (pre ++ l) = dword_at k l.
Proof. unfold dword_at. rewrite word_at_app. by rewrite Nat.add_assoc, word_at_app. Qed.

Lemma word_at_bounds k (l : list Z) x : word_at k l = Some x -> (k + 4 <= length l)%nat.
Proof.
  unfold word_at, of_le32. intros H. assert (length (take 4 (drop k l)) = 4%nat) as E.
  { destruct (take 4 (drop k l)) as [|? [|? [|? [|? [|? ?]]]]]; done. }
  rewrite length_take, length_drop in E. lia.
Qed.

Lemma has_flag_testbit x k : 0 <= k -> has_flag x (2 ^ k) = Z.testbit x k.
Proof.
  intros Hk. unfold has_flag. assert (E : Z.land x (2 ^ k) = if Z.testbit x k then 2 ^ k else 0).
  { apply Z.bits_inj'. intros n Hn. rewrite Z.land_spec, Z.pow2_bits_eqb by done.
    destruct (Z.eqb_spec k n) as [->|Hkn].
    - destruct (Z.testbit x n); [by rewrite Z.pow2_bits_true|by rewrite Z.bits_0].
    - rewrite andb_false_r. destruct (Z.testbit x k); [by rewrite Z.pow2_bits_false|by rewrite Z.bits_0]. }
  rewrite E. pose proof (Z.pow_pos_nonneg 2 k). destruct (Z.testbit x k); [|done].
  by rewrite (proj2 (Z.eqb_neq _ _)) by lia.
Qed.

Section parsing.
Context `{Platform}.
Implicit Types (w : world) (m : frame_metadata_t).

Lemma need_some {A} f (a : A) w : need f (Some a) w = Done a w.
Proof. done. Qed.

(** One turn's reads. *)
Lemma metadata_item_bytes pre i post m w :
  item_ok i -> metadata_item (pre ++ item_bytes i ++ post) (length pre) m w = Done (item_tells m i) w.
Proof.
  intros [Hok _]. unfold metadata_item. 
  change (word_at (length pre)) with (word_at (0 + length pre)).
  rewrite !word_at_app, !dword_at_app. unfold item_bytes. rewrite <- !app_assoc.
  destruct i as [flags reserved pts ref seq sof|flags reserved exposure ecf ecv iso focus lens wb flash power zoom scene rate|id payload];
    cbn [item_id item_payload item_tells] in *.
  - rewrite word_at_0 by done. erewrite bind_done by done. rewrite Z.eqb_refl.
    rewrite !dword_at_skip, <- !app_assoc, !dword_at_skip, dword_at_0 by done. done.
  - destruct Hok as (Hf & He & Hi & Hw). rewrite word_at_0 by done. erewrite bind_done by done.
    change (MetadataId_CaptureStats =? MetadataId_FrameAlignInfo) with false. rewrite Z.eqb_refl.
    rewrite !word_at_skip, !dword_at_skip, <- !app_assoc, word_at_0 by done. erewrite bind_done by done.
    change (has_flag flags CAPTURESTATS_FLAG_EXPOSURETIME) with (has_flag flags (2 ^ 0)).
    change (has_flag flags CAPTURESTATS_FLAG_ISOSPEED) with (has_flag flags (2 ^ 2)).
    change (has_flag flags CAPTURESTATS_FLAG_WHITEBALANCE) with (has_flag flags (2 ^ 5)).
    rewrite !has_flag_testbit by lia.
    rewrite !dword_at_skip, dword_at_0 by done. unfold le64. rewrite <- !app_assoc, !word_at_skip.
    rewrite !word_at_0 by done.
    by destruct (Z.testbit flags 0), (Z.testbit flags 2), (Z.testbit flags 5).
  - destruct Hok as (Hid & H1 & H2). rewrite word_at_0 by done. erewrite bind_done by done.
    by rewrite (proj2 (Z.eqb_neq _ _) H1), (proj2 (Z.eqb_neq _ _) H2).
Qed.

Lemma item_bytes_length i : Z.of_nat (length (item_bytes i)) = item_size i.
Proof. unfold item_size, item_bytes. rewrite !length_app. cbn [length le32]. lia. Qed.

Lemma item_size_min i : 8 <= item_size i.
Proof. unfold item_size. lia. Qed.

Lemma items_bytes_cons i l : items_bytes (i :: l) = item_bytes i ++ items_bytes l.
Proof. done. Qed.

Lemma item_size_at pre i post :
  item_ok i -> word_at (4 + length pre) (pre ++ item_bytes i ++ post) = Some (item_size i).
Proof.
  intros [_ Hs]. rewrite word_at_app. unfold item_bytes. rewrite <- !app_assoc, word_at_skip. by apply word_at_0.
Qed.

Lemma metadata_loop_step fuel pre i post left m w :
  item_ok i -> item_size i <= left < 2 ^ 64 ->
  metadata_loop (S fuel) (pre ++ item_bytes i ++ post) (length pre) left m w =
  if left - item_size i <? sizeof_KSCAMERA_METADATA_ITEMHEADER then Done (item_tells m i) w
  else metadata_loop fuel (pre ++ item_bytes i ++ post) (length (pre ++ item_bytes i)) (left - item_size i) (item_tells m i) w.
Proof.
  intros Hi Hl. pose proof (item_size_min i). cbn [metadata_loop].
  rewrite Z.gtb_ltb, (proj2 (Z.ltb_lt 0 left)) by lia.
  rewrite (bind_done _ _ _ _ _ (metadata_item_bytes pre i post m w Hi)), item_size_at by done.
  rewrite (bind_done _ _ _ _ _ (need_some _ _ w)), (proj2 (Z.eqb_neq (item_size i) 0)), u64_id by lia.
  replace (length pre + Z.to_nat (item_size i))%nat with (length (pre ++ item_bytes i)).
  2: { rewrite length_app. f_equal. rewrite <- item_bytes_length. lia. }
  by destruct (left - item_size i <? _).
Qed.

(** As long as another item may begin, the loop goes on behind the items. *)
Lemma metadata_loop_items l : forall fuel pre post k m w,
  Forall item_ok l -> 8 <= k -> Z.of_nat (length (items_bytes l)) + k < 2 ^ 64 ->
  metadata_loop (length l + fuel) (pre ++ items_bytes l ++ post) (length pre) (Z.of_nat (length (items_bytes l)) + k) m w =
  metadata_loop fuel (pre ++ items_bytes l ++ post) (length (pre ++ items_bytes l)) k (fold_left item_tells l m) w.
Proof.
  induction l as [|i l IH]; intros fuel pre post k m w Hl Hk Hs.
  { cbn. by rewrite app_nil_r. }
  inversion Hl as [|? ? Hi Hl']. subst. rewrite items_bytes_cons in *. rewrite length_app, Nat2Z.inj_add, item_bytes_length in *. pose proof (item_size_min i).
  cbn [length Nat.add]. rewrite <- (app_assoc (item_bytes i)), metadata_loop_step by (done || lia).
  rewrite (proj2 (Z.ltb_ge _ _)) by (unfold sizeof_KSCAMERA_METADATA_ITEMHEADER; lia).
  rewrite (app_assoc pre (item_bytes i)). replace (_ - _) with (Z.of_nat (length (items_bytes l)) + k) by lia.
  rewrite IH by (done || lia). cbn [fold_left]. by rewrite <- !app_assoc.
Qed.

(** Items and less than a header behind them. *)
Lemma metadata_loop_end l fuel post k m w :
  Forall item_ok l -> l <> [] -> 0 <= k < 8 -> Z.of_nat (length (items_bytes l)) + k < 2 ^ 64 ->
  metadata_loop (length l + fuel) (items_bytes l ++ post) 0 (Z.of_nat (length (items_bytes l)) + k) m w =
  Done (fold_left item_tells l m) w.
Proof.
  intros Hl Hn Hk Hs. destruct (exists_last Hn) as (l' & i & ->). apply Forall_app in Hl as [Hl' Hi]. apply Forall_cons in Hi as [Hi _].
  unfold items_bytes in *. rewrite bind_app in *. fold (items_bytes l') in *. change ([i] ≫= item_bytes) with (item_bytes i ++ []) in *.
  rewrite app_nil_r in *. rewrite (length_app (items_bytes l')), Nat2Z.inj_add, item_bytes_length in *. pose proof (item_size_min i).
  rewrite <- app_assoc, <- Z.add_assoc, length_app. cbn [length]. rewrite <- Nat.add_assoc. cbn [Nat.add].
  pose proof (metadata_loop_items l' (S fuel) [] (item_bytes i ++ post) (item_size i + k) m w Hl' ltac:(lia) ltac:(lia)) as E.
  cbn [app length] in E. rewrite E, metadata_loop_step by (done || lia).
  rewrite (proj2 (Z.ltb_lt _ _)) by (unfold sizeof_KSCAMERA_METADATA_ITEMHEADER; lia). by rewrite fold_left_app.
Qed.

Lemma items_bytes_many l : Z.of_nat (length l) * 8 <= Z.of_nat (length (items_bytes l)).
Proof.
  induction l as [|i l IH]; [done|]. rewrite items_bytes_cons, length_app, Nat2Z.inj_add, item_bytes_length.
  pose proof (item_size_min i). cbn [length]. lia.
Qed.

(** C29: metadata that consists of items is read as the fold of what its items
    tell, in their order; up to seven further bytes are ignored. *)
Theorem metadata_round_trip (l : list metadata_item_t) (rest : list Z) (k : Z) (w : world)
  (Hl : Forall item_ok l) (Hk : 0 <= k < 8) (Hs : Z.of_nat (length (items_bytes l)) + k < 2 ^ 64) :
  parse_metadata (items_bytes l ++ rest) (Z.of_nat (length (items_bytes l)) + k) w =
  Done (fold_left item_tells l (mkMetadata 0 0 0 0)) w.
Proof.
  unfold parse_metadata. destruct l as [|i l'].
  { cbn [items_bytes mbind list_bind length]. rewrite Z.geb_leb, (proj2 (Z.leb_gt _ _)); [done|].
    unfold sizeof_KSCAMERA_METADATA_ITEMHEADER. cbn. lia. }
  pose proof (items_bytes_many (i :: l')) as Hm. set (l := i :: l') in *.
  rewrite Z.geb_leb, (proj2 (Z.leb_le _ _)) by (unfold sizeof_KSCAMERA_METADATA_ITEMHEADER; subst l; cbn [length] in *; lia).
  replace (S (length (items_bytes l ++ rest))) with (length l + (S (length (items_bytes l ++ rest)) - length l))%nat.
  - by apply metadata_loop_end.
  - rewrite length_app. lia.
Qed.

(** The loop leaves the world alone, and ends before its fuel: an item that is
    read lies inside the bytes, and every item is behind the one before. *)
Lemma metadata_item_total (metadata : list Z) item m w :
  (exists m', metadata_item metadata item m w = Done m' w) \/ metadata_item metadata item m w = Fault OutOfBounds.
Proof.
  unfold metadata_item, need, throw, mbind, M_bind, mret, M_ret.
  repeat (case_match; simplify_eq; try (by right); try (by left; eexists)).
Qed.

Lemma word_at_nonneg k (l : list Z) x : Forall is_byte l -> word_at k l = Some x -> 0 <= x.
Proof.
  unfold word_at, of_le32. intros Hl Hx. assert (Hb : Forall is_byte (take 4 (drop k l))) by (by apply Forall_take, Forall_drop).
  destruct (take 4 (drop k l)) as [|a [|b [|c [|d [|? ?]]]]]; try done. injection Hx as <-.
  repeat match goal with H : Forall is_byte (_ :: _) |- _ => inversion H; clear H; subst end. unfold is_byte in *. lia.
Qed.

Lemma metadata_loop_total (metadata : list Z) : Forall is_byte metadata -> forall fuel item left m w,
  (length metadata < fuel + item)%nat -> (0 < fuel)%nat ->
  (exists m', metadata_loop fuel metadata item left m w = Done m' w) \/ metadata_loop fuel metadata item left m w = Fault OutOfBounds.
Proof.
  intros Hb. induction fuel as [|fuel IH]; intros item left m w Hf Hf0; [lia|]. cbn [metadata_loop].
  destruct (left >? 0); [|left; by eexists].
  destruct (metadata_item_total metadata item m w) as [[m' E]|E]; [|right; by rewrite (bind_fault _ _ _ _ E)].
  rewrite (bind_done _ _ _ _ _ E). destruct (word_at (4 + item) metadata) as [size|] eqn:Es; [|by right].
  rewrite (bind_done _ _ _ _ _ (need_some _ _ w)). destruct (Z.eqb_spec size 0) as [Hz|Hz]; [left; by eexists|]. cbv zeta.
  destruct (_ <? _); [left; by eexists|]. pose proof (word_at_bounds _ _ _ Es). pose proof (word_at_nonneg _ _ _ Hb Es).
  apply IH; lia.
Qed.

(** C30: parsing ends on any metadata, within the turns that the loop is given:
    it returns, with nothing changed, or reads past the end of the metadata.
    The latter is what an item does that claims to be longer than what is
    left: the count of bytes that are left wraps below zero, and the parser
    goes on behind the end of the metadata. *)
Theorem metadata_parse_bounds (metadata : list Z) (metadata_bytes : Z) (w : world) (Hb : Forall is_byte metadata) :
  ((exists m, parse_metadata metadata metadata_bytes w = Done m w) \/
   parse_metadata metadata metadata_bytes w = Fault OutOfBounds) /\
  (forall l id size payload,
     metadata = items_bytes l ++ le32 id ++ le32 size ++ payload -> metadata_bytes = Z.of_nat (length metadata) ->
     metadata_bytes < 2 ^ 63 -> Forall item_ok l -> is_u32 size -> 8 + Z.of_nat (length payload) < size ->
     is_u32 id -> id <> MetadataId_FrameAlignInfo -> id <> MetadataId_CaptureStats ->
     parse_metadata metadata metadata_bytes w = Fault OutOfBounds).
Proof.
  unfold parse_metadata. split.
  { destruct (_ >=? _); [apply metadata_loop_total; [done|lia..]|left; by eexists]. }
  intros l id size payload -> -> Hm Hl Hs Hlong Hid H1 H2. set (post := le32 id ++ le32 size ++ payload) in *.
  assert (Hp : Z.of_nat (length post) = 8 + Z.of_nat (length payload)) by (unfold post; rewrite !length_app; cbn [length le32]; lia).
  rewrite length_app, Nat2Z.inj_add in *. pose proof (items_bytes_many l) as Hmany.
  rewrite Z.geb_leb, (proj2 (Z.leb_le _ _)) by (unfold sizeof_KSCAMERA_METADATA_ITEMHEADER; lia).
  replace (S (length (items_bytes l) + length post)) with
    (length l + S (S (length (items_bytes l) + length post - S (length l))))%nat by lia.
  set (fuel := (_ - S (length l))%nat).
  pose proof (metadata_loop_items l (S (S fuel)) [] post (Z.of_nat (length post)) (mkMetadata 0 0 0 0) w Hl ltac:(lia) ltac:(lia)) as E.
  cbn [app length] in E. rewrite E. clear E. set (m := fold_left _ _ _). set (pre := items_bytes l) in *.
  assert (Eid : word_at (length pre) (pre ++ post) = Some id).
  { change (length pre) with (0 + length pre)%nat. rewrite word_at_app. by apply word_at_0. }
  assert (Esz : word_at (4 + length pre) (pre ++ post) = Some size).
  { rewrite word_at_app. unfold post. rewrite word_at_skip. by apply word_at_0. }
  remember (S fuel) as fuel' eqn:Ef. cbn [metadata_loop]. rewrite Z.gtb_ltb, (proj2 (Z.ltb_lt 0 _)) by lia.
  assert (Ei : metadata_item (pre ++ post) (length pre) m w = Done m w).
  { unfold metadata_item. rewrite Eid, (bind_done _ _ _ _ _ (need_some _ _ w)).
    by rewrite (proj2 (Z.eqb_neq _ _) H1), (proj2 (Z.eqb_neq _ _) H2). }
  rewrite (bind_done _ _ _ _ _ Ei), Esz, (bind_done _ _ _ _ _ (need_some _ _ w)), (proj2 (Z.eqb_neq size 0)) by lia.
  cbv zeta. unfold is_u32 in Hs.
  assert (Eu : u64 (Z.of_nat (length post) - size) = Z.of_nat (length post) - size + 2 ^ 64).
  { unfold u64. symmetry. apply (Z.mod_unique _ _ (-1)); lia. }
  rewrite Eu, (proj2 (Z.ltb_ge _ _)) by (unfold sizeof_KSCAMERA_METADATA_ITEMHEADER; lia).
  subst fuel'. cbn [metadata_loop]. rewrite Z.gtb_ltb, (proj2 (Z.ltb_lt 0 _)) by lia.
  apply bind_fault. unfold metadata_item. apply bind_fault.
  destruct (word_at (length pre + Z.to_nat size) (pre ++ post)) as [x|] eqn:Ex; [|done].
  apply word_at_bounds in Ex. rewrite length_app in Ex. lia.
Qed.
End parsing.

(** Two items, and metadata whose second item is too long. *)
Definition sample_items : list metadata_item_t :=
  [ FrameAlignInfo 0 0 90000 0 0 0; CaptureStats 5 0 83330 0 (-1) 200 0 0 4500 0 0 0 0 0 ].

Lemma metadata_round_trip_witness :
  parse_metadata (items_bytes sample_items ++ [1; 2; 3]) 127 init_world = Done (mkMetadata 90000 8333 200 0) init_world.
Proof.
  exact (metadata_round_trip sample_items [1; 2; 3] 3 init_world
    ltac:(repeat constructor; vm_compute; intuition discriminate) ltac:(lia) ltac:(vm_compute; reflexivity)).
Defined.

Lemma metadata_parse_bounds_witness :
  parse_metadata (le32 7 ++ le32 9 ++ []) 8 init_world = Fault OutOfBounds.
Proof.
  refine (proj2 (metadata_parse_bounds (le32 7 ++ le32 9 ++ []) 8 init_world _) [] 7 9 [] eq_refl eq_refl _ _ _ _ _ _ _).
  - repeat constructor; vm_compute; intuition discriminate.
  - reflexivity.
  - constructor.
  - vm_compute. intuition discriminate.
  - reflexivity.
  - vm_compute. intuition discriminate.
  - discriminate.
  - discriminate.
Defined.
