(* ===== verification/UvcControl.v ===== *)
(** src/color/uvc_camerareader.cpp: the exposure times and the camera
    controls, on a camera that remembers what it was told. *)

From Stdlib Require Import Sorted.
From S2P Require Export Uvc.

(** * Exposure times *)

Section exposure.
Implicit Types (r : UVCCameraReader) (x y : Z).

(** The loop finds the least entry that is not below [x]. *)
Lemma map_exposure_least hz x l y :
  Sorted Z.le (mapped hz <$> l) -> map_exposure hz x l = Some y ->
  y ∈ mapped hz <$> l /\ x <= y /\ forall z, z ∈ mapped hz <$> l -> x <= z -> y <= z.
Proof.
  intros Hs. apply Sorted_StronglySorted in Hs; [|intros ???; lia].
  induction l as [|e l IH]; [done|]. cbn in *. inversion Hs as [|? ? Hs' Hf]. subst.
  destruct (Z.leb_spec x (mapped hz e)) as [Hx|Hx].
  - intros [= <-]. split_and!; [by left|done|]. intros z [->|Hz]%elem_of_cons _; [done|].
    by apply (proj1 (Forall_forall _ _) Hf).
  - intros Hy. destruct (IH Hs' Hy) as (H1 & H2 & H3). split_and!; [by right|done|].
    intros z [->|Hz]%elem_of_cons Hxz; [lia|by apply H3].
Qed.

Lemma map_exposure_none hz x l : map_exposure hz x l = None -> forall z, z ∈ mapped hz <$> l -> z < x.
Proof.
  induction l as [|e l IH]; cbn; [by intros _ z ?%elem_of_nil|].
  destruct (Z.leb_spec x (mapped hz e)) as [Hx|Hx]; [done|]. intros Hn z [->|Hz]%elem_of_cons; auto.
Qed.

Definition exposure_steps (hz : bool) : list Z := mapped hz <$> device_exposure_mapping.

Lemma exposure_steps_sorted hz : Sorted Z.le (exposure_steps hz).
Proof. destruct hz; repeat constructor; vm_compute; discriminate. Qed.

(** [y] is the step that [x] is rounded up to, or the longest one. *)
Definition exposure_step (hz : bool) x y : Prop :=
  y ∈ exposure_steps hz /\
  (x <= y /\ (forall z, z ∈ exposure_steps hz -> x <= z -> y <= z) \/
   y = MAX_EXPOSURE hz /\ forall z, z ∈ exposure_steps hz -> z < x).

Definition rounded (hz : bool) x : Z := default (MAX_EXPOSURE hz) (map_exposure hz x device_exposure_mapping).

Lemma rounded_step hz x : exposure_step hz x (rounded hz x).
Proof.
  unfold rounded, exposure_step. destruct (map_exposure hz x device_exposure_mapping) as [y|] eqn:E; cbn.
  - destruct (map_exposure_least _ _ _ _ (exposure_steps_sorted hz) E) as (H1 & H2 & H3). split; [done|]. by left.
  - split; [|right; split; [done|exact (map_exposure_none _ _ _ E)]].
    destruct hz; [change (MAX_EXPOSURE true) with 133330|change (MAX_EXPOSURE false) with 130000];
      vm_compute; repeat constructor.
Qed.

(** Rounding a step that went through libuvc's unit and back gives the step. *)
Lemma step_through_units hz y : y ∈ exposure_steps hz ->
  0 < y <= 133330 /\ rounded hz (y / CONV_100USEC_TO_USEC * CONV_100USEC_TO_USEC) = y.
Proof.
  intros Hy. unfold exposure_steps in Hy. destruct hz; cbn in Hy; rewrite !elem_of_cons, elem_of_nil in Hy;
    repeat (destruct Hy as [-> | Hy]; [split; [lia|vm_compute; reflexivity]|]); done.
Qed.

Lemma MapK4aExposureToLinux_rounded r x :
  MapK4aExposureToLinux r x = rounded (uv_using_60hz_power r) x / CONV_100USEC_TO_USEC.
Proof. unfold MapK4aExposureToLinux, rounded. by destruct (map_exposure _ _ _). Qed.

Lemma MapLinuxExposureToK4a_back r x :
  MapLinuxExposureToK4a r (MapK4aExposureToLinux r x) = Some (rounded (uv_using_60hz_power r) x).
Proof.
  rewrite MapK4aExposureToLinux_rounded. set (hz := uv_using_60hz_power r).
  destruct (step_through_units hz (rounded hz x) (proj1 (rounded_step hz x))) as [Hr Hb].
  unfold MapLinuxExposureToK4a, fits_s32. fold hz. unfold CONV_100USEC_TO_USEC in *.
  pose proof (Z.div_mod (rounded hz x) 100 ltac:(lia)). pose proof (Z.mod_pos_bound (rounded hz x) 100 ltac:(lia)).
  rewrite bool_decide_true by lia. cbn [mbind option_bind]. f_equal. exact Hb.
Qed.

(** An exposure time survives the conversion to libuvc's unit of 100 us
    and back up to rounding: it comes back as the least step of the table that
    is not shorter, or as the longest step, although the steps are no
    multiples of 100 us; a step comes back as itself.  The way back multiplies
    an int by 100, and is undefined exactly beyond 21474836 units. *)
Theorem exposure_round_trip (r : UVCCameraReader) (x : Z) :
  (exists y, MapLinuxExposureToK4a r (MapK4aExposureToLinux r x) = Some y /\
     exposure_step (uv_using_60hz_power r) x y /\
     MapLinuxExposureToK4a r (MapK4aExposureToLinux r y) = Some y) /\
  (MapLinuxExposureToK4a r x = None <-> ~ (-21474836 <= x <= 21474836)).
Proof.
  split.
  - exists (rounded (uv_using_60hz_power r) x). rewrite !MapLinuxExposureToK4a_back.
    split_and!; [done|apply rounded_step|]. f_equal.
    set (hz := uv_using_60hz_power r). destruct (rounded_step hz x) as [Hy _].
    destruct (rounded_step hz (rounded hz x)) as [Hy' [[Hle Hl]|[-> Hl]]].
    + specialize (Hl _ Hy ltac:(lia)). lia.
    + specialize (Hl _ Hy). lia.
  - unfold MapLinuxExposureToK4a, fits_s32, CONV_100USEC_TO_USEC. case_bool_decide; cbn; split; try done; lia.
Qed.
End exposure.

(** * Controls *)

#[export] Instance uvc_control_eq_dec : EqDecision uvc_control.
Proof. solve_decision. Defined.

(** The value that was last stored in a control, 0 before. *)
Definition set_in (handle : Z) (c : uvc_control) (v : Z) (e : event) : Z :=
  match e with
  | EUvc (V_set h' c' x err) => if (h' =? handle) && bool_decide (c' = c) && negb (err <? 0) then x else v
  | _ => v
  end.
Definition last_set (handle : Z) (c : uvc_control) (t : list event) : Z := fold_left (set_in handle c) t 0.

(** A camera that remembers the values of its controls. *)
Class UvcRemembers `{Uvc} : Prop :=
  uvc_remembers : forall t handle c, uvc_get_answer t handle c UVC_GET_CUR = (0, last_set handle c t).

Section controls.
Context `{Platform} `{Uvc}.
Implicit Types (r : UVCCameraReader) (w : world).

Lemma uvc_value_idemp c x : uvc_value c (uvc_value c x) = uvc_value c x.
Proof. destruct c; unfold uvc_value, u8, u16, u32, s16; rewrite ?Z.mod_mod by lia; try done. f_equal. rewrite Z.sub_add. by rewrite Z.mod_mod. Qed.

(** What is heard of a control through a getter. *)
Definition control_value r command v : Z :=
  if command =? ZSA_COLOR_CONTROL_EXPOSURE_TIME_ABSOLUTE then rounded (uv_using_60hz_power r) v
  else if command =? ZSA_COLOR_CONTROL_WHITEBALANCE then u16 v
  else match plain_control command with Some c => uvc_value c v | None => v end.

Lemma set_or_done handle c x next w res w' :
  set_or handle c x next w = Done res w' -> res = ZSA_RESULT_SUCCEEDED ->
  exists err, (err <? 0) = false /\
    next (w <| trace := trace w ++ [EUvc (V_set handle c (uvc_value c x) err)] |>) = Done res w'.
Proof.
  unfold set_or, uvc_set, uvc_call, mbind, M_bind. set (err := uvc_set_answer _ _ _ _). cbn.
  destruct (err <? 0) eqn:E; [intros [= <- <-]; discriminate|]. intros Hn _. by exists err.
Qed.

Lemma get_or_done {A} (fail : A) handle c (next : Z -> Mw A) w v :
  UvcRemembers -> last_set handle c (trace w) = v ->
  get_or fail handle c UVC_GET_CUR next w =
  next (uvc_value c v) (w <| trace := trace w ++ [EUvc (V_get handle c UVC_GET_CUR 0 v)] |>).
Proof.
  intros Hr <-. unfold get_or, uvc_get, uvc_call, mbind, M_bind. by rewrite uvc_remembers.
Qed.

Lemma last_set_snoc handle c t e : last_set handle c (t ++ [e]) = set_in handle c (last_set handle c t) e.
Proof. unfold last_set. by rewrite fold_left_app. Qed.

Lemma last_set_set handle c x err t :
  (err <? 0) = false -> last_set handle c (t ++ [EUvc (V_set handle c x err)]) = x.
Proof.
  intros He. rewrite last_set_snoc. cbn [set_in]. by rewrite Z.eqb_refl, bool_decide_true, He by done.
Qed.

Lemma last_set_other handle c c' x err t :
  c' <> c -> last_set handle c (t ++ [EUvc (V_set handle c' x err)]) = last_set handle c t.
Proof. intros Hc. rewrite last_set_snoc. cbn [set_in]. by rewrite (bool_decide_false (c' = c)), andb_false_r. Qed.

Lemma last_set_get handle c c' req err x t :
  last_set handle c (t ++ [EUvc (V_get handle c' req err x)]) = last_set handle c t.
Proof. by rewrite last_set_snoc. Qed.

Lemma load_done this r w : has w this r -> load UVCCameraReader this w = Done r w.
Proof.
  intros Hh. destruct (proj1 (wp_run _ _ _) (wp_load this r w (fun r' w' => r' = r /\ w' = w) Hh ltac:(done)))
    as (? & ? & E & -> & ->). exact E.
Qed.

Lemma update_done this r f w :
  has w this r -> update this f w = Done tt (w <| heap := <[this := to_obj (f r)]> (heap w) |>).
Proof. intros Hh. unfold update. by rewrite (bind_done _ _ _ _ _ (load_done _ _ _ Hh)). Qed.

(** The getter's result for a value that the camera holds. *)
Lemma get_exposure this r mode value v w :
  UvcRemembers -> has w this r -> IsInitialized r = true ->
  last_set (uv_pDeviceHandle r) UVC_ae_mode (trace w) = UVC_AUTO_EXPOSURE_MODE_MANUAL ->
  last_set (uv_pDeviceHandle r) UVC_exposure_abs (trace w) = u32 (MapK4aExposureToLinux r v) ->
  exists w', GetCameraControl this ZSA_COLOR_CONTROL_EXPOSURE_TIME_ABSOLUTE (Some mode) (Some value) w =
    Done (ZSA_RESULT_SUCCEEDED, (Some ZSA_COLOR_CONTROL_MODE_MANUAL, Some (rounded (uv_using_60hz_power r) v))) w'.
Proof.
  intros Hr Hh Hi Hm Hv. cbn [GetCameraControl]. rewrite (bind_done _ _ _ _ _ (load_done _ _ _ Hh)), Hi.
  cbn [negb Z.eqb ZSA_COLOR_CONTROL_EXPOSURE_TIME_ABSOLUTE]. rewrite (get_or_done _ _ _ _ _ _ Hr Hm).
  change (ae_mode_value _) with (Some ZSA_COLOR_CONTROL_MODE_MANUAL). cbn beta iota.
  rewrite (get_or_done _ _ _ _ _ (u32 (MapK4aExposureToLinux r v)) Hr) by (cbn -[last_set]; rewrite last_set_get; exact Hv).
  assert (Hb : 0 <= MapK4aExposureToLinux r v <= 1334).
  { rewrite MapK4aExposureToLinux_rounded. unfold CONV_100USEC_TO_USEC.
    destruct (step_through_units _ _ (proj1 (rounded_step (uv_using_60hz_power r) v))) as [[H1 H2] _].
    split; [apply Z.div_pos; lia|apply Z.div_le_upper_bound; lia]. }
  assert (E : u32 (MapK4aExposureToLinux r v) = MapK4aExposureToLinux r v) by (apply u32_id; lia).
  cbn [uvc_value]. rewrite !E, s32_id, MapLinuxExposureToK4a_back by lia. by eexists.
Qed.

Lemma get_white_balance this r mode value v w :
  UvcRemembers -> has w this r -> IsInitialized r = true ->
  last_set (uv_pDeviceHandle r) UVC_white_balance_temperature_auto (trace w) = 0 ->
  last_set (uv_pDeviceHandle r) UVC_white_balance_temperature (trace w) = u16 v ->
  exists w', GetCameraControl this ZSA_COLOR_CONTROL_WHITEBALANCE (Some mode) (Some value) w =
    Done (ZSA_RESULT_SUCCEEDED, (Some ZSA_COLOR_CONTROL_MODE_MANUAL, Some (u16 v))) w'.
Proof.
  intros Hr Hh Hi Hm Hv. cbn [GetCameraControl]. rewrite (bind_done _ _ _ _ _ (load_done _ _ _ Hh)), Hi.
  change (ZSA_COLOR_CONTROL_WHITEBALANCE =? _) with false at 1. cbn [negb]. rewrite Z.eqb_refl.
  rewrite (get_or_done _ _ _ _ _ _ Hr Hm). change (wb_mode_value _) with (Some ZSA_COLOR_CONTROL_MODE_MANUAL). cbn beta iota.
  rewrite (get_or_done _ _ _ _ _ (u16 v) Hr) by (cbn -[last_set]; rewrite last_set_get; exact Hv).
  change (u16 v) with (uvc_value UVC_white_balance_temperature v). rewrite uvc_value_idemp. by eexists.
Qed.

Lemma get_plain this r mode value command c v w :
  UvcRemembers -> has w this r -> IsInitialized r = true -> plain_control command = Some c ->
  (command =? ZSA_COLOR_CONTROL_EXPOSURE_TIME_ABSOLUTE) = false -> (command =? ZSA_COLOR_CONTROL_WHITEBALANCE) = false ->
  (command =? ZSA_COLOR_CONTROL_AUTO_EXPOSURE_PRIORITY) = false ->
  last_set (uv_pDeviceHandle r) c (trace w) = uvc_value c v ->
  exists w', GetCameraControl this command (Some mode) (Some value) w =
    Done (ZSA_RESULT_SUCCEEDED, (Some ZSA_COLOR_CONTROL_MODE_MANUAL, Some (uvc_value c v))) w'.
Proof.
  intros Hr Hh Hi Hc E1 E2 E3 Hv. cbn [GetCameraControl]. rewrite (bind_done _ _ _ _ _ (load_done _ _ _ Hh)), Hi.
  cbn [negb]. rewrite E1, E2, E3, Hc, (get_or_done _ _ _ _ _ _ Hr Hv), uvc_value_idemp. by eexists.
Qed.

(** What a successful setter has stored in the camera. *)
Lemma SetCameraControl_manual this r command v w w' :
  has w this r -> SetCameraControl this command ZSA_COLOR_CONTROL_MODE_MANUAL v w = Done ZSA_RESULT_SUCCEEDED w' ->
  IsInitialized r = true /\
  let handle := uv_pDeviceHandle r in
  if command =? ZSA_COLOR_CONTROL_EXPOSURE_TIME_ABSOLUTE then
    has w' this r /\ last_set handle UVC_ae_mode (trace w') = UVC_AUTO_EXPOSURE_MODE_MANUAL /\
    last_set handle UVC_exposure_abs (trace w') = u32 (MapK4aExposureToLinux r v)
  else if command =? ZSA_COLOR_CONTROL_WHITEBALANCE then
    has w' this r /\ last_set handle UVC_white_balance_temperature_auto (trace w') = 0 /\
    last_set handle UVC_white_balance_temperature (trace w') = u16 v
  else if command =? ZSA_COLOR_CONTROL_AUTO_EXPOSURE_PRIORITY then True
  else exists c r', plain_control command = Some c /\ has w' this r' /\ IsInitialized r' = true /\
    uv_pDeviceHandle r' = handle /\ last_set handle c (trace w') = uvc_value c v /\
    (command = ZSA_COLOR_CONTROL_POWERLINE_FREQUENCY -> v <> 0 /\ uv_using_60hz_power r' = (v =? 2)).
Proof.
  intros Hh Hs. pose proof Hh as [Hn _]. unfold SetCameraControl in Hs. rewrite (bind_done _ _ _ _ _ (load_done _ _ _ Hh)) in Hs.
  destruct (IsInitialized r) eqn:Hi; [|discriminate]. split; [done|]. cbn [negb] in Hs. cbv zeta in *.
  destruct (command =? ZSA_COLOR_CONTROL_EXPOSURE_TIME_ABSOLUTE) eqn:E1.
  { change (ZSA_COLOR_CONTROL_MODE_MANUAL =? ZSA_COLOR_CONTROL_MODE_MANUAL) with true in Hs. cbv iota in Hs.
    destruct (set_or_done _ _ _ _ _ _ _ Hs eq_refl) as (err1 & H1 & Hs1).
    destruct (set_or_done _ _ _ _ _ _ _ Hs1 eq_refl) as (err2 & H2 & Hs2). injection Hs2 as <-. cbn [trace].
    split_and!; [exact Hh|rewrite last_set_other by done; by apply last_set_set|].
    rewrite last_set_set by done. change (uvc_value UVC_exposure_abs ?x) with (u32 x).
    unfold u32. by rewrite Z.mod_mod. }
  destruct (command =? ZSA_COLOR_CONTROL_WHITEBALANCE) eqn:E2.
  { change (ZSA_COLOR_CONTROL_MODE_MANUAL =? ZSA_COLOR_CONTROL_MODE_MANUAL) with true in Hs. cbv iota in Hs.
    destruct (set_or_done _ _ _ _ _ _ _ Hs eq_refl) as (err1 & H1 & Hs1).
    destruct (set_or_done _ _ _ _ _ _ _ Hs1 eq_refl) as (err2 & H2 & Hs2). injection Hs2 as <-. cbn [trace].
    split_and!; [exact Hh|rewrite last_set_other by done; by apply last_set_set|]. by apply last_set_set. }
  destruct (command =? ZSA_COLOR_CONTROL_AUTO_EXPOSURE_PRIORITY); [done|].
  destruct (plain_control command) as [c|]; [|discriminate].
  change (negb (ZSA_COLOR_CONTROL_MODE_MANUAL =? ZSA_COLOR_CONTROL_MODE_MANUAL)) with false in Hs. cbv iota in Hs.
  destruct ((command =? ZSA_COLOR_CONTROL_POWERLINE_FREQUENCY) && (v =? 0)) eqn:E4; [discriminate|].
  destruct (set_or_done _ _ _ _ _ _ _ Hs eq_refl) as (err & H1 & Hs1). exists c.
  destruct (Z.eqb_spec command ZSA_COLOR_CONTROL_POWERLINE_FREQUENCY) as [E|E]; cbn [when] in Hs1.
  - set (w1 := w <| trace := _ |>) in Hs1. assert (Hh1 : has w1 this r) by exact Hh.
    rewrite (bind_done _ _ _ _ _ (update_done this r _ _ Hh1)) in Hs1. injection Hs1 as <-.
    exists (r <| uv_using_60hz_power := v =? 2 |>). split_and!; try done.
    + split; [done|apply lookup_insert_eq].
    + by apply last_set_set.
    + intros _. split; [|done]. by apply Z.eqb_neq.
  - injection Hs1 as <-. exists r. split_and!; try done. by apply last_set_set.
Qed.

(** Which values fit. *)
Lemma control_value_fits r command v :
  command <> ZSA_COLOR_CONTROL_AUTO_EXPOSURE_PRIORITY -> is_Some (plain_control command) \/
    command = ZSA_COLOR_CONTROL_EXPOSURE_TIME_ABSOLUTE \/ command = ZSA_COLOR_CONTROL_WHITEBALANCE ->
  (control_value r command v = v) <->
  (if command =? ZSA_COLOR_CONTROL_EXPOSURE_TIME_ABSOLUTE then v ∈ exposure_steps (uv_using_60hz_power r)
   else if command =? ZSA_COLOR_CONTROL_BRIGHTNESS then - 2 ^ 15 <= v < 2 ^ 15
   else if command =? ZSA_COLOR_CONTROL_POWERLINE_FREQUENCY then 0 <= v < 2 ^ 8
   else 0 <= v < 2 ^ 16).
Proof.
  assert (Hmod : forall n, 0 < n -> v mod n = v <-> 0 <= v < n).
  { intros n Hn. split; [intros <-; by apply Z.mod_pos_bound|apply Z.mod_small]. }
  intros Ha Hc. unfold control_value.
  destruct (Z.eqb_spec command ZSA_COLOR_CONTROL_EXPOSURE_TIME_ABSOLUTE) as [->|E1].
  { split; [intros <-; apply rounded_step|intros Hv].
    destruct (rounded_step (uv_using_60hz_power r) v) as [Hy [[Hle Hl]|[-> Hl]]].
    - specialize (Hl _ Hv ltac:(lia)). lia.
    - specialize (Hl _ Hv). lia. }
  destruct (Z.eqb_spec command ZSA_COLOR_CONTROL_WHITEBALANCE) as [->|E2]; [by apply Hmod|].
  destruct Hc as [[c Hc]|[Hc|Hc]]; [|done..]. rewrite Hc. unfold plain_control in Hc.
  destruct (Z.eqb_spec command ZSA_COLOR_CONTROL_BRIGHTNESS) as [->|E3].
  { injection Hc as <-. cbn. unfold s16. specialize (Hmod (2 ^ 16)). split; intros; [|rewrite Z.mod_small; lia].
    pose proof (Z.mod_pos_bound (v + 2 ^ 15) (2 ^ 16)). lia. }
  destruct (Z.eqb_spec command ZSA_COLOR_CONTROL_POWERLINE_FREQUENCY) as [->|E4].
  { injection Hc as <-. by apply Hmod. }
  repeat (case_match; [injection Hc as <-; by apply Hmod|]). done.
Qed.

(** C31: a control that was set by hand is read back as it was set: the getter
    succeeds, says that the control is set by hand, and gives the value,
    rounded to a step for the exposure time, cut to the width that libuvc has
    for the others ([control_value]; a value that fits is the one that was
    set). *)
Theorem control_round_trip (this command v mode value : Z) (r : UVCCameraReader) (w w' : world)
  (Hrem : UvcRemembers) (Hh : has w this r) (Hcmd : command <> ZSA_COLOR_CONTROL_AUTO_EXPOSURE_PRIORITY)
  (Hset : SetCameraControl this command ZSA_COLOR_CONTROL_MODE_MANUAL v w = Done ZSA_RESULT_SUCCEEDED w') :
  (exists w'', GetCameraControl this command (Some mode) (Some value) w' =
     Done (ZSA_RESULT_SUCCEEDED, (Some ZSA_COLOR_CONTROL_MODE_MANUAL, Some (control_value r command v))) w'') /\
  (control_value r command v = v <->
   if command =? ZSA_COLOR_CONTROL_EXPOSURE_TIME_ABSOLUTE then v ∈ exposure_steps (uv_using_60hz_power r)
   else if command =? ZSA_COLOR_CONTROL_BRIGHTNESS then - 2 ^ 15 <= v < 2 ^ 15
   else if command =? ZSA_COLOR_CONTROL_POWERLINE_FREQUENCY then 0 <= v < 2 ^ 8
   else 0 <= v < 2 ^ 16).
Proof.
  destruct (SetCameraControl_manual _ _ _ _ _ _ Hh Hset) as [Hi Hcase]. unfold control_value.
  destruct (Z.eqb_spec command ZSA_COLOR_CONTROL_EXPOSURE_TIME_ABSOLUTE) as [->|E1].
  { destruct Hcase as (Hh' & Hm & Hv). split; [by eapply get_exposure|].
    apply (control_value_fits r ZSA_COLOR_CONTROL_EXPOSURE_TIME_ABSOLUTE v); auto. }
  destruct (Z.eqb_spec command ZSA_COLOR_CONTROL_WHITEBALANCE) as [->|E2].
  { destruct Hcase as (Hh' & Hm & Hv). split; [by eapply get_white_balance|].
    apply (control_value_fits r ZSA_COLOR_CONTROL_WHITEBALANCE v); auto. }
  destruct (Z.eqb_spec command ZSA_COLOR_CONTROL_AUTO_EXPOSURE_PRIORITY) as [->|E3]; [done|].
  destruct Hcase as (c & r' & Hc & Hh' & Hi' & Hd & Hv & _).
  pose proof (control_value_fits r command v ltac:(done) ltac:(left; by exists c)) as Hf.
  unfold control_value in Hf. rewrite (proj2 (Z.eqb_neq _ _) E1), (proj2 (Z.eqb_neq _ _) E2), Hc in Hf.
  rewrite Hc. split; [|exact Hf].
  apply (get_plain _ r' _ _ _ _ v _ Hrem Hh' Hi' Hc); [by apply Z.eqb_neq..|by rewrite Hd].
Qed.
End controls.

(** A camera that remembers, and a reader that is open. *)
#[export] Instance remembering_uvc : Uvc := {
  uvc_init_answer := fun _ => (0, 11);
  uvc_find_device_answer := fun _ _ _ _ _ => (0, 12);
  uvc_open_answer := fun _ _ => (0, 13);
  uvc_get_stream_ctrl_format_size_answer := fun _ _ _ _ _ _ => 0;
  uvc_start_streaming_answer := fun _ _ => 0;
  uvc_stop_streaming_others := fun _ w => w;
  uvc_get_answer := fun t handle c req =>
    match req with UVC_GET_CUR => (0, last_set handle c t) | _ => (0, 1) end;
  uvc_set_answer := fun _ _ _ _ => 0;
  tjInitDecompress_answer := fun _ => 14;
  tjDecompress2_answer := fun _ _ _ width height => (0, replicate (Z.to_nat (width * height * 4)) 0)
}.

Lemma remembering : UvcRemembers.
Proof. intros t handle c. reflexivity. Qed.

Definition sample_uvc_reader : UVCCameraReader :=
  zeroed <| uv_pContext := 11 |> <| uv_pDevice := 12 |> <| uv_pDeviceHandle := 13 |>.
Definition sample_uvc_reader_world : world := init_world <| heap := {[ 1 := to_obj sample_uvc_reader ]} |> <| fresh := 2 |>.

Lemma control_round_trip_witness :
  SetCameraControl 1 ZSA_COLOR_CONTROL_EXPOSURE_TIME_ABSOLUTE ZSA_COLOR_CONTROL_MODE_MANUAL 9000 sample_uvc_reader_world =
    Done ZSA_RESULT_SUCCEEDED (final (SetCameraControl 1 ZSA_COLOR_CONTROL_EXPOSURE_TIME_ABSOLUTE
      ZSA_COLOR_CONTROL_MODE_MANUAL 9000) sample_uvc_reader_world) /\
  exists w'', GetCameraControl 1 ZSA_COLOR_CONTROL_EXPOSURE_TIME_ABSOLUTE (Some 0) (Some 0)
      (final (SetCameraControl 1 ZSA_COLOR_CONTROL_EXPOSURE_TIME_ABSOLUTE ZSA_COLOR_CONTROL_MODE_MANUAL 9000)
         sample_uvc_reader_world) =
    Done (ZSA_RESULT_SUCCEEDED, (Some ZSA_COLOR_CONTROL_MODE_MANUAL, Some 16670)) w''.
Proof.
  assert (E : SetCameraControl 1 ZSA_COLOR_CONTROL_EXPOSURE_TIME_ABSOLUTE ZSA_COLOR_CONTROL_MODE_MANUAL 9000 sample_uvc_reader_world =
    Done ZSA_RESULT_SUCCEEDED (final (SetCameraControl 1 ZSA_COLOR_CONTROL_EXPOSURE_TIME_ABSOLUTE
      ZSA_COLOR_CONTROL_MODE_MANUAL 9000) sample_uvc_reader_world)) by reflexivity.
  split; [exact E|].
  destruct (control_round_trip 1 ZSA_COLOR_CONTROL_EXPOSURE_TIME_ABSOLUTE 9000 0 0 sample_uvc_reader sample_uvc_reader_world _
    remembering ltac:(split; [discriminate|reflexivity]) ltac:(discriminate) E) as [Hget _].
  exact Hget.
Defined.
