(* ===== verification/UvcFrame.v ===== *)
(** src/color/uvc_camerareader.cpp: what becomes of a frame, from the buffer
    that is allocated for it to the capture that the client is called with. *)

From S2P Require Export UvcMetadata UvcControl.

Section frames.
Context `{Platform} `{Uvc} `{ReaderClient}.
Implicit Types (w : world) (r : UVCCameraReader) (frame : uvc_frame_t) (m : frame_metadata_t).

(** * Pixels *)

Lemma wp_write_buffer busy ext p b bytes w (Q : unit -> world -> Prop) :
  Inv busy ext w -> heap w !! p = Some (OBlock b) ->
  sizeof_allocation_context_t + Z.of_nat (length bytes) <= blk_size b ->
  (forall w', w' = w <| heap := <[p := OBlock (b <| blk_data := bytes ++ drop (length bytes) (blk_data b) |>)]> (heap w) |> ->
     Inv busy ext w' -> Q tt w') ->
  wp (write_buffer (p + sizeof_allocation_context_t) bytes) Q w.
Proof.
  intros HI Hp Hs HQ. unfold write_buffer. rewrite Z.add_simpl_r. apply wp_bind. unfold wp at 1, get_state.
  rewrite Hp, (proj2 (Z.ltb_ge _ _)) by done. apply wp_modify, HQ; [done|].
  destruct (inv_blocks _ _ _ HI _ _ Hp) as (a & Ha & Hok).
  eapply inv_store; [exact HI|exact Hp|done| |done|done|done|].
  - intros x. cbn. case_decide; lia.
  - intros b' [= <-]. by exists a.
Qed.

(** What is relied on in the decoder (turbojpeg.h): with pitch 0 and scaling to
    the given size it stores [height] rows of [width] pixels of four bytes, and
    no more when it fails. *)
Class DecoderOk : Prop := decoder_ok : forall t d input width height,
  let '(status, bytes) := tjDecompress2_answer t d input width height in
  0 < width -> 0 < height ->
  Z.of_nat (length bytes) <= width * height * 4 /\ (status = 0 -> Z.of_nat (length bytes) = width * height * 4).

(** What a decoded or copied frame consists of. *)
Definition frame_bytes r frame (size : Z) (bytes : list Z) : Prop :=
  if frame_decodes r then
    exists t d, tjDecompress2_answer t d (take (Z.to_nat (fr_data_bytes frame)) (fr_data frame))
      (uv_width_pixels r) (uv_height_pixels r) = (0, bytes)
  else bytes = take (Z.to_nat size) (fr_data frame).

Definition sizes_ok r : Prop := 0 < uv_width_pixels r <= 20000 /\ 0 < uv_height_pixels r <= 20000.

(** Everything but the reader at [this] is as it was in [w0]. *)
Definition kept_but (this : Z) (w0 w : world) : Prop :=
  forall x o, heap w0 !! x = Some o -> x <> this -> heap w !! x = Some o.

(** The books with the reader locked and the buffer at [p] in hand; [w0] is
    the world in which the frame arrived. *)
Record filling (w0 : world) (ext : ledger) (this : Z) r (p : Z) (b : block_t) w : Prop := mkFilling {
  fl_inv : Inv {[this]} (gain ext (KBlock, p)) w;
  fl_has : has w this r;
  fl_block : heap w !! p = Some (OBlock b);
  fl_new : heap w0 !! p = None;
  fl_kept : kept_but this w0 w
}.

Lemma filling_trace w0 ext this r p b w es :
  filling w0 ext this r p b w -> filling w0 ext this r p b (w <| trace := trace w ++ es |>).
Proof. intros [HI Hh Hp Hn Hk]. split; [by apply inv_trace|exact Hh|exact Hp|exact Hn|exact Hk]. Qed.

Lemma filling_ne w0 ext this r p b w : filling w0 ext this r p b w -> this <> p.
Proof. intros [_ [_ Hh] Hp _ _] ->. rewrite Hh in Hp. discriminate. Qed.

Lemma inv_reader busy ext this r r' w :
  Inv busy ext w -> has w this r -> this ∈ busy -> Inv busy ext (w <| heap := <[this := to_obj r']> (heap w) |>).
Proof. intros HI [_ Hh] Hb. by eapply inv_touch. Qed.

Lemma filling_reader w0 ext this r r' p b w :
  filling w0 ext this r p b w -> filling w0 ext this r' p b (w <| heap := <[this := to_obj r']> (heap w) |>).
Proof.
  intros Hf. pose proof (filling_ne _ _ _ _ _ _ _ Hf) as Hn. destruct Hf as [HI Hh Hp Hp0 Hk]. split.
  - eapply inv_reader; [exact HI|exact Hh|set_solver].
  - apply has_stored, Hh.
  - cbn. by rewrite lookup_insert_ne.
  - exact Hp0.
  - intros x o Hx Hxt. cbn. rewrite lookup_insert_ne by done. by apply Hk.
Qed.

Lemma wp_write_filling w0 ext this r p b bytes w (Q : unit -> world -> Prop) :
  filling w0 ext this r p b w -> sizeof_allocation_context_t + Z.of_nat (length bytes) <= blk_size b -> blk_data b = [] ->
  (forall w', filling w0 ext this r p (b <| blk_data := bytes |>) w' -> Q tt w') ->
  wp (write_buffer (p + sizeof_allocation_context_t) bytes) Q w.
Proof.
  intros Hf Hs Hd HQ. pose proof (filling_ne _ _ _ _ _ _ _ Hf) as Hn. destruct Hf as [HI Hh Hp Hp0 Hk].
  eapply (wp_write_buffer {[this]} _ p b); [exact HI|exact Hp|done|]. rewrite Hd, drop_nil, app_nil_r.
  intros w' -> HI'. apply HQ. split; [exact HI'| |cbn; by rewrite lookup_insert_eq|done|].
  - split; [apply Hh|]. cbn. rewrite lookup_insert_ne by done. apply Hh.
  - intros x o Hx Hxt. cbn. rewrite lookup_insert_ne by congruence. by apply Hk.
Qed.

(** Nothing of the reader but its decoder. *)
Definition same_but_decoder r r' : Prop := r' = r <| uv_decoder := uv_decoder r' |>.

Lemma wp_decode w0 ext this r frame p b size w :
  DecoderOk -> filling w0 ext this r p b w -> sizes_ok r -> fr_data_bytes frame <= Z.of_nat (length (fr_data frame)) ->
  blk_data b = [] -> blk_size b = size + sizeof_allocation_context_t -> 0 <= size -> frame_decodes r = true ->
  wp (DecodeMJPEGtoBGRA32 this (fr_data frame) (fr_data_bytes frame) (p + sizeof_allocation_context_t) size)
     (fun result w' => exists r' bytes, filling w0 ext this r' p (b <| blk_data := bytes |>) w' /\ same_but_decoder r r' /\
        (result = ZSA_RESULT_SUCCEEDED -> frame_bytes r frame size bytes)) w.
Proof.
  intros Hdec Hf [Hw Hh] Hlen Hd Hbs Hsz Hfd. unfold DecodeMJPEGtoBGRA32.
  apply wp_bind. eapply wp_load; [apply Hf|].
  assert (Hnone : b <| blk_data := [] |> = b) by (destruct b; cbn in *; by subst).
  assert (Emul : u32 (u32 (uv_width_pixels r * uv_height_pixels r) * 4) = uv_width_pixels r * uv_height_pixels r * 4)
    by (rewrite !u32_id; [done|nia|rewrite u32_id; nia]).
  rewrite Emul, Z.gtb_ltb. destruct (Z.ltb_spec size (uv_width_pixels r * uv_height_pixels r * 4)) as [Hlt|Hge].
  { apply wp_ret. exists r, []. rewrite Hnone. split_and!; [done|by destruct r|done]. }
  apply wp_bind. eapply (wp_mono _ (fun _ w1 => exists r1, filling w0 ext this r1 p b w1 /\ same_but_decoder r r1)).
  { destruct (uv_decoder r =? NULL); cbn [when]; [|apply wp_ret; exists r; split; [done|by destruct r]].
    apply wp_bind. unfold wp at 1, uvc_call. set (w1 := w <| trace := _ |>).
    assert (Hf1 : filling w0 ext this r p b w1) by (by apply filling_trace).
    eapply wp_update; [apply Hf1|]. eexists. split; [by eapply filling_reader|]. by destruct r. }
  intros [] w1 (r1 & Hf1 & Hr1). apply wp_bind. eapply wp_load; [apply Hf1|].
  destruct (uv_decoder r1 =? NULL).
  { apply wp_ret. exists r1, []. rewrite Hnone. by split_and!. }
  rewrite (proj2 (Z.ltb_ge _ _)) by done. cbv zeta.
  assert (Ew : uv_width_pixels r1 = uv_width_pixels r /\ uv_height_pixels r1 = uv_height_pixels r) by (by rewrite Hr1).
  destruct Ew as [-> ->]. rewrite !s32_id by lia.
  apply wp_bind. unfold wp at 1, uvc_call.
  pose proof (Hdec (trace w1) (uv_decoder r1) (take (Z.to_nat (fr_data_bytes frame)) (fr_data frame)) (uv_width_pixels r) (uv_height_pixels r)) as Hb.
  destruct (tjDecompress2_answer _ _ _ _ _) as [status bytes] eqn:Et. destruct (Hb ltac:(lia) ltac:(lia)) as [Hb1 Hb2].
  apply wp_bind. eapply wp_write_filling; [by apply filling_trace|lia|done|].
  intros w2 Hf2. apply wp_ret. exists r1, bytes. split_and!; [exact Hf2|exact Hr1|].
  destruct (Z.eqb_spec status 0) as [->|]; [|done]. intros _. unfold frame_bytes. rewrite Hfd. by eexists _, _.
Qed.

Lemma wp_frame_pixels w0 ext this r frame p b size w :
  DecoderOk -> filling w0 ext this r p b w -> sizes_ok r -> fr_data_bytes frame <= Z.of_nat (length (fr_data frame)) ->
  blk_data b = [] -> blk_size b = size + sizeof_allocation_context_t -> 0 <= size ->
  (frame_decodes r = false -> size = fr_data_bytes frame) ->
  wp (frame_pixels this r frame (p + sizeof_allocation_context_t) size)
     (fun result w' => exists r' bytes, filling w0 ext this r' p (b <| blk_data := bytes |>) w' /\ same_but_decoder r r' /\
        (result = ZSA_RESULT_SUCCEEDED -> frame_bytes r frame size bytes)) w.
Proof.
  intros Hdec Hf Hw Hlen Hd Hbs Hsz Hcopy. unfold frame_pixels. destruct (frame_decodes r) eqn:Hfd; [by apply wp_decode|].
  specialize (Hcopy eq_refl). unfold memcpy_from. rewrite (proj2 (Z.ltb_ge _ _)) by lia.
  apply wp_bind. eapply wp_write_filling; [exact Hf|rewrite length_take; lia|done|].
  intros w' Hf'. apply wp_ret. exists r. eexists. split_and!; [exact Hf'|by destruct r|].
  intros _. unfold frame_bytes. by rewrite Hfd.
Qed.
(** * The image and its capture *)

(** The image with what is known of the frame, held by the capture and by the
    reader. *)
Definition filled frame m (i : image_context_t) : image_context_t :=
  i <| img_sys_timestamp_nsec := frame_timestamp_nsec frame |>
    <| img_dev_timestamp_usec := ZSA_90K_HZ_TICK_TO_USEC (md_framePTS m) |>
    <| img_exposure_time_usec := md_exposure_time m |> <| img_iso_speed := md_iso_speed m |>
    <| img_white_balance := md_white_balance m |> <| img_ref_count := img_ref_count i + 1 |>.

Definition color_capture (image : Z) : capture_context_t := new_capture <| cap_color := image |>.

Lemma inv_fill busy ext w image i capture frame m :
  Inv busy ext w -> has w image i -> has w capture new_capture -> image ∉ busy -> capture ∉ busy ->
  Inv busy ext (w <| heap := <[capture := OCapture (color_capture image)]> (<[image := OImage (filled frame m i)]> (heap w)) |>).
Proof.
  intros HI [Hin Hi] [Hcn Hc] Hbi Hbc. assert (Hne : image <> capture) by (intros ->; rewrite Hi in Hc; discriminate).
  pose proof (inv_pos _ _ _ HI _ _ Hi Hbi eq_refl) as Hpos. cbn in Hpos.
  set (w1 := w <| heap := <[image := OImage (filled frame m i)]> (heap w) |>).
  assert (HI1 : Inv busy (gain ext (KImage, image)) w1).
  { eapply inv_store; [exact HI|exact Hi|done| | | |done|done].
    - destruct i; cbn. ledger.
    - intros _ _. cbn. lia.
    - intros Hb. apply (inv_idle _ _ _ HI _ _ Hi Hb). }
  change (Inv busy ext (w1 <| heap := <[capture := OCapture (color_capture image)]> (heap w1) |>)).
  eapply (inv_store _ _ _ _ w1 capture (OCapture new_capture)); [exact HI1| |done| |done|done|done|done].
  - cbn. by rewrite lookup_insert_ne.
  - intros x. cbn. unfold nonnull. rewrite (proj2 (Z.eqb_neq image NULL)) by done. cbn. ledger.
Qed.

Lemma wp_image_set f h i w (Q : unit -> world -> Prop) :
  has w h i -> Q tt (w <| heap := <[h := OImage (f i)]> (heap w) |>) -> wp (image_set f h) Q w.
Proof. intros Hh HQ. eapply wp_if_handle_valid; [exact Hh|]. by eapply wp_update. Qed.

(** An image is put into a capture that has none. *)
Lemma wp_set_color_empty image i capture w (Q : unit -> world -> Prop) :
  has w image i -> has w capture new_capture ->
  Q tt (w <| heap := <[capture := OCapture (color_capture image)]>
                      (<[image := OImage (i <| img_ref_count := img_ref_count i + 1 |>)]> (heap w)) |>) ->
  wp (capture_set_color_image capture image) Q w.
Proof.
  intros [Hin Hi] Hc HQ. pose proof Hc as [Hcn Hc']. assert (Hne : image <> capture) by (intros ->; rewrite Hi in Hc'; discriminate).
  eapply wp_if_handle_valid; [exact Hc|]. apply wp_bind. eapply wp_capture_lock; [exact Hc|done|].
  apply wp_bind. eapply wp_load; [by apply has_store|]. apply wp_bind, wp_ret.
  apply wp_bind. eapply wp_update; [by apply has_store|].
  apply wp_bind. rewrite (proj2 (Z.eqb_neq image NULL)) by done. cbn [negb when].
  eapply wp_if_handle_valid; [split; [exact Hin|]; cbn; rewrite !lookup_insert_ne by done; exact Hi|].
  eapply wp_update; [split; [exact Hin|]; cbn; rewrite !lookup_insert_ne by done; exact Hi|].
  eapply wp_capture_unlock; [split; [exact Hcn|]; cbn; rewrite lookup_insert_ne by done; apply lookup_insert_eq|].
  cbn in *. rewrite !fin_maps.insert_insert_eq.
  rewrite (fin_maps.insert_insert_ne _ image capture), fin_maps.insert_insert_eq by done. exact HQ.
Qed.

Lemma wp_frame_fill frame m image i capture w (Q : unit -> world -> Prop) :
  has w image i -> has w capture new_capture ->
  Q tt (w <| heap := <[capture := OCapture (color_capture image)]> (<[image := OImage (filled frame m i)]> (heap w)) |>) ->
  wp (frame_fill frame m image capture) Q w.
Proof.
  intros [Hin Hi] [Hcn Hc] HQ. assert (Hne : image <> capture) by (intros ->; rewrite Hi in Hc; discriminate).
  unfold frame_fill. apply wp_bind. eapply wp_image_set; [by split|].
  do 4 (apply wp_bind; eapply wp_image_set; [split; [done|apply lookup_insert_eq]|]).
  eapply wp_set_color_empty; [split; [done|apply lookup_insert_eq]| |].
  - split; [exact Hcn|]. cbn. by rewrite !lookup_insert_ne.
  - cbn. rewrite !fin_maps.insert_insert_eq. exact HQ.
Qed.
(** ** When memory does not run out *)

Definition memory_ok w : Prop :=
  (forall n, calloc_ok n = true) /\ (forall n, Lock_Init_ok n = true) /\ ag_alloc (current_allocator w) = default_alloc.

Lemma memory_ok_lasts w : memory_ok w -> memory_lasts w.
Proof. intros (Hc & _ & Hd). split; [done|by left]. Qed.

Lemma create_from_buffer_ok format width height stride buffer size cb context w :
  (forall n, calloc_ok n = true) -> (forall n, Lock_Init_ok n = true) -> 0 < fresh w ->
  buffer_args_ok format width height buffer size ->
  wp (image_create_from_buffer format width height stride buffer size cb context true)
     (fun res _ => fst res = ZSA_RESULT_SUCCEEDED) w.
Proof.
  intros Hc Hl Hf (Hfm & Hw & Hh & Hb & Hs). unfold image_create_from_buffer. rewrite Hfm. cbn [negb].
  rewrite (proj2 (Z.leb_gt width 0)), (proj2 (Z.leb_gt height 0)) by lia.
  rewrite !Z.gtb_ltb, (proj2 (Z.ltb_ge 20000 width)), (proj2 (Z.ltb_ge 20000 height)) by lia.
  cbn [orb]. rewrite (proj2 (Z.eqb_neq buffer NULL)), (proj2 (Z.eqb_neq size 0)) by done.
  assert (Hn : fresh w <> NULL) by (unfold NULL; lia).
  apply wp_bind, wp_handle_create_ok; [apply Hc|]. rewrite (proj2 (Z.eqb_neq (fresh w) NULL)) by done.
  apply wp_bind. eapply wp_update; [split; [exact Hn|apply lookup_insert_eq]|].
  apply wp_bind. unfold wp at 1, Lock_Init, ask, mbind at 1, M_bind at 1. rewrite Hl.
  apply wp_bind. eapply wp_update; [split; [exact Hn|apply lookup_insert_eq]|]. by apply wp_ret.
Qed.

Lemma capture_create_ok w :
  (forall n, calloc_ok n = true) -> 0 < fresh w -> wp (capture_create true) (fun res _ => fst res = ZSA_RESULT_SUCCEEDED) w.
Proof.
  intros Hc Hf. unfold capture_create. cbn [negb]. assert (Hn : fresh w <> NULL) by (unfold NULL; lia).
  apply wp_bind, wp_handle_create_ok; [apply Hc|]. rewrite (proj2 (Z.eqb_neq (fresh w) NULL)) by done.
  apply wp_bind. eapply wp_update; [split; [exact Hn|apply lookup_insert_eq]|]. by apply wp_ret.
Qed.
(** ** The image over the buffer *)

Definition new_image r (stride p size : Z) : image_context_t :=
  wrapped_image (uv_output_image_format r) (uv_width_pixels r) (uv_height_pixels r) stride
    (p + sizeof_allocation_context_t) size uvc_camerareader_free_allocation_cb NULL.

(** The image holds the buffer. *)
Record imaged (w0 : world) (ext : ledger) (this : Z) r (p : Z) (b : block_t) (stride size image : Z) w : Prop := mkImaged {
  im_inv : Inv {[this]} (gain ext (KImage, image)) w;
  im_has : has w this r;
  im_image : has w image (new_image r stride p size);
  im_block : heap w !! p = Some (OBlock b);
  im_new : heap w0 !! p = None /\ heap w0 !! image = None;
  im_kept : kept_but this w0 w
}.

(** There is no image, and the buffer was given back, or it leaks. *)
Definition no_image (w0 : world) (ext : ledger) (this : Z) r w : Prop :=
  has w this r /\ kept_but this w0 w /\ (Inv {[this]} ext w \/ exists p, Inv {[this]} (gain ext (KBlock, p)) w).

Definition image_post (w0 : world) (ext : ledger) (this : Z) r (p : Z) (b : block_t) (stride size : Z)
    (res : zsa_result_t * Z) w : Prop :=
  match res with
  | (ZSA_RESULT_SUCCEEDED, image) => imaged w0 ext this r p b stride size image w
  | (ZSA_RESULT_FAILED, image) => image = NULL /\ no_image w0 ext this r w
  end.

Lemma wp_frame_image w0 ext this r p b stride size w :
  filling w0 ext this r p b w -> sizes_ok r -> bad_format (uv_output_image_format r) = false -> 0 < size -> 0 < p ->
  wp (frame_image this ZSA_RESULT_SUCCEEDED stride (p + sizeof_allocation_context_t) size)
     (fun res w' => image_post w0 ext this r p b stride size res w' /\
        ((forall n, calloc_ok n = true) /\ (forall n, Lock_Init_ok n = true) -> fst res = ZSA_RESULT_SUCCEEDED)) w.
Proof.
  intros Hf [Hw Hh] Hfm Hsz Hp. pose proof (filling_ne _ _ _ _ _ _ _ Hf) as Hne. destruct Hf as [HI Ht Hb Hp0 Hk].
  unfold frame_image. cbn [ZSA_SUCCEEDED]. apply wp_bind. eapply wp_load; [exact Ht|].
  rewrite !s32_id by lia.
  assert (Hargs : buffer_args_ok (uv_output_image_format r) (uv_width_pixels r) (uv_height_pixels r) (p + sizeof_allocation_context_t) size).
  { split_and!; try done; try lia. unfold NULL, sizeof_allocation_context_t. lia. }
  pose proof (inv_fresh_none _ _ _ HI) as Hnone. pose proof (inv_fresh _ _ _ HI) as Hf0.
  assert (Hn0 : heap w0 !! fresh w = None).
  { destruct (heap w0 !! fresh w) as [o|] eqn:Ho; [|done]. destruct (decide (fresh w = this)) as [E|E].
    - destruct Ht as [_ Ht]. rewrite <- E, Hnone in Ht. discriminate.
    - specialize (Hk _ _ Ho E). congruence. }
  assert (Hnp : fresh w <> p) by (intros E; congruence).
  assert (Hnt : fresh w <> this) by (intros E; destruct Ht as [_ Ht]; rewrite <- E, Hnone in Ht; discriminate).
  apply wp_bind. eapply wp_mono.
  { eapply (wp_and_if ((forall n, calloc_ok n = true) /\ forall n, Lock_Init_ok n = true) _ _ (fun res _ => fst res = ZSA_RESULT_SUCCEEDED));
      [by eapply wp_image_wrap|]. intros [Hc Hl]. by apply create_from_buffer_ok. }
  intros [[] image] w1 [(_ & _ & Hi) Hok]; (apply wp_ret; split; [|exact Hok]).
  - destruct Hi as (-> & Eh & HI1). change (default NULL (Some (fresh w))) with (fresh w). cbn [frees_block] in HI1. fold (new_image r stride p size) in Eh.
    rewrite Z.add_simpl_r in HI1. split.
    + eapply inv_ext; [exact HI1|]. ledger.
    + split; [apply Ht|]. rewrite Eh, lookup_insert_ne by done. apply Ht.
    + split; [unfold NULL; lia|]. by rewrite Eh, lookup_insert_eq.
    + by rewrite Eh, lookup_insert_ne.
    + done.
    + intros x o Hx Hxt. rewrite Eh, lookup_insert_ne by congruence. by apply Hk.
  - destruct Hi as (-> & Eh & HI1). split; [done|]. split_and!.
    + split; [apply Ht|]. rewrite Eh. apply Ht.
    + intros x o Hx Hxt. rewrite Eh. by apply Hk.
    + right. by exists p.
Qed.

Lemma wp_frame_no_image w0 ext this r p b stride size w :
  filling w0 ext this r p b w ->
  wp (frame_image this ZSA_RESULT_FAILED stride (p + sizeof_allocation_context_t) size)
     (fun res w' => res = (ZSA_RESULT_FAILED, NULL) /\ no_image w0 ext this r w') w.
Proof.
  intros Hf. pose proof (filling_ne _ _ _ _ _ _ _ Hf) as Hne. destruct Hf as [HI Ht Hb Hp0 Hk].
  destruct (inv_blocks _ _ _ HI _ _ Hb) as (a & Ha & _).
  apply wp_bind. eapply wp_mono; [by eapply wp_allocator_free|]. intros [] w1 (HI1 & Eh & _ & _).
  apply wp_ret. split; [done|]. split_and!.
  - split; [apply Ht|]. rewrite Eh, lookup_delete_ne by done. apply Ht.
  - intros x o Hx Hxt. rewrite Eh, lookup_delete_ne by congruence. by apply Hk.
  - left. eapply inv_ext; [exact HI1|]. ledger.
Qed.
(** ** The frame as a whole *)

(** The rest of Callback: the client is called, then the reader lets go of the
    image and the capture, and of the lock. *)
Definition call_client (this : Z) (result : zsa_result_t) (image capture : Z) : Mw unit :=
  (r ← load UVCCameraReader this;
   stream_callback_call (uv_pCallback r) result capture (uv_pCallbackContext r);;
   when (negb (image =? NULL)) (image_dec_ref image);;
   when (negb (capture =? NULL)) (capture_dec_ref capture));;
  Unlock uv_mutex this.

(** What the client is called with on success: a capture that the reader and
    nobody else holds, whose color image holds the bytes of the frame. *)
Record delivered (w0 : world) (ext : ledger) (this : Z) r frame m (stride size image capture : Z) w : Prop := mkDelivered {
  dl_inv : Inv {[this]} (gain (gain ext (KImage, image)) (KCapture, capture)) w;
  dl_capture : has w capture (color_capture image);
  dl_image : exists p b, has w image (filled frame m (new_image r stride p size)) /\
    heap w !! p = Some (OBlock b) /\ frame_bytes r frame size (blk_data b);
  dl_new : heap w0 !! image = None /\ heap w0 !! capture = None
}.

(** What is left on failure: no capture, and no image, or an image that the
    reader still holds. *)
Definition not_delivered (ext : ledger) (this image capture : Z) w : Prop :=
  capture = NULL /\
  (image = NULL /\ (Inv {[this]} ext w \/ exists p, Inv {[this]} (gain ext (KBlock, p)) w) \/
   image <> NULL /\ Inv {[this]} (gain ext (KImage, image)) w).

Definition client_called (w0 : world) (ext : ledger) (this : Z) r frame m (stride size : Z) (result : zsa_result_t)
    (image capture : Z) w : Prop :=
  (exists r', has w this r' /\ same_but_decoder r r') /\ kept_but this w0 w /\
  match result with
  | ZSA_RESULT_SUCCEEDED => delivered w0 ext this r frame m stride size image capture w
  | ZSA_RESULT_FAILED => not_delivered ext this image capture w
  end.

(** From the image on. *)
Lemma deliver_image w0 ext this r r' frame m p b stride size image w (P : outcome world unit -> Prop) :
  imaged w0 ext this r' p b stride size image w -> same_but_decoder r r' -> frame_bytes r frame size (blk_data b) ->
  (forall result capture w1, client_called w0 ext this r frame m stride size result image capture w1 ->
     ((forall n, calloc_ok n = true) -> result = ZSA_RESULT_SUCCEEDED) -> P (call_client this result image capture w1)) ->
  P ((('(result, capture) ← ('(result, capture) ← capture_create true; mret (result, default NULL capture));
       when (ZSA_SUCCEEDED result) (frame_fill frame m image capture);;
       r ← load UVCCameraReader this;
       stream_callback_call (uv_pCallback r) result capture (uv_pCallbackContext r);;
       when (negb (image =? NULL)) (image_dec_ref image);;
       when (negb (capture =? NULL)) (capture_dec_ref capture));;
      Unlock uv_mutex this) w).
Proof.
  intros [HI Ht Hi Hb [Hp0 Hi0] Hk] Hr Hbytes HP. rewrite bind_assoc, bind_assoc.
  pose proof (inv_fresh_none _ _ _ HI) as Hnone. pose proof (inv_fresh _ _ _ HI) as Hf0.
  assert (Hft : fresh w ∉ ({[this]} : gset Z)).
  { intros E%elem_of_singleton. destruct Ht as [_ Ht]. rewrite <- E, Hnone in Ht. discriminate. }
  eapply outcome_bind.
  { eapply (wp_and_if (forall n, calloc_ok n = true) _ _ (fun res _ => fst res = ZSA_RESULT_SUCCEEDED)).
    - by apply (wp_capture_create _ _ _ HI).
    - intros Hc. by apply capture_create_ok. }
  intros [result out] w1 [(_ & Hpost) Hok]. erewrite bind_done by done. cbv beta iota.
  assert (Hni : image <> fresh w) by (intros E; destruct Hi as [_ Hi]; rewrite E, Hnone in Hi; discriminate).
  assert (Hnt : this <> fresh w) by (intros E; destruct Ht as [_ Ht]; rewrite E, Hnone in Ht; discriminate).
  destruct result; cbn [ZSA_SUCCEEDED when].
  - destruct Hpost as (-> & Hc & Eh & HI1). change (default NULL (Some (fresh w))) with (fresh w). rewrite bind_assoc.
    assert (Hi1 : has w1 image (new_image r' stride p size)) by (split; [apply Hi|]; rewrite Eh, lookup_insert_ne by done; apply Hi).
    assert (Hti : this <> image) by (intros E; destruct Ht as [_ Ht], Hi as [_ Hi]; rewrite E, Hi in Ht; discriminate).
    assert (Hpi : p <> image) by (intros ->; destruct Hi as [_ Hi]; rewrite Hb in Hi; discriminate).
    assert (Hpc : p <> fresh w) by (intros E; congruence).
    eapply outcome_bind; [eapply (wp_frame_fill _ _ _ _ _ _ (fun _ w2 => w2 = _) Hi1 Hc eq_refl)|]. intros _ w2 ->.
    apply HP; [|done]. split; [exists r'; split; [|exact Hr]|split; [|split]].
    + split; [apply Ht|]. cbn. rewrite lookup_insert_ne, lookup_insert_ne, Eh, lookup_insert_ne by done. apply Ht.
    + intros x o Hx Hxt. assert (x <> fresh w /\ x <> image) as [].
      { split; intros ->; [|congruence]. specialize (Hk _ _ Hx Hxt). congruence. }
      cbn. rewrite lookup_insert_ne, lookup_insert_ne, Eh, lookup_insert_ne by done. by apply Hk.
    + eapply inv_fill; [exact HI1|exact Hi1|exact Hc| |done]. set_solver.
    + split; [unfold NULL; lia|]. apply lookup_insert_eq.
    + exists p, b. assert (En : new_image r stride p size = new_image r' stride p size) by (by rewrite Hr). rewrite En.
      split_and!; [split; [apply Hi|]|..|exact Hbytes].
      * cbn. rewrite lookup_insert_ne by done. apply lookup_insert_eq.
      * cbn. rewrite lookup_insert_ne, lookup_insert_ne, Eh, lookup_insert_ne by done. exact Hb.
    + split; [exact Hi0|]. destruct (heap w0 !! fresh w) as [o|] eqn:Ho; [|done]. specialize (Hk _ _ Ho ltac:(done)). congruence.
  - destruct Hpost as (-> & Eh & HI1). change (default NULL (Some NULL)) with NULL. rewrite bind_assoc. erewrite bind_done by done.
    apply HP; [|intros Hc; by specialize (Hok Hc)]. split_and!.
    + exists r'. split; [|exact Hr]. split; [apply Ht|]. rewrite Eh. apply Ht.
    + intros x o Hx Hxt. rewrite Eh. by apply Hk.
    + split; [done|]. right. split; [apply Hi|exact HI1].
Qed.
Lemma same_but_decoder_fields r r' : same_but_decoder r r' ->
  uv_width_pixels r' = uv_width_pixels r /\ uv_height_pixels r' = uv_height_pixels r /\
  uv_output_image_format r' = uv_output_image_format r.
Proof. by intros ->. Qed.

(** From the buffer on. *)
Lemma deliver_buffer w0 ext this r frame m p b stride size w (P : outcome world unit -> Prop) :
  DecoderOk -> filling w0 ext this r p b w -> sizes_ok r -> bad_format (uv_output_image_format r) = false ->
  fr_data_bytes frame <= Z.of_nat (length (fr_data frame)) -> blk_data b = [] ->
  blk_size b = size + sizeof_allocation_context_t -> 0 < size -> 0 < p -> (frame_decodes r = false -> size = fr_data_bytes frame) ->
  (forall result image capture w1, client_called w0 ext this r frame m stride size result image capture w1 ->
     (frame_decodes r = false -> (forall n, calloc_ok n = true) /\ (forall n, Lock_Init_ok n = true) -> result = ZSA_RESULT_SUCCEEDED) ->
     P (call_client this result image capture w1)) ->
  P (((result ← and_then (ZSA_RESULT_FROM_BOOL (negb (p + sizeof_allocation_context_t =? NULL)))
                  (frame_pixels this r frame (p + sizeof_allocation_context_t) size);
       '(result, image) ← frame_image this result stride (p + sizeof_allocation_context_t) size;
       '(result, capture) ← (if ZSA_SUCCEEDED result then
                               '(result, capture) ← capture_create true; mret (result, default NULL capture)
                             else mret (result, NULL));
       when (ZSA_SUCCEEDED result) (frame_fill frame m image capture);;
       r ← load UVCCameraReader this;
       stream_callback_call (uv_pCallback r) result capture (uv_pCallbackContext r);;
       when (negb (image =? NULL)) (image_dec_ref image);;
       when (negb (capture =? NULL)) (capture_dec_ref capture));;
      Unlock uv_mutex this) w).
Proof.
  intros Hdec Hf Hw Hfm Hlen Hd Hbs Hsz Hp Hcopy HP. rewrite bind_assoc.
  rewrite (proj2 (Z.eqb_neq (p + sizeof_allocation_context_t) NULL)) by (unfold sizeof_allocation_context_t, NULL; lia).
  cbn [negb ZSA_RESULT_FROM_BOOL and_then ZSA_SUCCEEDED].
  eapply outcome_bind.
  { eapply (wp_and_if (frame_decodes r = false) _ _ (fun res _ => res = ZSA_RESULT_SUCCEEDED)).
    - apply (wp_frame_pixels w0 ext this r frame p b size w); try done. lia.
    - intros Hfd. unfold frame_pixels. rewrite Hfd. specialize (Hcopy Hfd). unfold memcpy_from.
      rewrite (proj2 (Z.ltb_ge _ _)) by lia. apply wp_bind.
      eapply wp_write_filling; [exact Hf|rewrite length_take; lia|done|]. intros w' _. by apply wp_ret. }
  intros result w1 [(r' & bytes & Hf1 & Hr & Hbytes) Hok]. cbv beta. rewrite bind_assoc.
  destruct (same_but_decoder_fields _ _ Hr) as (E1 & E2 & E3).
  destruct result.
  - eapply outcome_bind.
    { eapply (wp_frame_image w0 ext this r'); [exact Hf1|by unfold sizes_ok; rewrite E1, E2|by rewrite E3|done|done]. }
    intros [[] image] w2 [Hi Hok2]; cbv beta iota; cbn [image_post fst] in *.
    + cbn [ZSA_SUCCEEDED]. eapply deliver_image; [exact Hi|exact Hr|by apply Hbytes|].
      intros result capture w3 Hc Hok3. apply HP; [exact Hc|]. intros _ [Hcal _]. by apply Hok3.
    + destruct Hi as (-> & Ht & Hk & HI). cbn [ZSA_SUCCEEDED]. rewrite bind_assoc. erewrite bind_done by done. cbn [when ZSA_SUCCEEDED].
      rewrite bind_assoc. erewrite bind_done by done. apply HP; [|intros _ Hm; by specialize (Hok2 Hm)].
      split_and!; [by exists r'|exact Hk|]. split; [done|]. by left.
  - eapply outcome_bind; [by eapply (wp_frame_no_image w0 ext this r')|].
    intros ? w2 [-> (Ht & Hk & HI)]. cbv beta iota. cbn [ZSA_SUCCEEDED]. rewrite bind_assoc. erewrite bind_done by done. cbn [when ZSA_SUCCEEDED].
    rewrite bind_assoc. erewrite bind_done by done. apply HP; [|intros Hfd; by specialize (Hok Hfd)].
    split_and!; [by exists r'|exact Hk|]. split; [done|]. by left.
Qed.
Lemma lock_done this r w : has w this r -> uv_mutex r = LockFree ->
  Lock uv_mutex this w = Done tt (w <| heap := <[this := to_obj (r <| uv_mutex := LockHeld |>)]> (heap w) |>).
Proof.
  intros Hh Hl. unfold Lock. rewrite (bind_done _ _ _ _ _ (load_done _ _ _ Hh)), Hl.
  erewrite bind_done by done. by apply update_done.
Qed.

(** A frame that is dropped leaves no trace. *)
Lemma callback_nothing this r w (body : Mw unit) :
  has w this r -> uv_mutex r = LockFree ->
  (let w1 := w <| heap := <[this := to_obj (r <| uv_mutex := LockHeld |>)]> (heap w) |> in body w1 = Done tt w1) ->
  (Lock uv_mutex this;; body;; Unlock uv_mutex this) w = Done tt w.
Proof.
  intros Hh Hl Hb. rewrite (bind_done _ _ _ _ _ (lock_done _ _ _ Hh Hl)), (bind_done _ _ _ _ _ Hb).
  set (w1 := w <| heap := _ |>). assert (Hh1 : has w1 this (r <| uv_mutex := LockHeld |>)) by apply has_stored, Hh.
  unfold Unlock. rewrite (bind_done _ _ _ _ _ (load_done _ _ _ Hh1)), (update_done _ _ _ _ Hh1). f_equal. subst w1. cbn.
  rewrite fin_maps.insert_insert_eq, fin_maps.insert_id; [by destruct w|].
  destruct Hh as [_ ->]. destruct r; cbn in *; by subst.
Qed.

Lemma callback_not_streaming this r (fr : option uvc_frame_t) w :
  has w this r -> uv_mutex r = LockFree -> uv_streaming r = false -> Callback this fr w = Done tt w.
Proof.
  intros Hh Hl Hs. unfold Callback.
  pose proof (callback_nothing this r w (r ← load UVCCameraReader this;
    match fr with Some frame => when (uv_streaming r) (callback_locked this frame) | None => mret tt end) Hh Hl) as E.
  assert (Hb : forall w1, has w1 this (r <| uv_mutex := LockHeld |>) ->
    (r ← load UVCCameraReader this;
     match fr with Some frame => when (uv_streaming r) (callback_locked this frame) | None => mret tt end) w1 = Done tt w1).
  { intros w1 Hh1. rewrite (bind_done _ _ _ _ _ (load_done _ _ _ Hh1)). cbn [uv_streaming update_field]. rewrite Hs. by destruct fr. }
  specialize (E (Hb _ (has_stored this (r <| uv_mutex := LockHeld |>) w (proj1 Hh)))).
  revert E. unfold mbind, M_bind. destruct (Lock uv_mutex this w) as [[] w1|]; [|done].
  by destruct (load UVCCameraReader this w1).
Qed.

(** What is assumed of a frame that arrives: the stream is going, the reader is
    at rest, the metadata can be read and has a timestamp, and the frame has
    the layout and the bytes that it says. *)
Record frame_arrives (ext : ledger) (this : Z) r frame m (stride size : Z) w : Prop := mkArrives {
  fa_inv : Inv ∅ ext w;
  fa_has : has w this r;
  fa_lock : uv_mutex r = LockFree;
  fa_streaming : uv_streaming r = true;
  fa_decoder : DecoderOk;
  fa_sizes : sizes_ok r;
  fa_format : bad_format (uv_output_image_format r) = false;
  fa_bytes : fr_data_bytes frame <= Z.of_nat (length (fr_data frame));
  fa_metadata : forall w, parse_metadata (fr_metadata frame) (fr_metadata_bytes frame) w = Done m w;
  fa_timestamp : md_framePTS m <> 0;
  fa_layout : forall w, frame_layout r frame w = Done (stride, size) w;
  fa_size : 0 < size <= INT32_MAX - sizeof_allocation_context_t
}.

(** The two ways in which Callback can go. *)
Lemma callback_case ext this r frame m stride size w (P : outcome world unit -> Prop) :
  frame_arrives ext this r frame m stride size w ->
  (~ memory_ok w -> P (Fault UseAfterFree)) ->
  (forall result image capture w1,
     client_called w ext this (r <| uv_mutex := LockHeld |>) frame m stride size result image capture w1 ->
     (frame_decodes r = false -> memory_ok w -> result = ZSA_RESULT_SUCCEEDED) -> P (call_client this result image capture w1)) ->
  P (Callback this (Some frame) w).
Proof.
  intros [HI Hh Hl Hs Hdec Hw Hfm Hlen Hm Hpts Hlay Hsize] Hfault HP. set (rl := r <| uv_mutex := LockHeld |>).
  unfold Callback. rewrite (bind_done _ _ _ _ _ (lock_done _ _ _ Hh Hl)).
  fold rl. set (w1 := w <| heap := _ |>). assert (Hh1 : has w1 this rl) by apply has_stored, Hh.
  assert (HI1 : Inv {[this]} ext w1).
  { eapply inv_reader; [eapply inv_busy; [exact HI|set_solver]|exact Hh|set_solver]. }
  rewrite (bind_done _ _ _ _ _ (load_done _ _ _ Hh1)). change (uv_streaming rl) with (uv_streaming r). rewrite Hs. cbn [when].
  unfold callback_locked. rewrite bind_assoc, (bind_done _ _ _ _ _ (Hm w1)), (proj2 (Z.eqb_neq _ _) Hpts), bind_assoc.
  rewrite (bind_done _ _ _ _ _ (load_done _ _ _ Hh1)), bind_assoc, (bind_done _ _ _ _ _ (Hlay w1)). cbv beta iota. rewrite bind_assoc.
  pose proof (inv_fresh _ _ _ HI1) as Hf0. pose proof (inv_fresh_none _ _ _ HI1) as Hnone.
  assert (Hcopy : frame_decodes rl = false -> size = fr_data_bytes frame).
  { intros Hfd. specialize (Hlay w). unfold frame_layout in Hlay. change (frame_decodes r) with (frame_decodes rl) in Hlay.
    rewrite Hfd in Hlay. by injection Hlay as _ <-. }
  eapply outcome_bind.
  { eapply (wp_and_if (memory_ok w1) _ _ (fun p _ => p <> NULL)).
    - apply (wp_allocator_alloc {[this]} ext ALLOCATION_SOURCE_COLOR size w1); [exact HI1|done|lia|lia].
    - intros Hmem. eapply wp_alloc_ok; [exact (memory_ok_lasts _ Hmem)|exact HI1|done|lia|lia]. }
  intros buffer w2 [[(-> & HI2 & Eh & _)|(-> & HI2 & Ef & _ & ctx & Eh)] Hok].
  - assert (Hmem : ~ memory_ok w) by (intros Hmem; by apply Hok).
    assert (HF : forall o, o = Fault UseAfterFree -> P o) by (intros o ->; exact (Hfault Hmem)). apply HF.
    rewrite bind_assoc. erewrite bind_done by done. rewrite bind_assoc. apply bind_fault, bind_fault.
    unfold allocator_free, read_header, get_state, mbind, M_bind.
    destruct (heap w2 !! (NULL - sizeof_allocation_context_t)) as [o|] eqn:Ho; [|done].
    apply (inv_range _ _ _ HI2) in Ho. unfold NULL, sizeof_allocation_context_t in Ho. lia.
  - assert (Htf : this <> fresh w1) by (intros E; destruct Hh1 as [_ Hh1]; rewrite E, Hnone in Hh1; discriminate).
    eapply (deliver_buffer w ext this rl frame m (fresh w1) (mkBlock (size + sizeof_allocation_context_t)
      (Some (mkAllocationContext ALLOCATION_SOURCE_COLOR (ag_free (current_allocator w1)) ctx)) []) stride size w2); try done; [|lia|].
    + split; [exact HI2| | | |].
      * split; [apply Hh|]. rewrite Eh, lookup_insert_ne by done. apply Hh1.
      * rewrite Eh. apply lookup_insert_eq.
      * cbn in Hnone. by rewrite lookup_insert_ne in Hnone.
      * intros x o Hx Hxt. rewrite Eh, lookup_insert_ne; [cbn; by rewrite lookup_insert_ne|].
        intros <-. cbn in Hnone. rewrite lookup_insert_ne in Hnone by done. cbn in Hx. congruence.
    + intros result image capture w3 Hc Hres. apply HP; [exact Hc|]. intros Hfd (Hc1 & Hc2 & _). by apply Hres.
Qed.

(** C14: a frame of a stream that is going.  The client is called exactly once,
    with the reader locked.  On success it gets a capture of which the reader
    holds the one reference, with a color image that has the format and size
    the stream was started with, the frame's layout and bytes, copied or
    decoded, in a buffer of its own, and the timestamps, exposure, gain and
    white balance of the frame's metadata; on failure it gets no capture and
    at most a buffer is lost.  After it the reader drops its references and
    the lock ([call_client]).  Copied frames are always delivered while memory
    lasts.  When there is no memory for the buffer the cleanup frees a null
    pointer, which reads in front of the zero page. *)
Theorem uvc_frame_callback (ext : ledger) (this : Z) (r : UVCCameraReader) (frame : uvc_frame_t)
    (m : frame_metadata_t) (stride size : Z) (w : world)
  (HI : Inv ∅ ext w) (Hh : has w this r) (Hl : uv_mutex r = LockFree) (Hs : uv_streaming r = true) (Hdec : DecoderOk)
  (Hw : sizes_ok r) (Hfm : bad_format (uv_output_image_format r) = false)
  (Hlen : fr_data_bytes frame <= Z.of_nat (length (fr_data frame)))
  (Hm : forall w, parse_metadata (fr_metadata frame) (fr_metadata_bytes frame) w = Done m w) (Hpts : md_framePTS m <> 0)
  (Hlay : forall w, frame_layout r frame w = Done (stride, size) w)
  (Hsize : 0 < size <= INT32_MAX - sizeof_allocation_context_t) :
  (Callback this (Some frame) w = Fault UseAfterFree /\ ~ memory_ok w) \/
  exists result image capture w1,
    Callback this (Some frame) w = call_client this result image capture w1 /\
    client_called w ext this (r <| uv_mutex := LockHeld |>) frame m stride size result image capture w1 /\
    (frame_decodes r = false -> memory_ok w -> result = ZSA_RESULT_SUCCEEDED).
Proof.
  apply (callback_case ext this r frame m stride size); [by split|by left|].
  intros result image capture w1 Hc Hok. right. by exists result, image, capture, w1.
Qed.
End frames.

(** * A frame of a sample stream *)

(** A stream of two pixels, its client, and a frame. *)
Definition streaming_reader : UVCCameraReader :=
  sample_uvc_reader <| uv_streaming := true |> <| uv_width_pixels := 2 |> <| uv_height_pixels := 1 |>
    <| uv_input_image_format := ZSA_IMAGE_FORMAT_COLOR_YUY2 |> <| uv_output_image_format := ZSA_IMAGE_FORMAT_COLOR_YUY2 |>
    <| uv_pCallback := stream_callback 1 |> <| uv_pCallbackContext := 99 |>.
Definition streaming_world : world := add_object (MUvc streaming_reader) init_world.
#[export] Instance idle_client : ReaderClient := fun _ _ _ _ => mret tt.
Definition sample_yuy2_frame : uvc_frame_t := mkUvcFrame [1; 2; 3; 4] 4 2 1 4 (items_bytes sample_items) 124 1 500.

Lemma remembering_decoder : DecoderOk.
Proof.
  intros t d input width height. cbn. intros Hw Hh. rewrite length_replicate. nia.
Qed.

Lemma uvc_frame_callback_witness :
  exists image capture w1, Callback 1 (Some sample_yuy2_frame) streaming_world =
      call_client 1 ZSA_RESULT_SUCCEEDED image capture w1 /\
    delivered streaming_world no_refs 1 (streaming_reader <| uv_mutex := LockHeld |>) sample_yuy2_frame
      (mkMetadata 90000 8333 200 0) 4 4 image capture w1.
Proof.
  assert (Hm : forall w, parse_metadata (fr_metadata sample_yuy2_frame) (fr_metadata_bytes sample_yuy2_frame) w = Done (mkMetadata 90000 8333 200 0) w)
    by (intros w; vm_compute; reflexivity).
  destruct (uvc_frame_callback no_refs 1 streaming_reader sample_yuy2_frame (mkMetadata 90000 8333 200 0) 4 4 streaming_world)
    as [[_ Hbad]|(result & image & capture & w1 & E & (_ & _ & Hc) & Hok)].
  - apply inv_add_module; [exact inv_init|reflexivity|discriminate].
  - split; [discriminate|reflexivity].
  - reflexivity.
  - reflexivity.
  - exact remembering_decoder.
  - vm_compute. intuition discriminate.
  - reflexivity.
  - vm_compute. discriminate.
  - exact Hm.
  - discriminate.
  - reflexivity.
  - vm_compute. intuition discriminate.
  - destruct Hbad. split; [reflexivity|split; reflexivity].
  - assert (result = ZSA_RESULT_SUCCEEDED) as ->.
    { apply Hok; [reflexivity|]. split; [reflexivity|split; reflexivity]. }
    exists image, capture, w1. split; [exact E|exact Hc].
Defined.
