(* ===== verification/UvcLife.v ===== *)
(** src/color/uvc_camerareader.cpp: the life of a reader, as an automaton with
    three states, and the resources of libuvc that it holds. *)

From S2P Require Export UvcFrame.

(** * Resources, counted from the trace *)

Inductive uvc_res : Set := RContext (ctx : Z) | RDevice (dev : Z) | RHandle (handle : Z) | RStream (handle : Z) | RDecoder (decoder : Z).
#[export] Instance uvc_res_eq_dec : EqDecision uvc_res.
Proof. solve_decision. Defined.

Definition uvc_acquired (e : uvc_event) : list uvc_res :=
  match e with
  | V_init err ctx => if err <? 0 then [] else [RContext ctx]
  | V_find_device _ _ _ err dev => if err <? 0 then [] else [RDevice dev]
  | V_open _ err handle => if err <? 0 then [] else [RHandle handle]
  | V_start_streaming handle err => if err <? 0 then [] else [RStream handle]
  | V_decoder_init d => if d =? NULL then [] else [RDecoder d]
  | _ => []
  end.
Definition uvc_returned (e : uvc_event) : list uvc_res :=
  match e with
  | V_exit ctx => [RContext ctx]
  | V_unref_device dev => [RDevice dev]
  | V_close handle => [RHandle handle]
  | V_stop_streaming handle => [RStream handle]
  | V_decoder_destroy d => [RDecoder d]
  | _ => []
  end.

Definition count_res (x : uvc_res) (l : list uvc_res) : Z := Z.of_nat (length (filter (fun y => y = x) l)).

(** How many of [x] were handed out and not given back. *)
Fixpoint uvc_live (t : list event) (x : uvc_res) : Z :=
  match t with
  | [] => 0
  | EUvc e :: t => count_res x (uvc_acquired e) - count_res x (uvc_returned e) + uvc_live t x
  | _ :: t => uvc_live t x
  end.

Lemma uvc_live_app t1 t2 x : uvc_live (t1 ++ t2) x = uvc_live t1 x + uvc_live t2 x.
Proof. induction t1 as [|[] t1 IH]; cbn; rewrite ?IH; lia. Qed.

Lemma uvc_live_snoc t e x :
  uvc_live (t ++ [EUvc e]) x = uvc_live t x + count_res x (uvc_acquired e) - count_res x (uvc_returned e).
Proof. rewrite uvc_live_app. cbn. lia. Qed.

Lemma count_res_app x l1 l2 : count_res x (l1 ++ l2) = count_res x l1 + count_res x l2.
Proof. unfold count_res. rewrite filter_app, length_app. lia. Qed.

Lemma count_res_nil x : count_res x [] = 0.
Proof. done. Qed.

Lemma count_res_cons x a l : count_res x (a :: l) = (if decide (a = x) then 1 else 0) + count_res x l.
Proof. unfold count_res. rewrite filter_cons. case_decide; cbn [length]; lia. Qed.

Ltac res := cbn; rewrite ?count_res_app, ?count_res_cons, ?count_res_nil; lia.

(** What a reader holds, by its members. *)
Definition held_if (b : bool) (x : uvc_res) : list uvc_res := if b then [x] else [].
Definition reader_holds (r : UVCCameraReader) : list uvc_res :=
  held_if (negb (uv_pContext r =? NULL)) (RContext (uv_pContext r)) ++
  held_if (negb (uv_pDevice r =? NULL)) (RDevice (uv_pDevice r)) ++
  held_if (negb (uv_pDeviceHandle r =? NULL)) (RHandle (uv_pDeviceHandle r)) ++
  held_if (uv_streaming r) (RStream (uv_pDeviceHandle r)) ++
  held_if (negb (uv_decoder r =? NULL)) (RDecoder (uv_decoder r)).

(** * The automaton *)

Inductive reader_state : Set := Closed | Opened | Streaming.
#[export] Instance reader_state_eq_dec : EqDecision reader_state.
Proof. solve_decision. Defined.

Definition reader_at (st : reader_state) (r : UVCCameraReader) : Prop :=
  uv_mutex r = LockFree /\
  match st with
  | Closed => uv_pContext r = NULL /\ uv_pDevice r = NULL /\ uv_pDeviceHandle r = NULL /\ uv_streaming r = false
  | Opened => IsInitialized r = true /\ uv_streaming r = false
  | Streaming => IsInitialized r = true /\ uv_streaming r = true /\ uv_pCallback r <> stream_callback_null /\
                 uv_pCallbackContext r <> NULL
  end.

Inductive reader_op : Type :=
| O_Init (serialNumber : option (list Z))
| O_Start (width height fps imageFormat : Z) (pCallback : color_cb_stream_t) (pCallbackContext : Z)
| O_Stop
| O_Shutdown
| O_GetCapabilities (command : Z) (capabilities : option color_control_cap_t)
| O_Get (command : Z) (mode pValue : option Z)
| O_Set (command mode newValue : Z).

(** Which calls may succeed, and where they lead. *)
Inductive reader_step : reader_state -> reader_op -> zsa_result_t -> reader_state -> Prop :=
| step_init serial : reader_step Closed (O_Init serial) ZSA_RESULT_SUCCEEDED Opened
| step_start w h fps format cb ctx :
    is_Some (start_format format) -> cb <> stream_callback_null -> ctx <> NULL ->
    reader_step Opened (O_Start w h fps format cb ctx) ZSA_RESULT_SUCCEEDED Streaming
| step_stop st : reader_step st O_Stop ZSA_RESULT_SUCCEEDED (match st with Streaming => Opened | _ => st end)
| step_shutdown st : reader_step st O_Shutdown ZSA_RESULT_SUCCEEDED Closed
| step_capabilities st command cap : reader_step st (O_GetCapabilities command cap) ZSA_RESULT_SUCCEEDED st
| step_get st command m v : st <> Closed -> reader_step st (O_Get command m v) ZSA_RESULT_SUCCEEDED st
| step_set st command m v : st <> Closed -> reader_step st (O_Set command m v) ZSA_RESULT_SUCCEEDED st
| step_failed st op : op <> O_Stop -> op <> O_Shutdown -> reader_step st op ZSA_RESULT_FAILED st.

(** * What every call keeps *)

Section life.
Context `{Platform} `{Uvc} `{ReaderClient}.
Implicit Types (w : world) (r : UVCCameraReader) (l : list uvc_res) (base : uvc_res -> Z).

(** What is relied on in libuvc: what it hands out on success is not null, and
    uvc_stop_streaming returns when the callbacks that it still runs are
    done. *)
Class UvcOk (this : Z) : Prop := {
  uvc_init_ok : forall t, let '(err, ctx) := uvc_init_answer t in (err <? 0) = false -> ctx <> NULL;
  uvc_find_ok : forall t ctx vid pid serial,
    let '(err, dev) := uvc_find_device_answer t ctx vid pid serial in (err <? 0) = false -> dev <> NULL;
  uvc_open_ok : forall t dev, let '(err, handle) := uvc_open_answer t dev in (err <? 0) = false -> handle <> NULL;
  uvc_stop_runs : forall n w, exists frames : list (option uvc_frame_t),
    uvc_stop_streaming_others n w = final (for_each frames (fun frame => UVCFrameCallback frame this)) w
}.

(** The reader at [this] is [r]; since the beginning libuvc has handed out [l]
    more than it got back. *)
Record holding (base : uvc_res -> Z) (ext : ledger) (this : Z) l r w : Prop := mkHolding {
  ho_inv : Inv {[this]} ext w;
  ho_has : has w this r;
  ho_live : forall x, uvc_live (trace w) x = base x + count_res x l
}.

Lemma holding_update base ext this l r r' w :
  holding base ext this l r w -> holding base ext this l r' (w <| heap := <[this := to_obj r']> (heap w) |>).
Proof.
  intros [HI Hh Hl]. split; [|by apply has_stored, Hh|exact Hl]. eapply inv_reader; [exact HI|exact Hh|set_solver].
Qed.

Lemma holding_event base ext this l l' r w e :
  holding base ext this l r w ->
  (forall x, count_res x l' = count_res x l + count_res x (uvc_acquired e) - count_res x (uvc_returned e)) ->
  holding base ext this l' r (w <| trace := trace w ++ [EUvc e] |>).
Proof.
  intros [HI Hh Hl] He. split; [by apply inv_trace|exact Hh|]. intros x. cbn. rewrite uvc_live_snoc, Hl, He. lia.
Qed.

(** A reader whose lock is free is not being worked on. *)
Lemma inv_reader_idle ext this r w : Inv {[this]} ext w -> has w this r -> uv_mutex r <> LockHeld -> Inv ∅ ext w.
Proof.
  intros [Ha Hp Hr Hi Hb Hg Hf] [_ Hh] Hm. split; try done; intros x o Ho _;
    (destruct (decide (x = this)) as [->|Hx]; [rewrite Hh in Ho; by injection Ho as <-|]).
  - apply (Hp x o Ho). set_solver.
  - apply (Hi x o Ho). set_solver.
Qed.

Lemma wp_uvc_call {A} (answer : list event -> A) log w (Q : A -> world -> Prop) :
  Q (answer (trace w)) (w <| trace := trace w ++ [EUvc (log (answer (trace w)))] |>) -> wp (uvc_call answer log) Q w.
Proof. done. Qed.

(** A resource that is given back if it is there. *)
Lemma wp_give_back base ext this (get : UVCCameraReader -> Z) (ev : Z -> uvc_event) (mk : Z -> uvc_res)
    (clear : UVCCameraReader -> UVCCameraReader) l l' r w (Q : unit -> world -> Prop) :
  holding base ext this l r w -> (forall x, uvc_acquired (ev x) = [] /\ uvc_returned (ev x) = [mk x]) ->
  (forall x, count_res x l = count_res x (held_if (negb (get r =? NULL)) (mk (get r))) + count_res x l') ->
  (get r = NULL -> clear r = r) ->
  (forall w', holding base ext this l' (clear r) w' -> Q tt w') ->
  wp (when (negb (get r =? NULL)) (uvc_note (ev (get r));; update this clear)) Q w.
Proof.
  intros Hh Hev Hl Hc HQ. destruct (Z.eqb_spec (get r) NULL) as [E|E]; cbn [negb when held_if] in *.
  - apply wp_ret, HQ. rewrite Hc by done. destruct Hh as [HI Hh Hb]. split; [exact HI|exact Hh|].
    intros x. rewrite Hb, Hl. res.
  - apply wp_bind, wp_uvc_call. set (w1 := w <| trace := _ |>).
    assert (Hh1 : holding base ext this l' r w1).
    { eapply holding_event; [exact Hh|]. intros x. destruct (Hev (get r)) as [-> ->]. rewrite Hl. res. }
    eapply wp_update; [apply Hh1|]. by eapply HQ, holding_update.
Qed.

(** ** Stopping *)

Lemma callbacks_not_streaming this r w (frames : list (option uvc_frame_t)) :
  has w this r -> uv_mutex r = LockFree -> uv_streaming r = false ->
  for_each frames (fun frame => UVCFrameCallback frame this) w = Done tt w.
Proof.
  intros Hh Hl Hs. induction frames as [|f frames IH]; [done|]. cbn [for_each].
  rewrite (bind_done _ _ _ tt w); [exact IH|]. unfold UVCFrameCallback.
  destruct (_ && _); [by eapply callback_not_streaming|done].
Qed.

Definition stopped r : UVCCameraReader :=
  if uv_streaming r
  then r <| uv_streaming := false |> <| uv_pCallback := stream_callback_null |> <| uv_pCallbackContext := NULL |> else r.

(** Frames that libuvc still delivers while the stream is being stopped find
    the lock free, and nothing to do. *)
Lemma wp_Stop base ext this r w (Q : unit -> world -> Prop) :
  UvcOk this -> holding base ext this (reader_holds r) r w -> uv_mutex r = LockFree ->
  (forall w', holding base ext this (reader_holds (stopped r)) (stopped r) w' -> Q tt w') -> wp (Stop this) Q w.
Proof.
  intros Hok Hh Hl HQ. unfold Stop. apply wp_bind. eapply wp_Lock; [apply Hh|by rewrite Hl|].
  set (w1 := w <| heap := _ |>).
  assert (Hh1 : holding base ext this (reader_holds r) (r <| uv_mutex := LockHeld |>) w1) by (by eapply holding_update).
  apply wp_bind. eapply wp_load; [apply Hh1|]. cbn [uv_streaming update_field]. unfold stopped in *.
  destruct (uv_streaming r) eqn:Hs.
  - apply wp_bind. eapply wp_update; [apply Hh1|]. set (w2 := w1 <| heap := _ |>).
    assert (Hh2 : holding base ext this (reader_holds r) _ w2) by exact (holding_update _ _ _ _ _ _ _ Hh1).
    apply wp_bind. eapply wp_Unlock; [apply Hh2|]. set (r3 := update_field uv_mutex _ _). set (w3 := w2 <| heap := _ |>).
    assert (Hh3 : holding base ext this (reader_holds r) r3 w3) by exact (holding_update _ _ _ _ _ _ _ Hh2).
    assert (E3 : r3 = r <| uv_streaming := false |> <| uv_pCallback := stream_callback_null |> <| uv_pCallbackContext := NULL |>).
    { unfold r3. destruct r; cbn in *; by subst. }
    apply wp_bind. eapply wp_load; [apply Hh3|]. rewrite E3 in *. set (r' := _ <| uv_pCallbackContext := NULL |>) in *.
    unfold uvc_stop_streaming. apply wp_bind, wp_uvc_call. set (w4 := w3 <| trace := _ |>).
    assert (Hh4 : holding base ext this (reader_holds r') r' w4).
    { eapply holding_event; [exact Hh3|]. intros x. unfold reader_holds, r'. cbn [uvc_acquired uvc_returned].
      rewrite Hs. cbn [uv_streaming uv_pContext uv_pDevice uv_pDeviceHandle uv_decoder update_field held_if].
      res. }
    unfold wp, uvc_stop_others. destruct (uvc_stop_runs (tick w4) w4) as [frames ->].
    unfold final. rewrite (callbacks_not_streaming this r' w4 frames (ho_has _ _ _ _ _ _ Hh4)) by (cbn; done).
    apply HQ. destruct Hh4 as [HI4 Hh4 Hl4]. split; [by apply inv_tick|exact Hh4|exact Hl4].
  - eapply wp_Unlock; [apply Hh1|]. apply HQ. 
    replace (reader_holds r) with (reader_holds r) by done. eapply holding_update in Hh1.
    replace r with (update_field uv_mutex (lock_release (uv_mutex (r <| uv_mutex := LockHeld |>))) (r <| uv_mutex := LockHeld |>)) at 2; [exact Hh1|].
    destruct r; cbn in *; by subst.
Qed.

(** ** Shutting down *)

Definition closed_reader r : UVCCameraReader :=
  (stopped r) <| uv_pDeviceHandle := NULL |> <| uv_pDevice := NULL |> <| uv_pContext := NULL |> <| uv_decoder := NULL |>.

Lemma closed_reader_holds r : reader_holds (closed_reader r) = [].
Proof. unfold reader_holds, closed_reader, stopped. by destruct (uv_streaming r) eqn:Hs; cbn; rewrite ?Hs. Qed.

Lemma wp_Shutdown base ext this r w (Q : unit -> world -> Prop) :
  UvcOk this -> holding base ext this (reader_holds r) r w -> uv_mutex r = LockFree ->
  (forall w', holding base ext this [] (closed_reader r) w' -> Q tt w') -> wp (Shutdown this) Q w.
Proof.
  intros Hok Hh Hl HQ. unfold Shutdown. apply wp_bind. eapply wp_Stop; [done|exact Hh|done|].
  assert (Hs0 : uv_streaming (stopped r) = false) by (unfold stopped; by destruct (uv_streaming r) eqn:E).
  unfold closed_reader in HQ. clear Hh. set (r0 := stopped r) in *. intros w0 Hh0.
  unfold reader_holds in Hh0. rewrite Hs0 in Hh0. cbn [held_if app] in Hh0.
  apply wp_bind. eapply wp_load; [apply Hh0|]. apply wp_bind.
  eapply (wp_give_back base ext this uv_pDeviceHandle V_close RHandle _ _
    (held_if (negb (uv_pContext r0 =? NULL)) (RContext (uv_pContext r0)) ++
     held_if (negb (uv_pDevice r0 =? NULL)) (RDevice (uv_pDevice r0)) ++
     held_if (negb (uv_decoder r0 =? NULL)) (RDecoder (uv_decoder r0)))
    r0 w0); [exact Hh0|done|intros x; rewrite !count_res_app; lia|by destruct r0; cbn; intros ->|].
  set (r1 := r0 <| uv_pDeviceHandle := NULL |>). intros w1 Hh1.
  apply wp_bind. eapply wp_load; [apply Hh1|]. apply wp_bind.
  eapply (wp_give_back base ext this uv_pDevice V_unref_device RDevice _ _
    (held_if (negb (uv_pContext r0 =? NULL)) (RContext (uv_pContext r0)) ++ held_if (negb (uv_decoder r0 =? NULL)) (RDecoder (uv_decoder r0)))
    r1 w1); [exact Hh1|done|intros x; rewrite !count_res_app; change (uv_pDevice r1) with (uv_pDevice r0); lia|by destruct r0; cbn; intros ->|].
  set (r2 := r1 <| uv_pDevice := NULL |>). intros w2 Hh2.
  apply wp_bind. eapply wp_load; [apply Hh2|]. apply wp_bind.
  eapply (wp_give_back base ext this uv_pContext V_exit RContext _ _
    (held_if (negb (uv_decoder r0 =? NULL)) (RDecoder (uv_decoder r0))) r2 w2);
    [exact Hh2|done|intros x; rewrite !count_res_app; change (uv_pContext r2) with (uv_pContext r0); lia|by destruct r0; cbn; intros ->|].
  set (r3 := r2 <| uv_pContext := NULL |>). intros w3 Hh3.
  apply wp_bind. eapply wp_load; [apply Hh3|].
  eapply (wp_give_back base ext this uv_decoder V_decoder_destroy RDecoder _ _ [] r3 w3);
    [exact Hh3|done|intros x; rewrite count_res_nil; change (uv_decoder r3) with (uv_decoder r0); lia|by destruct r0; cbn; intros ->|].
  exact HQ.
Qed.

(** ** Opening *)

(** The reader between two calls. *)
Definition reader_ok base ext this (st : reader_state) r w : Prop :=
  holding base ext this (reader_holds r) r w /\ reader_at st r.

(** How a call may end. *)
Definition moved base ext this (st : reader_state) (op : reader_op) (res : zsa_result_t) w : Prop :=
  exists st' r, reader_ok base ext this st' r w /\ reader_step st op res st'.

Lemma holding_same base ext this l l' r w :
  holding base ext this l r w -> (forall x, count_res x l' = count_res x l) -> holding base ext this l' r w.
Proof. intros [HI Hh Hl] He. split; [exact HI|exact Hh|]. intros x. by rewrite Hl, He. Qed.

Lemma closed_reader_at r : uv_mutex r = LockFree -> reader_at Closed (closed_reader r).
Proof. intros Hl. unfold closed_reader, stopped. by destruct (uv_streaming r) eqn:Hs; cbn; rewrite ?Hs. Qed.

Lemma closed_ok base ext this r w :
  holding base ext this [] (closed_reader r) w -> uv_mutex r = LockFree -> reader_ok base ext this Closed (closed_reader r) w.
Proof. intros Hh Hl. split; [by rewrite closed_reader_holds|by apply closed_reader_at]. Qed.

Lemma reader_at_initialized st r : reader_at st r -> IsInitialized r = match st with Closed => false | _ => true end.
Proof. intros [_ Hs]. destruct st; [destruct Hs as (E & _)|apply Hs..]. unfold IsInitialized. by rewrite E. Qed.

Lemma reader_at_mutex st r : reader_at st r -> uv_mutex r = LockFree.
Proof. by intros [? _]. Qed.

(** A failure in the middle of Init. *)
Lemma wp_init_fails base ext this serial r w :
  UvcOk this -> holding base ext this (reader_holds r) r w -> uv_mutex r = LockFree ->
  wp (Shutdown this;; mret ZSA_RESULT_FAILED) (moved base ext this Closed (O_Init serial)) w.
Proof.
  intros Hok Hh Hl. apply wp_bind. eapply wp_Shutdown; [done|exact Hh|done|]. intros w' Hh'. apply wp_ret.
  exists Closed, (closed_reader r). split; [by apply closed_ok|by constructor].
Qed.

Lemma wp_Init base ext this st serial r w :
  UvcOk this -> reader_ok base ext this st r w -> wp (Init this serial) (moved base ext this st (O_Init serial)) w.
Proof.
  intros Hok [Hh Hat]. pose proof (reader_at_mutex _ _ Hat) as Hl. pose proof (reader_at_initialized _ _ Hat) as Hi.
  unfold Init. apply wp_bind. eapply wp_load; [apply Hh|]. rewrite Hi.
  destruct st; [|(apply wp_ret; eexists _, r; split; [by split|by constructor])..].
  apply wp_bind. eapply wp_Shutdown; [done|exact Hh|done|]. clear Hh Hi Hat. set (r0 := closed_reader r). intros w0 Hh0.
  assert (Hf0 : uv_mutex r0 = LockFree) by exact (reader_at_mutex _ _ (closed_reader_at r Hl)).
  apply wp_bind, wp_uvc_call. pose proof (uvc_init_ok (trace w0)) as Hctx. destruct (uvc_init_answer (trace w0)) as [err ctx].
  cbv beta iota. destruct (err <? 0) eqn:E1.
  { apply wp_ret. exists Closed, r0. split; [|by constructor]. apply closed_ok; [|done]. eapply holding_event; [exact Hh0|].
    intros x. cbn. rewrite E1. res. }
  specialize (Hctx eq_refl). apply Z.eqb_neq in Hctx.
  set (w1 := w0 <| trace := _ |>).
  assert (Hh1 : holding base ext this [RContext ctx] r0 w1).
  { eapply holding_event; [exact Hh0|]. intros x. cbn. rewrite E1. res. }
  apply wp_bind. eapply wp_update; [apply Hh1|]. set (r1 := r0 <| uv_pContext := ctx |>).
  apply holding_update with (r' := r1) in Hh1. set (w2 := w1 <| heap := _ |>) in *.
  apply wp_bind, wp_uvc_call. pose proof (uvc_find_ok (trace w2) ctx COLOR_CAMERA_VID COLOR_CAMERA_PID serial) as Hdev.
  destruct (uvc_find_device_answer _ _ _ _ _) as [err2 dev]. cbv beta iota. set (w3 := w2 <| trace := _ |>).
  assert (Hr1 : reader_holds r1 = [RContext ctx]).
  { unfold reader_holds, r1, r0, closed_reader, stopped. by destruct (uv_streaming r) eqn:Hs; cbn; rewrite ?Hs, ?Hctx. }
  destruct (err2 <? 0) eqn:E2.
  { eapply (wp_init_fails _ _ _ _ r1); [done| |exact Hf0]. rewrite Hr1. eapply holding_event; [exact Hh1|]. intros x. cbn. rewrite E2. res. }
  specialize (Hdev eq_refl). apply Z.eqb_neq in Hdev.
  assert (Hh3 : holding base ext this [RContext ctx; RDevice dev] r1 w3).
  { eapply holding_event; [exact Hh1|]. intros x. cbn. rewrite E2. res. }
  apply wp_bind. eapply wp_update; [apply Hh3|]. set (r2 := r1 <| uv_pDevice := dev |>).
  apply holding_update with (r' := r2) in Hh3. set (w4 := w3 <| heap := _ |>) in *.
  apply wp_bind, wp_uvc_call. pose proof (uvc_open_ok (trace w4) dev) as Hhd.
  destruct (uvc_open_answer _ _) as [err3 handle]. cbv beta iota. set (w5 := w4 <| trace := _ |>).
  assert (Hr2 : reader_holds r2 = [RContext ctx; RDevice dev]).
  { unfold reader_holds, r2, r1, r0, closed_reader, stopped. by destruct (uv_streaming r) eqn:Hs; cbn; rewrite ?Hs, ?Hctx, ?Hdev. }
  destruct (err3 <? 0) eqn:E3.
  { eapply (wp_init_fails _ _ _ _ r2); [done| |exact Hf0]. rewrite Hr2. eapply holding_event; [exact Hh3|]. intros x. cbn. rewrite E3. res. }
  specialize (Hhd eq_refl). apply Z.eqb_neq in Hhd.
  assert (Hh5 : holding base ext this [RContext ctx; RDevice dev; RHandle handle] r2 w5).
  { eapply holding_event; [exact Hh3|]. intros x. cbn. rewrite E3. res. }
  apply wp_bind. eapply wp_update; [apply Hh5|]. apply wp_ret. set (r3 := r2 <| uv_pDeviceHandle := handle |>).
  assert (Hs3 : uv_streaming r3 = false) by (unfold r3, r2, r1, r0, closed_reader, stopped; by destruct (uv_streaming r) eqn:Hs; cbn).
  exists Opened, r3. split; [split|by constructor].
  - replace (reader_holds r3) with [RContext ctx; RDevice dev; RHandle handle]; [by eapply holding_update|].
    unfold reader_holds, r3, r2, r1, r0, closed_reader, stopped. by destruct (uv_streaming r) eqn:Hs; cbn; rewrite ?Hs, ?Hctx, ?Hdev, ?Hhd.
  - split; [exact Hf0|]. split; [|exact Hs3]. unfold IsInitialized. cbn. by rewrite Hctx, Hdev, Hhd.
Qed.

(** ** Starting *)

(** What start_locked leaves of an open reader that does not stream: the same
    resources, and the stream when it succeeded. *)
Definition start_post base ext this r (format : Z) (cb : color_cb_stream_t) (ctx : Z) (res : zsa_result_t) w : Prop :=
  exists r', holding base ext this (reader_holds r') r' w /\ uv_mutex r' = uv_mutex r /\
    IsInitialized r' = IsInitialized r /\
    match res with
    | ZSA_RESULT_FAILED => uv_streaming r' = uv_streaming r /\ (uv_streaming r = true \/ IsInitialized r = false -> r' = r)
    | ZSA_RESULT_SUCCEEDED => is_Some (start_format format) /\ IsInitialized r = true /\ uv_streaming r = false /\
        uv_streaming r' = true /\ uv_pCallback r' = cb /\ uv_pCallbackContext r' = ctx
    end.

Lemma wp_start_locked base ext this width height fps format cb ctx r w0 :
  holding base ext this (reader_holds r) r w0 ->
  wp (start_locked this width height fps format cb ctx) (start_post base ext this r format cb ctx) w0.
Proof.
  intros Hh. assert (Hsame : start_post base ext this r format cb ctx ZSA_RESULT_FAILED w0) by (by exists r).
  unfold start_locked. apply wp_bind. eapply wp_load; [apply Hh|].
  destruct (IsInitialized r) eqn:Hi; cbn [negb]; [|by apply wp_ret].
  destruct (uv_streaming r) eqn:Hs; [by apply wp_ret|].
  destruct (start_format format) as [[input ff]|] eqn:Hf; [|by apply wp_ret]. clear Hsame.
  apply wp_bind. eapply wp_update; [apply Hh|]. set (r1 := r <| uv_output_image_format := _ |> <| uv_input_image_format := _ |> <| uv_width_pixels := _ |> <| uv_height_pixels := _ |>).
  assert (Hr1 : reader_holds r1 = reader_holds r) by done.
  apply holding_update with (r' := r1) in Hh. set (w1 := w0 <| heap := _ |>) in *. cbv zeta.
  apply wp_bind, wp_uvc_call. set (res1 := uvc_get_stream_ctrl_format_size_answer _ _ _ _ _ _). set (w2 := w1 <| trace := _ |>).
  assert (Hh2 : holding base ext this (reader_holds r) r1 w2) by (eapply holding_event; [exact Hh|]; intros x; res).
  destruct (res1 <? 0); [apply wp_ret; exists r1; split_and!; [done..|]; intros [E|E]; congruence|].
  apply wp_bind. eapply wp_update; [apply Hh2|]. set (r2 := r1 <| uv_pCallback := _ |> <| uv_pCallbackContext := _ |>).
  apply holding_update with (r' := r2) in Hh2. set (w3 := w2 <| heap := _ |>) in *.
  apply wp_bind, wp_uvc_call. set (res2 := uvc_start_streaming_answer _ _). set (w4 := w3 <| trace := _ |>).
  destruct (res2 <? 0) eqn:E2.
  - assert (Hh4 : holding base ext this (reader_holds r) r2 w4) by (eapply holding_event; [exact Hh2|]; intros x; cbn; rewrite E2; res).
    apply wp_bind. eapply wp_update; [apply Hh4|]. apply wp_ret. eexists. split; [by eapply holding_update|]. split_and!; [done..|]. intros [E|E]; congruence.
  - apply wp_bind. eapply wp_update; [apply Hh2|]. apply wp_ret. set (r3 := r2 <| uv_streaming := true |>). exists r3. split_and!; try done.
    eapply holding_update. eapply holding_event; [exact Hh2|]. intros x. unfold reader_holds. rewrite Hs. cbn. rewrite E2. res.
Qed.

Lemma wp_Start base ext this st width height fps format cb ctx r w0 :
  reader_ok base ext this st r w0 ->
  wp (Start this width height fps format cb ctx) (moved base ext this st (O_Start width height fps format cb ctx)) w0.
Proof.
  intros [Hh Hat]. pose proof (reader_at_mutex _ _ Hat) as Hl. pose proof (reader_at_initialized _ _ Hat) as Hi.
  assert (Hfail : moved base ext this st (O_Start width height fps format cb ctx) ZSA_RESULT_FAILED w0).
  { exists st, r. split; [by split|by constructor]. }
  unfold Start. destruct cb as [|id]; [by apply wp_ret|]. destruct (Z.eqb_spec ctx NULL) as [|Hctx]; [by apply wp_ret|]. clear Hfail.
  apply wp_bind. eapply wp_Lock; [apply Hh|by rewrite Hl|].
  set (rl := update_field uv_mutex LockHeld r). apply holding_update with (r' := rl) in Hh.
  change (reader_holds r) with (reader_holds rl) in Hh.
  eapply wp_call; [by apply wp_start_locked|]. intros res w1 (r1 & Hh1 & Hm1 & Hi1 & Hres).
  apply wp_bind. eapply wp_Unlock; [apply Hh1|]. change (uv_mutex rl) with LockHeld in Hm1. rewrite Hm1.
  change (IsInitialized rl) with (IsInitialized r) in *. change (uv_streaming rl) with (uv_streaming r) in Hres.
  apply wp_ret. set (r2 := update_field uv_mutex (lock_release LockHeld) r1).
  apply holding_update with (r' := r2) in Hh1. change (reader_holds r1) with (reader_holds r2) in Hh1.
  change (IsInitialized r1) with (IsInitialized r2) in Hi1. destruct res.
  - destruct Hres as (Hf & Hir & Hsr & Hs1 & Hc1 & Hx1). exists Streaming, r2. split; [split; [exact Hh1|]|].
    + split; [done|]. split_and!; [by rewrite Hi1|exact Hs1|cbn; by rewrite Hc1|cbn; by rewrite Hx1].
    + destruct st; [congruence|by constructor|]. destruct Hat as (_ & _ & E & _). congruence.
  - destruct Hres as [Hs1 Hsame]. exists st, r2. split; [split; [exact Hh1|]|by constructor]. split; [done|].
    destruct Hat as [_ Hat]. destruct st.
    + specialize (Hsame (or_intror Hi)). by subst r1.
    + split; [by rewrite Hi1|]. cbn. rewrite Hs1. apply Hat.
    + destruct Hat as (E1 & E2 & E3 & E4). specialize (Hsame (or_introl E2)). by subst r1.
Qed.

(** ** Controls *)

Definition overflow (f : fault) : Prop := f = SignedOverflow.

Lemma reader_ok_event base ext this st r w e :
  reader_ok base ext this st r w -> uvc_acquired e = [] -> uvc_returned e = [] ->
  reader_ok base ext this st r (w <| trace := trace w ++ [EUvc e] |>).
Proof.
  intros [Hh Hat] Ha Hr. split; [|exact Hat]. eapply holding_event; [exact Hh|]. intros x. rewrite Ha, Hr. res.
Qed.

Lemma wp_get_or {A} base ext this st r (fail : A) handle c req next (Q : A -> world -> Prop) w :
  reader_ok base ext this st r w -> (forall w', reader_ok base ext this st r w' -> Q fail w') ->
  (forall x w', reader_ok base ext this st r w' -> wp_or overflow (next x) Q w') ->
  wp_or overflow (get_or fail handle c req next) Q w.
Proof.
  intros Hok Hf Hn. unfold get_or, uvc_get, uvc_call. unfold wp_or, mbind, M_bind. destruct (uvc_get_answer _ _ _ _) as [err x]. cbn.
  assert (Hok' : reader_ok base ext this st r (w <| trace := trace w ++ [EUvc (V_get handle c req err x)] |>)) by (by apply reader_ok_event).
  destruct (err <? 0); [by apply Hf|by apply Hn].
Qed.

Lemma wp_get_range {A} base ext this st r (fail : A) handle c next (Q : A -> world -> Prop) w :
  reader_ok base ext this st r w -> (forall w', reader_ok base ext this st r w' -> Q fail w') ->
  (forall min max step def w', reader_ok base ext this st r w' -> wp_or overflow (next min max step def) Q w') ->
  wp_or overflow (get_range fail handle c next) Q w.
Proof. intros Hok Hf Hn. do 4 (eapply wp_get_or; [eassumption|exact Hf|]; intros). by apply Hn. Qed.

Lemma wp_set_or base ext this st r handle c x next (Q : zsa_result_t -> world -> Prop) w :
  reader_ok base ext this st r w -> (forall w', reader_ok base ext this st r w' -> Q ZSA_RESULT_FAILED w') ->
  (forall w', reader_ok base ext this st r w' -> wp_or overflow next Q w') -> wp_or overflow (set_or handle c x next) Q w.
Proof.
  intros Hok Hf Hn. unfold set_or, uvc_set, uvc_call. unfold wp_or, mbind, M_bind. set (err := uvc_set_answer _ _ _ _). cbn.
  assert (Hok' : reader_ok base ext this st r (w <| trace := trace w ++ [EUvc (V_set handle c (uvc_value c x) err)] |>)) by (by apply reader_ok_event).
  destruct (err <? 0); [by apply Hf|by apply Hn].
Qed.

Lemma wp_need_exposure {B} r x (f : Z -> Mw B) (Q : B -> world -> Prop) w :
  (forall v, wp_or overflow (f v) Q w) -> wp_or overflow (v ← need SignedOverflow (MapLinuxExposureToK4a r x); f v) Q w.
Proof. intros Hf. destruct (MapLinuxExposureToK4a r x); [apply Hf|done]. Qed.

Ltac controls := repeat first
  [ eapply wp_get_range; [eassumption| |]; intros
  | eapply wp_get_or; [eassumption| |]; intros
  | eapply wp_set_or; [eassumption| |]; intros
  | apply wp_need_exposure; intros
  | lazymatch goal with |- wp_or _ (when _ _ ≫= _) _ _ => fail | _ => case_match end
  | lazymatch goal with |- wp_or _ (mret _) _ _ => apply wp_or_wp, wp_ret end ].

Lemma wp_or_load {A} (E : fault -> Prop) this r (f : UVCCameraReader -> Mw A) Q w :
  has w this r -> wp_or E (f r) Q w -> wp_or E (r ← load UVCCameraReader this; f r) Q w.
Proof. intros Hh. unfold wp_or. by rewrite (bind_done _ _ _ _ _ (load_done _ _ _ Hh)). Qed.

Lemma wp_GetCameraControlCapabilities base ext this st command cap r w :
  reader_ok base ext this st r w ->
  wp_or overflow (GetCameraControlCapabilities this command cap) (fun res => moved base ext this st (O_GetCapabilities command cap) (fst res)) w.
Proof.
  intros Hok. assert (Hany : forall w', reader_ok base ext this st r w' -> forall res,
    moved base ext this st (O_GetCapabilities command cap) (fst (res : zsa_result_t * option color_control_cap_t)) w').
  { intros w' Hok' [res cap']. exists st, r. split; [done|]. destruct res; by constructor. }
  unfold GetCameraControlCapabilities. destruct cap as [cap|]; [|by apply wp_or_wp, wp_ret, Hany].
  eapply wp_or_load; [apply Hok|]. cbv zeta. controls; by apply Hany.
Qed.

Lemma wp_GetCameraControl base ext this st command mode value r w :
  reader_ok base ext this st r w ->
  wp_or overflow (GetCameraControl this command mode value) (fun res => moved base ext this st (O_Get command mode value) (fst res)) w.
Proof.
  intros Hok. pose proof (reader_at_initialized _ _ (proj2 Hok)) as Hi.
  assert (Hany : st <> Closed -> forall w', reader_ok base ext this st r w' -> forall res,
    moved base ext this st (O_Get command mode value) (fst (res : zsa_result_t * (option Z * option Z))) w').
  { intros Hst w' Hok' [res ?]. exists st, r. split; [done|]. destruct res; by constructor. }
  assert (Hfail : forall p, wp_or overflow (mret (ZSA_RESULT_FAILED, p) : Mw (zsa_result_t * (option Z * option Z)))
    (fun res => moved base ext this st (O_Get command mode value) (fst res)) w).
  { intros p. apply wp_or_wp, wp_ret. exists st, r. split; [done|]. by constructor. }
  unfold GetCameraControl. destruct mode as [mode|], value as [value|]; try apply Hfail.
  eapply wp_or_load; [apply Hok|]. rewrite Hi. destruct st; [apply Hfail| |]; clear Hfail;
    specialize (Hany ltac:(done)); cbv zeta; cbn [negb]; controls; by apply Hany.
Qed.

Lemma wp_SetCameraControl base ext this st command mode value r w :
  reader_ok base ext this st r w ->
  wp_or overflow (SetCameraControl this command mode value) (moved base ext this st (O_Set command mode value)) w.
Proof.
  intros Hok. pose proof (reader_at_initialized _ _ (proj2 Hok)) as Hi. unfold SetCameraControl.
  eapply wp_or_load; [apply Hok|].
  assert (Hany : st <> Closed -> forall r' w', reader_ok base ext this st r' w' -> forall res,
    moved base ext this st (O_Set command mode value) res w').
  { intros Hst r' w' Hok' res. exists st, r'. split; [done|]. destruct res; by constructor. }
  destruct (decide (st = Closed)) as [->|Hst].
  { rewrite Hi. apply wp_or_wp, wp_ret. exists Closed, r. split; [done|]. by constructor. }
  specialize (Hany Hst). rewrite Hi. assert (Hi' : negb (match st with Closed => false | _ => true end) = false) by (by destruct st).
  rewrite Hi'. cbv zeta.
  assert (Hpower : forall (b : bool) v w', reader_ok base ext this st r w' ->
    wp_or overflow (when b (update this (fun r => r <| uv_using_60hz_power := v |>));; mret ZSA_RESULT_SUCCEEDED)
      (moved base ext this st (O_Set command mode value)) w').
  { intros b v w' Hok'. apply wp_or_wp, wp_bind. destruct b; cbn [when]; [|by eapply wp_ret, wp_ret, Hany].
    eapply wp_update; [apply Hok'|]. apply wp_ret. apply (Hany (r <| uv_using_60hz_power := v |>)). split; [|exact (proj2 Hok')].
    destruct Hok' as [Hh' _]. exact (holding_update _ _ _ _ _ (r <| uv_using_60hz_power := v |>) _ Hh'). }
  controls; try (by eapply Hany); by apply Hpower.
Qed.

(** * Any call, and any sequence of calls *)

Definition do_op (this : Z) (op : reader_op) : Mw zsa_result_t :=
  match op with
  | O_Init serial => Init this serial
  | O_Start width height fps format cb ctx => Start this width height fps format cb ctx
  | O_Stop => Stop this;; mret ZSA_RESULT_SUCCEEDED
  | O_Shutdown => Shutdown this;; mret ZSA_RESULT_SUCCEEDED
  | O_GetCapabilities command cap => '(res, _) ← GetCameraControlCapabilities this command cap; mret res
  | O_Get command mode value => '(res, _) ← GetCameraControl this command mode value; mret res
  | O_Set command mode value => SetCameraControl this command mode value
  end.

Lemma wp_do_op base ext this st op r w :
  UvcOk this -> reader_ok base ext this st r w -> wp_or overflow (do_op this op) (moved base ext this st op) w.
Proof.
  intros Hok Hr. pose proof (reader_at_mutex _ _ (proj2 Hr)) as Hl. destruct op as [serial|width height fps format cb ctx| | |command cap|command mode value|command mode value]; cbn [do_op].
  - apply wp_or_wp. by eapply wp_Init.
  - apply wp_or_wp. by eapply wp_Start.
  - apply wp_or_wp, wp_bind. eapply wp_Stop; [done|apply Hr|done|]. intros w' Hh'. apply wp_ret.
    eexists _, (stopped r). split; [split; [exact Hh'|]|apply step_stop].
    destruct Hr as [_ [_ Hat]]. unfold stopped. split; [by destruct (uv_streaming r)|].
    destruct st; [destruct Hat as (? & ? & ? & Hs)|destruct Hat as [? Hs]|destruct Hat as (? & Hs & _)]; by rewrite Hs.
  - apply wp_or_wp, wp_bind. eapply wp_Shutdown; [done|apply Hr|done|]. intros w' Hh'. apply wp_ret.
    exists Closed, (closed_reader r). split; [by apply closed_ok|apply step_shutdown].
  - apply wp_or_bind. eapply wp_or_mono; [by eapply wp_GetCameraControlCapabilities|]. by intros [res ?] w' Hm.
  - apply wp_or_bind. eapply wp_or_mono; [by eapply wp_GetCameraControl|]. by intros [res ?] w' Hm.
  - by eapply wp_SetCameraControl.
Qed.

Lemma wp_do_ops base ext this ops : forall st r w,
  UvcOk this -> reader_ok base ext this st r w ->
  wp_or overflow (for_each ops (fun op => do_op this op;; mret tt)) (fun _ w' => exists st' r', reader_ok base ext this st' r' w') w.
Proof.
  induction ops as [|op ops IH]; intros st r w Hok Hr; [apply wp_or_wp, wp_ret; by exists st, r|]. cbn [for_each].
  apply wp_or_bind, wp_or_bind. eapply wp_or_mono; [by eapply wp_do_op|]. intros res w1 (st1 & r1 & Hr1 & _).
  apply wp_or_wp, wp_ret. by eapply IH.
Qed.

(** The books of a reader, from a world on. *)
Lemma reader_ok_start ext this st r w :
  Inv ∅ ext w -> has w this r -> reader_at st r ->
  reader_ok (fun x => uvc_live (trace w) x - count_res x (reader_holds r)) ext this st r w.
Proof. intros HI Hh Hat. split; [|done]. split; [eapply inv_busy; [exact HI|set_solver]|exact Hh|]. intros x. lia. Qed.


End life.

(** * Witnesses *)

Lemma remembering_ok : UvcOk 1.
Proof.
  split; [discriminate..|]. intros n w. exists []. reflexivity.
Qed.

Definition new_reader_world : world := add_object (MUvc zeroed) init_world.

Lemma new_reader_inv : Inv ∅ no_refs new_reader_world.
Proof. apply inv_add_module; [exact inv_init|reflexivity|discriminate]. Qed.


Definition sample_ops : list reader_op :=
  [O_Init None; O_Start 1280 720 30 ZSA_IMAGE_FORMAT_COLOR_BGRA32 (stream_callback 1) 99; O_Init None; O_Stop; O_Stop].
Definition sample_life : Mw unit := for_each sample_ops (fun op => do_op 1 op;; mret tt);; Shutdown 1.

