(* ===== verification/Mf.v ===== *)
(** src/color/mfcamerareader.cpp and mfcamerareader.h: the reader of the color
    camera on Windows, all its operations.  Media Foundation, the kernel
    streaming control and the configuration manager are a typeclass of answers.
    The state is the reader with its frame contexts beside the world of the
    other modules. *)

From Stdlib Require Import Ascii.
From stdpp Require Import strings.
From S2P Require Export Uvc.

(** * Windows *)

Definition S_OK : Z := 0.
Definition SUCCEEDED (hr : Z) : bool := 0 <=? hr.
Definition FAILED (hr : Z) : bool := negb (SUCCEEDED hr).
Definition HRESULT_FROM_WIN32 (x : Z) : Z := if s32 x <=? 0 then s32 x else s32 (Z.lor (Z.land x 0xFFFF) 0x80070000).
Definition E_INVALIDARG : Z := s32 0x80070057.
Definition MF_E_NO_MORE_TYPES : Z := s32 0xC00D36B9.
Definition MF_E_NOT_FOUND : Z := s32 0xC00D36D5.
Definition MF_E_INSUFFICIENT_BUFFER : Z := s32 0xC00D7170.
Definition INVALID_HANDLE_VALUE : Z := -1.
Definition CR_SUCCESS : Z := 0.
Definition CR_BUFFER_SMALL : Z := 0x1A.

(** A WCHAR string without its terminator. *)
Definition wide (s : string) : list Z := map (fun a => Z.of_N (Ascii.N_of_ascii a)) (String.list_ascii_of_string s).
Definition COLOR_CAMERA_IDENTIFIER : list Z := wide "vid_045e&pid_097d".

(** [wcsstr(s, t) != nullptr] *)
Fixpoint wcsstr (s t : list Z) : bool :=
  bool_decide (take (length t) s = t) || match s with [] => false | _ :: s => wcsstr s t end.

Inductive mf_subtype : Set :=
| GUID_NULL | MFVideoFormat_NV12 | MFVideoFormat_YUY2 | MFVideoFormat_MJPG | MFVideoFormat_ARGB32 | other_subtype (id : Z).
#[export] Instance mf_subtype_eq_dec : EqDecision mf_subtype.
Proof. solve_decision. Defined.

(** The properties of PROPSETID_VIDCAP_CAMERACONTROL and of
    PROPSETID_VIDCAP_VIDEOPROCAMP. *)
Inductive ks_property : Set :=
| KSPROPERTY_CAMERACONTROL_EXPOSURE
| KSPROPERTY_VIDEOPROCAMP_BRIGHTNESS | KSPROPERTY_VIDEOPROCAMP_CONTRAST | KSPROPERTY_VIDEOPROCAMP_SATURATION
| KSPROPERTY_VIDEOPROCAMP_SHARPNESS | KSPROPERTY_VIDEOPROCAMP_WHITEBALANCE
| KSPROPERTY_VIDEOPROCAMP_BACKLIGHT_COMPENSATION | KSPROPERTY_VIDEOPROCAMP_GAIN
| KSPROPERTY_VIDEOPROCAMP_POWERLINE_FREQUENCY.
#[export] Instance ks_property_eq_dec : EqDecision ks_property.
Proof. solve_decision. Defined.

Definition KSPROPERTY_CAMERACONTROL_FLAGS_AUTO : Z := 1.
Definition KSPROPERTY_CAMERACONTROL_FLAGS_MANUAL : Z := 2.

(** The calls that return an HRESULT. *)
Inductive mf_call : Type :=
| C_MFStartup | C_MFShutdown
| C_MFCreateAttributes (size : Z)
| C_SetSourceType | C_SetSourceCategory | C_MFEnumDeviceSources
| C_GetItem (device : Z) | C_GetStringLength (device : Z) | C_GetString (device : Z)
| C_ActivateObject (device : Z)
| C_SetAsyncCallback | C_SetAdvancedVideoProcessing | C_SetDisableFrc
| C_MFCreateSourceReader
| C_SelectAllStreams (selected : bool) | C_SelectVideoStream (selected : bool)
| C_GetServiceForStream
| C_GetNativeMediaType (index : Z)
| C_GetFrameSize (index : Z) | C_GetFrameRate (index : Z) | C_GetSubtype (index : Z)
| C_As_SourceReaderEx | C_SetNativeMediaType (index : Z)
| C_MFCreateMediaType | C_CopyAllItems | C_SetSubtype (subtype : mf_subtype)
| C_SetCurrentMediaType (subtype : mf_subtype)
| C_ReadSample | C_Flush
| C_Ks_basic_support (p : ks_property) | C_Ks_default (p : ks_property)
| C_Ks_get (p : ks_property) | C_Ks_set (p : ks_property) (value flags : Z)
| C_Unlock2D (buffer : Z) | C_Unlock (buffer : Z).

Inductive wait_answer : Set := WAIT_OBJECT_0 | WAIT_TIMEOUT | WAIT_FAILED | WAIT_other.

Inductive mf_event : Type :=
| ECall (c : mf_call) (hr : Z)
| EReleaseDevice (device : Z)
| ECoTaskMemFree
| ENewString (length : Z) | EDeleteString
| ECreateEvent (handle : Z) | ECloseHandle (handle : Z)
| ESetEvent (handle : Z)
| EWait (handle : Z) (answer : wait_answer)
| ENewFrame (frame : Z) | EDeleteFrame (frame : Z).

(** * The state *)

Record CFrameContext : Type := mkFrameContext {
  fc_2d : bool;                 (* m_sp2DBuffer is set *)
  fc_pBuffer : Z;
  fc_bufferLength : Z;
  fc_bytes : list Z;            (* what is behind m_pBuffer *)
  fc_exposureTime : Z;
  fc_whiteBalance : Z;
  fc_isoSpeed : Z;
  fc_capturePTS : Z
}.

Record CMFCameraReader : Type := mkMfReader {
  mr_lock : zsa_rwlock_t;
  mr_mfStarted : bool;
  mr_started : bool;
  mr_flushing : bool;
  mr_use_mf_buffer : bool;
  mr_using_60hz_power : bool;
  mr_hStreamFlushed : Z;
  mr_spSourceReader : Z;
  mr_spKsControl : Z;
  mr_width_pixels : Z;
  mr_height_pixels : Z;
  mr_image_format : Z;
  mr_pCallback : color_cb_stream_t;
  mr_pCallbackContext : Z
}.

Record mf_world : Type := mkMfWorld {
  mf_reader : CMFCameraReader;
  mf_frames : gmap Z CFrameContext;
  mf_next : Z;                  (* the next address of a frame context *)
  mf_signalled : bool;          (* the state of the event m_hStreamFlushed *)
  mf_waits : nat;               (* the waits so far *)
  mf_events : list mf_event;
  mf_sdk : world
}.

#[export] Instance mf_reader_eta : RecordEta CMFCameraReader := fun r =>
  mkMfReader (mr_lock r) (mr_mfStarted r) (mr_started r) (mr_flushing r) (mr_use_mf_buffer r) (mr_using_60hz_power r)
    (mr_hStreamFlushed r) (mr_spSourceReader r) (mr_spKsControl r) (mr_width_pixels r) (mr_height_pixels r)
    (mr_image_format r) (mr_pCallback r) (mr_pCallbackContext r).
#[export] Instance mf_world_eta : RecordEta mf_world := fun r =>
  mkMfWorld (mf_reader r) (mf_frames r) (mf_next r) (mf_signalled r) (mf_waits r) (mf_events r) (mf_sdk r).

(** The new reader: what has no initialiser reads as 0 here and is written by
    Start before it is used. *)
Definition new_CMFCameraReader (copy_to_new_buffer : option (list Z)) : CMFCameraReader :=
  let use_mf_buffer := match copy_to_new_buffer with Some (c :: _) => (c =? 0) || (c =? 48) | _ => true end in
  mkMfReader RwIdle false false false use_mf_buffer true NULL NULL NULL 0 0 0 stream_callback_null NULL.

(** * Media Foundation *)

(** A native media type of the camera: its frame size, its frame rate as a
    fraction and its subtype. *)
Record mf_media_type : Type := mkMediaType {
  mt_size : Z * Z;
  mt_rate : Z * Z;
  mt_subtype : mf_subtype
}.

(** A device that is enumerated: the address of its IMFActivate, and its
    symbolic link. *)
Record mf_device : Type := mkMfDevice { dv_activate : Z; dv_link : list Z }.

(** A sample, as what its methods answer: the conversion to a contiguous
    buffer, whether that is an IMF2DBuffer2, the lock with the address, size and
    content of the buffer; the attributes; the raw metadata stream with its
    lock; the time stamp. *)
Record mf_sample : Type := mkSample {
  sm_convert : Z;
  sm_as_2d : Z;
  sm_lock : Z;
  sm_pBuffer : Z;
  sm_bufferLength : Z;
  sm_bytes : list Z;
  sm_metadata : Z;
  sm_exposure_hns : Z;
  sm_whitebalance : Z;
  sm_iso_speed : Z;
  sm_rawstream : Z;
  sm_raw_lock : Z;
  sm_raw : list Z;
  sm_device_timestamp : Z * Z
}.

(** The answers may depend on every call before.  What a call stores counts
    when it succeeds. *)
Class MediaFoundation : Type := {
  mf_answer : list mf_event -> mf_call -> Z;
  mf_source_reader : list mf_event -> Z;
  mf_ks_control : list mf_event -> Z;
  mf_create_event : list mf_event -> Z;
  mf_last_error : list mf_event -> Z;
  mf_devices : list mf_event -> list mf_device;
  mf_new_string : list mf_event -> bool;          (* new (std::nothrow) WCHAR[] *)
  mf_new_frame : list mf_event -> bool;           (* new (std::nothrow) CFrameContext *)
  mf_media_type_at : list mf_event -> Z -> mf_media_type;
  (* minimum, maximum, step; default; value, flags, capabilities *)
  mf_ks_range : list mf_event -> ks_property -> Z * Z * Z;
  mf_ks_default : list mf_event -> ks_property -> Z;
  mf_ks_value : list mf_event -> ks_property -> Z * Z * Z;
  (* cfgmgr32: the instance of an interface, its node, the size and content of
     a property of a node, and the error code of a CONFIGRET *)
  cm_instance_id : list Z -> Z * list Z;
  cm_locate : list Z -> Z * Z;
  cm_property_size : Z -> Z * Z;
  cm_property : Z -> Z -> Z * list Z;
  cm_map_error : Z -> Z;
  (* the n-th wait: what the other threads do meanwhile, and whether a wait
     that finds no signal failed or only timed out *)
  mf_wait_others : nat -> mf_world -> mf_world;
  mf_wait_answer : nat -> wait_answer
}.

Abbreviation MF := (M mf_world).

Section operations.
Context `{Platform} `{MediaFoundation} `{ReaderClient}.

Definition mf_note (e : mf_event) : MF unit := modify (fun s => s <| mf_events := mf_events s ++ [e] |>).
Definition mf_ask {A} (answer : list mf_event -> A) : MF A := gets (fun s => answer (mf_events s)).

(** A call, with the HRESULT it returns. *)
Definition com (c : mf_call) : MF Z :=
  hr ← mf_ask (fun t => mf_answer t c);
  mf_note (ECall c hr);;
  mret hr.

Definition reader : MF CMFCameraReader := gets mf_reader.
Definition set_reader (f : CMFCameraReader -> CMFCameraReader) : MF unit := modify (fun s => s <| mf_reader := f (mf_reader s) |>).

(** [m_spSourceReader->...] and [m_spKsControl->...] *)
Definition via_source_reader (c : mf_call) : MF Z :=
  r ← reader;
  if mr_spSourceReader r =? NULL then throw NullDeref else com c.
Definition via_ks_control (c : mf_call) : MF Z :=
  r ← reader;
  if mr_spKsControl r =? NULL then throw NullDeref else com c.

(** SRWLock, whose guards release it at the end of their scope. *)
Definition lock_with (acquire : zsa_rwlock_t -> option zsa_rwlock_t) : MF unit :=
  r ← reader;
  l ← need SelfDeadlock (acquire (mr_lock r));
  set_reader (fun r => r <| mr_lock := l |>).
Definition LockExclusive : MF unit := lock_with rwlock_acquire_write.
Definition LockShared : MF unit := lock_with rwlock_acquire_read.
Definition lock_Unlock : MF unit := set_reader (fun r => r <| mr_lock := rwlock_release (mr_lock r) |>).

Definition zsaResultFromHRESULT (hr : Z) : zsa_result_t := if SUCCEEDED hr then ZSA_RESULT_SUCCEEDED else ZSA_RESULT_FAILED.

(** ** Frame contexts *)

(** [pFrameContext->...] *)
Definition frame_context (p : Z) : MF CFrameContext :=
  if p =? NULL then throw NullDeref else o ← gets (fun s => mf_frames s !! p); need UseAfterFree o.

(** The destructor, and [delete]. *)
Definition destroy_CFrameContext (f : CFrameContext) : MF unit :=
  if fc_pBuffer f =? NULL then mret tt
  else
    hr ← com (if fc_2d f then C_Unlock2D (fc_pBuffer f) else C_Unlock (fc_pBuffer f));
    if FAILED hr then throw AssertFailed else mret tt.

Definition delete_frame_context (p : Z) : MF unit :=
  if p =? NULL then mret tt
  else
    f ← frame_context p;
    destroy_CFrameContext f;;
    modify (fun s => s <| mf_frames := delete p (mf_frames s) |>);;
    mf_note (EDeleteFrame p).

Definition FrameDestroyCallback (frame context : Z) : MF unit := delete_frame_context context.

(** FrameDestroyCallback as a function that is passed to
    image_create_from_buffer. *)
Definition FrameDestroyCallback_id : Z := -1.

Fixpoint deliver_callbacks (events : list event) : MF unit :=
  match events with
  | [] => mret tt
  | EImageCb id buffer context :: events =>
      when (id =? FrameDestroyCallback_id) (FrameDestroyCallback buffer context);;
      deliver_callbacks events
  | _ :: events => deliver_callbacks events
  end.

(** A call of another module.  The calls of FrameDestroyCallback that it makes
    are events there; they are carried out here, since they touch nothing that
    the other modules see. *)
Definition sdk {A} (m : Mw A) : MF A := fun s =>
  match m (mf_sdk s) with
  | Done a w =>
      (deliver_callbacks (drop (length (trace (mf_sdk s))) (trace w));; mret a) (s <| mf_sdk := w |>)
  | Fault f => Fault f
  end.

(** *** The metadata of a sample *)

(** [(uint64_t)(hns * 0.1f)]: binary32, and cut off. *)
Definition f32_of_Z (x : Z) : spec_float := binary_normalize 24 128 x 0 false.
Definition f32_tenth : spec_float := S754_finite false 13421773 (-27).
Definition Z_of_f32 (f : spec_float) : Z :=
  match f with
  | S754_finite s m e => (if s then Z.opp else fun x => x) (if 0 <=? e then Z.pos m * 2 ^ e else Z.pos m / 2 ^ (- e))
  | _ => 0
  end.
Definition exposure_usec_of_hns (hns : Z) : Z := Z_of_f32 (SFmul 24 128 (f32_of_Z hns) f32_tenth).

Definition frame_align_item (raw : list Z) (item : nat) (capturePTS : Z) : MF Z :=
  MetadataId ← need OutOfBounds (word_at item raw);
  if MetadataId =? MetadataId_FrameAlignInfo then need OutOfBounds (dword_at (16 + item) raw)
  else mret capturePTS.

(** The while loop: [bufferLeft] is a LONG that is compared with a size_t. *)
Fixpoint raw_metadata_loop (fuel : nat) (raw : list Z) (item : nat) (bufferLeft capturePTS : Z) : MF Z :=
  match fuel with
  | O => throw OutOfFuel
  | S fuel =>
      if bufferLeft >? 0 then
        capturePTS ← frame_align_item raw item capturePTS;
        Size ← need OutOfBounds (word_at (4 + item) raw);
        if Size =? 0 then mret capturePTS
        else
          bufferLeft ← need SignedOverflow (fits_s32 (bufferLeft - s32 Size));
          if u64 bufferLeft <? sizeof_KSCAMERA_METADATA_ITEMHEADER then mret capturePTS
          else raw_metadata_loop fuel raw (item + Z.to_nat Size) bufferLeft capturePTS
      else mret capturePTS
  end.

Definition parse_raw_metadata (raw : list Z) : MF Z :=
  let bufferLeft := s32 (Z.of_nat (length raw)) in
  if u64 bufferLeft >=? sizeof_KSCAMERA_METADATA_ITEMHEADER
  then raw_metadata_loop (S (length raw)) raw 0 bufferLeft 0
  else mret 0.

(** The attributes are the fields of the sample, 0 where it lacks one; that the
    raw buffer cannot be unlocked is only logged. *)
Definition sample_metadata (s : mf_sample) : MF (Z * Z * Z * Z) :=
  if SUCCEEDED (sm_metadata s) then
    pts ← (if SUCCEEDED (sm_rawstream s) then
             if SUCCEEDED (sm_raw_lock s) then parse_raw_metadata (sm_raw s) else mret 0
           else mret 0);
    mret (exposure_usec_of_hns (sm_exposure_hns s), u32 (sm_whitebalance s), u32 (sm_iso_speed s), pts)
  else mret (0, 0, 0, 0).

(** The constructor for a sample. *)
Definition construct_CFrameContext (s : mf_sample) : MF CFrameContext :=
  if FAILED (sm_convert s) then throw AssertFailed
  else if FAILED (sm_lock s) then throw AssertFailed
  else
    '(exposure, wb, iso, pts) ← sample_metadata s;
    mret (mkFrameContext (SUCCEEDED (sm_as_2d s)) (sm_pBuffer s) (sm_bufferLength s) (sm_bytes s) exposure wb iso pts).

(** [new (std::nothrow) CFrameContext(pSample)] *)
Definition new_CFrameContext (s : mf_sample) : MF Z :=
  ok ← mf_ask mf_new_frame;
  if ok : bool then
    p ← gets mf_next;
    f ← construct_CFrameContext s;
    modify (fun s => s <| mf_frames := <[p := f]> (mf_frames s) |> <| mf_next := p + 1 |>);;
    mf_note (ENewFrame p);;
    mret p
  else mret NULL.

(** ** Opening *)

(** GetDeviceProperty for a caller that passes a buffer of [cbBuffer] bytes
    with the content [pbBuffer]: the HRESULT, the content afterwards, and
    *pcbData. *)
Definition GetDeviceProperty (DeviceSymbolicName : option (list Z)) (pbBuffer : option (list Z)) (cbBuffer : Z)
    : Z * option (list Z) * Z :=
  let failed cr := (HRESULT_FROM_WIN32 (cm_map_error cr), pbBuffer, 0) in
  match DeviceSymbolicName with
  | None => (E_INVALIDARG, pbBuffer, 0)
  | Some name =>
      let '(cr, wz) := cm_instance_id name in
      if negb (cr =? CR_SUCCESS) then failed cr
      else
        let '(cr, hDevInstance) := cm_locate wz in
        if negb (cr =? CR_SUCCESS) then failed cr
        else
          let '(cr, cb) := cm_property_size hDevInstance in
          if cr =? CR_BUFFER_SMALL then
            if bool_decide (pbBuffer = None) || (cbBuffer =? 0) then (S_OK, pbBuffer, cb)
            else if cb >? cbBuffer then (MF_E_INSUFFICIENT_BUFFER, pbBuffer, cb)
            else
              let '(cr, bytes) := cm_property hDevInstance cbBuffer in
              if negb (cr =? CR_SUCCESS) then (HRESULT_FROM_WIN32 (cm_map_error cr), Some bytes, 0)
              else (S_OK, Some bytes, 0)
          else if negb (cr =? CR_SUCCESS) then failed cr
          else (S_OK, pbBuffer, 0)
  end.

Definition sizeof_GUID : nat := 16.

(** The part of the loop that compares a device: whether it is the one. *)
Definition device_matches (containerId symbolicLink : list Z) : bool :=
  if wcsstr symbolicLink COLOR_CAMERA_IDENTIFIER then
    let '(hr, guidContainerId, _) := GetDeviceProperty (Some symbolicLink) (Some (replicate sizeof_GUID 0)) (Z.of_nat sizeof_GUID) in
    SUCCEEDED hr && bool_decide (Some containerId = guidContainerId)
  else false.

(** One turn: whether the device was taken. *)
Definition try_device (containerId : list Z) (d : mf_device) : MF bool :=
  hr ← com (C_GetItem (dv_activate d));
  if SUCCEEDED hr then
    hr ← com (C_GetStringLength (dv_activate d));
    if SUCCEEDED hr then
      ok ← mf_ask mf_new_string;
      if ok : bool then
        mf_note (ENewString (Z.of_nat (length (dv_link d)) + 1));;
        hr ← com (C_GetString (dv_activate d));
        let found := SUCCEEDED hr && device_matches containerId (dv_link d) in
        mf_note EDeleteString;;
        mret found
      else mret false
    else mret false
  else mret false.

Fixpoint find_device (containerId : list Z) (devices : list mf_device) : MF (option Z) :=
  match devices with
  | [] => mret None
  | d :: devices =>
      found ← try_device containerId d;
      if found : bool then mret (Some (dv_activate d)) else find_device containerId devices
  end.

Fixpoint release_devices (devices : list mf_device) : MF unit :=
  match devices with
  | [] => mf_note ECoTaskMemFree
  | d :: devices => mf_note (EReleaseDevice (dv_activate d));; release_devices devices
  end.

Definition FindEdenColorCamera (containerId : list Z) : MF (Z * option Z) :=
  hr ← com (C_MFCreateAttributes 2);
  if FAILED hr then mret (hr, None)
  else
    hr ← com C_SetSourceType;
    if FAILED hr then mret (hr, None)
    else
      hr ← com C_SetSourceCategory;
      if FAILED hr then mret (hr, None)
      else
        devices ← mf_ask mf_devices;
        hr ← com C_MFEnumDeviceSources;
        if FAILED hr then mret (hr, None)
        else
          spDevice ← find_device containerId devices;
          release_devices devices;;
          mret (if spDevice is Some _ then S_OK else MF_E_NOT_FOUND, spDevice).

(** A step of which the caller returns the failure. *)
Definition hr_step (m : MF Z) (next : MF Z) : MF Z := hr ← m; if FAILED hr then mret hr else next.

Definition RuntimeClassInitialize (containerId : list Z) : MF Z :=
  hr ← com C_MFStartup;
  if SUCCEEDED hr then
    set_reader (fun r => r <| mr_mfStarted := true |>);;
    '(hr, spDevice) ← FindEdenColorCamera containerId;
    if FAILED hr then mret hr
    else
      device ← need NullDeref spDevice;
      hr_step (com (C_ActivateObject device)) (
      hr_step (com (C_MFCreateAttributes 3)) (
      hr_step (com C_SetAsyncCallback) (
      hr_step (com C_SetAdvancedVideoProcessing) (
      hr_step (com C_SetDisableFrc) (
      source_reader ← mf_ask mf_source_reader;
      hr_step (com C_MFCreateSourceReader) (
      set_reader (fun r => r <| mr_spSourceReader := source_reader |>);;
      hr_step (via_source_reader (C_SelectAllStreams false)) (
      ks_control ← mf_ask mf_ks_control;
      hr_step (via_source_reader C_GetServiceForStream) (
      set_reader (fun r => r <| mr_spKsControl := ks_control |>);;
      handle ← mf_ask mf_create_event;
      mf_note (ECreateEvent handle);;
      set_reader (fun r => r <| mr_hStreamFlushed := handle |>);;
      if (handle =? NULL) || (handle =? INVALID_HANDLE_VALUE) then
        error ← mf_ask mf_last_error; mret (HRESULT_FROM_WIN32 error)
      else mret S_OK))))))))
  else mret hr.

Definition destroy_CMFCameraReader : MF unit :=
  r ← reader;
  when (mr_mfStarted r) (_ ← com C_MFShutdown; mret tt);;
  when (negb (mr_hStreamFlushed r =? NULL) && negb (mr_hStreamFlushed r =? INVALID_HANDLE_VALUE))
    (mf_note (ECloseHandle (mr_hStreamFlushed r))).

(** ** Starting *)

(** The switch over the image format: the subtype asked of the camera and the
    one that is delivered. *)
Definition start_subtypes (width height imageFormat : Z) : option (mf_subtype * mf_subtype) :=
  if imageFormat =? ZSA_IMAGE_FORMAT_COLOR_NV12 then Some (MFVideoFormat_NV12, MFVideoFormat_NV12)
  else if imageFormat =? ZSA_IMAGE_FORMAT_COLOR_YUY2 then Some (MFVideoFormat_YUY2, MFVideoFormat_YUY2)
  else if imageFormat =? ZSA_IMAGE_FORMAT_COLOR_MJPG then Some (MFVideoFormat_MJPG, MFVideoFormat_MJPG)
  else if imageFormat =? ZSA_IMAGE_FORMAT_COLOR_BGRA32 then
    Some (if (width =? 1280) && (height =? 720) then MFVideoFormat_NV12 else MFVideoFormat_MJPG, MFVideoFormat_ARGB32)
  else None.

(** [fps == (float)numerator / (float)denominator] and the other conditions. *)
Definition type_matches (width height : Z) (fps : spec_float) (device : mf_subtype) (t : mf_media_type) : bool :=
  (width =? fst (mt_size t)) && (height =? snd (mt_size t)) &&
  SFeqb fps (SFdiv 24 128 (f32_of_Z (fst (mt_rate t))) (f32_of_Z (snd (mt_rate t)))) &&
  bool_decide (device = mt_subtype t).

(** The search: the index of the type, none if the camera has no such type, or
    the failure. *)
Fixpoint find_media_type (fuel : nat) (matches : mf_media_type -> bool) (typeIndex : Z) : MF (Z + option Z) :=
  match fuel with
  | O => throw OutOfFuel
  | S fuel =>
      t ← mf_ask (fun events => mf_media_type_at events typeIndex);
      hr ← via_source_reader (C_GetNativeMediaType typeIndex);
      if SUCCEEDED hr then
        hr ← com (C_GetFrameSize typeIndex);
        if FAILED hr then mret (inl hr)
        else
          hr ← com (C_GetFrameRate typeIndex);
          if FAILED hr then mret (inl hr)
          else
            hr ← com (C_GetSubtype typeIndex);
            if FAILED hr then mret (inl hr)
            else if matches t then mret (inr (Some typeIndex))
            else find_media_type fuel matches (u32 (typeIndex + 1))
      else if hr =? MF_E_NO_MORE_TYPES then mret (inr None)
      else mret (inl hr)
  end.

(** The type and the subtype that is delivered are set; S_OK if so. *)
Definition set_media_type (typeIndex : Z) (device output : mf_subtype) : MF Z :=
  hr_step (com C_As_SourceReaderEx) (
  hr_step (com (C_SetNativeMediaType typeIndex)) (
  if bool_decide (device <> output) then
    hr_step (com C_MFCreateMediaType) (
    hr_step (com C_CopyAllItems) (
    hr_step (com (C_SetSubtype output)) (
    via_source_reader (C_SetCurrentMediaType output))))
  else via_source_reader (C_SetCurrentMediaType output))).

(** The stream is selected and the first sample is asked for. *)
Definition start_stream (width height imageFormat : Z) (pCallback : color_cb_stream_t) (pCallbackContext : Z) : MF Z :=
  hr_step (via_source_reader (C_SelectVideoStream true)) (
  LockExclusive;;
  set_reader (fun r => r <| mr_width_pixels := width |> <| mr_height_pixels := height |> <| mr_image_format := imageFormat |>
    <| mr_pCallback := pCallback |> <| mr_pCallbackContext := pCallbackContext |>);;
  hr ← via_source_reader C_ReadSample;
  when (SUCCEEDED hr) (set_reader (fun r => r <| mr_started := true |>));;
  lock_Unlock;;
  mret hr).

Definition mf_Start (fuel : nat) (width height : Z) (fps : spec_float) (imageFormat : Z) (pCallback : color_cb_stream_t)
    (pCallbackContext : Z) : MF zsa_result_t :=
  match pCallback with
  | stream_callback_null => mret ZSA_RESULT_FAILED
  | stream_callback _ =>
      if pCallbackContext =? NULL then mret ZSA_RESULT_FAILED
      else
        match start_subtypes width height imageFormat with
        | None => mret ZSA_RESULT_FAILED
        | Some (device, output) =>
            r ← reader;
            if mr_started r then mret ZSA_RESULT_SUCCEEDED
            else
              found ← find_media_type fuel (type_matches width height fps device) 0;
              match found with
              | inl hr => mret (zsaResultFromHRESULT hr)
              | inr None => mret ZSA_RESULT_FAILED
              | inr (Some typeIndex) =>
                  hr ← set_media_type typeIndex device output;
                  if FAILED hr then mret (zsaResultFromHRESULT hr)
                  else
                    hr ← start_stream width height imageFormat pCallback pCallbackContext;
                    mret (zsaResultFromHRESULT hr)
              end
        end
  end.

(** ** Stopping *)

(** [WaitForSingleObject(m_hStreamFlushed, 10000)]: the event resets itself. *)
Definition wait_flushed : MF wait_answer := fun s =>
  let s := (mf_wait_others (mf_waits s) s) <| mf_waits := S (mf_waits s) |> in
  let answer := if mf_signalled s then WAIT_OBJECT_0
                else match mf_wait_answer (mf_waits s) with WAIT_OBJECT_0 => WAIT_TIMEOUT | a => a end in
  Done answer (s <| mf_signalled := false |> <| mf_events := mf_events s ++ [EWait (mr_hStreamFlushed (mf_reader s)) answer] |>).

(** The do loop of Stop. *)
Fixpoint wait_loop (fuel : nat) : MF unit :=
  match fuel with
  | O => throw OutOfFuel
  | S fuel =>
      answer ← wait_flushed;
      match answer with
      | WAIT_OBJECT_0 => mret tt
      | WAIT_FAILED => throw AssertFailed
      | WAIT_TIMEOUT | WAIT_other => wait_loop fuel
      end
  end.

Definition mf_Stop (fuel : nat) : MF unit :=
  LockExclusive;;
  r ← reader;
  if mr_started r then
    set_reader (fun r => r <| mr_started := false |>);;
    hr ← via_source_reader C_Flush;
    when (SUCCEEDED hr) (set_reader (fun r => r <| mr_flushing := true |>));;
    lock_Unlock;;
    wait_loop fuel
  else lock_Unlock.

Definition mf_Shutdown (fuel : nat) : MF unit :=
  r ← reader;
  when (mr_started r) (mf_Stop fuel);;
  set_reader (fun r => r <| mr_spSourceReader := NULL |> <| mr_spKsControl := NULL |>).

Definition OnFlush : MF Z :=
  LockShared;;
  r ← reader;
  hr ← (if mr_started r then mret S_OK
        else
          hr ← via_source_reader (C_SelectVideoStream false);
          when (SUCCEEDED hr)
            (set_reader (fun r => r <| mr_pCallback := stream_callback_null |> <| mr_pCallbackContext := NULL |>));;
          mret hr);
  r ← reader;
  mf_note (ESetEvent (mr_hStreamFlushed r));;
  modify (fun s => s <| mf_signalled := true |>);;
  set_reader (fun r => r <| mr_flushing := false |>);;
  lock_Unlock;;
  mret hr.

Definition OnEvent : MF Z := mret S_OK.

(** ** Samples *)

Definition GetStride (r : CMFCameraReader) : Z :=
  if mr_image_format r =? ZSA_IMAGE_FORMAT_COLOR_NV12 then s32 (mr_width_pixels r)
  else if mr_image_format r =? ZSA_IMAGE_FORMAT_COLOR_YUY2 then s32 (u32 (mr_width_pixels r * 2))
  else if mr_image_format r =? ZSA_IMAGE_FORMAT_COLOR_BGRA32 then s32 (u32 (mr_width_pixels r * 4))
  else 0.

Definition CreateImage (pFrameContext : Z) : MF (zsa_result_t * Z) :=
  r ← reader;
  f ← frame_context pFrameContext;
  '(result, image) ← sdk (image_create_from_buffer (mr_image_format r) (s32 (mr_width_pixels r)) (s32 (mr_height_pixels r))
    (GetStride r) (fc_pBuffer f) (fc_bufferLength f) (image_cb_user FrameDestroyCallback_id) pFrameContext true);
  mret (result, default NULL image).

(** mfcamerareader_free_allocation is the same function as the one of the other
    reader. *)
Definition mfcamerareader_free_allocation_cb : image_destroy_cb_t := uvc_camerareader_free_allocation_cb.

Definition CreateImageCopy (pFrameContext : Z) : MF (zsa_result_t * Z) :=
  r ← reader;
  f ← frame_context pFrameContext;
  let size := fc_bufferLength f in
  buffer ← sdk (allocator_alloc ALLOCATION_SOURCE_COLOR size);
  '(result, image) ← (if negb (buffer =? NULL) then
      '(result, image) ← sdk (image_create_from_buffer (mr_image_format r) (s32 (mr_width_pixels r))
        (s32 (mr_height_pixels r)) (GetStride r) buffer size mfcamerareader_free_allocation_cb NULL true);
      mret (result, default NULL image)
    else mret (ZSA_RESULT_FAILED, NULL));
  if ZSA_SUCCEEDED result then
    image_size ← sdk (image_get_size image);
    if negb (image_size =? size) then throw AssertFailed
    else
      to ← sdk (image_get_buffer image);
      sdk (memcpy_from to (fc_bytes f) size);;
      mret (result, image)
  else
    when (negb (buffer =? NULL)) (sdk (allocator_free buffer));;
    mret (result, image).

Definition mf_callback (result : zsa_result_t) (capture : Z) : MF unit :=
  r ← reader;
  sdk (stream_callback_call (mr_pCallback r) result capture (mr_pCallbackContext r)).

Definition callback_set (r : CMFCameraReader) : bool :=
  match mr_pCallback r with stream_callback_null => false | stream_callback _ => negb (mr_pCallbackContext r =? NULL) end.

(** The image of a frame: the result, the image, whether the frame context
    counts as the image's, and whether the frame is dropped. *)
Definition sample_image (pFrameContext : Z) : MF (zsa_result_t * Z * bool * bool) :=
  if pFrameContext =? NULL then mret (ZSA_RESULT_FAILED, NULL, false, false)
  else
    f ← frame_context pFrameContext;
    if fc_capturePTS f =? 0 then mret (ZSA_RESULT_FAILED, NULL, false, true)
    else
      r ← reader;
      if mr_use_mf_buffer r then
        '(result, image) ← CreateImage pFrameContext; mret (result, image, true, false)
      else
        '(result, image) ← CreateImageCopy pFrameContext; mret (result, image, false, false).

(** What is known of the frame, stored in the image and in the capture. *)
Definition sample_fill (s : mf_sample) (pFrameContext image capture : Z) : MF zsa_result_t :=
  let '(hr, mf_device_time_100nsec) := sm_device_timestamp s in
  if FAILED hr then mret ZSA_RESULT_FAILED
  else
    f ← frame_context pFrameContext;
    sdk (image_set_system_timestamp_nsec image (u64 (mf_device_time_100nsec * 100)));;
    sdk (image_set_device_timestamp_usec image (ZSA_90K_HZ_TICK_TO_USEC (fc_capturePTS f)));;
    sdk (image_set_exposure_usec image (fc_exposureTime f));;
    sdk (image_set_white_balance image (fc_whiteBalance f));;
    sdk (image_set_iso_speed image (fc_isoSpeed f));;
    sdk (capture_set_color_image capture image);;
    mret ZSA_RESULT_SUCCEEDED.

Definition deliver_sample (s : mf_sample) : MF unit :=
  pFrameContext ← new_CFrameContext s;
  '(result, image, FrameContextRefd, dropped) ← sample_image pFrameContext;
  '(result, capture) ← (if ZSA_SUCCEEDED result then
                          '(result, capture) ← sdk (capture_create true); mret (result, default NULL capture)
                        else mret (result, NULL));
  result ← (if ZSA_SUCCEEDED result then sample_fill s pFrameContext image capture else mret result);
  when (negb dropped) (mf_callback result capture);;
  when (negb FrameContextRefd) (delete_frame_context pFrameContext);;
  when (negb (image =? NULL)) (sdk (image_dec_ref image));;
  when (negb (capture =? NULL)) (sdk (capture_dec_ref capture)).

(** A sample that arrived, under the lock. *)
Definition read_sample_locked (pSample : option mf_sample) : MF Z :=
  r ← reader;
  if mr_started r && negb (mr_flushing r) then
    (match pSample with
     | Some s => when (callback_set r) (deliver_sample s)
     | None => mret tt
     end);;
    via_source_reader C_ReadSample
  else mret S_OK.

Definition OnReadSample (fuel : nat) (hrStatus : Z) (pSample : option mf_sample) : MF Z :=
  hr ← (if SUCCEEDED hrStatus then
          LockExclusive;;
          hr ← read_sample_locked pSample;
          lock_Unlock;;
          mret hr
        else
          mf_callback ZSA_RESULT_FAILED NULL;;
          mret hrStatus);
  r ← reader;
  when (FAILED hr && callback_set r) (
    mf_callback ZSA_RESULT_FAILED NULL;;
    mf_Stop fuel);;
  mret hr.

(** ** Camera controls *)

(** The HRESULT with value, flags and capabilities. *)
Definition GetCameraControlValue (p : ks_property) : MF (Z * (Z * Z * Z)) :=
  '(value, flags, capabilities) ← mf_ask (fun t => mf_ks_value t p);
  hr ← via_ks_control (C_Ks_get p);
  mret (hr, (s32 value, u32 flags, u32 capabilities)).

Definition SetCameraControlValue (p : ks_property) (newValue newFlags : Z) : MF Z :=
  via_ks_control (C_Ks_set p newValue newFlags).

(** The HRESULT with support of the automatic mode, minimum, maximum, step and
    default, which are false and 0 if the call fails. *)
Definition GetCameraControlCap (p : ks_property) : MF (Z * (bool * Z * Z * Z * Z)) :=
  let none := (false, 0, 0, 0, 0) in
  '(minimum, maximum, step) ← mf_ask (fun t => mf_ks_range t p);
  hr ← via_ks_control (C_Ks_basic_support p);
  if FAILED hr then mret (hr, none)
  else
    def ← mf_ask (fun t => mf_ks_default t p);
    hr ← via_ks_control (C_Ks_default p);
    if FAILED hr then mret (hr, none)
    else
      '(hr, (_, _, capability)) ← GetCameraControlValue p;
      mret (hr, if SUCCEEDED hr
                then (has_flag capability KSPROPERTY_CAMERACONTROL_FLAGS_AUTO, s32 minimum, s32 maximum, u32 step, s32 def)
                else none).

(** The loops over the table of exposure times. *)
Fixpoint exponent_of_exposure (is_using_60hz : bool) (K4aExposure : Z) (l : list color_exposure_mapping_t) : option Z :=
  match l with
  | [] => None
  | e :: l => if K4aExposure <=? mapped is_using_60hz e then Some (exponent e) else exponent_of_exposure is_using_60hz K4aExposure l
  end.
Fixpoint exposure_of_exponent (is_using_60hz : bool) (MfExponent : Z) (l : list color_exposure_mapping_t) : option Z :=
  match l with
  | [] => None
  | e :: l => if MfExponent <=? exponent e then Some (mapped is_using_60hz e) else exposure_of_exponent is_using_60hz MfExponent l
  end.

Definition MapK4aExposureToMf (r : CMFCameraReader) (K4aExposure : Z) : Z :=
  default (default 0 (exponent <$> last device_exposure_mapping))
    (exponent_of_exposure (mr_using_60hz_power r) K4aExposure device_exposure_mapping).
Definition MapMfExponentToK4a (r : CMFCameraReader) (MfExponent : Z) : Z :=
  default (MAX_EXPOSURE (mr_using_60hz_power r))
    (exposure_of_exponent (mr_using_60hz_power r) MfExponent device_exposure_mapping).

(** The property of a command: none for the deprecated one and for those the
    switches do not know. *)
Definition control_property (command : Z) : option ks_property :=
  if command =? ZSA_COLOR_CONTROL_EXPOSURE_TIME_ABSOLUTE then Some KSPROPERTY_CAMERACONTROL_EXPOSURE
  else if command =? ZSA_COLOR_CONTROL_BRIGHTNESS then Some KSPROPERTY_VIDEOPROCAMP_BRIGHTNESS
  else if command =? ZSA_COLOR_CONTROL_CONTRAST then Some KSPROPERTY_VIDEOPROCAMP_CONTRAST
  else if command =? ZSA_COLOR_CONTROL_SATURATION then Some KSPROPERTY_VIDEOPROCAMP_SATURATION
  else if command =? ZSA_COLOR_CONTROL_SHARPNESS then Some KSPROPERTY_VIDEOPROCAMP_SHARPNESS
  else if command =? ZSA_COLOR_CONTROL_WHITEBALANCE then Some KSPROPERTY_VIDEOPROCAMP_WHITEBALANCE
  else if command =? ZSA_COLOR_CONTROL_BACKLIGHT_COMPENSATION then Some KSPROPERTY_VIDEOPROCAMP_BACKLIGHT_COMPENSATION
  else if command =? ZSA_COLOR_CONTROL_GAIN then Some KSPROPERTY_VIDEOPROCAMP_GAIN
  else if command =? ZSA_COLOR_CONTROL_POWERLINE_FREQUENCY then Some KSPROPERTY_VIDEOPROCAMP_POWERLINE_FREQUENCY
  else None.

Definition is_exposure (command : Z) : bool := command =? ZSA_COLOR_CONTROL_EXPOSURE_TIME_ABSOLUTE.
Definition has_auto (command : Z) : bool := is_exposure command || (command =? ZSA_COLOR_CONTROL_WHITEBALANCE).

(** The result and what *capabilities holds afterwards. *)
Definition mf_GetCameraControlCapabilities (command : Z) (capabilities : option color_control_cap_t)
    : MF (zsa_result_t * option color_control_cap_t) :=
  match capabilities with
  | None => mret (ZSA_RESULT_FAILED, None)
  | Some cap =>
      match control_property command with
      | Some p =>
          '(hr, (supportAuto, minValue, maxValue, stepValue, defaultValue)) ← GetCameraControlCap p;
          r ← reader;
          let exposure x := if is_exposure command then MapMfExponentToK4a r x else x in
          mret (zsaResultFromHRESULT hr, Some (if SUCCEEDED hr then
            mkCap (exposure minValue) (exposure maxValue) (if is_exposure command then 1 else s32 stepValue) (exposure defaultValue)
              (if has_auto command then ZSA_COLOR_CONTROL_MODE_AUTO else ZSA_COLOR_CONTROL_MODE_MANUAL) supportAuto true
            else cap))
      | None =>
          if command =? ZSA_COLOR_CONTROL_AUTO_EXPOSURE_PRIORITY
          then mret (ZSA_RESULT_SUCCEEDED, Some (mkCap 0 0 0 0 ZSA_COLOR_CONTROL_MODE_MANUAL false true))
          else mret (ZSA_RESULT_FAILED, Some cap)
      end
  end.

(** The result, *mode and *pValue. *)
Definition mf_GetCameraControl (command : Z) : MF (zsa_result_t * (Z * Z)) :=
  let manual := ZSA_COLOR_CONTROL_MODE_MANUAL in
  match control_property command with
  | Some p =>
      '(hr, (propertyValue, flags, _)) ← GetCameraControlValue p;
      r ← reader;
      if SUCCEEDED hr then
        let mode := if has_flag flags KSPROPERTY_CAMERACONTROL_FLAGS_MANUAL then manual
                    else if has_flag flags KSPROPERTY_CAMERACONTROL_FLAGS_AUTO then ZSA_COLOR_CONTROL_MODE_AUTO else manual in
        mret (ZSA_RESULT_SUCCEEDED, (mode, if is_exposure command then MapMfExponentToK4a r propertyValue else propertyValue))
      else mret (ZSA_RESULT_FAILED, (manual, 0))
  | None =>
      if command =? ZSA_COLOR_CONTROL_AUTO_EXPOSURE_PRIORITY then mret (ZSA_RESULT_SUCCEEDED, (manual, 0))
      else mret (ZSA_RESULT_FAILED, (manual, 0))
  end.

Definition mf_SetCameraControl (command mode newValue : Z) : MF zsa_result_t :=
  let auto := mode =? ZSA_COLOR_CONTROL_MODE_AUTO in
  if auto && negb (has_auto command) then mret ZSA_RESULT_FAILED
  else
    let flags := if auto then KSPROPERTY_CAMERACONTROL_FLAGS_AUTO else KSPROPERTY_CAMERACONTROL_FLAGS_MANUAL in
    match control_property command with
    | Some p =>
        r ← reader;
        hr ← SetCameraControlValue p (if is_exposure command then MapK4aExposureToMf r newValue else newValue) flags;
        when ((command =? ZSA_COLOR_CONTROL_POWERLINE_FREQUENCY) && SUCCEEDED hr)
          (set_reader (fun r => r <| mr_using_60hz_power := newValue =? 2 |>));;
        mret (zsaResultFromHRESULT hr)
    | None =>
        if command =? ZSA_COLOR_CONTROL_AUTO_EXPOSURE_PRIORITY then mret ZSA_RESULT_SUCCEEDED else mret ZSA_RESULT_FAILED
    end.
End operations.
