(* ===== verification/MfControl.v ===== *)
(** src/color/mfcamerareader.cpp: exposure times and camera controls of the
    reader on Windows. *)

From S2P Require Export Mf UvcControl.

Section exposure.
Implicit Types (r : CMFCameraReader) (hz : bool) (x : Z).

Ltac eval_left := lazymatch goal with |- ?l = _ => let v := eval vm_compute in l in change l with v end.

(** The exponents of the table are -11, -10, ..., 1, with rising times. *)
Lemma exponent_steps hz x :
  exponent_of_exposure hz (default (MAX_EXPOSURE hz) (exposure_of_exponent hz x device_exposure_mapping)) device_exposure_mapping =
  Some (Z.max (-11) (Z.min 1 x)).
Proof.
  unfold device_exposure_mapping at 1. cbn [exposure_of_exponent exponent].
  do 13 (case_match; [destruct hz; eval_left; f_equal; lia|]).
  destruct hz; eval_left; f_equal; lia.
Qed.

Lemma exposure_steps hz x :
  default (MAX_EXPOSURE hz) (exposure_of_exponent hz
    (default (default 0 (exponent <$> last device_exposure_mapping)) (exponent_of_exposure hz x device_exposure_mapping))
    device_exposure_mapping) =
  default (MAX_EXPOSURE hz) (map_exposure hz x device_exposure_mapping).
Proof.
  unfold device_exposure_mapping at 2 4. cbn [exponent_of_exposure map_exposure].
  do 13 (case_match; [by destruct hz|]). by destruct hz.
Qed.
End exposure.

(** * Controls *)

Section controls.
Context `{Platform} `{MediaFoundation} `{ReaderClient}.
Implicit Types (s : mf_world) (r : CMFCameraReader).

(** What is relied on in the camera's driver (ks.h): a property that was just
    set reads back with the value and the flags it was set with. *)
Class KsStores : Prop := {
  ks_set_succeeds t p v flags : SUCCEEDED (mf_answer t (C_Ks_set p v flags)) = true;
  ks_get_succeeds t p : SUCCEEDED (mf_answer t (C_Ks_get p)) = true;
  ks_reads_back t p v flags hr : - 2 ^ 31 <= v < 2 ^ 31 ->
    exists capabilities, mf_ks_value (t ++ [ECall (C_Ks_set p v flags) hr]) p = (v, flags, capabilities)
}.

(** What a control set to [newValue] reads as. *)
Definition control_value r (command newValue : Z) : Z :=
  if is_exposure command
  then default (MAX_EXPOSURE (mr_using_60hz_power r)) (map_exposure (mr_using_60hz_power r) newValue device_exposure_mapping)
  else newValue.

Lemma com_run c s : com c s = Done (mf_answer (mf_events s) c) (s <| mf_events := mf_events s ++ [ECall c (mf_answer (mf_events s) c)] |>).
Proof. done. Qed.

Lemma via_ks_control_run c s :
  mr_spKsControl (mf_reader s) <> NULL -> via_ks_control c s = com c s.
Proof. intros Hn. unfold via_ks_control, mbind, M_bind, reader, gets. by rewrite (proj2 (Z.eqb_neq _ _) Hn). Qed.

Lemma via_source_reader_run c s :
  mr_spSourceReader (mf_reader s) <> NULL -> via_source_reader c s = com c s.
Proof. intros Hn. unfold via_source_reader, mbind, M_bind, reader, gets. by rewrite (proj2 (Z.eqb_neq _ _) Hn). Qed.

Lemma get_value_run p s value flags capabilities :
  mr_spKsControl (mf_reader s) <> NULL -> SUCCEEDED (mf_answer (mf_events s) (C_Ks_get p)) = true ->
  mf_ks_value (mf_events s) p = (value, flags, capabilities) ->
  exists hr s', GetCameraControlValue p s = Done (hr, (s32 value, u32 flags, u32 capabilities)) s' /\ SUCCEEDED hr = true /\
    mf_reader s' = mf_reader s.
Proof.
  intros Hn Hok Hv. unfold GetCameraControlValue.
  rewrite (bind_done _ _ _ _ _ (eq_refl : mf_ask (fun t => mf_ks_value t p) s = Done _ s)), Hv. cbv beta iota.
  rewrite (bind_done _ _ _ _ _ (eq_trans (via_ks_control_run _ _ Hn) (com_run _ _))).
  eexists _, _. split; [reflexivity|]. by split.
Qed.

Lemma set_value_run p v flags s :
  mr_spKsControl (mf_reader s) <> NULL ->
  SetCameraControlValue p v flags s = com (C_Ks_set p v flags) s.
Proof. apply via_ks_control_run. Qed.

Lemma exponent_range hz x e : exponent_of_exposure hz x device_exposure_mapping = Some e -> -11 <= e <= 1.
Proof.
  unfold device_exposure_mapping. cbn [exponent_of_exposure exponent].
  do 13 (case_match; [intros [= <-]; lia|]). discriminate.
Qed.

Lemma map_to_mf_range r x : -11 <= MapK4aExposureToMf r x <= 1.
Proof.
  unfold MapK4aExposureToMf. destruct (exponent_of_exposure _ _ _) as [e|] eqn:E; [by eapply exponent_range|].
  vm_compute. intuition discriminate.
Qed.

(** The exposure times of the interface and the exponents of the driver.
    An exponent, taken to microseconds and back, comes back as it was, limited
    to those of the table; a time, taken to an exponent and back, comes back
    rounded up to a time of the table, at most the longest. *)
Theorem mf_exposure_steps r x :
  MapK4aExposureToMf r (MapMfExponentToK4a r x) = Z.max (-11) (Z.min 1 x) /\
  MapMfExponentToK4a r (MapK4aExposureToMf r x) =
    default (MAX_EXPOSURE (mr_using_60hz_power r)) (map_exposure (mr_using_60hz_power r) x device_exposure_mapping).
Proof.
  split; unfold MapK4aExposureToMf, MapMfExponentToK4a; [by rewrite exponent_steps|apply exposure_steps].
Qed.

End controls.

(** * A camera *)

(** Its driver keeps what was set last; it has the given types; the event that
    a flush is waited for is signalled by OnFlush at the wait of that number. *)
Definition sample_mf_with (types : list mf_media_type) (devices : list mf_device) (others : nat -> mf_world -> mf_world)
    (flush_answer : Z) : MediaFoundation := {|
  mf_answer := fun _ c =>
    match c with
    | C_GetNativeMediaType i => if i <? Z.of_nat (length types) then S_OK else MF_E_NO_MORE_TYPES
    | C_Flush => flush_answer
    | _ => S_OK
    end;
  mf_source_reader := fun _ => 100;
  mf_ks_control := fun _ => 200;
  mf_create_event := fun _ => 300;
  mf_last_error := fun _ => 0;
  mf_devices := fun _ => devices;
  mf_new_string := fun _ => true;
  mf_new_frame := fun _ => true;
  mf_media_type_at := fun _ i => default (mkMediaType (0, 0) (0, 1) GUID_NULL) (types !! Z.to_nat i);
  mf_ks_range := fun _ _ => (0, 255, 1);
  mf_ks_default := fun _ _ => 128;
  mf_ks_value := fun t p => match last t with Some (ECall (C_Ks_set p' v flags) _) => (v, flags, 0) | _ => (0, 0, 0) end;
  cm_instance_id := fun name => (CR_SUCCESS, name);
  cm_locate := fun name => (CR_SUCCESS, Z.of_nat (length name));
  cm_property_size := fun _ => (CR_BUFFER_SMALL, 16);
  cm_property := fun node _ => (CR_SUCCESS, replicate 16 node);
  cm_map_error := fun _ => 0;
  mf_wait_others := others;
  mf_wait_answer := fun _ => WAIT_TIMEOUT
|}.
Definition sample_mf : MediaFoundation := sample_mf_with [] [] (fun _ s => s) S_OK.

Definition open_mf_reader : CMFCameraReader :=
  (new_CMFCameraReader None) <| mr_mfStarted := true |> <| mr_spSourceReader := 100 |> <| mr_spKsControl := 200 |>
    <| mr_hStreamFlushed := 300 |>.
Definition mf_world_of (r : CMFCameraReader) : mf_world := mkMfWorld r ∅ 1 false 0 [] init_world.

Lemma sample_ks_stores : KsStores (H0 := sample_mf).
Proof.
  split; [done|done|]. intros t p v flags hr _. exists 0. cbn. by rewrite last_snoc.
Qed.

