(* ===== verification/MfStream.v ===== *)
(** src/color/mfcamerareader.cpp: how the stream of the reader on Windows is
    started, flushed and stopped, and what its errors lead to. *)

From S2P Require Export MfControl.

Section stop.
Context `{Platform} `{MediaFoundation} `{ReaderClient}.
Implicit Types (s : mf_world) (r : CMFCameraReader).

(** The reader streams, and nobody holds its lock. *)
Definition streaming s : Prop :=
  mr_lock (mf_reader s) = RwIdle /\ mr_started (mf_reader s) = true /\ mr_flushing (mf_reader s) = false /\
  mr_spSourceReader (mf_reader s) <> NULL.

Lemma reader_run s : reader s = Done (mf_reader s) s.
Proof. done. Qed.

Lemma lock_exclusive_run s :
  mr_lock (mf_reader s) = RwIdle ->
  LockExclusive s = Done tt (s <| mf_reader := (mf_reader s) <| mr_lock := RwWriter |> |>).
Proof. intros Hl. unfold LockExclusive, lock_with, mbind, M_bind, reader, gets. by rewrite Hl. Qed.

Lemma lock_shared_run s :
  mr_lock (mf_reader s) = RwIdle ->
  LockShared s = Done tt (s <| mf_reader := (mf_reader s) <| mr_lock := RwReaders 1 |> |>).
Proof. intros Hl. unfold LockShared, lock_with, mbind, M_bind, reader, gets. by rewrite Hl. Qed.

(** The reader after the flush was asked for, with the answer [hr]. *)
Definition flush_asked r (hr : Z) : CMFCameraReader :=
  r <| mr_started := false |> <| mr_flushing := SUCCEEDED hr |>.

(** Stop up to its loop. *)
Lemma stop_run fuel s :
  streaming s ->
  let hr := mf_answer (mf_events s) C_Flush in
  mf_Stop fuel s = wait_loop fuel (s <| mf_reader := flush_asked (mf_reader s) hr |> <| mf_events := mf_events s ++ [ECall C_Flush hr] |>).
Proof.
  intros (Hl & Hst & Hf & Hn) hr. unfold mf_Stop. rewrite (bind_done _ _ _ _ _ (lock_exclusive_run _ Hl)).
  rewrite (bind_done _ _ _ _ _ (reader_run _)).
  change (mr_started (mf_reader (s <| mf_reader := (mf_reader s) <| mr_lock := RwWriter |> |>))) with (mr_started (mf_reader s)).
  rewrite Hst. erewrite (bind_done (set_reader _)) by reflexivity.
  erewrite bind_done by (etransitivity; [by apply via_source_reader_run|apply com_run]). cbv beta. fold hr.
  destruct s as [[lk mfs st fl mfb hz ev src ks w h fm cb ctx] frames nxt sg waits evs wd]. cbn in Hl, Hst, Hf. subst.
  unfold flush_asked, update_field. cbn -[wait_loop SUCCEEDED]. unfold hr. cbn [mf_events].
  destruct (SUCCEEDED _) eqn:E; cbn [when]; erewrite bind_done by reflexivity; erewrite bind_done by reflexivity; by rewrite ?E.
Qed.

(** One wait. *)
Definition waited s : mf_world := (mf_wait_others (mf_waits s) s) <| mf_waits := S (mf_waits s) |>.

Lemma wait_loop_unsignalled fuel s :
  mf_signalled (waited s) = false -> mf_wait_answer (S (mf_waits s)) <> WAIT_FAILED ->
  exists a, wait_loop (S fuel) s = wait_loop fuel ((waited s) <| mf_signalled := false |>
    <| mf_events := mf_events (waited s) ++ [EWait (mr_hStreamFlushed (mf_reader (waited s))) a] |>).
Proof.
  intros Hs Ha. cbn [wait_loop]. unfold mbind at 1, M_bind at 1, wait_flushed. fold (waited s).
  change (mf_waits (waited s)) with (S (mf_waits s)). rewrite Hs.
  destruct (mf_wait_answer (S (mf_waits s))); [by exists WAIT_TIMEOUT|by exists WAIT_TIMEOUT|done|by exists WAIT_other].
Qed.

Lemma wait_loop_signalled fuel s :
  mf_signalled (waited s) = true ->
  wait_loop (S fuel) s = Done tt ((waited s) <| mf_signalled := false |>
    <| mf_events := mf_events (waited s) ++ [EWait (mr_hStreamFlushed (mf_reader (waited s))) WAIT_OBJECT_0] |>).
Proof.
  intros Hs. cbn [wait_loop]. unfold mbind, M_bind, wait_flushed. fold (waited s). by rewrite Hs.
Qed.

(** What the other threads do that does not concern the reader. *)
Definition leaves s s' : Prop :=
  mf_reader s' = mf_reader s /\ mf_signalled s' = mf_signalled s /\ mf_waits s' = mf_waits s.

(** The reader after OnFlush. *)
Definition flushed r (hr : Z) : CMFCameraReader :=
  let r := r <| mr_flushing := false |> in
  if SUCCEEDED hr then r <| mr_pCallback := stream_callback_null |> <| mr_pCallbackContext := NULL |> else r.

Lemma OnFlush_run s :
  mr_lock (mf_reader s) = RwIdle -> mr_started (mf_reader s) = false -> mr_spSourceReader (mf_reader s) <> NULL ->
  let hr := mf_answer (mf_events s) (C_SelectVideoStream false) in
  let s' := final OnFlush s in
  OnFlush s = Done hr s' /\ mf_reader s' = flushed (mf_reader s) hr /\ mf_signalled s' = true /\ mf_waits s' = mf_waits s.
Proof.
  intros Hl Hst Hn hr. cbv zeta. unfold final.
  enough (exists s', OnFlush s = Done hr s' /\ mf_reader s' = flushed (mf_reader s) hr /\ mf_signalled s' = true /\ mf_waits s' = mf_waits s)
    as (s' & -> & ?) by done.
  unfold OnFlush. rewrite (bind_done _ _ _ _ _ (lock_shared_run _ Hl)), (bind_done _ _ _ _ _ (reader_run _)).
  change (mr_started (mf_reader (s <| mf_reader := (mf_reader s) <| mr_lock := RwReaders 1 |> |>))) with (mr_started (mf_reader s)).
  rewrite Hst, bind_assoc. erewrite bind_done by (etransitivity; [by apply via_source_reader_run|apply com_run]). cbv beta.
  destruct s as [[lk mfs st fl mfb hz ev src ks w h fm cb ctx] frames nxt sg waits evs wd]. cbn in Hl, Hst. subst.
  unfold flushed, hr, update_field. cbn -[SUCCEEDED].
  destruct (SUCCEEDED _); cbn [when]; eexists; (split; [reflexivity|by split_and!]).
Qed.

(** Waits that nothing comes of. *)
Lemma wait_loop_skips k fuel s :
  mf_signalled s = false ->
  (forall n x, (mf_waits s <= n < mf_waits s + k)%nat -> leaves x (mf_wait_others n x)) ->
  (forall n, mf_wait_answer n <> WAIT_FAILED) ->
  exists s', wait_loop (k + fuel) s = wait_loop fuel s' /\ mf_reader s' = mf_reader s /\ mf_signalled s' = false /\
    mf_waits s' = (mf_waits s + k)%nat.
Proof.
  revert s. induction k as [|k IH]; intros s Hs Ho Ha; [exists s; split_and!; [done..|lia]|].
  destruct (Ho (mf_waits s) s ltac:(lia)) as (Er & Es & Ew).
  destruct (wait_loop_unsignalled (k + fuel) s) as [a E]; [by rewrite <- Hs|done|].
  change (S k + fuel)%nat with (S (k + fuel)). rewrite E. set (s1 := _ <| mf_events := _ |>).
  assert (Hw1 : mf_waits s1 = S (mf_waits s)) by done.
  destruct (IH s1) as (s' & E' & Er' & Es' & Ew'); [done| |done|].
  { intros n x Hn. apply Ho. lia. }
  exists s'. split_and!; [exact E'|by rewrite Er'|done|lia].
Qed.

End stop.

(** * Errors *)

Section errors.
Context `{Platform} `{MediaFoundation} `{ReaderClient}.
Implicit Types (s : mf_world) (r : CMFCameraReader).

(** Nothing that is called from the reader changes the reader. *)
Definition keeps_reader {A} (m : MF A) : Prop := forall s a s', m s = Done a s' -> mf_reader s' = mf_reader s.

Lemma same_reader_ret {A} (a : A) : keeps_reader (mret a).
Proof. by intros s a' s' [= _ <-]. Qed.

Lemma same_reader_throw {A} f : keeps_reader (throw f : MF A).
Proof. by intros s a s' [=]. Qed.

Lemma same_reader_bind {A B} (m : MF A) (f : A -> MF B) : keeps_reader m -> (forall a, keeps_reader (f a)) -> keeps_reader (m ≫= f).
Proof.
  intros Hm Hf s b s' E. unfold mbind, M_bind in E. destruct (m s) as [a s1|] eqn:E1; [|done].
  rewrite (Hf _ _ _ _ E). by apply (Hm s a).
Qed.

Lemma same_reader_gets {A} (f : mf_world -> A) : keeps_reader (gets f).
Proof. by intros s a' s' [= _ <-]. Qed.

Lemma same_reader_need {A} e (o : option A) : keeps_reader (need e o).
Proof. destruct o; [apply same_reader_ret|apply same_reader_throw]. Qed.

Lemma same_reader_modify f : (forall s, mf_reader (f s) = mf_reader s) -> keeps_reader (modify f).
Proof. intros Hf s a s' [= _ <-]. apply Hf. Qed.

Lemma same_reader_com c : keeps_reader (com c).
Proof. by intros s a s' [= _ <-]. Qed.

Lemma same_reader_when b (m : MF unit) : keeps_reader m -> keeps_reader (when b m).
Proof. destruct b; [done|intros _; apply same_reader_ret]. Qed.

Lemma same_reader_delete p : keeps_reader (delete_frame_context p).
Proof.
  unfold delete_frame_context. destruct (p =? NULL) eqn:E; [apply same_reader_ret|]. unfold frame_context. rewrite E.
  repeat (apply same_reader_bind; [|intros ?]); try apply same_reader_gets; try apply same_reader_need; try by apply same_reader_modify.
  unfold destroy_CFrameContext. case_match; [apply same_reader_ret|]. apply same_reader_bind; [apply same_reader_com|].
  intros hr. destruct (FAILED hr); [apply same_reader_throw|apply same_reader_ret].
Qed.

Lemma same_reader_deliver events : keeps_reader (deliver_callbacks events).
Proof.
  induction events as [|[] events IH]; cbn [deliver_callbacks]; try done; [apply same_reader_ret|].
  apply same_reader_bind; [apply same_reader_when, same_reader_delete|done].
Qed.

Lemma same_reader_sdk {A} (m : Mw A) : keeps_reader (sdk m).
Proof.
  intros s a s'. unfold sdk. destruct (m (mf_sdk s)) as [a1 w|]; [|done]. intros E.
  eapply (same_reader_bind _ _ (same_reader_deliver _) (fun _ => same_reader_ret a1)) in E. exact E.
Qed.

Lemma same_reader_callback result capture : keeps_reader (mf_callback result capture).
Proof. apply same_reader_bind; [apply same_reader_gets|]. intros r. apply same_reader_sdk. Qed.

(** An error of the pipeline.  It is passed to the callback without a test
    that there is one, so that an error after the stream was flushed calls a
    null pointer; and if there is a callback it is told a second time, before
    the reader stops. *)
Theorem mf_error_reported_twice fuel hrStatus pSample s :
  FAILED hrStatus = true ->
  OnReadSample fuel hrStatus pSample s =
  match mr_pCallback (mf_reader s) with
  | stream_callback_null => Fault NullDeref
  | stream_callback _ =>
      if mr_pCallbackContext (mf_reader s) =? NULL
      then (mf_callback ZSA_RESULT_FAILED NULL;; mret hrStatus) s
      else (mf_callback ZSA_RESULT_FAILED NULL;; mf_callback ZSA_RESULT_FAILED NULL;; mf_Stop fuel;; mret hrStatus) s
  end.
Proof.
  intros Hf. unfold OnReadSample. assert (Hs : SUCCEEDED hrStatus = false) by (by apply negb_true_iff). rewrite Hs, bind_assoc.
  destruct (mr_pCallback (mf_reader s)) as [|cb] eqn:Ecb.
  { apply bind_fault. unfold mf_callback. rewrite (bind_done _ _ _ _ _ (reader_run s)), Ecb. done. }
  pose proof (same_reader_callback ZSA_RESULT_FAILED NULL s) as Hk.
  unfold mbind at 1, M_bind at 1. destruct (mf_callback ZSA_RESULT_FAILED NULL s) as [[] s1|f] eqn:E1.
  2:{ unfold mbind, M_bind. rewrite E1. by destruct (_ =? _). }
  specialize (Hk _ _ eq_refl). erewrite (bind_done (mret _)) by reflexivity. rewrite (bind_done _ _ _ _ _ (reader_run s1)).
  unfold callback_set. rewrite Hk, Ecb, Hf. cbn [andb].
  destruct (mr_pCallbackContext (mf_reader s) =? NULL); cbn [negb when];
    rewrite (bind_done _ _ _ _ _ E1); [done|]. by rewrite bind_assoc.
Qed.
End errors.

(** * Runs *)

(** A stream that goes; OnFlush runs during the second wait. *)
Definition going_mf_reader : CMFCameraReader :=
  open_mf_reader <| mr_started := true |> <| mr_width_pixels := 2 |> <| mr_height_pixels := 1 |>
    <| mr_image_format := ZSA_IMAGE_FORMAT_COLOR_YUY2 |> <| mr_pCallback := stream_callback 1 |> <| mr_pCallbackContext := 99 |>.
Definition flushing_mf : MediaFoundation :=
  sample_mf_with [] [] (fun n s => if (n =? 1)%nat then final (OnFlush (H0 := sample_mf)) s else s) S_OK.
Definition refusing_mf : MediaFoundation := sample_mf_with [] [] (fun n s => s) (-1).


Lemma mf_error_reported_twice_witness :
  let M := sample_mf in let C : ReaderClient := fun _ _ _ _ => mret tt in
  OnReadSample (H0 := M) (H1 := C) 3 (-1) None (mf_world_of open_mf_reader) = Fault NullDeref.
Proof. intros M C. exact (mf_error_reported_twice (H0 := M) (H1 := C) 3 (-1) None (mf_world_of open_mf_reader) eq_refl). Defined.
