(* ===== verification/MfOpen.v ===== *)
(** src/color/mfcamerareader.cpp: finding the camera among the devices, and
    starting a stream of the mode that is asked for. *)

From S2P Require Export MfStream.

(** * Finding the camera *)

(** What a sequence of calls leaves of the strings it made, and the devices it
    released. *)
Fixpoint strings_left (es : list mf_event) : Z :=
  match es with
  | [] => 0
  | ENewString _ :: es => 1 + strings_left es
  | EDeleteString :: es => strings_left es - 1
  | _ :: es => strings_left es
  end.
Fixpoint devices_released (es : list mf_event) : list Z :=
  match es with
  | [] => []
  | EReleaseDevice d :: es => d :: devices_released es
  | _ :: es => devices_released es
  end.

Lemma strings_left_app es es' : strings_left (es ++ es') = strings_left es + strings_left es'.
Proof. induction es as [|[] es IH]; cbn; lia. Qed.
Lemma devices_released_app es es' : devices_released (es ++ es') = devices_released es ++ devices_released es'.
Proof. induction es as [|[] es IH]; cbn; congruence. Qed.

Section find.
Context `{Platform} `{MediaFoundation} `{ReaderClient}.
Implicit Types (s : mf_world) (d : mf_device) (es : list mf_event).

Definition after s es : mf_world := s <| mf_events := mf_events s ++ es |>.

Lemma after_nil s : s = after s [].
Proof. unfold after, update_field. cbn. rewrite app_nil_r. by destruct s. Qed.
Lemma after_after s es es' : after (after s es) es' = after s (es ++ es').
Proof. unfold after, update_field. cbn. by rewrite app_assoc. Qed.

(** What is asked for is granted. *)
Definition all_succeed : Prop := (forall t c, SUCCEEDED (mf_answer t c) = true) /\ forall t, mf_new_string t = true.

(** Calls that touch nothing but what they are recorded as, and that leave no
    string and no device behind. *)
Definition tidy {A} (m : MF A) (Q : A -> Prop) : Prop :=
  forall s, exists a es, m s = Done a (after s es) /\ strings_left es = 0 /\ devices_released es = [] /\ Q a.

Lemma tidy_ret {A} (a : A) (Q : A -> Prop) : Q a -> tidy (mret a) Q.
Proof. intros Ha s. exists a, []. by rewrite <- after_nil. Qed.

Lemma tidy_com c : tidy (com c) (fun hr => all_succeed -> SUCCEEDED hr = true).
Proof. intros s. eexists _, [_]. split_and!; [reflexivity|done|done|]. intros [Hc _]. apply Hc. Qed.

Lemma tidy_ask {A} (f : list mf_event -> A) (Q : A -> Prop) : (forall t, Q (f t)) -> tidy (mf_ask f) Q.
Proof. intros Hf s. eexists _, []. rewrite <- after_nil. by split_and!. Qed.

Lemma tidy_bind {A B} (m : MF A) (f : A -> MF B) Q R :
  tidy m Q -> (forall a, Q a -> tidy (f a) R) -> tidy (m ≫= f) R.
Proof.
  intros Hm Hf s. destruct (Hm s) as (a & es & E & Hs & Hr & Ha). destruct (Hf a Ha (after s es)) as (b & es' & E' & Hs' & Hr' & Hb).
  exists b, (es ++ es'). rewrite (bind_done _ _ _ _ _ E), E', after_after.
  split_and!; [done| |by rewrite devices_released_app, Hr, Hr'|done]. rewrite strings_left_app. lia.
Qed.

Lemma tidy_weaken {A} (m : MF A) (Q R : A -> Prop) : tidy m Q -> (forall a, Q a -> R a) -> tidy m R.
Proof. intros Hm HR s. destruct (Hm s) as (a & es & E & Hs & Hr & Ha). exists a, es. auto. Qed.

(** A string that is made and deleted around tidy calls. *)
Lemma tidy_string {A B} n (m : MF A) (f : A -> B) (Q : A -> Prop) (R : B -> Prop) :
  tidy m Q -> (forall a, Q a -> R (f a)) ->
  tidy (mf_note (ENewString n);; a ← m; let found := f a in mf_note EDeleteString;; mret found) R.
Proof.
  intros Hm HR s. destruct (Hm (after s [ENewString n])) as (a & es & E & Hs & Hr & Ha).
  exists (f a), ([ENewString n] ++ es ++ [EDeleteString]). rewrite (bind_done _ _ _ _ _ (eq_refl : mf_note _ s = Done tt (after s [ENewString n]))).
  rewrite (bind_done _ _ _ _ _ E). cbv zeta. rewrite after_after.
  split_and!; [|cbn; rewrite strings_left_app; cbn; lia|cbn; by rewrite devices_released_app, Hr|auto].
  erewrite bind_done by reflexivity. change (Done (f a) (after (after s ([ENewString n] ++ es)) [EDeleteString]) = Done (f a) (after s ([ENewString n] ++ es ++ [EDeleteString]))).
  by rewrite after_after, app_assoc.
Qed.

Lemma tidy_try containerId d :
  tidy (try_device containerId d) (fun found =>
    (found = true -> device_matches containerId (dv_link d) = true) /\
    (all_succeed -> found = device_matches containerId (dv_link d))).
Proof.
  unfold try_device. eapply tidy_bind; [apply tidy_com|]. intros hr1. cbv beta.
  destruct (SUCCEEDED hr1); intros Hc1; [|apply tidy_ret; split; [done|intros Ha; by specialize (Hc1 Ha)]].
  eapply tidy_bind; [apply tidy_com|]. intros hr2. cbv beta.
  destruct (SUCCEEDED hr2); intros Hc2; [|apply tidy_ret; split; [done|intros Ha; by specialize (Hc2 Ha)]].
  eapply tidy_bind; [apply (tidy_ask _ (fun ok => all_succeed -> ok = true)); by intros t [_ Hn]|]. intros ok Hc3.
  destruct ok; [|apply tidy_ret; split; [done|intros Ha; by specialize (Hc3 Ha)]].
  apply (tidy_string _ _ (fun hr => SUCCEEDED hr && device_matches containerId (dv_link d)) _ _ (tidy_com _)).
  intros hr Hc4. split; [by intros [_ ?]%andb_true_iff|]. intros Ha. by rewrite (Hc4 Ha).
Qed.

Definition matching (containerId : list Z) d : bool := device_matches containerId (dv_link d).

Lemma tidy_find containerId devices :
  tidy (find_device containerId devices) (fun dev =>
    (forall p, dev = Some p -> exists d, d ∈ devices /\ dv_activate d = p /\ matching containerId d = true) /\
    (all_succeed -> dev = dv_activate <$> List.find (matching containerId) devices)).
Proof.
  induction devices as [|d devices IH]; cbn [find_device List.find]; [by apply tidy_ret|].
  eapply tidy_bind; [apply tidy_try|]. intros found [Hf Hok]. fold (matching containerId d) in Hf, Hok. destruct found.
  - apply tidy_ret. split; [|intros Ha; by rewrite <- (Hok Ha)]. intros p [= <-]. exists d. split_and!; [by left|done|auto].
  - eapply tidy_weaken; [exact IH|]. intros dev [Hd1 Hd2]. split.
    + intros p Hp. destruct (Hd1 p Hp) as (d' & ? & ? & ?). exists d'. split_and!; [by right|done..].
    + intros Ha. by rewrite <- (Hok Ha), Hd2.
Qed.

Lemma release_run devices s :
  release_devices devices s = Done tt (after s (map (EReleaseDevice ∘ dv_activate) devices ++ [ECoTaskMemFree])).
Proof.
  revert s. induction devices as [|d devices IH]; intros s; [done|]. cbn [release_devices map].
  rewrite (bind_done _ _ _ _ _ (eq_refl : mf_note _ s = Done tt (after s [EReleaseDevice (dv_activate d)]))), IH.
  by rewrite after_after.
Qed.

(** What FindEdenColorCamera promises. *)
Definition camera_found (containerId : list Z) s (o : outcome mf_world (Z * option Z)) : Prop :=
  exists hr dev es devices, o = Done (hr, dev) (after s es) /\
    strings_left es = 0 /\ devices_released es = dv_activate <$> devices /\
    (SUCCEEDED hr = true -> exists d, d ∈ devices /\ dev = Some (dv_activate d) /\ matching containerId d = true) /\
    (all_succeed -> dev = dv_activate <$> List.find (matching containerId) devices /\
       hr = if dev is Some _ then S_OK else MF_E_NOT_FOUND).

(** A call that ends the search when it fails. *)
Lemma camera_found_step containerId s es c (next : MF (Z * option Z)) :
  strings_left es = 0 -> devices_released es = [] ->
  (forall hr, camera_found containerId s (next (after s (es ++ [ECall c hr])))) ->
  camera_found containerId s ((hr ← com c; if FAILED hr then mret (hr, None) else next) (after s es)).
Proof.
  intros Hs Hr Hn. rewrite (bind_done _ _ _ _ _ (com_run c (after s es))). set (hr := mf_answer _ c).
  assert (Hc : all_succeed -> SUCCEEDED hr = true) by (intros [Hc _]; apply Hc).
  change (_ <| mf_events := _ |>) with (after (after s es) [ECall c hr]). rewrite after_after.
  unfold FAILED. destruct (SUCCEEDED hr) eqn:E; cbn [negb]; [apply Hn|].
  eexists hr, None, _, []. split_and!; [reflexivity| | | |].
  - rewrite strings_left_app, Hs. done.
  - by rewrite devices_released_app, Hr.
  - congruence.
  - intros Ha. by specialize (Hc Ha).
Qed.

End find.

(** * Starting *)

Section start.
Context `{Platform} `{MediaFoundation} `{ReaderClient}.
Implicit Types (s : mf_world) (t : mf_media_type).

(** What is relied on in Media Foundation (mfreadwrite.h): the native types of
    the camera are numbered from 0 on, and the end of the list is reported as
    such; and every other call succeeds. *)
Record camera_has (types : list mf_media_type) : Prop := mkCameraHas {
  ch_type : forall e i t, types !! i = Some t ->
    SUCCEEDED (mf_answer e (C_GetNativeMediaType (Z.of_nat i))) = true /\ mf_media_type_at e (Z.of_nat i) = t;
  ch_end : forall e, mf_answer e (C_GetNativeMediaType (Z.of_nat (length types))) = MF_E_NO_MORE_TYPES;
  ch_count : Z.of_nat (length types) < 2 ^ 32;
  ch_other : forall e c, (forall i, c <> C_GetNativeMediaType i) -> SUCCEEDED (mf_answer e c) = true
}.

(** The reader can be asked for a stream. *)
Definition ready s : Prop :=
  mr_lock (mf_reader s) = RwIdle /\ mr_started (mf_reader s) = false /\ mr_spSourceReader (mf_reader s) <> NULL.

Lemma via_after c s es :
  mr_spSourceReader (mf_reader s) <> NULL ->
  via_source_reader c (after s es) = Done (mf_answer (mf_events (after s es)) c) (after s (es ++ [ECall c (mf_answer (mf_events (after s es)) c)])).
Proof. intros Hn. rewrite via_source_reader_run by done. rewrite <- after_after. apply com_run. Qed.

Lemma com_after c s es :
  com c (after s es) = Done (mf_answer (mf_events (after s es)) c) (after s (es ++ [ECall c (mf_answer (mf_events (after s es)) c)])).
Proof. rewrite <- after_after. apply com_run. Qed.

(** The search from the i-th type on. *)
Lemma find_type_run types (matches : mf_media_type -> bool) s es i fuel :
  camera_has types -> mr_spSourceReader (mf_reader s) <> NULL -> (i <= length types)%nat -> (length types < i + fuel)%nat ->
  exists es', find_media_type fuel matches (Z.of_nat i) (after s es) =
    Done (inr ((fun '(j, _) => Z.of_nat (i + j)) <$> list_find matches (drop i types))) (after s (es ++ es')).
Proof.
  intros Hc Hn. revert es i. induction fuel as [|fuel IH]; intros es i Hi Hlen; [lia|]. cbn [find_media_type].
  erewrite (bind_done (mf_ask _)) by reflexivity. rewrite (bind_done _ _ _ _ _ (via_after _ _ _ Hn)).
  destruct (types !! i) as [t|] eqn:Ht.
  - rewrite (drop_S _ _ _ Ht). destruct (ch_type _ Hc (mf_events (after s es)) _ _ Ht) as [Hok ->]. rewrite Hok.
    do 3 (rewrite (bind_done _ _ _ _ _ (com_after _ _ _)); unfold FAILED at 1; rewrite (ch_other _ Hc) by done; cbn [negb]).
    destruct (matches t) eqn:Em.
    + eexists. rewrite <- !app_assoc. cbn [list_find]. rewrite decide_True by (by rewrite Em). cbn. by rewrite Nat.add_0_r.
    + assert (i < length types)%nat by by eapply lookup_lt_Some. pose proof (ch_count _ Hc).
      rewrite u32_id by lia. replace (Z.of_nat i + 1) with (Z.of_nat (S i)) by lia.
      match goal with |- context [find_media_type _ _ _ (after s ?es1)] => destruct (IH es1 (S i)) as [es' ->]; [lia|lia|] end. eexists. rewrite <- !app_assoc. f_equal. cbn [list_find]. rewrite decide_False by (rewrite Em; by intros []).
      destruct (list_find matches (drop (S i) types)) as [[j t']|]; cbn; [|done]. by rewrite Nat.add_succ_r.
  - apply lookup_ge_None in Ht. assert (i = length types) as -> by lia. rewrite (ch_end _ Hc). cbn.
    rewrite drop_all. by eexists.
Qed.

(** A step that succeeds. *)
Lemma hr_step_com types c next s es :
  camera_has types -> (forall i, c <> C_GetNativeMediaType i) ->
  exists hr, hr_step (com c) next (after s es) = next (after s (es ++ [ECall c hr])).
Proof.
  intros Hc Hn. unfold hr_step. rewrite (bind_done _ _ _ _ _ (com_after _ _ _)). unfold FAILED. rewrite (ch_other _ Hc) by done. by eexists.
Qed.

Lemma set_media_type_run types j device output s es :
  camera_has types -> mr_spSourceReader (mf_reader s) <> NULL ->
  exists hr es1 es2 hr', set_media_type j device output (after s es) =
    Done hr (after s (es ++ es1 ++ [ECall (C_SetNativeMediaType j) hr'] ++ es2 ++ [ECall (C_SetCurrentMediaType output) hr])) /\
    SUCCEEDED hr = true.
Proof.
  intros Hc Hn. unfold set_media_type.
  destruct (hr_step_com types C_As_SourceReaderEx (hr_step (com (C_SetNativeMediaType j)) (
    if bool_decide (device <> output) then
      hr_step (com C_MFCreateMediaType) (hr_step (com C_CopyAllItems) (hr_step (com (C_SetSubtype output)) (
        via_source_reader (C_SetCurrentMediaType output))))
    else via_source_reader (C_SetCurrentMediaType output))) s es Hc ltac:(done)) as [hr1 ->].
  match goal with |- context [hr_step (com ?c) ?n (after s ?e)] => destruct (hr_step_com types c n s e Hc ltac:(done)) as [hr2 ->] end.
  case_bool_decide.
  - do 3 (match goal with |- context [hr_step (com ?c) ?n (after s ?e)] => destruct (hr_step_com types c n s e Hc ltac:(done)) as [? ->] end).
    rewrite via_after by done. eexists _, [_], [_; _; _], _. split; [by rewrite <- !app_assoc|by apply (ch_other _ Hc)].
  - rewrite via_after by done. eexists _, [_], [], _. split; [by rewrite <- !app_assoc|by apply (ch_other _ Hc)].
Qed.

Lemma set_reader_after f s es :
  set_reader f (after s es) = Done tt (after (s <| mf_reader := f (mf_reader s) |>) es).
Proof. done. Qed.

Lemma lock_exclusive_after s es :
  mr_lock (mf_reader s) = RwIdle ->
  LockExclusive (after s es) = Done tt (after (s <| mf_reader := (mf_reader s) <| mr_lock := RwWriter |> |>) es).
Proof. intros Hl. by rewrite lock_exclusive_run. Qed.

(** The reader of a stream that goes. *)
Definition started_reader r (width height imageFormat : Z) (cb : color_cb_stream_t) (context : Z) : CMFCameraReader :=
  r <| mr_started := true |> <| mr_width_pixels := width |> <| mr_height_pixels := height |> <| mr_image_format := imageFormat |>
    <| mr_pCallback := cb |> <| mr_pCallbackContext := context |>.

Lemma start_stream_run types width height imageFormat cb context s es :
  camera_has types -> ready s ->
  exists hr es', start_stream width height imageFormat cb context (after s es) =
    Done hr (after (s <| mf_reader := started_reader (mf_reader s) width height imageFormat cb context |>) (es ++ es')) /\
    SUCCEEDED hr = true.
Proof.
  intros Hc (Hl & Hst & Hn). unfold start_stream, hr_step. rewrite (bind_done _ _ _ _ _ (via_after _ _ _ Hn)).
  unfold FAILED. rewrite (ch_other _ Hc) by done. cbn [negb]. set (es1 := es ++ _).
  rewrite (bind_done _ _ _ _ _ (lock_exclusive_after s es1 Hl)).
  rewrite (bind_done _ _ _ _ _ (set_reader_after _ _ _)). erewrite bind_done by (apply via_after; exact Hn). cbv beta.
  rewrite (ch_other _ Hc) by done. cbn [when]. unfold lock_Unlock.
  rewrite (bind_done _ _ _ _ _ (set_reader_after _ _ _)), (bind_done _ _ _ _ _ (set_reader_after _ _ _)).
  match goal with |- context [ECall C_ReadSample ?hr] => exists hr end.
  eexists. split; [|by apply (ch_other _ Hc)]. unfold es1. rewrite <- app_assoc. cbn [mret]. unfold M_ret. f_equal. f_equal.
  destruct s as [[lk mfs st fl mfb hz ev src ks w h fm cb0 ctx0] frames nxt sg waits evs wd]. cbn in Hl, Hst. subst. by vm_compute.
Qed.

End start.

(** A camera with two modes, asked for the second. *)
Definition two_modes : list mf_media_type :=
  [mkMediaType (1280, 720) (30, 1) MFVideoFormat_NV12; mkMediaType (1920, 1080) (30, 1) MFVideoFormat_MJPG].
Definition two_mode_mf : MediaFoundation := sample_mf_with two_modes [] (fun _ s => s) S_OK.

Lemma two_mode_camera : camera_has (H0 := two_mode_mf) two_modes.
Proof.
  split.
  - intros e i t Ht. assert (i < length two_modes)%nat by by eapply lookup_lt_Some.
    cbn -[two_modes]. rewrite (proj2 (Z.ltb_lt _ _)) by lia. rewrite Nat2Z.id, Ht. done.
  - done.
  - cbn. lia.
  - intros e [] Hc; try done. by destruct (Hc index).
Qed.

Lemma second_mode_found :
  list_find (type_matches 1920 1080 (f32_of_Z 30) MFVideoFormat_MJPG) two_modes =
  Some (1%nat, mkMediaType (1920, 1080) (30, 1) MFVideoFormat_MJPG).
Proof. vm_compute. reflexivity. Qed.

