(* ===== verification/MfSample.v ===== *)
(** src/color/mfcamerareader.cpp: what becomes of a sample, from its frame
    context to the capture that the client is called with, and back. *)

From S2P Require Export MfOpen UvcFrame.

Section samples.
Context `{Platform} `{MediaFoundation} `{ReaderClient}.
Implicit Types (s : mf_world) (w : world) (r : CMFCameraReader) (f : CFrameContext) (smp : mf_sample).

(** * Calls of the other modules *)

Lemma sdk_run {A} (m : Mw A) s (a : A) w :
  m (mf_sdk s) = Done a w -> trace w = trace (mf_sdk s) -> sdk m s = Done a (s <| mf_sdk := w |>).
Proof. intros E Ht. unfold sdk. rewrite E, Ht, drop_all. done. Qed.

(** A call that is known by its specification and makes no calls back. *)
Lemma sdk_wp {A B} (m : Mw A) (next : A -> MF B) (Q : A -> world -> Prop) s (P : outcome mf_world B -> Prop) :
  wp m (fun a w => trace w = trace (mf_sdk s) /\ Q a w) (mf_sdk s) ->
  (forall a w, Q a w -> trace w = trace (mf_sdk s) -> P (next a (s <| mf_sdk := w |>))) -> P ((sdk m ≫= next) s).
Proof.
  intros Hm HP. unfold wp in Hm. destruct (m (mf_sdk s)) as [a w|] eqn:E; [|done]. destruct Hm as [Ht Hq].
  rewrite (bind_done _ _ _ _ _ (sdk_run _ _ _ _ E Ht)). by apply HP.
Qed.

(** * The image and its capture *)

(** The image over the buffer of the frame context at [p]. *)
Definition mf_image r f (p : Z) : image_context_t :=
  wrapped_image (mr_image_format r) (s32 (mr_width_pixels r)) (s32 (mr_height_pixels r)) (GetStride r) (fc_pBuffer f)
    (fc_bufferLength f) (image_cb_user FrameDestroyCallback_id) p.

(** With what is known of the frame, and held by its capture too. *)
Definition mf_filled smp f (i : image_context_t) : image_context_t :=
  i <| img_sys_timestamp_nsec := u64 (snd (sm_device_timestamp smp) * 100) |>
    <| img_dev_timestamp_usec := ZSA_90K_HZ_TICK_TO_USEC (fc_capturePTS f) |>
    <| img_exposure_time_usec := fc_exposureTime f |> <| img_white_balance := fc_whiteBalance f |>
    <| img_iso_speed := fc_isoSpeed f |> <| img_ref_count := img_ref_count i + 1 |>.

(** The same as a frame of the other reader. *)
Lemma mf_filled_filled smp f i :
  mf_filled smp f i =
  filled (mkUvcFrame [] 0 0 0 0 [] 0 0 (snd (sm_device_timestamp smp) * 100))
    (mkMetadata (fc_capturePTS f) (fc_exposureTime f) (fc_isoSpeed f) (fc_whiteBalance f)) i.
Proof.
  assert (E : frame_timestamp_nsec (mkUvcFrame [] 0 0 0 0 [] 0 0 (snd (sm_device_timestamp smp) * 100)) =
    u64 (snd (sm_device_timestamp smp) * 100)).
  { unfold frame_timestamp_nsec. cbn [fr_tv_sec fr_tv_nsec]. change (u64 (u64 0 * 1000000000)) with 0. rewrite Z.add_0_l. by apply Z.mod_mod. }
  destruct i. unfold mf_filled, filled. rewrite E. reflexivity.
Qed.

Lemma inv_mf_fill busy ext w image i capture smp f :
  Inv busy ext w -> has w image i -> has w capture new_capture -> image ∉ busy -> capture ∉ busy ->
  Inv busy ext (w <| heap := <[capture := OCapture (color_capture image)]> (<[image := OImage (mf_filled smp f i)]> (heap w)) |>).
Proof. rewrite mf_filled_filled. apply inv_fill. Qed.

Lemma frame_context_run s p f :
  p <> NULL -> mf_frames s !! p = Some f -> frame_context p s = Done f s.
Proof.
  intros Hp Hf. unfold frame_context. rewrite (proj2 (Z.eqb_neq _ _) Hp).
  erewrite (bind_done (gets _)) by reflexivity. by rewrite Hf.
Qed.

Lemma run_of_wp (m : Mw unit) w w' : wp m (fun _ w1 => w1 = w') w -> m w = Done tt w'.
Proof. unfold wp. destruct (m w) as [[] w1|]; [|done]. by intros ->. Qed.

Definition with_heap s (h : gmap Z obj) : mf_world := s <| mf_sdk := (mf_sdk s) <| heap := h |> |>.

Lemma with_heap_twice s h h' : with_heap (with_heap s h) h' = with_heap s h'.
Proof. done. Qed.

Lemma sdk_image_set_run g h i s :
  has (mf_sdk s) h i -> sdk (image_set g h) s = Done tt (with_heap s (<[h := OImage (g i)]> (heap (mf_sdk s)))).
Proof. intros Hh. apply sdk_run; [|done]. by eapply run_of_wp, wp_image_set. Qed.

(** A further write to the same image. *)
Lemma sdk_image_set_again g h j m s :
  h <> NULL -> sdk (image_set g h) (with_heap s (<[h := OImage j]> m)) = Done tt (with_heap s (<[h := OImage (g j)]> m)).
Proof.
  intros Hn. rewrite (sdk_image_set_run g h j) by (split; [done|apply lookup_insert_eq]).
  rewrite with_heap_twice. cbn. by rewrite fin_maps.insert_insert_eq.
Qed.

Lemma sdk_set_color_run image i capture s :
  has (mf_sdk s) image i -> has (mf_sdk s) capture new_capture ->
  sdk (capture_set_color_image capture image) s = Done tt (with_heap s
    (<[capture := OCapture (color_capture image)]> (<[image := OImage (i <| img_ref_count := img_ref_count i + 1 |>)]> (heap (mf_sdk s))))).
Proof. intros Hi Hc. apply sdk_run; [|done]. by eapply run_of_wp, wp_set_color_empty. Qed.

(** The capture is filled if the sample has a time stamp. *)
Lemma sample_fill_run smp p f image i capture s :
  p <> NULL -> mf_frames s !! p = Some f -> has (mf_sdk s) image i -> has (mf_sdk s) capture new_capture ->
  sample_fill smp p image capture s =
  if FAILED (fst (sm_device_timestamp smp)) then Done ZSA_RESULT_FAILED s
  else Done ZSA_RESULT_SUCCEEDED (with_heap s
    (<[capture := OCapture (color_capture image)]> (<[image := OImage (mf_filled smp f i)]> (heap (mf_sdk s))))).
Proof.
  intros Hp Hf [Hin Hi] [Hcn Hc]. assert (Hne : image <> capture) by (intros ->; rewrite Hi in Hc; discriminate).
  unfold sample_fill. destruct (sm_device_timestamp smp) as [hr ts] eqn:Ets. cbn [fst]. destruct (FAILED hr); [done|].
  rewrite (bind_done _ _ _ _ _ (frame_context_run _ _ _ Hp Hf)).
  erewrite bind_done by (apply sdk_image_set_run; by split).
  do 4 (erewrite bind_done by (by apply sdk_image_set_again)).
  erewrite bind_done by (apply sdk_set_color_run; (split; [done|]); cbn; [apply lookup_insert_eq|by rewrite lookup_insert_ne]).
  rewrite with_heap_twice. unfold mf_filled. rewrite Ets. cbn. by rewrite fin_maps.insert_insert_eq.
Qed.

(** * The sample as a whole *)

(** The rest of OnReadSample's inner block: the client is called, and what the
    reader holds is given back. *)
Definition finish_sample (pFrameContext : Z) (FrameContextRefd dropped : bool) (result : zsa_result_t) (image capture : Z) : MF unit :=
  when (negb dropped) (mf_callback result capture);;
  when (negb FrameContextRefd) (delete_frame_context pFrameContext);;
  when (negb (image =? NULL)) (sdk (image_dec_ref image));;
  when (negb (capture =? NULL)) (sdk (capture_dec_ref capture)).

(** The state with the frame context, and with the world [w]. *)
Definition with_frame s f w : mf_world :=
  s <| mf_frames := <[mf_next s := f]> (mf_frames s) |> <| mf_next := mf_next s + 1 |>
    <| mf_events := mf_events s ++ [ENewFrame (mf_next s)] |> <| mf_sdk := w |>.

(** A sample that can be read and has a time stamp of the camera, and a reader
    that hands Media Foundation's buffers on. *)
Record sample_arrives (ext : ledger) smp f s : Prop := mkSampleArrives {
  sa_inv : Inv ∅ ext (mf_sdk s);
  sa_mode : mr_use_mf_buffer (mf_reader s) = true;
  sa_next : mf_next s <> NULL;
  sa_new : mf_new_frame (mf_events s) = true;
  sa_context : forall s, construct_CFrameContext smp s = Done f s;
  sa_timestamp : fc_capturePTS f <> 0;
  sa_args : buffer_args_ok (mr_image_format (mf_reader s)) (s32 (mr_width_pixels (mf_reader s)))
    (s32 (mr_height_pixels (mf_reader s))) (fc_pBuffer f) (fc_bufferLength f)
}.

Definition sample_called (ext : ledger) smp f s (result : zsa_result_t) (image capture : Z) w : Prop :=
  let i := mf_image (mf_reader s) f (mf_next s) in
  match result with
  | ZSA_RESULT_SUCCEEDED =>
      Inv ∅ (gain (gain ext (KImage, image)) (KCapture, capture)) w /\
      has w capture (color_capture image) /\ has w image (mf_filled smp f i) /\
      heap (mf_sdk s) !! image = None /\ heap (mf_sdk s) !! capture = None
  | ZSA_RESULT_FAILED =>
      image = NULL /\ capture = NULL /\ Inv ∅ ext w \/
      capture = NULL /\ Inv ∅ (gain ext (KImage, image)) w /\ has w image i \/
      FAILED (fst (sm_device_timestamp smp)) = true /\
        Inv ∅ (gain (gain ext (KImage, image)) (KCapture, capture)) w /\ has w image i /\ has w capture new_capture
  end.

Lemma new_frame_run smp f s :
  mf_new_frame (mf_events s) = true -> (forall s, construct_CFrameContext smp s = Done f s) ->
  new_CFrameContext smp s = Done (mf_next s) (with_frame s f (mf_sdk s)).
Proof.
  intros Hn Hc. unfold new_CFrameContext.
  rewrite (bind_done _ _ _ _ _ (eq_refl : mf_ask mf_new_frame s = Done (mf_new_frame (mf_events s)) s)), Hn.
  erewrite (bind_done (gets _)) by reflexivity. rewrite (bind_done _ _ _ _ _ (Hc s)). by destruct s.
Qed.

(** From the image on. *)
Lemma deliver_from_image ext smp f s image w (P : outcome mf_world unit -> Prop) :
  sample_arrives ext smp f s -> trace w = trace (mf_sdk s) ->
  image = fresh (mf_sdk s) -> heap w = <[image := OImage (mf_image (mf_reader s) f (mf_next s))]> (heap (mf_sdk s)) ->
  Inv ∅ (gain ext (KImage, image)) w ->
  (forall result capture w', sample_called ext smp f s result image capture w' -> trace w' = trace (mf_sdk s) ->
     ((forall n, calloc_ok n = true) -> SUCCEEDED (fst (sm_device_timestamp smp)) = true -> result = ZSA_RESULT_SUCCEEDED) ->
     P (finish_sample (mf_next s) true false result image capture (with_frame s f w'))) ->
  P (('(result, capture) ← ('(result, capture) ← sdk (capture_create true); mret (result, default NULL capture));
      result ← (if ZSA_SUCCEEDED result then sample_fill smp (mf_next s) image capture else mret result);
      finish_sample (mf_next s) true false result image capture) (with_frame s f w)).
Proof.
  intros Ha Ht -> Eh HI HP. set (image := fresh (mf_sdk s)) in *.
  pose proof (inv_fresh _ _ _ HI) as Hf. pose proof (inv_fresh_none _ _ _ HI) as Hnone.
  pose proof (inv_fresh_none _ _ _ (sa_inv _ _ _ _ Ha)) as Hnone0. pose proof (inv_fresh _ _ _ (sa_inv _ _ _ _ Ha)) as Hf0.
  assert (Hi : has w image (mf_image (mf_reader s) f (mf_next s))) by (split; [unfold NULL, image; lia|]; by rewrite Eh, lookup_insert_eq).
  assert (Hni : image <> fresh w) by (intros E; destruct Hi as [_ Hi]; rewrite E, Hnone in Hi; discriminate).
  rewrite bind_assoc. eapply (sdk_wp _ _ (fun res w1 =>
    (match res with
     | (ZSA_RESULT_SUCCEEDED, out) => out = Some (fresh w) /\ has w1 (fresh w) new_capture /\
         heap w1 = <[fresh w := OCapture new_capture]> (heap w) /\ Inv ∅ (gain (gain ext (KImage, image)) (KCapture, fresh w)) w1
     | (ZSA_RESULT_FAILED, out) => out = Some NULL /\ heap w1 = heap w /\ Inv ∅ (gain ext (KImage, image)) w1
     end) /\ ((forall n, calloc_ok n = true) -> fst res = ZSA_RESULT_SUCCEEDED))).
  { change (mf_sdk (with_frame s f w)) with w. eapply wp_mono.
    - eapply (wp_and_if (forall n, calloc_ok n = true) _ _ (fun res _ => fst res = ZSA_RESULT_SUCCEEDED));
        [by apply (wp_capture_create _ _ _ HI)|]. intros Hc. by apply capture_create_ok.
    - by intros [[] out] w1 [[? ?] ?]. }
  change (trace (mf_sdk (with_frame s f w))) with (trace w).
  intros [[] out] w1 [Hpost Hok] Ht1; cbv beta iota; erewrite bind_done by reflexivity; cbn [ZSA_SUCCEEDED].
  - destruct Hpost as (-> & Hc & Eh1 & HI1). change (default NULL (Some (fresh w))) with (fresh w).
    assert (Hi1 : has w1 image (mf_image (mf_reader s) f (mf_next s))) by (split; [apply Hi|]; rewrite Eh1, lookup_insert_ne by done; apply Hi).
    assert (Hc0 : heap (mf_sdk s) !! fresh w = None) by (rewrite Eh, lookup_insert_ne in Hnone; done).
    change ((with_frame s f w) <| mf_sdk := w1 |>) with (with_frame s f w1).
    pose proof (sample_fill_run smp (mf_next s) f image _ (fresh w) (with_frame s f w1) (sa_next _ _ _ _ Ha)
      (lookup_insert_eq _ _ _) Hi1 Hc) as E. destruct (FAILED _) eqn:Ef.
    + rewrite (bind_done _ _ _ _ _ E). apply HP; [right; right; by split_and!|congruence|].
      intros _ Hs. unfold FAILED in Ef. rewrite Hs in Ef. discriminate.
    + rewrite (bind_done _ _ _ _ _ E). apply (HP ZSA_RESULT_SUCCEEDED (fresh w) (w1 <| heap := _ |>)); [|cbn; congruence|done].
      split_and!; [by apply inv_mf_fill|split; [unfold NULL; lia|]; apply lookup_insert_eq| |done|done].
      split; [apply Hi|]. cbn. rewrite lookup_insert_ne by done. apply lookup_insert_eq.
  - destruct Hpost as (-> & Eh1 & HI1). change (default NULL (Some NULL)) with NULL.
    erewrite (bind_done (mret _)) by reflexivity. change ((with_frame s f w) <| mf_sdk := w1 |>) with (with_frame s f w1).
    apply HP; [right; left; split_and!; [done|done|]|congruence|intros Hc; by specialize (Hok Hc)].
    split; [apply Hi|]. rewrite Eh1. apply Hi.
Qed.

Lemma deliver_sample_run ext smp f s :
  sample_arrives ext smp f s ->
  exists result image capture w,
    deliver_sample smp s = finish_sample (mf_next s) true false result image capture (with_frame s f w) /\
    trace w = trace (mf_sdk s) /\ sample_called ext smp f s result image capture w /\
    ((forall n, calloc_ok n = true) -> (forall n, Lock_Init_ok n = true) -> SUCCEEDED (fst (sm_device_timestamp smp)) = true ->
     result = ZSA_RESULT_SUCCEEDED).
Proof.
  intros Ha. pose proof (inv_fresh _ _ _ (sa_inv _ _ _ _ Ha)) as Hf0.
  enough (forall P : outcome mf_world unit -> Prop,
    (forall result image capture w, trace w = trace (mf_sdk s) -> sample_called ext smp f s result image capture w ->
      ((forall n, calloc_ok n = true) -> (forall n, Lock_Init_ok n = true) -> SUCCEEDED (fst (sm_device_timestamp smp)) = true ->
       result = ZSA_RESULT_SUCCEEDED) ->
      P (finish_sample (mf_next s) true false result image capture (with_frame s f w))) -> P (deliver_sample smp s)) as HP.
  { apply HP. intros result image capture w Ht Hc Hok. by exists result, image, capture, w. }
  intros P HP. unfold deliver_sample.
  rewrite (bind_done _ _ _ _ _ (new_frame_run smp f s (sa_new _ _ _ _ Ha) (sa_context _ _ _ _ Ha))).
  assert (Hfr : frame_context (mf_next s) (with_frame s f (mf_sdk s)) = Done f (with_frame s f (mf_sdk s)))
    by (apply frame_context_run; [apply Ha|apply lookup_insert_eq]).
  unfold sample_image. rewrite (proj2 (Z.eqb_neq _ _) (sa_next _ _ _ _ Ha)), bind_assoc, (bind_done _ _ _ _ _ Hfr).
  rewrite (proj2 (Z.eqb_neq _ _) (sa_timestamp _ _ _ _ Ha)), bind_assoc, (bind_done _ _ _ _ _ (reader_run _)).
  change (mf_reader (with_frame s f (mf_sdk s))) with (mf_reader s). rewrite (sa_mode _ _ _ _ Ha), bind_assoc.
  unfold CreateImage. rewrite bind_assoc, (bind_done _ _ _ _ _ (reader_run _)), bind_assoc, (bind_done _ _ _ _ _ Hfr), bind_assoc.
  change (mf_reader (with_frame s f (mf_sdk s))) with (mf_reader s).
  eapply (sdk_wp _ _ (fun res w =>
    (match res with
     | (ZSA_RESULT_SUCCEEDED, out) => out = Some (fresh (mf_sdk s)) /\
         heap w = <[fresh (mf_sdk s) := OImage (mf_image (mf_reader s) f (mf_next s))]> (heap (mf_sdk s)) /\
         Inv ∅ (gain ext (KImage, fresh (mf_sdk s))) w
     | (ZSA_RESULT_FAILED, out) => out = Some NULL /\ heap w = heap (mf_sdk s) /\ Inv ∅ ext w
     end) /\ ((forall n, calloc_ok n = true) /\ (forall n, Lock_Init_ok n = true) -> fst res = ZSA_RESULT_SUCCEEDED))).
  { change (mf_sdk (with_frame s f (mf_sdk s))) with (mf_sdk s). eapply wp_mono.
    - eapply (wp_and_if ((forall n, calloc_ok n = true) /\ forall n, Lock_Init_ok n = true) _ _ (fun res _ => fst res = ZSA_RESULT_SUCCEEDED));
        [apply (wp_image_wrap ∅ ext); apply Ha|]. intros [Hc Hl]. apply create_from_buffer_ok; [done|done|done|apply Ha].
    - by intros [[] out] w1 [(? & ? & ?) ?]. }
  change (trace (mf_sdk (with_frame s f (mf_sdk s)))) with (trace (mf_sdk s)).
  intros [[] out] w1 [Hpost Hok] Ht1; cbv beta iota; rewrite ?bind_assoc; erewrite (bind_done (mret _)) by reflexivity;
    cbv beta iota; rewrite ?bind_assoc; erewrite (bind_done (mret _)) by reflexivity; cbv beta iota;
    change ((with_frame s f (mf_sdk s)) <| mf_sdk := w1 |>) with (with_frame s f w1).
  - destruct Hpost as (-> & Eh & HI). change (default NULL (Some (fresh (mf_sdk s)))) with (fresh (mf_sdk s)). cbn [ZSA_SUCCEEDED].
    apply (deliver_from_image ext smp f s _ w1 P Ha Ht1 eq_refl Eh HI).
    intros result capture w' Hc Ht' Hok'. apply HP; [done|done|]. intros Hcal _. by apply Hok'.
  - destruct Hpost as (-> & Eh & HI). cbn [ZSA_SUCCEEDED]. erewrite (bind_done (mret _)) by reflexivity. cbv beta iota. cbn [ZSA_SUCCEEDED].
    erewrite (bind_done (mret _)) by reflexivity. apply HP; [done|by left|]. intros Hcal Hlk. by specialize (Hok (conj Hcal Hlk)).
Qed.

(** C18: a sample that can be read and has a time stamp.  The client is called
    exactly once for it ([finish_sample]); on success with a capture of which
    the reader holds the one reference, with a color image over the buffer of
    Media Foundation that has the mode of the stream and the times, exposure,
    white balance and gain of the sample, and that will hand its frame context
    to FrameDestroyCallback; on failure with nothing, or with an image without
    capture, or with an empty capture when the sample lacks its time of
    arrival.  It succeeds while memory lasts.  The frame context counts as the
    image's from then on, also when there is no image to hold it: it is then
    lost with its buffer. *)
Theorem mf_sample_delivered ext smp f s :
  sample_arrives ext smp f s ->
  exists result image capture w,
    deliver_sample smp s = finish_sample (mf_next s) true false result image capture (with_frame s f w) /\
    trace w = trace (mf_sdk s) /\ sample_called ext smp f s result image capture w /\
    ((forall n, calloc_ok n = true) -> (forall n, Lock_Init_ok n = true) -> SUCCEEDED (fst (sm_device_timestamp smp)) = true ->
     result = ZSA_RESULT_SUCCEEDED).
Proof. apply deliver_sample_run. Qed.

(** * The way back *)

Lemma image_dec_ref_keep h i w :
  has w h i -> img_ref_count i <> 1 ->
  image_dec_ref h w = Done tt (w <| heap := <[h := OImage (i <| img_ref_count := img_ref_count i - 1 |>)]> (heap w) |>).
Proof.
  intros Hh Hn. apply run_of_wp. eapply wp_if_handle_valid; [exact Hh|]. apply wp_bind. eapply wp_load; [exact Hh|].
  apply wp_bind. eapply wp_update; [exact Hh|]. rewrite (proj2 (Z.eqb_neq _ 0)) by lia. by apply wp_ret.
Qed.

Lemma image_dec_ref_last h i id w :
  has w h i -> img_ref_count i = 1 -> img_memory_free_cb i = image_cb_user id ->
  wp (image_dec_ref h) (fun _ w' => heap w' = delete h (heap w) /\
    trace w' = trace w ++ [EImageCb id (img_buffer i) (img_memory_free_cb_context i)]) w.
Proof.
  intros Hh Hn Hcb. eapply wp_if_handle_valid; [exact Hh|]. apply wp_bind. eapply wp_load; [exact Hh|].
  apply wp_bind. eapply wp_update; [exact Hh|]. rewrite Hn. cbn [when Z.sub Z.eqb].
  apply wp_bind. unfold call_memory_free_cb. rewrite Hcb. apply wp_modify.
  eapply wp_destroy; [split; [apply Hh|apply lookup_insert_eq]|]. split; [|done]. cbn. by rewrite delete_insert_eq.
Qed.

(** The last reference to a capture whose one image nobody else holds. *)
Lemma capture_dec_ref_last capture image i id w :
  has w capture (color_capture image) -> has w image i -> img_ref_count i = 1 -> img_memory_free_cb i = image_cb_user id ->
  wp (capture_dec_ref capture) (fun _ w' => heap w' = delete capture (delete image (heap w)) /\
    trace w' = trace w ++ [EImageCb id (img_buffer i) (img_memory_free_cb_context i)]) w.
Proof.
  intros [Hcn Hc] [Hin Hi] Hn Hcb. assert (Hne : capture <> image) by (intros ->; rewrite Hi in Hc; discriminate).
  eapply wp_if_handle_valid; [by split|]. apply wp_bind. eapply wp_load; [by split|].
  apply wp_bind. eapply wp_update; [by split|]. cbn [color_capture cap_ref_count when Z.sub Z.eqb].
  apply wp_bind. eapply wp_capture_lock; [by apply has_store|reflexivity|].
  apply wp_bind. cbn [for_each image_slots]. set (w1 := _ <| heap := _ |>).
  set (c1 := (color_capture image) <| cap_ref_count := 0 |> <| cap_lock := RwWriter |>).
  assert (Hc1 : has w1 capture c1) by (by apply has_store).
  assert (Hi1 : has w1 image i) by (split; [done|]; subst w1; cbn; by rewrite !lookup_insert_ne).
  apply wp_bind, wp_bind. eapply wp_load; [exact Hc1|]. cbn [c1 cap_color update_field color_capture].
  apply wp_when; [intros _|by rewrite (proj2 (Z.eqb_neq _ _) Hin)].
  eapply wp_mono; [by apply (image_dec_ref_last image i id)|]. intros [] w2 [Eh2 Et2].
  assert (Hc2 : has w2 capture c1) by (split; [done|]; rewrite Eh2, lookup_delete_ne by done; apply Hc1).
  do 2 (apply wp_bind, wp_bind; eapply wp_load; [exact Hc2|]; apply wp_ret).
  apply wp_ret. apply wp_bind. eapply wp_capture_unlock; [exact Hc2|].
  apply wp_bind. eapply wp_update; [by apply has_store|].
  eapply wp_destroy; [by apply has_store|]. subst w1. cbn in *. split; [|exact Et2].
  rewrite !fin_maps.insert_insert_eq, delete_insert_eq, Eh2, fin_maps.insert_insert_eq.
  rewrite (delete_insert_ne _ image capture) by done. by rewrite delete_insert_eq.
Qed.

(** The call of FrameDestroyCallback that ends the frame context. *)
Lemma sdk_frame_destroyed (m : Mw unit) s w p f buffer :
  m (mf_sdk s) = Done tt w -> trace w = trace (mf_sdk s) ++ [EImageCb FrameDestroyCallback_id buffer p] ->
  p <> NULL -> mf_frames s !! p = Some f -> fc_pBuffer f <> NULL ->
  let unlock := if fc_2d f then C_Unlock2D (fc_pBuffer f) else C_Unlock (fc_pBuffer f) in
  let hr := mf_answer (mf_events s) unlock in
  SUCCEEDED hr = true ->
  sdk m s = Done tt (s <| mf_sdk := w |> <| mf_frames := delete p (mf_frames s) |>
    <| mf_events := mf_events s ++ [ECall unlock hr; EDeleteFrame p] |>).
Proof.
  intros Em Et Hp Hf Hb unlock hr Hok. unfold sdk. rewrite Em, Et, drop_app_length. cbn [deliver_callbacks].
  change (FrameDestroyCallback_id =? FrameDestroyCallback_id) with true. cbn [when]. unfold FrameDestroyCallback, delete_frame_context.
  rewrite (proj2 (Z.eqb_neq _ _) Hp), !bind_assoc. set (s1 := s <| mf_sdk := w |>).
  rewrite (bind_done _ _ _ _ _ (frame_context_run s1 p f Hp Hf)), bind_assoc.
  unfold destroy_CFrameContext. rewrite (proj2 (Z.eqb_neq _ _) Hb), bind_assoc, (bind_done _ _ _ _ _ (com_run _ _)).
  change (mf_answer (mf_events s1) _) with hr. unfold FAILED. rewrite Hok. cbn [negb].
  do 3 (erewrite bind_done by reflexivity; cbv beta; rewrite ?bind_assoc).
  subst s1 hr unlock. clear. destruct s. unfold update_field. cbn. by rewrite <- app_assoc.
Qed.

(** What the code relies on in Media Foundation: a locked buffer can be
    unlocked. *)
Class UnlockOk : Prop := unlock_ok : forall t b,
  SUCCEEDED (mf_answer t (C_Unlock2D b)) = true /\ SUCCEEDED (mf_answer t (C_Unlock b)) = true.

(** A client that keeps nothing. *)
Definition keeps_nothing : Prop := forall cb result capture ctx w, reader_client cb result capture ctx w = Done tt w.

Lemma callback_run result capture cb s :
  keeps_nothing -> mr_pCallback (mf_reader s) = stream_callback cb -> mf_callback result capture s = Done tt s.
Proof.
  intros Hk Hcb. unfold mf_callback. rewrite (bind_done _ _ _ _ _ (reader_run s)), Hcb. cbn [stream_callback_call].
  rewrite (sdk_run _ s tt (mf_sdk s) (Hk _ _ _ _ _) eq_refl). by destruct s.
Qed.

(** What is recorded of a frame context that comes and goes. *)
Definition frame_events p f hr : list mf_event :=
  [ENewFrame p; ECall (if fc_2d f then C_Unlock2D (fc_pBuffer f) else C_Unlock (fc_pBuffer f)) hr; EDeleteFrame p].

Lemma finish_run ext smp f s image capture w cb :
  sample_arrives ext smp f s -> sample_called ext smp f s ZSA_RESULT_SUCCEEDED image capture w ->
  nonneg ext -> keeps_nothing -> UnlockOk -> mr_pCallback (mf_reader s) = stream_callback cb ->
  exists s', finish_sample (mf_next s) true false ZSA_RESULT_SUCCEEDED image capture (with_frame s f w) = Done tt s' /\
    mf_reader s' = mf_reader s /\ mf_frames s' = delete (mf_next s) (mf_frames s) /\ Inv ∅ ext (mf_sdk s') /\
    exists hr, mf_events s' = mf_events s ++ frame_events (mf_next s) f hr.
Proof.
  intros Ha (HI & Hc & Hi & _) Hext Hk Hun Hcb. set (i := mf_filled smp f _) in *.
  assert (Hne : capture <> image) by (intros ->; destruct Hc as [_ Hc], Hi as [_ Hi]; rewrite Hc in Hi; discriminate).
  unfold finish_sample. cbn [negb when]. rewrite (bind_done _ _ _ _ _ (callback_run _ _ cb (with_frame s f w) Hk Hcb)).
  erewrite (bind_done (mret _)) by reflexivity.
  rewrite (proj2 (Z.eqb_neq _ _) (proj1 Hi)), (proj2 (Z.eqb_neq _ _) (proj1 Hc)). cbn [negb when].
  pose proof (image_dec_ref_keep image i w Hi ltac:(done)) as E1. set (w1 := w <| heap := _ |>) in E1.
  assert (HI1 : Inv ∅ (lose (gain (gain ext (KImage, image)) (KCapture, capture)) (KImage, image)) w1).
  { assert (Hw : wp (image_dec_ref image) (fun _ w' => Inv ∅ (lose (gain (gain ext (KImage, image)) (KCapture, capture)) (KImage, image)) w') w).
    { eapply wp_mono; [apply (wp_image_dec_ref ∅ _ image i w HI); [|set_solver|exact Hi]|by intros ? ? (? & _)].
      intros b. specialize (Hext KBlock b ltac:(done)). ledger. }
    unfold wp in Hw. by rewrite E1 in Hw. }
  rewrite (bind_done _ _ _ _ _ (sdk_run (image_dec_ref image) (with_frame s f w) tt w1 E1 eq_refl)).
  change ((with_frame s f w) <| mf_sdk := w1 |>) with (with_frame s f w1).
  assert (Hc1 : has w1 capture (color_capture image)) by (split; [apply Hc|]; subst w1; cbn; rewrite lookup_insert_ne by done; apply Hc).
  assert (Hi1 : has w1 image (i <| img_ref_count := img_ref_count i - 1 |>)) by (split; [apply Hi|apply lookup_insert_eq]).
  assert (Hw2 : exists w2, capture_dec_ref capture w1 = Done tt w2 /\
    trace w2 = trace w1 ++ [EImageCb FrameDestroyCallback_id (fc_pBuffer f) (mf_next s)] /\ Inv ∅ ext w2).
  { pose proof (capture_dec_ref_last capture image _ FrameDestroyCallback_id w1 Hc1 Hi1 eq_refl eq_refl) as Hw1.
    assert (Hw2 : wp (capture_dec_ref capture) (fun _ w' =>
      Inv ∅ (lose (lose (gain (gain ext (KImage, image)) (KCapture, capture)) (KImage, image)) (KCapture, capture)) w') w1).
    { eapply wp_mono; [apply (wp_capture_dec_ref ∅ _ capture (color_capture image) w1 HI1); [|apply unbusy_empty|set_solver|exact Hc1]|by intros ? ? (? & _)].
      intros k x Hkx. specialize (Hext k x ltac:(by destruct Hkx as [-> | ->])). ledger. }
    unfold wp in Hw1, Hw2. destruct (capture_dec_ref capture w1) as [[] w2|]; [|done]. exists w2.
    split_and!; [done|apply Hw1|]. eapply inv_ext; [exact Hw2|]. ledger. }
  destruct Hw2 as (w2 & E2 & Et2 & HI2).
  assert (Hu : SUCCEEDED (mf_answer (mf_events (with_frame s f w1))
    (if fc_2d f then C_Unlock2D (fc_pBuffer f) else C_Unlock (fc_pBuffer f))) = true) by (destruct (fc_2d f); apply Hun).
  pose proof (sdk_frame_destroyed (capture_dec_ref capture) (with_frame s f w1) w2 (mf_next s) f _ E2 Et2 (sa_next _ _ _ _ Ha)
    (lookup_insert_eq _ _ _) (proj1 (proj2 (proj2 (proj2 (sa_args _ _ _ _ Ha))))) Hu) as E3.
  eexists. split; [exact E3|]. split_and!; [done| |exact HI2|].
  - cbn. by rewrite delete_insert_eq.
  - eexists. cbn. by rewrite <- app_assoc.
Qed.

(** The class's inner block, on a sample that the client does not keep. *)
Lemma deliver_returns ext smp f s cb :
  sample_arrives ext smp f s -> nonneg ext -> keeps_nothing -> UnlockOk ->
  mr_pCallback (mf_reader s) = stream_callback cb -> mf_frames s !! mf_next s = None ->
  (forall n, calloc_ok n = true) -> (forall n, Lock_Init_ok n = true) -> SUCCEEDED (fst (sm_device_timestamp smp)) = true ->
  exists s', deliver_sample smp s = Done tt s' /\ mf_reader s' = mf_reader s /\ mf_frames s' = mf_frames s /\
    Inv ∅ ext (mf_sdk s') /\ exists hr, mf_events s' = mf_events s ++ frame_events (mf_next s) f hr.
Proof.
  intros Ha Hext Hk Hun Hcb Hnew Hcal Hlk Hts.
  destruct (deliver_sample_run ext smp f s Ha) as (result & image & capture & w & E & _ & Hc & Hok).
  rewrite (Hok Hcal Hlk Hts) in *.
  destruct (finish_run ext smp f s image capture w cb Ha Hc Hext Hk Hun Hcb) as (s' & E' & Hr & Hf & HI & He).
  exists s'. rewrite E, E'. split_and!; [done|done| |done|done]. rewrite Hf. by apply delete_id.
Qed.

(** C17: OnReadSample with a sample whose capture the client does not keep.
    While memory lasts the sample goes to the client and comes back: the lock
    is free, the reader is as before and has asked for the next sample, its
    image and its capture are gone, the buffer of Media Foundation is unlocked
    and its frame context deleted, and the books of all reference counts are as
    they were. *)
Theorem mf_sample_returned fuel ext smp f s cb hrStatus :
  sample_arrives ext smp f s -> nonneg ext -> keeps_nothing -> UnlockOk -> streaming s -> SUCCEEDED hrStatus = true ->
  mr_pCallback (mf_reader s) = stream_callback cb -> mr_pCallbackContext (mf_reader s) <> NULL -> mf_frames s !! mf_next s = None ->
  (forall n, calloc_ok n = true) -> (forall n, Lock_Init_ok n = true) -> SUCCEEDED (fst (sm_device_timestamp smp)) = true ->
  (forall t, SUCCEEDED (mf_answer t C_ReadSample) = true) ->
  exists hr s' unlocked, OnReadSample fuel hrStatus (Some smp) s = Done hr s' /\
    mf_events s' = mf_events s ++ frame_events (mf_next s) f unlocked ++ [ECall C_ReadSample hr] /\
    mf_reader s' = mf_reader s /\ mf_frames s' = mf_frames s /\ Inv ∅ ext (mf_sdk s').
Proof.
  intros Ha Hext Hk Hun (Hl & Hst & Hfl & Hn) Hstat Hcb Hctx Hnew Hcal Hlk Hts Hread. unfold OnReadSample. rewrite Hstat, bind_assoc.
  rewrite (bind_done _ _ _ _ _ (lock_exclusive_run s Hl)), bind_assoc. set (s1 := s <| mf_reader := _ |>).
  assert (Ha1 : sample_arrives ext smp f s1) by (destruct Ha; by split).
  destruct (deliver_returns ext smp f s1 cb Ha1 Hext Hk Hun Hcb Hnew Hcal Hlk Hts) as (s2 & E2 & Er2 & Ef2 & HI2 & unlocked & Ee2).
  unfold read_sample_locked. rewrite bind_assoc, (bind_done _ _ _ _ _ (reader_run s1)).
  change (mr_started (mf_reader s1)) with (mr_started (mf_reader s)). change (mr_flushing (mf_reader s1)) with (mr_flushing (mf_reader s)).
  rewrite Hst, Hfl. cbn [negb andb]. rewrite bind_assoc.
  assert (Hset : callback_set (mf_reader s1) = true).
  { unfold callback_set. change (mr_pCallback (mf_reader s1)) with (mr_pCallback (mf_reader s)). rewrite Hcb.
    change (mr_pCallbackContext (mf_reader s1)) with (mr_pCallbackContext (mf_reader s)). by rewrite (proj2 (Z.eqb_neq _ _) Hctx). }
  rewrite Hset. cbn [when]. rewrite (bind_done _ _ _ _ _ E2).
  erewrite bind_done by (etransitivity; [apply via_source_reader_run; by rewrite Er2|apply com_run]). cbv beta.
  set (hr := mf_answer (mf_events s2) C_ReadSample). assert (Hhr : SUCCEEDED hr = true) by apply Hread.
  rewrite bind_assoc. erewrite (bind_done lock_Unlock) by reflexivity. erewrite (bind_done (mret _)) by reflexivity.
  rewrite (bind_done _ _ _ _ _ (reader_run _)). unfold FAILED. rewrite Hhr. cbn [negb andb when].
  erewrite (bind_done (mret _)) by reflexivity.
  eexists hr, _, unlocked. split; [reflexivity|]. split_and!; [cbn; by rewrite Ee2, <- app_assoc| |exact Ef2|exact HI2].
  cbn. rewrite Er2. subst s1. clear -Hl. destruct (mf_reader s). cbn in Hl. by subst.
Qed.
End samples.

(** * A sample *)

(** Four bytes at address 5000, with the metadata of the other reader's frame. *)
Definition example_sample : mf_sample :=
  mkSample 0 0 0 5000 4 [1; 2; 3; 4] 0 83330 4500 200 0 0 (items_bytes sample_items) (0, 777).
Definition example_context : CFrameContext := mkFrameContext true 5000 4 [1; 2; 3; 4] 8333 4500 200 90000.

Lemma example_constructs (s : mf_world) : construct_CFrameContext example_sample s = Done example_context s.
Proof. vm_compute. reflexivity. Qed.

Lemma example_arrives : sample_arrives (H0 := sample_mf) no_refs example_sample example_context (mf_world_of going_mf_reader).
Proof.
  split.
  - exact inv_init.
  - reflexivity.
  - discriminate.
  - reflexivity.
  - exact example_constructs.
  - discriminate.
  - vm_compute. intuition discriminate.
Qed.

Lemma mf_sample_delivered_witness :
  let M := sample_mf in let s := mf_world_of going_mf_reader in
  exists image capture w,
    deliver_sample example_sample s = finish_sample 1 true false ZSA_RESULT_SUCCEEDED image capture (with_frame s example_context w) /\
    has w capture (color_capture image) /\ has w image (mf_filled example_sample example_context (mf_image going_mf_reader example_context 1)).
Proof.
  intros M s.
  destruct (mf_sample_delivered (H0 := sample_mf) no_refs example_sample example_context s example_arrives)
    as (result & image & capture & w & E & _ & Hc & Hok).
  rewrite (Hok (fun _ => eq_refl) (fun _ => eq_refl) eq_refl) in *. destruct Hc as (_ & Hc & Hi & _).
  exists image, capture, w. exact (conj E (conj Hc Hi)).
Defined.

Lemma mf_sample_returned_witness :
  let M := sample_mf in let s := mf_world_of going_mf_reader in
  exists hr s' unlocked, OnReadSample 0 S_OK (Some example_sample) s = Done hr s' /\
    mf_events s' = [ENewFrame 1; ECall (C_Unlock2D 5000) unlocked; EDeleteFrame 1; ECall C_ReadSample hr] /\
    mf_reader s' = mf_reader s /\ mf_frames s' = mf_frames s /\ Inv ∅ no_refs (mf_sdk s').
Proof.
  intros M s.
  assert (Hs : streaming s) by (split_and!; [reflexivity|reflexivity|reflexivity|discriminate]).
  apply (mf_sample_returned (H0 := sample_mf) 0 no_refs example_sample example_context s 1 S_OK example_arrives);
    [intros ? ? _; reflexivity|by intros ?|by intros ? ?|exact Hs|reflexivity|reflexivity|discriminate|reflexivity|reflexivity|reflexivity|reflexivity|reflexivity].
Defined.
