(* ===== verification/Device.v ===== *)
(** src/sdk/zsa.c: the device, which composes the color controller, the
    capture synchronisation and the color camera. *)

From S2P Require Export SyncLife ColorMcu Color.

#[export] Instance device_Context : Context zsa_context_t := {
  to_obj := fun d => OModule (MDevice d);
  of_obj := fun o => match o with OModule (MDevice d) => Some d | _ => None end;
  of_to_obj := fun _ => eq_refl;
  to_of_obj := ltac:(module_inj);
  zeroed := mkDevice NULL NULL NULL NULL false
}.

Definition COLOR_CAPTURE : bool := true.

Section operations.
Context `{Platform} `{Usb} `{StreamClient} `{CameraReader}.

Definition zsa_device_get_installed_count : Z := 9.

Definition device_valid {A} (v : A) (h : Z) (rest : Mw A) : Mw A := if_handle_valid zsa_context_t v h rest.

(** The callback the color camera is given. *)
Definition color_capture_ready (result : zsa_result_t) (capture_handle callback_context : Z) : Mw unit :=
  device_valid tt callback_context (
    d ← load zsa_context_t callback_context;
    capturesync_add_capture (zd_capturesync d) result capture_handle COLOR_CAPTURE).

#[export] Instance device_ColorClient : ColorClient := color_capture_ready.

Definition zsa_device_close (device_handle : Z) : Mw unit :=
  device_valid tt device_handle (
    let h := device_handle in
    d ← load zsa_context_t h;
    when (negb (zd_capturesync d =? NULL)) (capturesync_stop (zd_capturesync d));;
    d ← load zsa_context_t h;
    when (negb (zd_color d =? NULL)) (
      color_destroy (zd_color d);;
      update h (fun d => d <| zd_color := NULL |>));;
    d ← load zsa_context_t h;
    when (negb (zd_capturesync d =? NULL)) (
      capturesync_destroy (zd_capturesync d);;
      update h (fun d => d <| zd_capturesync := NULL |>));;
    d ← load zsa_context_t h;
    when (negb (zd_colormcu d =? NULL)) (
      colormcu_destroy (zd_colormcu d);;
      update h (fun d => d <| zd_colormcu := NULL |>));;
    d ← load zsa_context_t h;
    when (negb (zd_tick_handle d =? NULL)) (
      tickcounter_destroy (zd_tick_handle d);;
      update h (fun d => d <| zd_tick_handle := NULL |>));;
    handle_destroy zsa_context_t h;;
    allocator_deinitialize).

(** What a create function stores through [&device->field], unless it
    returned before it stored anything. *)
Definition store_out (out : option Z) (store : Z -> Mw unit) : Mw unit :=
  match out with Some x => store x | None => mret tt end.

(** The result and [*device_handle], where it is written.  [serial_number] is
    what the uninitialised array on the stack holds. *)
Definition zsa_device_open (serial_number : list Z) (index : Z) (device_handle : bool) : Mw (zsa_result_t * option Z) :=
  if negb device_handle then mret (ZSA_RESULT_FAILED, None)
  else
    let container_id : option (list Z) := None in
    allocator_initialize;;
    h ← handle_create zsa_context_t;
    result ← and_then (ZSA_RESULT_FROM_BOOL (negb (h =? NULL))) (
      tick ← tickcounter_create;
      update h (fun d => d <| zd_tick_handle := tick |>);;
      mret (ZSA_RESULT_FROM_BOOL (negb (tick =? NULL))));
    result ← and_then result (
      '(result, out) ← colormcu_create container_id true;
      store_out out (fun m => update h (fun d => d <| zd_colormcu := m |>));;
      mret result);
    result ← and_then result (
      '(result, out) ← capturesync_create true;
      store_out out (fun s => update h (fun d => d <| zd_capturesync := s |>));;
      mret result);
    result ← and_then result (
      d ← load zsa_context_t h;
      '(result, out) ← color_create (zd_tick_handle d) container_id (Some serial_number) color_capture_ready_cb h true;
      store_out out (fun c => update h (fun d => d <| zd_color := c |>));;
      mret result);
    if ZSA_FAILED result then
      zsa_device_close h;;
      mret (result, None)
    else mret (result, Some h).

Definition validate_configuration (device : bool) (config : bool) : zsa_result_t :=
  if negb config then ZSA_RESULT_FAILED
  else if negb device then ZSA_RESULT_FAILED
  else ZSA_RESULT_SUCCEEDED.

Definition zsa_device_stop_cameras (device_handle : Z) : Mw unit :=
  device_valid tt device_handle (
    let h := device_handle in
    d ← load zsa_context_t h;
    when (negb (zd_capturesync d =? NULL)) (capturesync_stop (zd_capturesync d));;
    d ← load zsa_context_t h;
    when (negb (zd_color d =? NULL)) (
      color_stop (zd_color d);;
      update h (fun d => d <| zd_color_started := false |>))).

Definition zsa_device_start_cameras (device_handle : Z) (config : option zsa_device_configuration_t) : Mw zsa_result_t :=
  match config with
  | None => mret ZSA_RESULT_FAILED
  | Some config =>
      device_valid ZSA_RESULT_FAILED device_handle (
        let h := device_handle in
        d ← load zsa_context_t h;
        let result := if zd_color_started d then ZSA_RESULT_FAILED else ZSA_RESULT_SUCCEEDED in
        result ← and_then result (mret (validate_configuration true true));
        result ← and_then result (colormcu_set_multi_device_mode (zd_colormcu d) config);
        result ← and_then result (
          d ← load zsa_context_t h;
          capturesync_start (zd_capturesync d) (Some config));
        result ← and_then result (
          result ← (if negb (color_resolution config =? ZSA_COLOR_RESOLUTION_OFF) then
                      d ← load zsa_context_t h;
                      color_start (zd_color d) (Some config)
                    else mret ZSA_RESULT_SUCCEEDED);
          when (ZSA_SUCCEEDED result) (update h (fun d => d <| zd_color_started := true |>));;
          mret result);
        when (ZSA_FAILED result) (zsa_device_stop_cameras h);;
        mret result)
  end.
End operations.

(** * Closing what was opened *)

Section life.
Context `{Platform} `{Usb} `{StreamClient} `{CameraReader} `{!UsbOk}.
Implicit Types (d : Z) (dev : zsa_context_t) (w : world).

(** A device at [d] in [wm]; [w] has its unused synchroniser besides, if the
    device has one. *)
Definition sync_part (wm : world) d dev w : Prop :=
  has wm d dev /\
  ((zd_capturesync dev = NULL /\ w = wm) \/
   (zd_capturesync dev <> NULL /\ heap_change wm w /\
    exists s, unused wm (zd_capturesync dev) s (live s) w /\ apart s (live s) /\ sy_lock s <> LockHeld)).

Lemma sync_part_has wm d dev w : sync_part wm d dev w -> has w d dev.
Proof.
  intros [[Hn Hh] [[_ ->]|(Hs & _ & s & Hu & _)]]; [done|]. split; [done|]. rewrite (un_frame _ _ _ _ _ Hu); [done|].
  intros Hx. apply (un_new _ _ _ _ _ Hu) in Hx. congruence.
Qed.

Lemma wp_close_stop wm d dev w :
  sync_part wm d dev w ->
  wp (when (negb (zd_capturesync dev =? NULL)) (capturesync_stop (zd_capturesync dev)))
     (fun _ w' => sync_part wm d dev w') w.
Proof.
  intros Hp. pose proof Hp as [Hd [[-> Hw]|(Hs & Hc & s & Hu & Ha & Hl)]]; [done|].
  rewrite (proj2 (Z.eqb_neq _ _) Hs). cbn [negb when].
  eapply wp_mono; [apply (wp_unused_stop _ _ _ _ _ Hu); [apply Ha|exact Hl]|]. intros _ w1 [Hu1 Hc1].
  split; [exact Hd|]. right. split; [exact Hs|]. split; [by eapply heap_change_trans|].
  exists (s <| sy_running := false |>). split; [exact Hu1|]. by destruct Ha.
Qed.

Lemma wp_close_sync wm d dev w :
  sync_part wm d dev w ->
  wp (when (negb (zd_capturesync dev =? NULL)) (
        capturesync_destroy (zd_capturesync dev);;
        update d (fun c => c <| zd_capturesync := NULL |>)))
     (fun _ w' => w' = wm <| heap := <[d := to_obj (dev <| zd_capturesync := NULL |>)]> (heap wm) |>) w.
Proof.
  intros [Hd [[E ->]|(Hs & Hc & s & Hu & Ha & Hl)]].
  - rewrite E. cbn [Z.eqb NULL negb when]. apply wp_ret.
    assert (Ed : dev <| zd_capturesync := NULL |> = dev) by (destruct dev; cbn in E; by subst).
    rewrite Ed, fin_maps.insert_id by apply Hd. by destruct wm.
  - rewrite (proj2 (Z.eqb_neq _ _) Hs). cbn [negb when]. apply wp_bind.
    eapply wp_mono; [apply (wp_unused_destroy_sync _ _ _ _ _ Hu Ha Hl)|]. intros _ w1 ->. rewrite Hc.
    assert (Ew : wm <| heap := heap w |> <| heap := heap wm |> = wm) by (by destruct wm). rewrite Ew.
    eapply wp_update; [exact Hd|]. done.
Qed.

(** The device at [d], and its controller, if it has one, added to [m0]. *)
Definition mcu_part (m0 : gmap Z obj) (t : list event) d dev w : Prop :=
  d <> NULL /\
  ((zd_colormcu dev = NULL /\ heap w = <[d := to_obj dev]> m0 /\ forall r, outstanding (trace w) r = outstanding t r) \/
   (exists usb u, mcu_open w (zd_colormcu dev) usb u /\ usb <> d /\ zd_colormcu dev <> d /\
      m0 !! usb = None /\ m0 !! zd_colormcu dev = None /\
      heap w = <[usb := to_obj u]> (<[zd_colormcu dev := to_obj (mkColorMcu usb)]> (<[d := to_obj dev]> m0)) /\
      forall r, outstanding (trace w) r = outstanding t r + held u r)).

Lemma wp_close_mcu m0 t d dev w :
  mcu_part m0 t d dev w ->
  wp (when (negb (zd_colormcu dev =? NULL)) (
        colormcu_destroy (zd_colormcu dev);;
        update d (fun c => c <| zd_colormcu := NULL |>)))
     (fun _ w' => calls_only w w' /\ heap w' = <[d := to_obj (dev <| zd_colormcu := NULL |>)]> m0 /\
        forall r, outstanding (trace w') r = outstanding t r) w.
Proof.
  intros [Hd [(E & Eh & Hr)|(usb & u & Hm & Hn1 & Hn2 & Hf1 & Hf2 & Eh & Hr)]].
  - rewrite E. cbn [Z.eqb NULL negb when]. apply wp_ret. split_and!; [apply calls_only_refl| |exact Hr].
    assert (Ed : dev <| zd_colormcu := NULL |> = dev) by (destruct dev; cbn in E; by subst). by rewrite Ed.
  - destruct (mo_mcu _ _ _ _ Hm) as [Hmn Hmh]. destruct (mo_usb _ _ _ _ Hm) as [Hun Huh].
    assert (Hne : zd_colormcu dev <> usb) by (intros E; rewrite E in Hmh; cbn in *; congruence).
    rewrite (proj2 (Z.eqb_neq _ _) Hmn). cbn [negb when]. apply wp_bind.
    eapply wp_mono; [apply (wp_colormcu_destroy w _ usb u t Hm Hr)|]. intros _ w1 (Hc1 & Eh1 & Hr1).
    assert (Eh2 : heap w1 = <[d := to_obj dev]> m0).
    { rewrite Eh1, Eh, delete_insert_id.
      - apply delete_insert_id. by rewrite lookup_insert_ne.
      - rewrite !lookup_insert_ne by done. done. }
    eapply wp_update; [split; [exact Hd|]; rewrite Eh2; apply lookup_insert_eq|]. split_and!.
    + eapply calls_only_trans; [exact Hc1|]. by apply calls_only_set.
    + cbn. by rewrite Eh2, fin_maps.insert_insert_eq.
    + exact Hr1.
Qed.

(** zsa_device_close of a device without a camera gives everything back. *)
Lemma wp_close_device m0 t wm d dev w :
  sync_part wm d dev w -> mcu_part m0 t d dev wm -> m0 !! d = None -> zd_color dev = NULL ->
  wp (zsa_device_close d)
     (fun _ w' => heap w' = m0 /\ (forall r, outstanding (trace w') r = outstanding t r) /\ fresh wm <= fresh w' /\
        g_counts w' = g_counts wm /\ g_allocator w' = g_allocator wm /\
        g_allocator_sessions w' = g_allocator_sessions wm - 1) w.
Proof.
  intros Hs Hm Hd0 Hcol. pose proof (sync_part_has _ _ _ _ Hs) as Hh. pose proof Hh as [Hn _].
  eapply wp_if_handle_valid; [exact Hh|]. apply wp_bind. eapply wp_load; [exact Hh|].
  apply wp_bind. eapply wp_mono; [by apply wp_close_stop|]. clear w Hs Hh. intros ? w Hs. cbv beta in Hs. pose proof (sync_part_has _ _ _ _ Hs) as Hh.
  apply wp_bind. eapply wp_load; [exact Hh|]. rewrite Hcol. apply wp_bind, wp_ret.
  apply wp_bind. eapply wp_load; [exact Hh|].
  apply wp_bind. eapply wp_mono; [by apply wp_close_sync|]. intros _ w1 ->.
  set (dev1 := dev <| zd_capturesync := NULL |>). set (w1 := _ <| heap := _ |>).
  assert (Hm1 : mcu_part m0 t d dev1 w1).
  { destruct Hm as [_ [(E & Eh & Hr)|(usb & u & [Hmo Huo Hq] & Hn1 & Hn2 & Hf1 & Hf2 & Eh & Hr)]]; (split; [done|]).
    - left. split_and!; [done| |done]. cbn. by rewrite Eh, fin_maps.insert_insert_eq.
    - right. exists usb, u. split_and!; try done.
      + split; [|..|done]; (split; [first [apply Hmo|apply Huo]|]); cbn; rewrite lookup_insert_ne by done; [apply Hmo|apply Huo].
      + cbn. rewrite Eh, (fin_maps.insert_insert_ne _ d), (fin_maps.insert_insert_ne _ d) by done.
        by rewrite fin_maps.insert_insert_eq. }
  apply wp_bind. eapply wp_load; [exact (has_stored d dev1 wm Hn)|].
  apply wp_bind. eapply wp_mono; [by apply wp_close_mcu|]. intros _ w2 (Hc2 & Eh2 & Hr2).
  set (dev2 := dev1 <| zd_colormcu := NULL |>) in *.
  assert (Hh2 : has w2 d dev2) by (split; [done|]; rewrite Eh2; apply lookup_insert_eq).
  assert (Hend : forall dev3 w3, heap w3 = <[d := to_obj dev3]> m0 -> (forall r, outstanding (trace w3) r = outstanding t r) ->
    calls_only w1 w3 -> wp (handle_destroy zsa_context_t d;; allocator_deinitialize)
     (fun _ w' => heap w' = m0 /\ (forall r, outstanding (trace w') r = outstanding t r) /\ fresh wm <= fresh w' /\
        g_counts w' = g_counts wm /\ g_allocator w' = g_allocator wm /\
        g_allocator_sessions w' = g_allocator_sessions wm - 1) w3).
  { intros dev3 w3 Eh3 Hr3 [Ec3 Ef3]. apply wp_bind.
    eapply wp_destroy; [split; [exact Hn|]; rewrite Eh3; apply (lookup_insert_eq m0 d (to_obj dev3))|].
    apply wp_modify. cbn. rewrite Eh3, delete_insert_id by done. split_and!; try done; rewrite Ec3; done. }
  apply wp_bind. eapply wp_load; [exact Hh2|]. apply wp_bind. eapply wp_mono with (P := fun _ w3 => exists dev3,
    heap w3 = <[d := to_obj dev3]> m0 /\ (forall r, outstanding (trace w3) r = outstanding t r) /\ calls_only w1 w3).
  - apply wp_when; intros _; [|by exists dev2]. apply wp_bind, wp_modify.
    eapply wp_update; [exact Hh2|]. eexists. split_and!.
    + cbn. rewrite Eh2, fin_maps.insert_insert_eq. reflexivity.
    + intros r. cbn. rewrite outstanding_app, Hr2. cbn. unfold is_res. rewrite !decide_False by done. lia.
    + eapply calls_only_trans; [exact Hc2|]. by apply calls_only_set.
  - intros _ w3 (dev3 & Eh3 & Hr3 & Hc3). by eapply Hend.
Qed.
(** ** Opening *)

(** What zsa_device_open may leave behind. *)
Definition closed w (r : zsa_result_t * option Z) w' : Prop :=
  r = (ZSA_RESULT_FAILED, None) /\ heap w' = heap w /\ res_change none w w' /\ fresh w <= fresh w' /\
  g_counts w' = g_counts w /\ g_allocator w' = g_allocator w /\
  g_allocator_sessions w' = g_allocator_sessions w + (if calloc_ok (tick w) then 0 else 1).

Lemma wp_give_up w0 m0 t wm d dev w :
  sync_part wm d dev w -> mcu_part m0 t d dev wm -> m0 !! d = None -> zd_color dev = NULL ->
  m0 = heap w0 -> t = trace w0 -> fresh w0 <= fresh wm -> g_counts wm = g_counts w0 -> g_allocator wm = g_allocator w0 ->
  g_allocator_sessions wm = g_allocator_sessions w0 + 1 -> calloc_ok (tick w0) = true ->
  wp (zsa_device_close d;; mret (ZSA_RESULT_FAILED, None)) (closed w0) w.
Proof.
  intros Hs Hm Hd Hc -> -> Hf Eg Ea Es Hok. apply wp_bind.
  eapply wp_mono; [by apply (wp_close_device (heap w0) (trace w0) wm d dev)|].
  intros _ w1 (Eh & Hr & Hf1 & Eg1 & Ea1 & Es1). apply wp_ret. split_and!; try done; try congruence; try lia.
  - intros r. rewrite Hr. unfold none. lia.
  - rewrite Hok, Es1, Es. lia.
Qed.


(** What is true throughout zsa_device_open. *)
Record opening busy ext w0 d dev w : Prop := {
  op_handle : d <> NULL /\ heap w0 !! d = None /\ calloc_ok (tick w0) = true;
  op_inv : Inv (busy ∪ {[d]}) ext w;
  op_fresh : fresh w0 <= fresh w;
  op_globals : g_counts w = g_counts w0 /\ g_allocator w = g_allocator w0 /\
    g_allocator_sessions w = g_allocator_sessions w0 + 1;
  op_color : zd_color dev = NULL
}.

Lemma opening_fail busy ext w0 d dev wm w :
  opening busy ext w0 d dev wm -> sync_part wm d dev w -> mcu_part (heap w0) (trace w0) d dev wm ->
  wp (zsa_device_close d;; mret (ZSA_RESULT_FAILED, None)) (closed w0) w.
Proof.
  intros [(Hn & Hd & Hok) _ Hf (Ec & Ea & Es) Hc] Hs Hm. by eapply (wp_give_up w0 _ _ wm d dev).
Qed.

(** The device records what was created. *)
Lemma opening_store busy ext w0 d dev dev' w :
  opening busy ext w0 d dev w -> heap w !! d = Some (to_obj dev) -> zd_color dev' = NULL ->
  opening busy ext w0 d dev' (w <| heap := <[d := to_obj dev']> (heap w) |>).
Proof. intros [Hh HI Hf Hg Hc] Hd Hc'. split; try done. eapply inv_module; [exact HI|exact Hd|done|done]. Qed.

Lemma opening_calls busy ext w0 d dev w w' :
  opening busy ext w0 d dev w -> calls_only w w' -> Inv (busy ∪ {[d]}) ext w' -> opening busy ext w0 d dev w'.
Proof. intros [Hh HI Hf Hg Hc] [E F] HI'. split; try done; [lia|]. rewrite E. exact Hg. Qed.

(** The last step: there is no container id, so that color_create refuses. *)
Lemma opening_color busy ext w0 d dev wm w (serial_number : list Z) :
  opening busy ext w0 d dev wm -> sync_part wm d dev w -> mcu_part (heap w0) (trace w0) d dev wm ->
  wp (result ← and_then ZSA_RESULT_SUCCEEDED (
        d0 ← load zsa_context_t d;
        '(result, out) ← color_create (zd_tick_handle d0) None (Some serial_number) color_capture_ready_cb d true;
        store_out out (fun c => update d (fun x => x <| zd_color := c |>));;
        mret result);
      if ZSA_FAILED result then
        zsa_device_close d;;
        mret (result, None)
      else mret (result, Some d)) (closed w0) w.
Proof.
  intros Ho Hs Hm. apply wp_bind, wp_bind. eapply wp_load; [by eapply sync_part_has|].
  assert (E : color_create (zd_tick_handle dev) None (Some serial_number) color_capture_ready_cb d true =
    mret (ZSA_RESULT_FAILED, None)) by (unfold color_create; destruct (_ =? _); reflexivity).
  rewrite E. apply wp_bind, wp_ret, wp_bind, wp_ret, wp_ret. by eapply opening_fail.
Qed.

Lemma mcu_part_same m0 t d dev dev' w w' :
  mcu_part m0 t d dev w -> zd_colormcu dev' = zd_colormcu dev ->
  heap w' = <[d := to_obj dev']> (heap w) -> trace w' = trace w -> mcu_part m0 t d dev' w'.
Proof.
  intros [Hn [(E & Eh & Hr)|(usb & u & [Hmo Huo Hq] & Hn1 & Hn2 & Hf1 & Hf2 & Eh & Hr)]] Ed Eh' Et; (split; [done|]).
  - left. rewrite Ed. split_and!; [done| |by rewrite Et]. by rewrite Eh', Eh, fin_maps.insert_insert_eq.
  - right. exists usb, u. rewrite Ed. split_and!; try done.
    + split; [|..|done]; (split; [first [apply Hmo|apply Huo]|]); rewrite Eh', lookup_insert_ne by done; [apply Hmo|apply Huo].
    + rewrite Eh', Eh, (fin_maps.insert_insert_ne _ d), (fin_maps.insert_insert_ne _ d) by done.
      by rewrite fin_maps.insert_insert_eq.
    + by rewrite Et.
Qed.

(** The last but one: the synchroniser. *)
Lemma opening_sync busy ext w0 d dev w (serial_number : list Z) (rest : zsa_result_t -> Mw (zsa_result_t * option Z)) :
  opening busy ext w0 d dev w -> has w d dev -> zd_capturesync dev = NULL -> mcu_part (heap w0) (trace w0) d dev w ->
  (forall wm w, opening busy ext w0 d dev wm -> sync_part wm d dev w -> mcu_part (heap w0) (trace w0) d dev wm ->
     wp (rest ZSA_RESULT_FAILED) (closed w0) w) ->
  (forall dev wm w, opening busy ext w0 d dev wm -> sync_part wm d dev w -> mcu_part (heap w0) (trace w0) d dev wm ->
     wp (rest ZSA_RESULT_SUCCEEDED) (closed w0) w) ->
  wp_or no_memory (result ← and_then ZSA_RESULT_SUCCEEDED (
        '(result, out) ← capturesync_create true;
        store_out out (fun s => update d (fun x => x <| zd_capturesync := s |>));;
        mret result);
      rest result) (closed w0) w.
Proof.
  intros Ho Hd Hs0 Hm HF HS. pose proof Hd as [Hn Hdh]. apply wp_or_bind, wp_or_bind.
  eapply wp_or_mono; [apply (wp_capturesync_create _ _ _ (op_inv _ _ _ _ _ _ Ho))|].
  intros [[] out] w1 [[Ew1 Fw1] Hp]; apply wp_or_wp, wp_bind.
  - destruct Hp as [-> (s & Hb & Hc)]. set (h := fresh w) in *. destruct (un_has _ _ _ _ _ (bd_unused _ _ _ _ _ _ Hb)) as [Hhn _].
    assert (Hx : d ∉ h :: live s).
    { intros Hx. apply (un_new _ _ _ _ _ (bd_unused _ _ _ _ _ _ Hb)) in Hx. congruence. }
    set (dev' := dev <| zd_capturesync := h |>). 
    eapply wp_update; [split; [exact Hn|]; rewrite (un_frame _ _ _ _ _ (bd_unused _ _ _ _ _ _ Hb)) by done; exact Hdh|].
    apply wp_ret. set (wm := w1 <| heap := <[d := to_obj dev']> (heap w) |>).
    apply wp_or_wp, (HS dev' wm).
    + assert (HIw : Inv (busy ∪ {[d]}) ext (w1 <| heap := heap w |>)).
      { eapply inv_restored; [exact (op_inv _ _ _ _ _ _ Ho)|done|exact Fw1|by rewrite Ew1|by rewrite Ew1]. }
      assert (Ho1 : opening busy ext w0 d dev (w1 <| heap := heap w |>)).
      { eapply opening_calls; [exact Ho| |exact HIw]. split; [|exact Fw1]. rewrite Ew1. by destruct w. }
      exact (opening_store _ _ _ _ _ dev' _ Ho1 Hdh (op_color _ _ _ _ _ _ Ho)).
    + split; [split; [exact Hn|apply lookup_insert_eq]|]. right. split; [exact Hhn|]. split; [done|]. exists s.
      split_and!; [|by eapply building_apart|by rewrite (cr_lock _ Hc)].
      eapply unused_rebase; [exact (bd_unused _ _ _ _ _ _ Hb)|exact Hx|done].
    + eapply mcu_part_same; [exact Hm|done|done|]. cbn. by rewrite Ew1.
  - destruct Hp as [-> Eh]. assert (Hd1 : has w1 d dev) by (split; [done|by rewrite Eh]).
    eapply wp_update; [exact Hd1|]. apply wp_ret.
    assert (Ed : dev <| zd_capturesync := NULL |> = dev) by (destruct dev; cbn in Hs0; by subst).
    rewrite Ed. replace (w1 <| heap := _ |>) with w1 by (rewrite fin_maps.insert_id by apply Hd1; by destruct w1).
    apply wp_or_wp, (HF w1).
    + eapply opening_calls; [exact Ho|by apply only_heap_calls|].
      eapply inv_restored; [exact (op_inv _ _ _ _ _ _ Ho)|done|exact Fw1|by rewrite Ew1|by rewrite Ew1].
    + split; [exact Hd1|]. by left.
    + eapply (mcu_part_same _ _ _ dev); [exact Hm|done| |by rewrite Ew1]. by rewrite Eh, fin_maps.insert_id by apply Hdh.
Qed.

(** The tick counter is the first thing the device gets. *)
Lemma wp_opening_tick busy ext w0 d w :
  opening busy ext w0 d (zeroed (T := zsa_context_t)) w -> heap w = <[d := to_obj (zeroed (T := zsa_context_t))]> (heap w0) ->
  trace w = trace w0 ->
  wp (tick ← tickcounter_create;
      update d (fun x => x <| zd_tick_handle := tick |>);;
      mret (ZSA_RESULT_FROM_BOOL (negb (tick =? NULL))))
     (fun _ w' => exists tick, let dev := mkDevice tick NULL NULL NULL false in
        opening busy ext w0 d dev w' /\ has w' d dev /\ mcu_part (heap w0) (trace w0) d dev w') w.
Proof.
  intros Ho Eh Et. destruct (op_handle _ _ _ _ _ _ Ho) as (Hn & Hd & _). apply wp_bind.
  unfold tickcounter_create, reader_call. unfold wp at 1. set (tk := tickcounter_create_answer (trace w)).
  set (w1 := w <| trace := _ |>). assert (Hh : heap w1 !! d = Some (to_obj (zeroed (T := zsa_context_t)))) by (cbn; rewrite Eh; apply lookup_insert_eq).
  apply wp_bind. eapply wp_update; [split; [exact Hn|exact Hh]|]. apply wp_ret. exists tk. cbn zeta. split_and!.
  - eapply opening_store; [|exact Hh|done]. eapply opening_calls; [exact Ho|by apply calls_only_set|].
    apply inv_trace, Ho.
  - by apply has_stored.
  - split; [exact Hn|]. left. split_and!; [done| |].
    + cbn. by rewrite Eh, fin_maps.insert_insert_eq.
    + intros r. cbn. rewrite outstanding_app, Et. cbn. unfold is_res. rewrite !decide_False by done. lia.
Qed.

(** The controller comes next. *)
Lemma wp_opening_mcu busy ext w0 d tick w :
  let dev := mkDevice tick NULL NULL NULL false in
  opening busy ext w0 d dev w -> has w d dev -> mcu_part (heap w0) (trace w0) d dev w ->
  wp ('(result, out) ← colormcu_create None true;
      store_out out (fun m => update d (fun x => x <| zd_colormcu := m |>));;
      mret result)
     (fun _ w' => exists m, let dev := mkDevice tick m NULL NULL false in
        opening busy ext w0 d dev w' /\ has w' d dev /\ mcu_part (heap w0) (trace w0) d dev w') w.
Proof.
  intros dev Ho Hd Hm. pose proof Hd as [Hn Hdh]. destruct (op_handle _ _ _ _ _ _ Ho) as (_ & Hd0 & _).
  assert (Hm0 : heap w = <[d := to_obj dev]> (heap w0) /\ forall r, outstanding (trace w) r = outstanding (trace w0) r).
  { destruct Hm as [_ [(_ & Eh & Hr)|(usb & u & [[? _] _ _] & _)]]; done. }
  destruct Hm0 as [Eh Hr]. apply wp_bind. eapply wp_mono; [apply (wp_create_colormcu _ _ _ NULL_INDEX None (op_inv _ _ _ _ _ _ Ho))|].
  intros [[] out] w1 [Hc1 Hp]; apply wp_bind.
  - destruct Hp as (m & usb & u & -> & [Hmo Huo Hq] & Hf1 & Hf2 & Eh1 & Hr1 & HI1).
    assert (m <> d /\ usb <> d) as [Hmd Hud] by (split; intros ->; congruence).
    assert (Hd1 : heap w1 !! d = Some (to_obj dev)) by (rewrite Eh1, !lookup_insert_ne by done; exact Hdh).
    eapply wp_update; [split; [exact Hn|exact Hd1]|]. apply wp_ret. exists m. cbn zeta. split_and!.
    + eapply opening_store; [|exact Hd1|done]. by eapply opening_calls.
    + by apply has_stored.
    + split; [exact Hn|]. right. exists usb, u. rewrite Eh, lookup_insert_ne in Hf1, Hf2 by done. split_and!; try done.
      * split; [|..|exact Hq]; (split; [first [apply Hmo|apply Huo]|]); cbn; rewrite lookup_insert_ne by done; [apply Hmo|apply Huo].
      * cbn. rewrite Eh1, (fin_maps.insert_insert_ne _ d), (fin_maps.insert_insert_ne _ d) by done.
        by rewrite Eh, fin_maps.insert_insert_eq.
      * intros r. cbn. by rewrite Hr1, Hr.
  - destruct Hp as (-> & Eh1 & Hr1). assert (Hd1 : heap w1 !! d = Some (to_obj dev)) by (by rewrite Eh1).
    eapply wp_update; [split; [exact Hn|exact Hd1]|]. apply wp_ret. exists NULL. cbn zeta. split_and!.
    + eapply opening_store; [|exact Hd1|done]. eapply opening_calls; [exact Ho|exact Hc1|].
      destruct Hc1 as [E F]. eapply inv_restored; [exact (op_inv _ _ _ _ _ _ Ho)|exact Eh1|exact F|by rewrite E|by rewrite E].
    + by apply has_stored.
    + split; [exact Hn|]. left. split_and!; [done| |].
      * cbn. by rewrite Eh1, Eh, fin_maps.insert_insert_eq.
      * intros r. cbn. rewrite Hr1, Hr. unfold none. lia.
Qed.

Lemma wp_zsa_device_open busy ext w serial_number index :
  Inv busy ext w -> wp_or no_memory (zsa_device_open serial_number index true) (closed w) w.
Proof.
  intros HI. pose proof (inv_fresh _ _ _ HI) as Hf0. pose proof (inv_fresh_none _ _ _ HI) as Hnone.
  unfold zsa_device_open. cbn [negb]. apply wp_or_bind, wp_or_wp, wp_modify.
  set (w1 := w <| g_allocator_sessions := _ |>).
  destruct (calloc_ok (tick w)) eqn:Ec.
  2: { eapply wp_or_call with (P := fun h w2 => h = NULL /\ w2 = w1 <| tick := S (tick w) |>).
       { unfold wp, handle_create, ask, mbind, M_bind. cbn. rewrite Ec. done. }
       intros ? w2 [-> ->]. cbn [Z.eqb NULL negb ZSA_RESULT_FROM_BOOL and_then ZSA_SUCCEEDED].
       apply wp_or_wp. do 4 (apply wp_bind, wp_ret). cbn [ZSA_FAILED ZSA_SUCCEEDED negb].
       apply wp_bind, wp_if_handle_null, wp_ret. unfold closed. rewrite Ec.
       split_and!; try done. intros r. unfold none. cbn. lia. }
  set (d := fresh w). assert (Hn : d <> NULL) by (unfold NULL, d; lia).
  eapply wp_or_call with (P := fun h w2 => h = d /\ w2 = w1 <| tick := S (tick w) |> <| heap := <[d := to_obj (zeroed (T := zsa_context_t))]> (heap w) |> <| fresh := d + 1 |>).
  { apply wp_handle_create_ok; [exact Ec|]. done. }
  intros ? ? [-> ->]. rewrite (proj2 (Z.eqb_neq d NULL)) by done. cbn [negb ZSA_RESULT_FROM_BOOL and_then ZSA_SUCCEEDED].
  set (w2 := _ <| fresh := _ |>).
  assert (Ho2 : opening busy ext w d (zeroed (T := zsa_context_t)) w2).
  { split; [done| |change (d <= d + 1); lia|done|done].
    pose proof (inv_created busy ext w (S (tick w)) (to_obj (zeroed (T := zsa_context_t))) HI eq_refl eq_refl ltac:(done)) as HI2.
    apply (inv_frame _ _ _ _ HI2); try done. intros g Hg. eapply (inv_allocator _ _ _ HI). exact Hg. }
  eapply wp_or_call; [by apply wp_opening_tick|]. clear Ho2. intros r w3 (tk & Ho & Hd & Hm). cbn zeta in *.
  destruct r; cbn [and_then ZSA_SUCCEEDED].
  2: { apply wp_or_wp. do 3 (apply wp_bind, wp_ret). cbn [ZSA_FAILED ZSA_SUCCEEDED negb].
       eapply opening_fail; [exact Ho|split; [exact Hd|by left]|exact Hm]. }
  eapply wp_or_call; [by apply wp_opening_mcu|]. clear w3 Ho Hd Hm. intros r w3 (m & Ho & Hd & Hm). cbn zeta in *.
  destruct r; cbn [and_then ZSA_SUCCEEDED].
  2: { apply wp_or_wp. do 2 (apply wp_bind, wp_ret). cbn [ZSA_FAILED ZSA_SUCCEEDED negb].
       eapply opening_fail; [exact Ho|split; [exact Hd|by left]|exact Hm]. }
  eapply (opening_sync busy ext w d _ w3 serial_number (fun result => _)); [exact Ho|exact Hd|done|exact Hm| |].
  - intros wm w4 Ho4 Hs4 Hm4. apply wp_bind, wp_ret. by eapply opening_fail.
  - intros dev wm w4 Ho4 Hs4 Hm4. by eapply opening_color.
Qed.
End life.

(** * Properties *)

Section properties.
Context `{Platform} `{Usb} `{StreamClient} `{CameraReader} `{!UsbOk}.

(** C37: zsa_device_open never succeeds: it hands color_create a null
    container id, which color_create refuses.  Whatever libusb, the tick
    counter and the platform answer, it returns failure without writing the
    handle, or writes through a null context when the memory runs out; when it
    returns, every context it made is gone, every resource of libusb is
    returned, and the allocator's session is closed, unless the device's own
    context could not be allocated: then the session stays open. *)
Theorem zsa_device_open_fails (busy : gset Z) (ext : ledger) (w : world) (serial_number : list Z) (index : Z)
  (HI : Inv busy ext w) :
  match zsa_device_open serial_number index true w with
  | Fault f => f = NullDeref /\ exists t, calloc_ok t = false
  | Done r w' =>
      r = (ZSA_RESULT_FAILED, None) /\ heap w' = heap w /\ Inv busy ext w' /\ res_change none w w' /\
      g_allocator_sessions w' = g_allocator_sessions w + (if calloc_ok (tick w) then 0 else 1)
  end.
Proof.
  pose proof (wp_zsa_device_open busy ext w serial_number index HI) as Hw. unfold wp_or in Hw.
  destruct (zsa_device_open serial_number index true w) as [r w'|f]; [|exact Hw].
  destruct Hw as (-> & Eh & Hr & Hf & Ec & Ea & Es). split_and!; try done. by eapply inv_restored.
Qed.

(** Starting cameras that are already started fails, and stops them:
    zsa_device_start_cameras calls zsa_device_stop_cameras on every failure.
    The synchroniser that was running is halted, with its queues disabled and
    emptied, the camera reader is stopped, and the device counts as not
    started, so that the captures of the running session are lost. *)
Theorem zsa_device_start_twice (busy : gset Z) (ext : ledger) (d : Z) (dev : zsa_context_t) (c : color_context_t)
    (s : capturesync_context_t) (Q : bool -> queue_context_t) (out : queue_context_t)
    (config : zsa_device_configuration_t) (w : world)
  (Hd : has w d dev) (Hst : zd_color_started dev = true) (Hc : has w (zd_color dev) c) (Hrd : cl_m_spCameraReader c = true)
  (Hs : ready busy ext (zd_capturesync dev) s Q out w) (He : nonneg ext)
  (Hb : forall color, q_queue_pop_blocked (Q color) = 0) (Hbo : q_queue_pop_blocked out = 0)
  (Hothers : forall t w, reader_Stop_others t w = w) :
  exists w' s' Q' out', zsa_device_start_cameras d (Some config) w = Done ZSA_RESULT_FAILED w' /\
    has w' d (dev <| zd_color_started := false |>) /\
    has w' (zd_capturesync dev) s' /\ halted s s' /\
    has w' (sy_sync_queue s) out' /\ abs out' = adisable (abs out) /\
    (forall color, has w' (fi_queue (frame_of color s)) (Q' color) /\ abs (Q' color) = adisable (abs (Q color))) /\
    exists t, trace w' = t ++ [EReader R_stop].
Proof.
  pose proof Hd as [Hn Hdh]. pose proof Hc as [Hcn Hch]. pose proof (syn_has _ _ _ _ _ _ _ (rd_syncing _ _ _ _ _ _ _ Hs)) as [Hsn Hsh].
  assert (Hdc : zd_color dev <> d) by (intros E; rewrite E in Hch; cbn in *; congruence).
  set (dev' := dev <| zd_color_started := false |>).
  assert (Hw : wp (zsa_device_start_cameras d (Some config)) (fun r w' => r = ZSA_RESULT_FAILED /\ exists s' Q' out',
    has w' d dev' /\ has w' (zd_capturesync dev) s' /\ halted s s' /\ has w' (sy_sync_queue s) out' /\ abs out' = adisable (abs out) /\
    (forall color, has w' (fi_queue (frame_of color s)) (Q' color) /\ abs (Q' color) = adisable (abs (Q color))) /\
    exists t, trace w' = t ++ [EReader R_stop]) w).
  2: { destruct (proj1 (wp_run _ _ _) Hw) as (r & w' & E & -> & s' & Q' & out' & Hp). by exists w', s', Q', out'. }
  eapply wp_if_handle_valid; [exact Hd|]. apply wp_bind. eapply wp_load; [exact Hd|]. rewrite Hst.
  do 4 (apply wp_bind, wp_ret). cbn [ZSA_FAILED ZSA_SUCCEEDED negb when]. apply wp_bind.
  eapply wp_if_handle_valid; [exact Hd|]. apply wp_bind. eapply wp_load; [exact Hd|].
  rewrite (proj2 (Z.eqb_neq _ _) Hsn). cbn [negb when]. apply wp_bind.
  eapply wp_mono; [by apply (wp_capturesync_stop _ _ _ _ _ _ _ Hs)|].
  intros _ w1 (Hk & s' & Q' & out' & [Hw1 _ _ _ _ _ _] & _ & Hhalt & Ho1 & HQ1).
  assert (Hd1 : has w1 d dev) by (split; [done|by apply Hk]). assert (Hc1 : has w1 (zd_color dev) c) by (split; [done|by apply Hk]).
  apply wp_bind. eapply wp_load; [exact Hd1|]. rewrite (proj2 (Z.eqb_neq _ _) Hcn). cbn [negb when].
  apply wp_bind. eapply wp_if_handle_valid; [exact Hc1|]. apply wp_bind. eapply wp_update; [exact Hc1|].
  apply wp_bind. eapply wp_load; [apply has_stored, Hcn|]. cbn [cl_m_spCameraReader update_field]. rewrite Hrd. cbn [when].
  unfold reader_stop. unfold wp at 1. rewrite Hothers. set (w2 := _ <| tick := _ |>).
  assert (Hne : forall x (o : obj), heap w1 !! x = Some o -> x <> zd_color dev -> x <> d ->
    heap (w2 <| heap := <[d := to_obj dev']> (heap w2) |>) !! x = Some o).
  { intros x o Hx Hx1 Hx2. cbn. by rewrite !lookup_insert_ne. }
  eapply wp_update; [split; [exact Hn|]; cbn; rewrite lookup_insert_ne by done; apply Hd1|].
  apply wp_ret. split; [done|]. exists s', Q', out'.
  assert (Hlinks : sy_sync_queue s' = sy_sync_queue s /\ forall color, fi_queue (frame_of color s') = fi_queue (frame_of color s)).
  { destruct Hhalt as [E Hf]. split; [by rewrite E|]. intros color. apply (Hf color). }
  destruct Hlinks as [El Elc].
  assert (Hkeep : forall x (o : obj), heap w1 !! x = Some o -> obj_kind o <> KModule ->
    heap (w2 <| heap := <[d := to_obj dev']> (heap w2) |>) !! x = Some o).
  { intros x o Hx Hk'. apply Hne; [done| |]; intros ->; [destruct Hc1 as [_ E]|destruct Hd1 as [_ E]]; rewrite E in Hx; injection Hx as <-; done. }
  destruct (syn_out _ _ _ _ _ _ _ Hw1) as ([Hon Hoh] & _). destruct (syn_has _ _ _ _ _ _ _ Hw1) as [_ Hsh1].
  split_and!; try done.
  - by apply has_stored.
  - split; [done|]. by apply Hkeep.
  - rewrite El in *. split; [done|]. by apply Hkeep.
  - intros color. destruct (syn_queue _ _ _ _ _ _ _ Hw1 color) as ([Hqn Hqh] & _). rewrite Elc in *.
    split; [split; [done|by apply Hkeep]|apply HQ1].
  - exists (trace w1). done.
Qed.
End properties.

(** * Witnesses *)

Lemma zsa_device_open_fails_witness :
  exists w', zsa_device_open [] 0 true init_world = Done (ZSA_RESULT_FAILED, None) w' /\
    heap w' = ∅ /\ res_change none init_world w' /\ g_allocator_sessions w' = 0.
Proof.
  pose proof (zsa_device_open_fails ∅ no_refs init_world [] 0 inv_init) as Hs.
  destruct (zsa_device_open [] 0 true init_world) as [r w'|f].
  - destruct Hs as (-> & Eh & _ & Hr & Es). exists w'. split; [reflexivity|]. split; [exact Eh|]. split; [exact Hr|exact Es].
  - destruct Hs as [_ [t Ht]]. discriminate Ht.
Defined.

(** A started device over the running synchroniser of [sample_sync_world]. *)
Definition sample_device : zsa_context_t := mkDevice 77 NULL 6 8 true.
Definition sample_device_world : world := add_object (MColor sample_color) (add_object (MDevice sample_device) sample_sync_world).

(** Another module's context does not disturb a synchroniser. *)
Lemma ready_add_module ext h s Q out m w :
  ready ∅ ext h s Q out w -> module_refs m = [] -> module_idle m -> ready ∅ ext h s Q out (add_object m w).
Proof.
  intros [[HI Hu Hh Hq Ho Hd] Hf Hl Hok Hz Hp Hone] Hr Hi. pose proof (inv_fresh_none _ _ _ HI) as Hn.
  assert (Hk : forall x o, heap w !! x = Some o -> heap (add_object m w) !! x = Some o).
  { intros x o Hx. cbn. rewrite lookup_insert_ne; [done|]. intros <-. congruence. }
  split; try done. split; try done.
  - by apply inv_add_module.
  - intros k Hk' x o [Hx%elem_of_empty|Hx%elem_of_singleton]%elem_of_union Ho'; [done|]. subst x.
    destruct Hh as [_ Hh]. apply Hk in Hh. rewrite Hh in Ho'. injection Ho' as <-. by destruct Hk' as [-> | ->].
  - split; [apply Hh|]. apply Hk, Hh.
  - intros c. destruct (Hq c) as ([? ?] & ? & ?). split_and!; try done. split; [done|by apply Hk].
  - destruct Ho as ([? ?] & ? & ?). split_and!; try done. split; [done|by apply Hk].
Qed.

Lemma zsa_device_start_twice_witness :
  exists w', zsa_device_start_cameras 7 (Some sample_config) sample_device_world = Done ZSA_RESULT_FAILED w' /\
    has w' 7 (sample_device <| zd_color_started := false |>).
Proof.
  destruct (zsa_device_start_twice ∅ sample_ledger 7 sample_device sample_color sample_sync
    (fun _ => sample_sensor_queue) sample_output_queue sample_config sample_device_world)
    as (w' & s' & Q' & out' & E & Hd & _).
  - split; [discriminate|vm_compute; reflexivity].
  - reflexivity.
  - split; [discriminate|vm_compute; reflexivity].
  - reflexivity.
  - apply (ready_add_module _ _ _ _ _ (MColor sample_color)); [|reflexivity|exact I].
    apply (ready_add_module _ _ _ _ _ (MDevice sample_device)); [exact sample_ready|reflexivity|exact I].
  - exact sample_ledger_nonneg.
  - intros []; reflexivity.
  - reflexivity.
  - intros t w. reflexivity.
  - exists w'. split; [exact E|exact Hd].
Defined.
