(* ===== verification/ColorPath.v ===== *)
(** From libuvc to the application: the reader of the camera
    (uvc_camerareader.cpp) calls color.cpp, which calls zsa.c, which hands the
    capture to the synchroniser.  The components are put together here, each
    through its own specification. *)

From S2P Require Export SyncDirect Device UvcFrame.

Section path.
Context `{Platform} `{Uvc}.
Implicit Types (this c d h : Z) (r : UVCCameraReader) (cl : color_context_t) (dev : zsa_context_t) (w : world).
Implicit Types (s : capturesync_context_t) (Q : bool -> queue_context_t) (out : queue_context_t) (ext : ledger).

(** color_start passes color_capture_available to the reader, with its own
    context. *)
Definition color_reader_client : ReaderClient := fun _ => color_capture_available.
#[local] Existing Instance color_reader_client.

(** The reader at [this] delivers to the color module at [c], that to the
    device at [d], and that to the synchroniser at [h]. *)
Record path this c d h r cl dev w : Prop := mkPath {
  pa_reader : has w this r;
  pa_color : has w c cl;
  pa_device : has w d dev;
  pa_callback : exists id, uv_pCallback r = stream_callback id;
  pa_reader_context : uv_pCallbackContext r = c;
  pa_ready : cl_capture_ready_cb cl = color_capture_ready_cb;
  pa_color_context : cl_capture_ready_cb_context cl = d;
  pa_sync : zd_capturesync dev = h
}.

Lemma path_kept this c d h r cl dev w w' : path this c d h r cl dev w -> modules_kept w w' -> path this c d h r cl dev w'.
Proof. intros [[? ?] [? ?] [? ?] ? ? ? ? ?] Hk. by split; try (split; [done|by apply Hk]). Qed.

Lemma kept_same w w' : same_modules w w' -> modules_kept w w'.
Proof. intros Hs x m. apply Hs. Qed.

Lemma path_distinct this c d h r cl dev w : path this c d h r cl dev w -> this <> c /\ this <> d.
Proof. intros [[_ H1] [_ H2] [_ H3] _ _ _ _ _]. cbn in *. split; intros ->; congruence. Qed.

Lemma path_reader this c d h r r' cl dev w w' :
  path this c d h r cl dev w -> kept_but this w w' -> has w' this r' ->
  uv_pCallback r' = uv_pCallback r -> uv_pCallbackContext r' = uv_pCallbackContext r -> path this c d h r' cl dev w'.
Proof.
  intros Hp Hk Hr E1 E2. destruct (path_distinct _ _ _ _ _ _ _ _ Hp) as [Hc Hd].
  destruct Hp as [_ [? ?] [? ?] ? ? ? ? ?]. split; rewrite ?E1, ?E2; try done; (split; [done|]; by apply Hk).
Qed.

Lemma kept_but_store this r w : kept_but this w (w <| heap := <[this := to_obj r]> (heap w) |>).
Proof. intros x o Hx Hn. cbn. by rewrite lookup_insert_ne. Qed.

(** The callbacks down to the synchroniser. *)
Lemma wp_client this c d h r cl dev result capture w :
  path this c d h r cl dev w -> (result = ZSA_RESULT_FAILED -> capture = NULL) ->
  forall R : unit -> world -> Prop, wp (capturesync_add_capture h result capture true) R w ->
  wp (color_capture_available result capture c) R w.
Proof.
  intros [_ Hc Hd _ _ Hcb Hctx Hs] Hcap R HR. unfold color_capture_available.
  apply wp_bind. eapply wp_load; [exact Hc|]. rewrite Hcb, Hctx. apply wp_bind.
  unfold color_capture_ready_fn, device_ColorClient, color_capture_ready, device_valid.
  eapply wp_if_handle_valid; [exact Hd|]. apply wp_bind. eapply wp_load; [exact Hd|]. rewrite Hs.
  eapply wp_mono; [exact HR|]. intros [] w1 H1. destruct result; cbn.
  - by apply wp_ret.
  - rewrite Hcap by done. by apply wp_ret.
Qed.

(** ** The books while the reader is locked *)

Lemma ready_enter ext ext' this r r' h s Q out w w' :
  ready ∅ ext h s Q out w -> has w this r -> kept_but this w w' -> has w' this r' -> Inv {[this]} ext' w' ->
  ready {[this]} ext' h s Q out w'.
Proof.
  intros [[HI Hu Hh Hq Ho Hd] Hfree Hl Hok Hz Hp Hone] [_ Ht] Hk Ht' HI'.
  assert (Hx : forall {T} `{!Context T} x (a : T), has w x a -> obj_kind (to_obj a) <> KModule -> has w' x a /\ x ∉ ({[this]} : gset Z)).
  { intros T C x a [Hn Hx] Hkind. assert (x <> this) by (intros ->; rewrite Ht in Hx; injection Hx as E; by rewrite <- E in Hkind).
    split; [split; [done|]; by apply Hk|set_solver]. }
  destruct (Hx _ _ h s Hh ltac:(done)) as [Hh' Hht].
  split; try done. split; try done.
  - eapply inv_busy; [exact HI'|set_solver].
  - intros k Hkk. eapply unbusy_add; [|apply Hh'|by destruct Hkk as [->| ->]].
    intros x o ->%elem_of_singleton Ho'. destruct Ht' as [_ Ht']. rewrite Ht' in Ho'. injection Ho' as <-. by destruct Hkk as [->| ->].
  - intros color. destruct (Hq color) as (H1 & H2 & _). by destruct (Hx _ _ _ _ H1 ltac:(done)).
  - destruct Ho as (H1 & H2 & _). by destruct (Hx _ _ _ _ H1 ltac:(done)).
Qed.

(** The reader lets go of its lock, and is at rest. *)
Lemma ready_leave ext this r h s Q out w :
  ready {[this]} ext h s Q out w -> has w this r -> uv_mutex r <> LockHeld -> ready ∅ ext h s Q out w.
Proof.
  intros [[HI Hu Hh Hq Ho Hd] Hfree Hl Hok Hz Hp Hone] Ht Hm. split; try done. split; try done.
  - destruct HI as [Ha Hpos Hr Hi Hb Hg Hf], Ht as [_ Ht]. split; try done; intros x o Hx Hxb.
    + intros Hc. destruct (decide (x = this)) as [->|Hn]; [rewrite Ht in Hx; by injection Hx as <-|].
      apply (Hpos x o Hx); [set_solver|done].
    + destruct (decide (x = this)) as [->|Hn]; [rewrite Ht in Hx; by injection Hx as <-|]. apply (Hi x o Hx). set_solver.
  - intros k Hk x o Hx. apply Hu; [done|set_solver].
  - intros color. destruct (Hq color) as (H1 & H2 & _). split_and!; [done|done|set_solver].
  - destruct Ho as (H1 & H2 & _). split_and!; [done|done|set_solver].
Qed.

Lemma ready_reader ext this r r' h s Q out w :
  ready {[this]} ext h s Q out w -> has w this r ->
  ready {[this]} ext h s Q out (w <| heap := <[this := to_obj r']> (heap w) |>).
Proof.
  intros [[HI Hu Hh Hq Ho Hd] Hfree Hl Hok Hz Hp Hone] [Hn Ht].
  assert (Hx : forall {T} `{!Context T} x (a : T), has w x a -> x ∉ ({[this]} : gset Z) ->
    has (w <| heap := <[this := to_obj r']> (heap w) |>) x a).
  { intros T C x a [Hxn Hx] Hne. split; [done|]. cbn. rewrite lookup_insert_ne by set_solver. exact Hx. }
  split; try done. split; try done.
  - eapply inv_reader; [exact HI|by split|set_solver].
  - intros k Hk. eapply unbusy_store; [by apply Hu|exact Ht|done].
  - by apply Hx.
  - intros color. destruct (Hq color) as (H1 & H2 & H3). split_and!; [by apply Hx|done|done].
  - destruct Ho as (H1 & H2 & H3). split_and!; [by apply Hx|done|done].
Qed.

(** ** Letting go of the frame *)

(** The reader's references to the image and the capture, where there are. *)
Definition reader_refs (ext : ledger) (image capture : Z) : ledger := gain_capture (gain_nonnull ext image) capture.

Lemma nonneg_reader_refs ext image capture : nonneg ext -> nonneg (reader_refs ext image capture).
Proof.
  intros He. apply nonneg_gain_capture. unfold gain_nonnull. destruct (image =? NULL); [done|by apply nonneg_gain].
Qed.

Lemma reader_refs_capture ext image capture :
  nonneg ext -> capture <> NULL -> 0 < reader_refs ext image capture (KCapture, capture).
Proof.
  intros He Hc. unfold reader_refs, gain_capture, gain_nonnull. rewrite (proj2 (Z.eqb_neq capture NULL)) by done.
  specialize (He KCapture capture ltac:(done)). destruct (image =? NULL); ledger.
Qed.

Lemma wp_let_image busy ext h s Q out image capture w (R : unit -> world -> Prop) :
  ready busy (reader_refs ext image capture) h s Q out w -> nonneg ext ->
  (forall w', ready busy (reader_refs ext NULL capture) h s Q out w' -> modules_kept w w' -> survivors w w' -> R tt w') ->
  wp (when (negb (image =? NULL)) (image_dec_ref image)) R w.
Proof.
  intros Hr He HR. apply wp_when; intros Hi.
  2: { apply negb_false_iff, Z.eqb_eq in Hi as ->. apply HR; [exact Hr|apply kept_refl|reflexivity]. }
  apply negb_true_iff, Z.eqb_neq in Hi. pose proof (nonneg_reader_refs ext image capture He) as He'.
  pose proof Hr as [Hw ? ? ? ? ? ?]. pose proof Hw as [HI Hu _ _ _ _].
  assert (Eg : reader_refs ext image capture (KImage, image) = ext (KImage, image) + 1).
  { unfold reader_refs, gain_capture, gain_nonnull. rewrite (proj2 (Z.eqb_neq image NULL)) by done. destruct (capture =? NULL); ledger. }
  eapply wp_mono; [apply (wp_image_unref _ _ _ _ HI); [by apply parts_blocks, nonneg_parts|by apply Hu; left|]|].
  { rewrite (inv_account _ _ _ HI), Eg. pose proof (slots_nonneg (heap w) (KImage, image)). specialize (He KImage image ltac:(done)). lia. }
  intros [] w' (HI' & Hs & _). assert (Hs' : rc_step [KCapture; KImage; KBlock] w w') by (eapply rc_step_weaken; [exact Hs|set_solver]).
  apply HR; [|by apply kept_step|by eapply survivors_step].
  split; try done. eapply syncing_frame; [exact Hw| |exact Hs']. eapply inv_ext; [exact HI'|].
  unfold reader_refs, gain_capture, gain_nonnull. rewrite (proj2 (Z.eqb_neq image NULL)) by done. cbn [Z.eqb NULL].
  destruct (capture =? NULL); ledger.
Qed.

Lemma wp_let_capture busy ext h s Q out capture w (R : unit -> world -> Prop) :
  ready busy (reader_refs ext NULL capture) h s Q out w -> nonneg ext ->
  (forall w', ready busy ext h s Q out w' -> modules_kept w w' -> survivors w w' -> R tt w') ->
  wp (when (negb (capture =? NULL)) (capture_dec_ref capture)) R w.
Proof.
  intros Hr He HR. apply wp_when; intros Hc.
  2: { apply negb_false_iff, Z.eqb_eq in Hc as ->. apply HR; [exact Hr|apply kept_refl|reflexivity]. }
  apply negb_true_iff, Z.eqb_neq in Hc. pose proof (nonneg_reader_refs ext NULL capture He) as He'.
  pose proof Hr as [Hw ? ? ? ? ? ?]. pose proof Hw as [HI Hu _ _ _ _].
  assert (Eg : forall x, reader_refs ext NULL capture x = gain ext (KCapture, capture) x).
  { intros x. unfold reader_refs, gain_capture. by rewrite (proj2 (Z.eqb_neq capture NULL)). }
  eapply wp_mono; [apply (wp_capture_unref _ _ _ _ HI); [by apply nonneg_parts|by apply Hu; left|by apply Hu; right|]|].
  { rewrite (inv_account _ _ _ HI), Eg. pose proof (slots_nonneg (heap w) (KCapture, capture)). specialize (He KCapture capture ltac:(done)). ledger. }
  intros [] w' (HI' & [Hs _] & _). apply HR; [|by apply kept_step|by eapply survivors_step].
  split; try done. eapply syncing_frame; [exact Hw| |exact Hs]. eapply inv_ext; [exact HI'|].
  intros x. unfold lose. rewrite !Eg. ledger.
Qed.

(** After the client: the references go, then the lock. *)
Lemma wp_let_go this c d h r cl dev ext s Q out image capture w :
  path this c d h r cl dev w -> ready {[this]} (reader_refs ext image capture) h s Q out w -> nonneg ext ->
  uv_mutex r = LockHeld ->
  wp (when (negb (image =? NULL)) (image_dec_ref image);; when (negb (capture =? NULL)) (capture_dec_ref capture))
     (fun _ => wp (Unlock uv_mutex this) (fun _ w' =>
        path this c d h (r <| uv_mutex := LockFree |>) cl dev w' /\ ready ∅ ext h s Q out w' /\ survivors w w')) w.
Proof.
  intros Hp Hr He Hl. apply wp_bind. eapply wp_let_image; [exact Hr|exact He|]. intros w1 Hr1 Hk1 Hs1.
  eapply wp_let_capture; [exact Hr1|exact He|]. intros w2 Hr2 Hk2 Hs2.
  assert (Hp2 : path this c d h r cl dev w2) by (eapply path_kept; [exact Hp|by eapply kept_trans]).
  pose proof (pa_reader _ _ _ _ _ _ _ _ Hp2) as Hh. eapply wp_Unlock; [exact Hh|]. rewrite Hl.
  set (r' := r <| uv_mutex := LockFree |>). set (w3 := w2 <| heap := _ |>).
  assert (Hh3 : has w3 this r') by apply has_stored, Hh.
  split_and!.
  - eapply path_reader; [exact Hp2|apply kept_but_store|exact Hh3|done|done].
  - eapply ready_leave; [by eapply ready_reader|exact Hh3|done].
  - etrans; [exact Hs1|]. etrans; [exact Hs2|]. exact (survivors_store this r' w2 (proj1 Hh) eq_refl).
Qed.

Lemma wp_call_client this c d h r cl dev result image capture w (R : unit -> world -> Prop) :
  path this c d h r cl dev w -> (result = ZSA_RESULT_FAILED -> capture = NULL) ->
  wp (capturesync_add_capture h result capture true) (fun _ =>
    wp (when (negb (image =? NULL)) (image_dec_ref image);; when (negb (capture =? NULL)) (capture_dec_ref capture))
       (fun _ => wp (Unlock uv_mutex this) R)) w ->
  wp (call_client this result image capture) R w.
Proof.
  intros Hp Hcap HR. apply wp_bind, wp_bind. eapply wp_load; [exact (pa_reader _ _ _ _ _ _ _ _ Hp)|].
  destruct (pa_callback _ _ _ _ _ _ _ _ Hp) as [id ->]. rewrite (pa_reader_context _ _ _ _ _ _ _ _ Hp).
  apply wp_bind. eapply wp_client; [exact Hp|exact Hcap|exact HR].
Qed.

Lemma wp_and_keeps {A} (m : Mw A) R w : wp m R w -> keeps m -> wp m (fun a w' => R a w' /\ same_modules w w') w.
Proof. intros Hm Hk. specialize (Hk w). unfold wp in *. destruct (m w); [|done]. by destruct Hk. Qed.

(** ** The frame is delivered *)

Lemma path_called this c d h r cl dev ext frame m stride size result image capture w w1 :
  path this c d h r cl dev w -> client_called w ext this (r <| uv_mutex := LockHeld |>) frame m stride size result image capture w1 ->
  exists r', path this c d h r' cl dev w1 /\ same_but_decoder (r <| uv_mutex := LockHeld |>) r'.
Proof.
  intros Hp ((r' & Hr & Es) & Hk & _). exists r'. split; [|exact Es].
  eapply path_reader; [exact Hp|exact Hk|exact Hr|by rewrite Es..].
Qed.

Lemma delivered_refs w0 ext this r frame m stride size image capture w :
  delivered w0 ext this r frame m stride size image capture w ->
  image <> NULL /\ capture <> NULL /\ Inv {[this]} (reader_refs ext image capture) w.
Proof.
  intros [HI [Hc _] (p & b & [Hi _] & _) _]. split_and!; [done|done|].
  unfold reader_refs, gain_capture, gain_nonnull. by rewrite !(proj2 (Z.eqb_neq _ NULL)).
Qed.

Lemma not_delivered_refs ext this image capture w :
  not_delivered ext this image capture w ->
  capture = NULL /\ exists ext', (ext' = ext \/ exists p, ext' = gain ext (KBlock, p)) /\ Inv {[this]} (reader_refs ext' image NULL) w.
Proof.
  intros [-> [[-> [HI|[p HI]]]|[Hi HI]]]; (split; [done|]).
  - exists ext. split; [by left|exact HI].
  - exists (gain ext (KBlock, p)). split; [right; by exists p|exact HI].
  - exists ext. split; [by left|]. unfold reader_refs, gain_capture, gain_nonnull. by rewrite (proj2 (Z.eqb_neq image NULL)).
Qed.

(** The reader is as before. *)
Lemma unlocked_reader r r' : uv_mutex r = LockFree -> same_but_decoder (r <| uv_mutex := LockHeld |>) r' ->
  uv_mutex r' = LockHeld /\ same_but_decoder r (r' <| uv_mutex := LockFree |>).
Proof. intros Hl ->. split; [done|]. unfold same_but_decoder. destruct r; cbn in *. by subst. Qed.

Section frame.
Context (ext : ledger) (this c d h : Z) (r : UVCCameraReader) (cl : color_context_t) (dev : zsa_context_t)
  (s : capturesync_context_t) (Q : bool -> queue_context_t) (out : queue_context_t)
  (frame : uvc_frame_t) (m : frame_metadata_t) (stride size : Z) (w : world).
Hypotheses (Hf : frame_arrives ext this r frame m stride size w) (Hp : path this c d h r cl dev w)
  (Hr : ready ∅ ext h s Q out w) (He : nonneg ext).

(** The client is called with the reader locked and the synchroniser at
    rest. *)
Lemma called_ready result image capture w1 ext' r' :
  client_called w ext this (r <| uv_mutex := LockHeld |>) frame m stride size result image capture w1 ->
  path this c d h r' cl dev w1 -> Inv {[this]} ext' w1 -> ready {[this]} ext' h s Q out w1.
Proof.
  intros (_ & Hk & _) Hp1 HI. eapply ready_enter; [exact Hr|exact (pa_reader _ _ _ _ _ _ _ _ Hp)|exact Hk|exact (pa_reader _ _ _ _ _ _ _ _ Hp1)|exact HI].
Qed.

Lemma wp_delivered image capture w1 :
  client_called w ext this (r <| uv_mutex := LockHeld |>) frame m stride size ZSA_RESULT_SUCCEEDED image capture w1 ->
  wp (call_client this ZSA_RESULT_SUCCEEDED image capture)
     (fun _ w' => exists r' s' Q' out', path this c d h r' cl dev w' /\ same_but_decoder r r' /\
        ready ∅ ext h s' Q' out' w' /\ same_settings s s') w1.
Proof.
  intros Hc. destruct (path_called _ _ _ _ _ _ _ _ _ _ _ _ _ _ _ _ _ Hp Hc) as (r1 & Hp1 & Es).
  destruct (unlocked_reader _ _ (fa_lock _ _ _ _ _ _ _ _ Hf) Es) as [Hl1 Es'].
  destruct (delivered_refs _ _ _ _ _ _ _ _ _ _ _ (proj2 (proj2 Hc))) as (Hi & Hcn & HI1).
  pose proof (called_ready _ _ _ _ _ _ Hc Hp1 HI1) as Hr1.
  eapply wp_call_client; [exact Hp1|done|].
  eapply wp_mono; [apply wp_and_keeps; [|apply keeps_add_capture]|].
  { apply (wp_add_capture _ _ _ _ _ _ _ true _ Hr1); [by apply nonneg_reader_refs|]. intros _. by apply reader_refs_capture. }
  intros [] w2 [(s' & Q' & out' & Hr2 & _ & Hs & _) Hk]. pose proof (path_kept _ _ _ _ _ _ _ _ _ Hp1 (kept_same _ _ Hk)) as Hp2.
  eapply wp_mono; [by apply (wp_let_go _ _ _ _ _ _ _ _ _ _ _ _ _ _ Hp2 Hr2)|].
  intros [] w3 H3. eapply wp_mono; [exact H3|]. intros _ w4 (Hp4 & Hr4 & _). by eexists _, s', Q', out'.
Qed.

Lemma wp_not_delivered image capture w1 :
  client_called w ext this (r <| uv_mutex := LockHeld |>) frame m stride size ZSA_RESULT_FAILED image capture w1 ->
  (forall x, q_queue_pop_blocked (Q x) = 0) -> q_queue_pop_blocked out = 0 ->
  wp (call_client this ZSA_RESULT_FAILED image capture)
     (fun _ w' => exists r' Q' out' ext', path this c d h r' cl dev w' /\ same_but_decoder r r' /\
        ready ∅ ext' h s Q' out' w' /\ abs out' = adisable (abs out) /\ (forall x, abs (Q' x) = adisable (abs (Q x))) /\
        (ext' = ext \/ exists p, ext' = gain ext (KBlock, p))) w1.
Proof.
  intros Hc Hb Hbo. destruct (path_called _ _ _ _ _ _ _ _ _ _ _ _ _ _ _ _ _ Hp Hc) as (r1 & Hp1 & Es).
  destruct (unlocked_reader _ _ (fa_lock _ _ _ _ _ _ _ _ Hf) Es) as [Hl1 Es'].
  destruct (not_delivered_refs _ _ _ _ _ (proj2 (proj2 Hc))) as (-> & ext' & Hext & HI1).
  pose proof (called_ready _ _ _ _ _ _ Hc Hp1 HI1) as Hr1.
  assert (He' : nonneg ext') by (destruct Hext as [->|[p ->]]; [done|by apply nonneg_gain]).
  eapply wp_call_client; [exact Hp1|done|].
  eapply wp_mono; [apply (wp_add_failed _ _ _ _ _ _ _ true _ Hr1); [by apply nonneg_reader_refs|done|done]|].
  intros [] w2 (Hk & Q' & out' & Hr2 & Ho & HQ). pose proof (path_kept _ _ _ _ _ _ _ _ _ Hp1 Hk) as Hp2.
  eapply wp_mono; [by apply (wp_let_go _ _ _ _ _ _ _ _ _ _ _ _ _ _ Hp2 Hr2)|].
  intros [] w3 H3. eapply wp_mono; [exact H3|]. intros _ w4 (Hp4 & Hr4 & _). by eexists _, Q', out', ext'.
Qed.

Lemma wp_pushed image capture w1 :
  direct s ->
  client_called w ext this (r <| uv_mutex := LockHeld |>) frame m stride size ZSA_RESULT_SUCCEEDED image capture w1 ->
  wp (call_client this ZSA_RESULT_SUCCEEDED image capture)
     (fun _ w' => exists r' out', path this c d h r' cl dev w' /\ same_but_decoder r r' /\
        ready ∅ ext h s Q out' w' /\ abs out' = fst (apush (abs out) capture false) /\ survivors w1 w') w1.
Proof.
  intros Hd Hc. destruct (path_called _ _ _ _ _ _ _ _ _ _ _ _ _ _ _ _ _ Hp Hc) as (r1 & Hp1 & Es).
  destruct (unlocked_reader _ _ (fa_lock _ _ _ _ _ _ _ _ Hf) Es) as [Hl1 Es'].
  pose proof (proj2 (proj2 Hc)) as Hdel. destruct (delivered_refs _ _ _ _ _ _ _ _ _ _ _ Hdel) as (Hi & Hcn & HI1).
  pose proof (called_ready _ _ _ _ _ _ Hc Hp1 HI1) as Hr1.
  eapply wp_call_client; [exact Hp1|done|].
  eapply wp_mono; [apply wp_and_keeps; [|apply keeps_add_capture]|].
  { eapply (wp_add_direct _ _ _ _ _ _ _ _ _ Hr1 Hd);
      [by apply nonneg_reader_refs|by apply reader_refs_capture|exact (dl_capture _ _ _ _ _ _ _ _ _ _ _ Hdel)|exact Hi]. }
  intros [] w2 [(out' & Hr2 & Ho & Hs2) Hk]. pose proof (path_kept _ _ _ _ _ _ _ _ _ Hp1 (kept_same _ _ Hk)) as Hp2.
  eapply wp_mono; [by apply (wp_let_go _ _ _ _ _ _ _ _ _ _ _ _ _ _ Hp2 Hr2)|].
  intros [] w3 H3. eapply wp_mono; [exact H3|]. intros _ w4 (Hp4 & Hr4 & Hs4). eexists _, out'.
  split_and!; [exact Hp4|exact Es'|exact Hr4|exact Ho|by etrans].
Qed.
End frame.

(** [capture] has one color image, with the format and size of the stream, the
    layout, times and settings of the frame, and its bytes. *)
Definition carries r frame m (stride size capture : Z) w : Prop :=
  exists image p cc i b,
    heap w !! capture = Some (OCapture cc) /\ same_but_count (OCapture (color_capture image)) (OCapture cc) /\
    heap w !! image = Some (OImage i) /\ same_but_count (OImage (filled frame m (new_image r stride p size))) (OImage i) /\
    heap w !! p = Some (OBlock b) /\ frame_bytes r frame size (blk_data b).

Lemma carries_lock r l frame m stride size capture w :
  carries (r <| uv_mutex := l |>) frame m stride size capture w -> carries r frame m stride size capture w.
Proof. by destruct r. Qed.

(** A surviving object behind a count. *)
Lemma survives w w' k x o : survivors w w' -> heap w !! x = Some o -> k <> KSource -> counted k = true -> 0 < rc w' (k, x) ->
  exists o', heap w' !! x = Some o' /\ same_but_count o o'.
Proof.
  intros Hs Ho Hk Hc Hrc. destruct (rc_pos _ _ _ Hk Hrc) as (o' & Ho' & Hk' & _). exists o'. split; [done|].
  destruct (Hs x o' Ho') as (o1 & Ho1 & Hsc); [by rewrite Hk'|]. congruence.
Qed.

Lemma carries_survives w0 ext this r frame m stride size image capture w w' busy ext' :
  delivered w0 ext this r frame m stride size image capture w -> survivors w w' ->
  Inv busy ext' w' -> nonneg ext' -> 0 < ext' (KCapture, capture) -> carries r frame m stride size capture w'.
Proof.
  intros [_ [_ Hc] (p & b & [Hin Hi] & Hb & Hbytes) _] Hs HI He Hx.
  assert (Hcover : forall x o (e : ref), heap w' !! x = Some o -> e ∈ obj_refs o -> e.1 <> KSource -> 0 < rc w' e).
  { intros x o [k y] Ho Hin' Hk. pose proof (inv_covers _ _ _ _ _ (k, y) HI (He k y Hk) Ho). pose proof (count_ref_pos _ _ Hin'). lia. }
  destruct (survives _ _ KCapture _ _ Hs Hc ltac:(done) eq_refl) as (o & Ho & Hso).
  { rewrite (inv_account _ _ _ HI). pose proof (slots_nonneg (heap w') (KCapture, capture)). lia. }
  destruct o as [| |cc| | |]; try done.
  destruct (survives _ _ KImage _ _ Hs Hi ltac:(done) eq_refl) as (o2 & Ho2 & Hso2).
  { eapply Hcover; [exact Ho| |done]. cbn in Hso |- *. rewrite Hso. cbn. unfold nonnull. rewrite (proj2 (Z.eqb_neq image NULL)) by done. set_solver. }
  destruct o2 as [|i| | | |]; try done.
  destruct (survives _ _ KBlock _ _ Hs Hb ltac:(done) eq_refl) as (o3 & Ho3 & Hso3).
  { eapply Hcover; [exact Ho2| |done]. cbn in Hso2 |- *. rewrite Hso2. cbn. rewrite Z.add_simpl_r. set_solver. }
  cbn in Hso3. subst o3. by exists image, p, cc, i, b.
Qed.


(** C4: with the synchronisation off, as it is when the depth camera is, and
    the output queue empty, a frame that libuvc delivers is what the
    application gets next: capturesync_get_capture succeeds with a capture
    whose color image has the format and size of the stream, the frame's
    layout, times and settings, and its bytes; the application holds the only
    reference, and the queue is empty again. *)
Theorem color_frame_reaches_application (ext : ledger) (this c d h wait : Z) (r : UVCCameraReader) (cl : color_context_t)
    (dev : zsa_context_t) (s : capturesync_context_t) (Q : bool -> queue_context_t) (out : queue_context_t)
    (frame : uvc_frame_t) (m : frame_metadata_t) (stride size : Z) (w : world)
  (Hf : frame_arrives ext this r frame m stride size w) (Hp : path this c d h r cl dev w)
  (Hr : ready ∅ ext h s Q out w) (He : nonneg ext) (Hd : direct s)
  (Hen : aq_enabled (abs out) = true) (Hempty : aq_items (abs out) = [])
  (Hcopy : frame_decodes r = false) (Hmem : memory_ok w) :
  wp (Callback this (Some frame);; capturesync_get_capture h true wait)
     (fun res w' => exists capture r' out', res = (ZSA_WAIT_RESULT_SUCCEEDED, Some capture) /\
        carries r frame m stride size capture w' /\ path this c d h r' cl dev w' /\ same_but_decoder r r' /\
        ready ∅ (gain ext (KCapture, capture)) h s Q out' w' /\ abs out' = abs out) w.
Proof.
  apply wp_bind. unfold wp at 1. pattern (Callback this (Some frame) w).
  apply (callback_case ext this r frame m stride size); [exact Hf|done|]. intros result image capture w1 Hc Hok.
  assert (result = ZSA_RESULT_SUCCEEDED) as -> by (by apply Hok). pose proof (proj2 (proj2 Hc)) as Hdel.
  destruct (delivered_refs _ _ _ _ _ _ _ _ _ _ _ Hdel) as (_ & Hcn & _).
  destruct (proj1 (wp_run _ _ _) (wp_pushed _ _ _ _ _ _ _ _ _ _ _ _ _ _ _ _ Hf Hp Hr He _ _ _ Hd Hc))
    as ([] & w2 & -> & r' & out2 & Hp2 & Hs2 & Hr2 & Ho2 & Hsv2).
  pose proof (wf_depth _ (proj1 (proj2 (syn_out _ _ _ _ _ _ _ (rd_syncing _ _ _ _ _ _ _ Hr))))) as Hdepth.
  assert (Eo : abs out2 = (abs out) <| aq_items := [capture] |>).
  { rewrite Ho2. unfold apush. rewrite Hen, Hempty. cbn [negb length Z.of_nat].
    rewrite (proj2 (Z.eqb_neq _ _)); [done|]. cbn. lia. }
  eapply wp_mono; [apply (wp_get_waiting _ _ _ _ _ _ capture [] wait _ Hr2 He); by rewrite Eo|].
  intros res w3 (-> & Hsv3 & Hk3 & out3 & Hr3 & Ho3). exists capture, r', out3. split_and!; [done| | |done|exact Hr3|].
  - apply (carries_lock r LockHeld). eapply carries_survives; [exact Hdel|exact (transitivity Hsv2 Hsv3)| |by apply nonneg_gain|].
    + eapply syncing_close; [apply Hr3|apply Hr3].
    + specialize (He KCapture capture ltac:(done)). ledger.
  - by eapply path_kept.
  - rewrite Ho3, Eo. revert Hempty. destruct (abs out). cbn. by intros ->.
Qed.
End path.

(** * A sample camera *)

(** The reader, the color module and the device over the synchroniser of
    [sample_sync_world], of whose sensors only the camera is on. *)
Definition direct_sync : capturesync_context_t := sample_sync <| sy_sync_captures := false |>.
Definition path_reader_context : UVCCameraReader := streaming_reader <| uv_pCallbackContext := 8 |>.
Definition path_color_context : color_context_t := mkColor 1 color_capture_ready_cb 9 0 [] true.
Definition path_device_context : zsa_context_t := mkDevice 1 NULL 6 8 true.
Definition direct_world : world := sample_sync_world <| heap := <[6 := OSync direct_sync]> (heap sample_sync_world) |>.
Definition path_world : world :=
  add_object (MDevice path_device_context) (add_object (MColor path_color_context) (add_object (MUvc path_reader_context) direct_world)).

(** Other settings. *)
Lemma ready_settings `{Platform} busy ext h s s' Q out w :
  ready busy ext h s Q out w -> same_links s s' -> (forall x, frame_of x s' = frame_of x s) -> sy_lock s' = LockFree ->
  (sy_running s' = true -> 0 < sy_fps_period s') ->
  ready busy ext h s' Q out (w <| heap := <[h := OSync s']> (heap w) |>).
Proof.
  intros [Hw Hfree Hl Hok Hz Hp Hone] Hs Hf Hl' Hp'. pose proof (Hf true) as E1. pose proof (Hf false) as E2. cbn in E1, E2.
  split; [|done|done| |done|done|].
  - eapply syncing_store; [exact Hw|exact Hs|]. intros e. cbn. rewrite E1, E2. lia.
  - intros x. rewrite Hf. apply Hok.
  - unfold one_empty. rewrite E1, E2. exact Hone.
Qed.

Lemma path_world_ready :
  ready ∅ sample_ledger 6 direct_sync (fun _ => sample_sensor_queue) sample_output_queue path_world.
Proof.
  do 3 (apply ready_add_module; [|reflexivity|first [discriminate|exact I]]).
  eapply (ready_settings ∅ sample_ledger 6 sample_sync direct_sync); [exact sample_ready|split; [reflexivity|by intros []]|by intros []|reflexivity|].
  intros _. reflexivity.
Qed.

Lemma path_world_path : path 7 8 9 6 path_reader_context path_color_context path_device_context path_world.
Proof.
  split; try (split; [discriminate|vm_compute; reflexivity]); try reflexivity. by exists 1.
Qed.

Lemma path_world_arrives :
  frame_arrives sample_ledger 7 path_reader_context sample_yuy2_frame (mkMetadata 90000 8333 200 0) 4 4 path_world.
Proof.
  split.
  - eapply syncing_close; [apply path_world_ready|reflexivity].
  - apply path_world_path.
  - reflexivity.
  - reflexivity.
  - exact remembering_decoder.
  - vm_compute. intuition discriminate.
  - reflexivity.
  - vm_compute. discriminate.
  - intros w. vm_compute. reflexivity.
  - discriminate.
  - reflexivity.
  - vm_compute. intuition discriminate.
Qed.

Lemma path_world_memory : memory_ok path_world.
Proof. split; [reflexivity|split; [reflexivity|vm_compute; reflexivity]]. Qed.


Lemma color_frame_reaches_application_witness :
  exists capture w', (@Callback _ _ color_reader_client 7 (Some sample_yuy2_frame);; capturesync_get_capture 6 true 0) path_world =
      Done (ZSA_WAIT_RESULT_SUCCEEDED, Some capture) w' /\
    carries path_reader_context sample_yuy2_frame (mkMetadata 90000 8333 200 0) 4 4 capture w'.
Proof.
  pose proof (color_frame_reaches_application sample_ledger 7 8 9 6 0 path_reader_context path_color_context path_device_context
    direct_sync (fun _ => sample_sensor_queue) sample_output_queue sample_yuy2_frame (mkMetadata 90000 8333 200 0) 4 4 path_world
    path_world_arrives path_world_path path_world_ready sample_ledger_nonneg ltac:(split; reflexivity) ltac:(reflexivity)
    ltac:(vm_compute; reflexivity) ltac:(reflexivity) path_world_memory) as Hw.
  destruct (proj1 (wp_run _ _ _) Hw) as (res & w' & E & capture & r' & out' & -> & Hc & _). exists capture, w'.
  split; [exact E|exact Hc].
Defined.
