(* ===== verification/ComCommand.v ===== *)
(** src/comcommand (comcommand.c, comstreaming.c, com_cmd_priv.h): the serial
    twin of the USB module, of which only the frame is written: commands
    succeed without being sent. *)

From S2P Require Export UsbDevice.

Definition COM_CMD_MAX_XFR_COUNT : Z := 8.
Definition COM_CMD_DEPTH_INTERFACE : Z := 0.
Definition COM_CMD_DEPTH_IN_ENDPOINT : Z := 0x02.
Definition COM_CMD_DEPTH_OUT_ENDPOINT : Z := 0x81.
Definition COM_CMD_DEPTH_STREAM_ENDPOINT : Z := 0x83.
Definition COM_CMD_IMU_INTERFACE : Z := 2.
Definition COM_CMD_IMU_IN_ENDPOINT : Z := 0x04.
Definition COM_CMD_IMU_OUT_ENDPOINT : Z := 0x83.
Definition COM_CMD_IMU_STREAM_ENDPOINT : Z := 0x82.

Inductive com_command_device_type_t : Set :=
| COM_DEVICE_DEPTH_PROCESSOR
| COM_DEVICE_COLOR_PROCESSOR
| COM_DEVICE_TYPE_COUNT.

#[export] Instance com_Context : Context comcmd_context_t := {
  to_obj := fun c => OModule (MCom c);
  of_obj := fun o => match o with OModule (MCom c) => Some c | _ => None end;
  of_to_obj := fun _ => eq_refl;
  to_of_obj := ltac:(module_inj);
  zeroed := mkCom 0 0 0 0 0 0 0 0 (replicate (Z.to_nat MAX_SERIAL_NUMBER_LENGTH) 0) (replicate 16 0)
    stream_cb_null NULL false (replicate (Z.to_nat COM_CMD_MAX_XFR_COUNT) NULL) 0 LockNull NULL
}.

(** Functions that comcommand.c calls and that no file of the repository
    defines. *)
Class ComExtern : Type := com_populate_serialnumber : list event -> zsa_result_t.

Section operations.
Context `{Platform} `{Usb} `{ComExtern}.

Definition TraceLibComError (err : Z) : zsa_result_t := ZSA_RESULT_FROM_BOOL (negb (err <? 0)).

(** The same text as usbcommand.c's. *)
Definition com_uuid_to_string (guid : list Z) : list Z := uuid_to_string guid.

Definition com_cmd_set_libcom_debug_verbosity : zsa_result_t := ZSA_RESULT_SUCCEEDED.

(** The result is returned without having been set. *)
Definition com_populate_container_id : Mw zsa_result_t := throw Uninitialised.

Definition find_libcom_device : zsa_result_t := ZSA_RESULT_SUCCEEDED.

Definition com_valid {A} (v : A) (h : Z) (rest : Mw A) : Mw A := if_handle_valid comcmd_context_t v h rest.

(** ** Streaming *)

Definition com_cmd_release_xfr : Mw unit := mret tt.
Definition com_cmd_libcom_cb : Mw unit := mret tt.
Definition com_cmd_lib_com_thread (comcmd : Z) : Mw zsa_result_t := mret ZSA_RESULT_SUCCEEDED.

Definition com_cmd_stream_start (comcmd_handle payload_size : Z) : Mw zsa_result_t :=
  com_valid ZSA_RESULT_FAILED comcmd_handle (
    if payload_size =? 0 then mret ZSA_RESULT_FAILED
    else
      let h := comcmd_handle in
      Lock cc_lock h;;
      c ← load comcmd_context_t h;
      result ← (if cc_stream_going c then mret ZSA_RESULT_FAILED
                else
                  update h (fun c => c <| cc_stream_size := payload_size |> <| cc_stream_going := true |>);;
                  t ← ThreadAPI_Create;
                  match t with
                  | Some t =>
                      update h (fun c => c <| cc_stream_handle := t |>);;
                      mret ZSA_RESULT_SUCCEEDED
                  | None =>
                      update h (fun c => c <| cc_stream_going := false |>);;
                      mret ZSA_RESULT_FAILED
                  end);
      Unlock cc_lock h;;
      mret result).

Definition com_cmd_stream_stop (comcmd_handle : Z) : Mw zsa_result_t :=
  com_valid ZSA_RESULT_FAILED comcmd_handle (
    let h := comcmd_handle in
    Lock cc_lock h;;
    update h (fun c => c <| cc_stream_going := false |>);;
    c ← load comcmd_context_t h;
    when (negb (cc_stream_handle c =? NULL)) (
      ThreadAPI_Join (cc_stream_handle c);;
      update h (fun c => c <| cc_stream_handle := NULL |>));;
    Unlock cc_lock h;;
    mret ZSA_RESULT_SUCCEEDED).

(** ** Creating and destroying *)

Definition com_cmd_destroy (comcmd_handle : Z) : Mw unit :=
  com_valid tt comcmd_handle (
    _ ← com_cmd_stream_stop comcmd_handle;
    handle_destroy comcmd_context_t comcmd_handle).

Definition com_select_device (device_type : com_command_device_type_t) (c : comcmd_context_t) : comcmd_context_t :=
  match device_type with
  | COM_DEVICE_DEPTH_PROCESSOR =>
      c <| cc_pid := ZSA_DEPTH_PID |> <| cc_interface := COM_CMD_DEPTH_INTERFACE |>
        <| cc_cmd_tx_endpoint := COM_CMD_DEPTH_IN_ENDPOINT |> <| cc_cmd_rx_endpoint := COM_CMD_DEPTH_OUT_ENDPOINT |>
        <| cc_stream_endpoint := COM_CMD_DEPTH_STREAM_ENDPOINT |> <| cc_source := ALLOCATION_SOURCE_COM_DEPTH |>
  | _ =>
      c <| cc_pid := ZSA_RGB_PID |> <| cc_interface := COM_CMD_IMU_INTERFACE |>
        <| cc_cmd_tx_endpoint := COM_CMD_IMU_IN_ENDPOINT |> <| cc_cmd_rx_endpoint := COM_CMD_IMU_OUT_ENDPOINT |>
        <| cc_stream_endpoint := COM_CMD_IMU_STREAM_ENDPOINT |> <| cc_source := ALLOCATION_SOURCE_COM_IMU |>
  end.

Definition com_cmd_create (device_type : com_command_device_type_t) (device_index : Z)
    (container_id : option (list Z)) (comcmd_handle : bool) : Mw (zsa_result_t * option Z) :=
  match device_type with
  | COM_DEVICE_TYPE_COUNT => mret (ZSA_RESULT_FAILED, None)
  | _ =>
      if negb comcmd_handle then throw NullDeref
      else
        h ← handle_create comcmd_context_t;
        result ← and_then (ZSA_RESULT_FROM_BOOL (negb (h =? NULL))) (
          update h (fun c => c <| cc_stream_going := false |>);;
          l ← Lock_Init;
          update h (fun c => c <| cc_lock := l |>);;
          mret (ZSA_RESULT_FROM_BOOL (bool_decide (l <> LockNull))));
        result ← and_then result (
          update h (com_select_device device_type);;
          mret find_libcom_device);
        result ← and_then result (gets (fun w => com_populate_serialnumber (trace w)));
        if ZSA_FAILED result then
          com_cmd_destroy h;;
          mret (result, Some NULL)
        else mret (result, Some h)
  end.

(** Nothing is written. *)
Definition com_cmd_get_serial_number (comcmd_handle : Z) (serial_number : option (list Z))
    (serial_number_size : option Z) : Mw (zsa_buffer_result_t * option (list Z) * option Z) :=
  com_valid (ZSA_BUFFER_RESULT_FAILED, serial_number, serial_number_size) comcmd_handle (
    match serial_number_size with
    | None => mret (ZSA_BUFFER_RESULT_FAILED, serial_number, None)
    | Some size => mret (ZSA_BUFFER_RESULT_SUCCEEDED, serial_number, Some size)
    end).

(** ** Commands *)

(** The result; [io_cmd_status] and the other outputs are never written. *)
Definition com_cmd_io (comcmd_handle cmd : Z) (p_cmd_data : option (list Z)) (cmd_data_size : Z)
    (p_rx_data : option (list Z)) (rx_data_size : Z) (p_tx_data : option (list Z)) (tx_data_size : Z)
    (transfer_count cmd_status : bool) : Mw io_out :=
  let failed := mkIo ZSA_RESULT_FAILED p_rx_data None None in
  com_valid failed comcmd_handle (
    if negb cmd_status then mret failed
    else if bool_decide (is_Some p_rx_data) && bool_decide (is_Some p_tx_data) then mret failed
    else mret (mkIo ZSA_RESULT_SUCCEEDED p_rx_data None None)).

(** [ZSA_SUCCEEDED(result) && cmd_status != 0] *)
Definition com_check_status (r : io_out) : Mw zsa_result_t :=
  match io_result r with
  | ZSA_RESULT_SUCCEEDED =>
      status ← need Uninitialised (io_cmd_status r);
      mret (ZSA_RESULT_FROM_BOOL (status =? 0))
  | ZSA_RESULT_FAILED => mret ZSA_RESULT_FAILED
  end.

Definition com_cmd_read (comcmd_handle cmd : Z) (p_cmd_data : option (list Z)) (cmd_data_size : Z)
    (p_data : option (list Z)) (data_size : Z) (bytes_read : bool) : Mw (zsa_result_t * option (list Z) * option Z) :=
  r ← com_cmd_io comcmd_handle cmd p_cmd_data cmd_data_size p_data data_size None 0 bytes_read true;
  result ← com_check_status r;
  mret (result, io_rx r, io_transfer_count r).

Definition com_cmd_read_with_status (comcmd_handle cmd : Z) (p_cmd_data : option (list Z)) (cmd_data_size : Z)
    (p_data : option (list Z)) (data_size : Z) (bytes_read cmd_status : bool) : Mw io_out :=
  if negb cmd_status then mret (mkIo ZSA_RESULT_FAILED p_data None None)
  else com_cmd_io comcmd_handle cmd p_cmd_data cmd_data_size p_data data_size None 0 bytes_read cmd_status.

Definition com_cmd_write (comcmd_handle cmd : Z) (p_cmd_data : option (list Z)) (cmd_data_size : Z)
    (p_data : option (list Z)) (data_size : Z) : Mw zsa_result_t :=
  r ← com_cmd_io comcmd_handle cmd p_cmd_data cmd_data_size None 0 p_data data_size false true;
  com_check_status r.

Definition com_cmd_write_with_status (comcmd_handle cmd : Z) (p_cmd_data : option (list Z)) (cmd_data_size : Z)
    (p_data : option (list Z)) (data_size : Z) (cmd_status : bool) : Mw io_out :=
  com_cmd_io comcmd_handle cmd p_cmd_data cmd_data_size None 0 p_data data_size false cmd_status.

Definition com_cmd_stream_register_cb (comcmd_handle : Z) (capture_ready_cb : usb_cmd_stream_cb_t) (context : Z)
    : Mw zsa_result_t :=
  com_valid ZSA_RESULT_FAILED comcmd_handle (
    update comcmd_handle (fun c => c <| cc_callback := capture_ready_cb |> <| cc_stream_context := context |>);;
    mret ZSA_RESULT_SUCCEEDED).

(** Nothing is counted and nothing is written. *)
Definition com_cmd_get_device_count (p_device_count : bool) : Mw (zsa_result_t * option Z) :=
  mret (ZSA_RESULT_SUCCEEDED, None).

Definition com_cmd_get_container_id (comcmd_handle : Z) : Mw (option (list Z)) :=
  com_valid None comcmd_handle (
    c ← load comcmd_context_t comcmd_handle;
    mret (Some (cc_container_id c))).
End operations.

(** * Commands never reach a device *)

Section commands.
Context `{Platform} `{Usb} `{ComExtern}.

Lemma wp_com_cmd_io h c cmd cmd_data cmd_size rx rx_size tx tx_size count w :
  has w h c -> (rx = None \/ tx = None) ->
  wp (com_cmd_io h cmd cmd_data cmd_size rx rx_size tx tx_size count true)
     (fun r w' => r = mkIo ZSA_RESULT_SUCCEEDED rx None None /\ w' = w) w.
Proof.
  intros Hh Hone. eapply wp_if_handle_valid; [exact Hh|]. cbn [negb].
  assert (E : bool_decide (is_Some rx) && bool_decide (is_Some tx) = false).
  { destruct Hone as [-> | ->]; [done|]. by rewrite andb_false_r. }
  rewrite E. by apply wp_ret.
Qed.

(** On any open handle com_cmd_read_with_status and
    com_cmd_write_with_status report success without sending anything and
    without writing the status, the count or the data; com_cmd_read and
    com_cmd_write go on to test the status that nobody wrote, a read of an
    indeterminate value. *)
Theorem com_cmd_status_uninitialised (h : Z) (c : comcmd_context_t) (cmd : Z) (cmd_data data : option (list Z))
    (cmd_size size : Z) (count : bool) (w : world) (Hh : has w h c) :
  com_cmd_read_with_status h cmd cmd_data cmd_size data size count true w =
    Done (mkIo ZSA_RESULT_SUCCEEDED data None None) w /\
  com_cmd_write_with_status h cmd cmd_data cmd_size data size true w =
    Done (mkIo ZSA_RESULT_SUCCEEDED None None None) w /\
  com_cmd_read h cmd cmd_data cmd_size data size count w = Fault Uninitialised /\
  com_cmd_write h cmd cmd_data cmd_size data size w = Fault Uninitialised.
Proof.
  destruct (proj1 (wp_run _ _ _) (wp_com_cmd_io h c cmd cmd_data cmd_size data size None 0 count w Hh (or_intror eq_refl)))
    as (r & w' & Er & -> & ->).
  destruct (proj1 (wp_run _ _ _) (wp_com_cmd_io h c cmd cmd_data cmd_size None 0 data size false w Hh (or_introl eq_refl)))
    as (r & w' & Ew & -> & ->).
  split_and!; [exact Er|exact Ew|..].
  - unfold com_cmd_read. by rewrite (bind_done _ _ _ _ _ Er).
  - unfold com_cmd_write. by rewrite (bind_done _ _ _ _ _ Ew).
Qed.
End commands.

#[export] Instance sample_extern : ComExtern := fun _ => ZSA_RESULT_SUCCEEDED.

Lemma com_cmd_status_uninitialised_witness :
  com_cmd_write 1 7 None 0 (Some [1; 2]) 2 (add_object (MCom zeroed) init_world) = Fault Uninitialised.
Proof.
  exact (proj2 (proj2 (proj2 (com_cmd_status_uninitialised 1 (zeroed (T := comcmd_context_t)) 7 None (Some [1; 2]) 0 2 false
    (add_object (MCom zeroed) init_world) ltac:(split; [discriminate|reflexivity]))))).
Defined.
