(* ===== verification/Math.v ===== *)
(** src/math/math.c: vectors and 3x3 matrices of floats.  An array is the
    address of its first element, so arrays may overlap as they may in C;
    arithmetic is that of binary32, without contraction. *)

From Stdlib Require Export SpecFloat.
From S2P Require Export Prelude.

(** * Floats and their memory *)

Definition f_add : spec_float -> spec_float -> spec_float := SFadd 24 128.
Definition f_mul : spec_float -> spec_float -> spec_float := SFmul 24 128.
Definition f_neg : spec_float -> spec_float := SFopp.

Abbreviation memory := (Z -> spec_float).
Abbreviation Mf := (M memory).

Definition store (p : Z) (v : spec_float) (m : memory) : memory := fun q => if q =? p then v else m q.
Definition rd (p : Z) : Mf spec_float := gets (fun m => m p).
Definition wr (p : Z) (v : spec_float) : Mf unit := modify (store p v).

(** * Operations *)

Definition math_transpose_3x3 (inp out : Z) : Mf unit :=
  for_each (seqZ 0 3) (fun i =>
    v ← rd (inp + i * (3 + 1));
    wr (out + i * (3 + 1)) v;;
    for_each (seqZ (i + 1) (3 - (i + 1))) (fun j =>
      let upper := i * 3 + j in
      let lower := j * 3 + i in
      tmp ← rd (inp + upper);
      v ← rd (inp + lower);
      wr (out + upper) v;;
      wr (out + lower) tmp)).

Definition math_negate_3 (inp out : Z) : Mf unit :=
  a ← rd inp; wr out (f_neg a);;
  a ← rd (inp + 1); wr (out + 1) (f_neg a);;
  a ← rd (inp + 2); wr (out + 2) (f_neg a).

Definition math_add_3 (a b out : Z) : Mf unit :=
  x ← rd a; y ← rd b; wr out (f_add x y);;
  x ← rd (a + 1); y ← rd (b + 1); wr (out + 1) (f_add x y);;
  x ← rd (a + 2); y ← rd (b + 2); wr (out + 2) (f_add x y).

Definition math_scale_3 (inp : Z) (s : spec_float) (out : Z) : Mf unit :=
  x ← rd inp; wr out (f_mul x s);;
  x ← rd (inp + 1); wr (out + 1) (f_mul x s);;
  x ← rd (inp + 2); wr (out + 2) (f_mul x s).

Definition math_add_scaled_3 (inp : Z) (s : spec_float) (out : Z) : Mf unit :=
  o ← rd out; x ← rd inp; wr out (f_add o (f_mul x s));;
  o ← rd (out + 1); x ← rd (inp + 1); wr (out + 1) (f_add o (f_mul x s));;
  o ← rd (out + 2); x ← rd (inp + 2); wr (out + 2) (f_add o (f_mul x s)).

Definition math_dot_3 (a b : Z) : Mf spec_float :=
  a0 ← rd a; b0 ← rd b; a1 ← rd (a + 1); b1 ← rd (b + 1); a2 ← rd (a + 2); b2 ← rd (b + 2);
  mret (f_add (f_add (f_mul a0 b0) (f_mul a1 b1)) (f_mul a2 b2)).

Definition math_mult_Ax_3x3 (A x out : Z) : Mf unit :=
  y0 ← math_dot_3 A x;
  y1 ← math_dot_3 (A + 3) x;
  y2 ← math_dot_3 (A + 6) x;
  wr out y0;;
  wr (out + 1) y1;;
  wr (out + 2) y2.

Definition math_mult_Atx_3x3 (A x out : Z) : Mf unit :=
  x0 ← rd x; x1 ← rd (x + 1); x2 ← rd (x + 2);
  math_scale_3 A x0 out;;
  math_add_scaled_3 (A + 3) x1 out;;
  math_add_scaled_3 (A + 6) x2 out.

Definition math_mult_AB_3x3x3 (A B out : Z) : Mf unit :=
  math_mult_Atx_3x3 B A out;;
  math_mult_Atx_3x3 B (A + 3) (out + 3);;
  math_mult_Atx_3x3 B (A + 6) (out + 6).

Definition math_eval_poly_3 (x : spec_float) (coef : Z) : Mf spec_float :=
  c0 ← rd coef; c1 ← rd (coef + 1); c2 ← rd (coef + 2); c3 ← rd (coef + 3);
  mret (f_add c0 (f_mul x (f_add c1 (f_mul x (f_add c2 (f_mul x c3)))))).

Definition math_affine_transform_3 (A x b out : Z) : Mf unit :=
  math_mult_Ax_3x3 A x out;;
  math_add_3 out b out.

(** [x2] and [temp] are the addresses of its local arrays. *)
Definition math_quadratic_transform_3 (x2 temp : Z) (A B x b out : Z) : Mf unit :=
  math_affine_transform_3 A x b temp;;
  for_each (seqZ 0 3) (fun i => v ← rd (x + i); wr (x2 + i) (f_mul v v));;
  math_affine_transform_3 B x2 temp out.

(** * What they compute *)

(** The reference: arithmetic on a memory that does not change. *)
Definition dot (m n : memory) (a b : Z) : spec_float :=
  f_add (f_add (f_mul (m a) (n b)) (f_mul (m (a + 1)) (n (b + 1)))) (f_mul (m (a + 2)) (n (b + 2))).

(** Three floats stored at [out]. *)
Definition vec (out : Z) (v0 v1 v2 : spec_float) (m : memory) : memory :=
  store (out + 2) v2 (store (out + 1) v1 (store out v0 m)).

(** Arrays of [n] and [k] floats that do not overlap. *)
Definition apart (p n q k : Z) : Prop := p + n <= q \/ q + k <= p.

Lemma store_eq p v m : store p v m p = v.
Proof. unfold store. by rewrite Z.eqb_refl. Qed.

Lemma store_ne p q v m : q <> p -> store p v m q = m q.
Proof. intros Hq. unfold store. by rewrite (proj2 (Z.eqb_neq q p)). Qed.

(** Decide every address. *)
Ltac addresses :=
  repeat match goal with
  | |- context [store ?p ?v ?m ?q] =>
      first [ replace (store p v m q) with v by (symmetry; replace q with p by lia; apply store_eq)
            | rewrite (store_ne p q v m) by lia ]
  end.

Lemma vec_outside out v0 v1 v2 m q : q < out \/ out + 3 <= q -> vec out v0 v1 v2 m q = m q.
Proof. intros Hq. unfold vec. addresses. done. Qed.

Lemma run_dot a b m : math_dot_3 a b m = Done (dot m m a b) m.
Proof. done. Qed.

Lemma run_mult_Ax A x out m :
  math_mult_Ax_3x3 A x out m = Done tt (vec out (dot m m A x) (dot m m (A + 3) x) (dot m m (A + 6) x) m).
Proof. done. Qed.

(** * Transposition *)

Definition transposed (inp out : Z) (m m' : memory) : Prop :=
  (forall i j, 0 <= i < 3 -> 0 <= j < 3 -> m' (out + (3 * i + j)) = m (inp + (3 * j + i))) /\
  (forall q, q < out \/ out + 9 <= q -> m' q = m q).

Lemma index_3 i : 0 <= i < 3 -> i = 0 \/ i = 1 \/ i = 2.
Proof. lia. Qed.

Lemma run_transpose inp out m :
  inp = out \/ apart inp 9 out 9 ->
  exists m', math_transpose_3x3 inp out m = Done tt m' /\ transposed inp out m m'.
Proof.
  intros Ho. eexists. split; [reflexivity|]. split.
  - intros i j Hi Hj. apply index_3 in Hi, Hj. cbn -[Z.add Z.mul Z.sub]. unfold apart in Ho.
    destruct Ho as [<- | Ho]; (destruct Hi as [-> | [-> | ->]]; destruct Hj as [-> | [-> | ->]]; addresses; f_equal; lia).
  - intros q Hq. cbn -[Z.add Z.mul Z.sub]. addresses. done.
Qed.

(** * Properties *)

(** math_transpose_3x3 transposes, in place or into an array that does
    not overlap its argument, and writes nothing else; done twice in place it
    restores the matrix. *)
Theorem math_transpose_spec inp out m (Ho : inp = out \/ apart inp 9 out 9) :
  (exists m', math_transpose_3x3 inp out m = Done tt m' /\ transposed inp out m m') /\
  (exists m', (math_transpose_3x3 out out;; math_transpose_3x3 out out) m = Done tt m' /\ forall q, m' q = m q).
Proof.
  split; [by apply run_transpose|].
  destruct (run_transpose out out m (or_introl eq_refl)) as (m1 & E1 & H1 & F1).
  destruct (run_transpose out out m1 (or_introl eq_refl)) as (m2 & E2 & H2 & F2).
  exists m2. split; [by rewrite (bind_done _ _ _ _ _ E1)|]. intros q.
  destruct (Z_lt_dec q out) as [Hq|Hq]; [rewrite F2, F1 by lia; done|].
  destruct (Z_le_dec (out + 9) q) as [Hq'|Hq']; [rewrite F2, F1 by lia; done|].
  set (k := q - out). pose proof (Z.div_mod k 3 ltac:(lia)) as Hk. pose proof (Z.mod_pos_bound k 3 ltac:(lia)).
  assert (0 <= k / 3 < 3) by (unfold k in *; split; [apply Z.div_pos; lia|apply Z.div_lt_upper_bound; lia]).
  replace q with (out + (3 * (k / 3) + k mod 3)) by (unfold k in *; lia).
  rewrite H2, H1 by lia. done.
Qed.

Lemma math_transpose_spec_witness :
  let m q := if q =? 11 then S754_infinity false else S754_zero false in
  exists m', math_transpose_3x3 10 10 m = Done tt m' /\ m' 13 = S754_infinity false.
Proof.
  intros m. destruct (math_transpose_spec 10 10 m (or_introl eq_refl)) as [(m' & E & H1 & _) _].
  exists m'. split; [exact E|]. exact (H1 1 0 ltac:(lia) ltac:(lia)).
Defined.

Lemma run_affine A x b out m :
  math_affine_transform_3 A x b out m =
  math_add_3 out b out (vec out (dot m m A x) (dot m m (A + 3) x) (dot m m (A + 6) x) m).
Proof. done. Qed.

Lemma run_add_in_place b out m :
  apart out 3 b 3 ->
  exists m', math_add_3 out b out m = Done tt m' /\
    forall q, m' q = vec out (f_add (m out) (m b)) (f_add (m (out + 1)) (m (b + 1))) (f_add (m (out + 2)) (m (b + 2))) m q.
Proof.
  intros Hb. eexists. split; [reflexivity|]. intros q. cbn -[Z.add]. unfold vec.
  unfold apart in Hb. addresses. done.
Qed.

Definition affine (m : memory) (A x b i : Z) : spec_float := f_add (dot m m (A + 3 * i) x) (m (b + i)).

Lemma run_affine_disjoint A x b out m :
  apart out 3 b 3 ->
  exists m', math_affine_transform_3 A x b out m = Done tt m' /\
    forall q, m' q = vec out (affine m A x b 0) (affine m A x b 1) (affine m A x b 2) m q.
Proof.
  intros Hb. rewrite run_affine. match goal with |- context [vec out ?y0 ?y1 ?y2 m] => set (n := vec out y0 y1 y2 m) end.
  destruct (run_add_in_place b out n Hb) as (m' & E & Hm). exists m'. split; [exact E|].
  intros q. rewrite Hm. unfold apart in Hb.
  assert (Hn : forall i, 0 <= i < 3 -> n (b + i) = m (b + i)) by (intros i Hi; unfold n; apply vec_outside; lia).
  rewrite <- (Z.add_0_r b) at 1. rewrite !Hn by lia. unfold affine, n, vec.
  replace (A + 3 * 0) with A by lia. replace (A + 3 * 1) with (A + 3) by lia. replace (A + 3 * 2) with (A + 6) by lia.
  addresses. unfold store. by repeat destruct (q =? _).
Qed.

(** [math_affine_transform_3] is A*x + b, whatever of its arguments the
    result overwrites, as long as that is not b; with the result in b's place
    b is lost, and what is stored is A*x + A*x. *)
Theorem math_affine_transform_spec A x b out m :
  (apart out 3 b 3 -> exists m', math_affine_transform_3 A x b out m = Done tt m' /\
     forall q, m' q = vec out (affine m A x b 0) (affine m A x b 1) (affine m A x b 2) m q) /\
  (let y i := dot m m (A + 3 * i) x in
   exists m', math_affine_transform_3 A x out out m = Done tt m' /\
     forall q, m' q = vec out (f_add (y 0) (y 0)) (f_add (y 1) (y 1)) (f_add (y 2) (y 2)) m q).
Proof.
  split; [by apply run_affine_disjoint|]. intros y. rewrite run_affine.
  replace (y 0) with (dot m m A x) by (unfold y; f_equal; lia). change (dot m m (A + 3) x) with (y 1).
  change (dot m m (A + 6) x) with (y 2).
  eexists. split; [reflexivity|]. intros q. cbn -[Z.add]. unfold vec. addresses.
  unfold store. by repeat destruct (q =? _).
Qed.

Lemma math_affine_transform_spec_witness :
  exists m', math_affine_transform_3 0 9 20 12 (fun _ => S754_zero false) = Done tt m' /\ m' 12 = S754_zero false.
Proof.
  destruct (proj1 (math_affine_transform_spec 0 9 20 12 (fun _ => S754_zero false)) ltac:(unfold apart; lia))
    as (m' & E & Hm).
  exists m'. split; [exact E|]. rewrite Hm. reflexivity.
Defined.

(** Column [j] of the matrix at [A], times the vector with components [x0],
    [x1] and [x2]. *)
Definition column (m : memory) (A j : Z) (x0 x1 x2 : spec_float) : spec_float :=
  f_add (f_add (f_mul (m (A + j)) x0) (f_mul (m (A + 3 + j)) x1)) (f_mul (m (A + 6 + j)) x2).

Definition columns (n m : memory) (A x out : Z) (n' : memory) : memory :=
  vec out (column m A 0 (m x) (m (x + 1)) (m (x + 2))) (column m A 1 (m x) (m (x + 1)) (m (x + 2)))
    (column m A 2 (m x) (m (x + 1)) (m (x + 2))) n'.

Lemma run_mult_Atx A x out m :
  apart out 3 A 9 ->
  exists m', math_mult_Atx_3x3 A x out m = Done tt m' /\ forall q, m' q = columns m m A x out m q.
Proof.
  intros Hd. eexists. split; [reflexivity|]. intros q. cbn -[Z.add]. unfold columns, column, vec, apart in *.
  addresses. rewrite Z.add_0_r. unfold store.
  destruct (Z.eqb_spec q (out + 2)); [done|]. destruct (Z.eqb_spec q (out + 1)); [done|]. destruct (Z.eqb_spec q out); [|done].
  by rewrite ?Z.add_0_r.
Qed.

(** The entry of the product in row [i] and column [j], summed from the left;
    the factors stand as the code multiplies them. *)
Definition entry (m : memory) (A B i j : Z) : spec_float :=
  column m B j (m (A + 3 * i)) (m (A + 3 * i + 1)) (m (A + 3 * i + 2)).

Lemma column_ext m m' A j x0 x1 x2 :
  (forall k, 0 <= k < 9 -> m' (A + k) = m (A + k)) -> 0 <= j < 3 -> column m' A j x0 x1 x2 = column m A j x0 x1 x2.
Proof.
  intros Hm Hj. unfold column. rewrite <- !Z.add_assoc, !Hm by lia. done.
Qed.

(** One row of the product, with [m0] the memory at the start. *)
Lemma run_row A B out i m0 m :
  0 <= i < 3 -> apart out 9 A 9 -> apart out 9 B 9 -> (forall q, q < out \/ out + 9 <= q -> m q = m0 q) ->
  exists m', math_mult_Atx_3x3 B (A + 3 * i) (out + 3 * i) m = Done tt m' /\
    (forall j, 0 <= j < 3 -> m' (out + (3 * i + j)) = entry m0 A B i j) /\
    (forall q, q < out + 3 * i \/ out + 3 * i + 3 <= q -> m' q = m q).
Proof.
  intros Hi HA HB Hm. unfold apart in *.
  destruct (run_mult_Atx B (A + 3 * i) (out + 3 * i) m) as (m' & E & Hm'); [unfold apart; lia|].
  exists m'. split; [exact E|]. split.
  - intros j Hj. rewrite Hm'. unfold columns, entry. rewrite !(column_ext m0 m) by (intros; apply Hm || done; lia).
    rewrite !Hm by lia. apply index_3 in Hj. unfold vec. destruct Hj as [-> | [-> | ->]]; addresses; done.
  - intros q Hq. rewrite Hm'. unfold columns. by rewrite vec_outside by lia.
Qed.

(** math_mult_AB_3x3x3 stores the matrix product, and nothing else, when
    the result overlaps neither factor (the factors may be the same). *)
Theorem math_mult_AB_spec A B out m (HA : apart out 9 A 9) (HB : apart out 9 B 9) :
  exists m', math_mult_AB_3x3x3 A B out m = Done tt m' /\
    (forall i j, 0 <= i < 3 -> 0 <= j < 3 -> m' (out + (3 * i + j)) = entry m A B i j) /\
    (forall q, q < out \/ out + 9 <= q -> m' q = m q).
Proof.
  destruct (run_row A B out 0 m m) as (m1 & E1 & R1 & F1); [lia|done..|].
  destruct (run_row A B out 1 m m1) as (m2 & E2 & R2 & F2); [lia|done..|intros; rewrite F1 by lia; done|].
  destruct (run_row A B out 2 m m2) as (m3 & E3 & R3 & F3); [lia|done..|intros; rewrite F2, F1 by lia; done|].
  exists m3. split; [|split].
  - unfold math_mult_AB_3x3x3. replace (A + 3 * 0) with A in E1 by lia. replace (out + 3 * 0) with out in E1 by lia.
    rewrite (bind_done _ _ _ _ _ E1), (bind_done _ _ _ _ _ E2). exact E3.
  - intros i j Hi Hj. apply index_3 in Hi as [-> | [-> | ->]].
    + rewrite F3, F2 by lia. by apply R1.
    + rewrite F3 by lia. by apply R2.
    + by apply R3.
  - intros q Hq. by rewrite F3, F2, F1 by lia.
Qed.

Definition one : spec_float := S754_finite false 8388608 (-23).

Lemma math_mult_AB_spec_witness :
  exists m', math_mult_AB_3x3x3 0 0 9 (fun q => if q mod 4 =? 0 then one else S754_zero false) = Done tt m' /\
    m' 9 = one /\ m' 10 = S754_zero false.
Proof.
  destruct (math_mult_AB_spec 0 0 9 (fun q => if q mod 4 =? 0 then one else S754_zero false)
    ltac:(unfold apart; lia) ltac:(unfold apart; lia)) as (m' & E & Hm & _).
  exists m'. split; [exact E|]. split.
  - exact (Hm 0 0 ltac:(lia) ltac:(lia)).
  - exact (Hm 0 1 ltac:(lia) ltac:(lia)).
Defined.

(** ** The quadratic transformation *)

(** B * x^2 + (A * x + b), row [i]. *)
Definition quadratic (m : memory) (A B x b i : Z) : spec_float :=
  let sq k := f_mul (m (x + k)) (m (x + k)) in
  f_add (f_add (f_add (f_mul (m (B + 3 * i)) (sq 0)) (f_mul (m (B + 3 * i + 1)) (sq 1))) (f_mul (m (B + 3 * i + 2)) (sq 2)))
        (f_add (dot m m (A + 3 * i) x) (m (b + i))).

(** The arrays of the caller are none of the locals. *)
Definition not_local (x2 temp p n : Z) : Prop := apart x2 3 p n /\ apart temp 3 p n.

Lemma run_squares x2 x m :
  apart x2 3 x 3 ->
  exists m', for_each (seqZ 0 3) (fun i => v ← rd (x + i); wr (x2 + i) (f_mul v v)) m = Done tt m' /\
    (forall i, 0 <= i < 3 -> m' (x2 + i) = f_mul (m (x + i)) (m (x + i))) /\
    (forall q, q < x2 \/ x2 + 3 <= q -> m' q = m q).
Proof.
  intros Hd. unfold apart in Hd. eexists. split; [reflexivity|]. split.
  - intros i Hi. cbn -[Z.add]. apply index_3 in Hi as [-> | [-> | ->]]; addresses; done.
  - intros q Hq. cbn -[Z.add]. addresses. done.
Qed.

(** math_quadratic_transform_3 is A*x + B*x^2 + b and writes nothing but
    its result (and its locals), whichever of its arguments the result
    overwrites, b included. *)
Theorem math_quadratic_transform_spec x2 temp A B x b out m
  (Hl : apart x2 3 temp 3) (HA : not_local x2 temp A 9) (HB : not_local x2 temp B 9)
  (Hx : not_local x2 temp x 3) (Hb : not_local x2 temp b 3) (Ho : not_local x2 temp out 3) :
  exists m', math_quadratic_transform_3 x2 temp A B x b out m = Done tt m' /\
    (forall i, 0 <= i < 3 -> m' (out + i) = quadratic m A B x b i) /\
    (forall q, not_local x2 temp q 1 -> apart out 3 q 1 -> m' q = m q).
Proof.
  unfold not_local, apart in *.
  destruct (run_affine_disjoint A x b temp m) as (m1 & E1 & H1); [unfold apart; lia|].
  destruct (run_squares x2 x m1) as (m2 & E2 & S2 & F2); [unfold apart; lia|].
  destruct (run_affine_disjoint B x2 temp out m2) as (m3 & E3 & H3); [unfold apart; lia|].
  assert (F1 : forall q, q < temp \/ temp + 3 <= q -> m1 q = m q) by (intros q Hq; by rewrite H1, vec_outside).
  exists m3. split_and!.
  - unfold math_quadratic_transform_3. rewrite (bind_done _ _ _ _ _ E1), (bind_done _ _ _ _ _ E2). exact E3.
  - intros i Hi. rewrite H3.
    assert (Ea : affine m2 B x2 temp i = quadratic m A B x b i).
    { unfold affine, quadratic, dot. rewrite <- (Z.add_0_r x2) at 1. rewrite !S2, !F1 by lia. rewrite !F2, !F1 by lia.
      rewrite H1. f_equal. apply index_3 in Hi. unfold vec. destruct Hi as [-> | [-> | ->]]; addresses; done. }
    rewrite <- Ea. apply index_3 in Hi. unfold vec. destruct Hi as [-> | [-> | ->]]; addresses; done.
  - intros q Hq Hq'. rewrite H3, vec_outside, F2, F1 by lia. done.
Qed.

Lemma math_quadratic_transform_spec_witness :
  exists m', math_quadratic_transform_3 100 110 0 9 18 21 21 (fun _ => one) = Done tt m' /\
    m' 21 = quadratic (fun _ => one) 0 9 18 21 0.
Proof.
  destruct (math_quadratic_transform_spec 100 110 0 9 18 21 21 (fun _ => one)) as (m' & E & Hm & _);
    try (unfold not_local, apart; lia).
  exists m'. split; [exact E|]. exact (Hm 0 ltac:(lia)).
Defined.
