(* ===== verification/Logging.v ===== *)
(** src/logging/logging.cpp: the logger, a singleton that is set up from the
    environment and forwards messages to a registered callback and to a file
    or stdout.  Nothing else reads its state, so that it has a state of its own
    beside the world of the other modules; the functions of logging.h that the
    log macros expand to are here as well.  spdlog is called through events. *)

From Stdlib Require Import Ascii.
From stdpp Require Import strings.
From S2P Require Export Allocator.

Definition ZSA_LOG_LEVEL_CRITICAL : Z := 0.
Definition ZSA_LOG_LEVEL_ERROR : Z := 1.
Definition ZSA_LOG_LEVEL_WARNING : Z := 2.
Definition ZSA_LOG_LEVEL_INFO : Z := 3.
Definition ZSA_LOG_LEVEL_TRACE : Z := 4.
Definition ZSA_LOG_LEVEL_OFF : Z := 5.

Definition LOG_FILE_EXTENSION : string := ".log".
Definition ZSA_LOG_FILE_NAME : string := "zsa.log".
Definition LOG_FILE_MAX_FILES : Z := 3.
Definition ZSA_LOG_FILE_50MB_MAX_SIZE : Z := 1048576 * 50.

Inductive log_env_var : Set := ZSA_ENV_VAR_LOG_TO_A_FILE | ZSA_ENABLE_LOG_TO_STDOUT | ZSA_LOG_LEVEL.

(** The loggers that spdlog hands out, and the severity of its methods. *)
Inductive env_logger_t : Set := rotating_logger (file : string) | stdout_logger.
Inductive spd_level : Set := spd_critical | spd_error | spd_warn | spd_info | spd_trace.

Record logger_global_context_t : Type := mkLogger {
  lg_lock : zsa_rwlock_t;
  lg_user_callback : Z;
  lg_user_callback_context : Z;
  lg_user_log_level : Z;
  lg_env_logger : option env_logger_t;
  lg_env_logger_is_file_based : bool;
  lg_env_log_level : Z
}.

(** What leaves the logger, in order. *)
Inductive log_event : Type :=
| L_user (callback context level : Z) (file : string) (line : Z) (message : string)
| L_spd (logger : env_logger_t) (level : spd_level) (file : string) (line : Z) (message : string)
| L_open (file : string) (max_size max_files : Z) (ok : bool)
| L_session_started (logger : env_logger_t)
| L_open_failed (file : string)                    (* the printf *)
| L_open_stdout
| L_set_pattern (pattern : string)
| L_set_level (level : spd_level)
| L_flush_on (level : spd_level).

Record logger_state : Type := mkLoggerState {
  ls_global : option logger_global_context_t;
  ls_out : list log_event
}.

#[export] Instance logger_eta : RecordEta logger_global_context_t := fun r =>
  mkLogger (lg_lock r) (lg_user_callback r) (lg_user_callback_context r) (lg_user_log_level r)
    (lg_env_logger r) (lg_env_logger_is_file_based r) (lg_env_log_level r).
#[export] Instance logger_state_eta : RecordEta logger_state := fun r => mkLoggerState (ls_global r) (ls_out r).

Abbreviation ML := (M logger_state).

(** The environment, the C implementation, whether a file can be opened, and
    the functions that are registered. *)
Class LogPlatform : Type := {
  environment_get_variable : log_env_var -> option string;
  char_is_signed : bool;
  logging_FILE : string;                              (* __FILE__ of logging.cpp *)
  rotating_logger_opens : string -> bool;
  pointer_text : Z -> string                          (* "%p" *)
}.
Class LogClient : Type := log_client : Z -> Z -> Z -> string -> Z -> string -> ML unit.

Definition ascii_code (a : Ascii.ascii) : Z := Z.of_N (Ascii.N_of_ascii a).

(** [s[0]] of a C string. *)
Definition first_char (s : string) : Z := match s with EmptyString => 0 | String a _ => ascii_code a end.
Definition is_char (s : string) (a : Ascii.ascii) : bool := first_char s =? ascii_code a.

(** [strncmp(a, b, n) == 0] *)
Definition strncmp_eq (a b : string) (n : nat) : bool := String.eqb (String.substring 0 n a) (String.substring 0 n b).

Definition string_length (s : string) : Z := Z.of_nat (String.length s).

Section operations.
Context `{platform : LogPlatform}.

(** [(char)x] *)
Definition to_char (x : Z) : Z := if char_is_signed then (x + 128) mod 256 - 128 else x mod 256.

(** [&s[offset]], read as a string *)
Definition string_at (s : string) (offset : Z) : ML string :=
  if (offset <? 0) || (string_length s <? offset) then throw OutOfBounds
  else mret (String.substring (Z.to_nat offset) (String.length s) s).

Definition log_emit (e : log_event) : ML unit := modify (fun s => s <| ls_out := ls_out s ++ [e] |>).

(** Through the pointer to the global context. *)
Definition logger_ctx : ML logger_global_context_t := o ← gets ls_global; need NullDeref o.
Definition logger_update (f : logger_global_context_t -> logger_global_context_t) : ML unit :=
  g ← logger_ctx; modify (fun s => s <| ls_global := Some (f g) |>).

(** The choice of the file in logger_init_once. *)
Definition choose_log_file (enable_file_logging : string) : ML string :=
  let extension_sz := string_length LOG_FILE_EXTENSION + 1 in
  let path_length := u32 (u32 (string_length enable_file_logging) + 1) in
  if path_length >? extension_sz then
    extension ← string_at enable_file_logging (to_char (u32 (path_length - extension_sz)));
    mret (if strncmp_eq extension LOG_FILE_EXTENSION (Z.to_nat extension_sz) then enable_file_logging else ZSA_LOG_FILE_NAME)
  else mret ZSA_LOG_FILE_NAME.

Definition open_log_file (log_file : string) : ML unit :=
  let ok := rotating_logger_opens log_file in
  log_emit (L_open log_file ZSA_LOG_FILE_50MB_MAX_SIZE LOG_FILE_MAX_FILES ok);;
  if ok then
    logger_update (fun g => g <| lg_env_logger := Some (rotating_logger log_file) |>);;
    log_emit (L_set_pattern "%v");;
    log_emit (L_session_started (rotating_logger log_file));;
    logger_update (fun g => g <| lg_env_logger_is_file_based := true |>)
  else
    logger_update (fun g => g <| lg_env_logger := None |>);;
    log_emit (L_open_failed log_file).

(** Whether stdout is wanted. *)
Definition wants_stdout (g : logger_global_context_t) (enable_stdout_logging : option string) : bool :=
  match enable_stdout_logging with
  | Some v => if negb (is_char v "0"%char) then true
              else (lg_user_callback g =? NULL) && ((first_char v =? 0) || negb (is_char v "0"%char))
  | None => lg_user_callback g =? NULL
  end.

Definition env_level (logging_level : option string) : Z :=
  match logging_level with
  | None => ZSA_LOG_LEVEL_ERROR
  | Some v =>
      if is_char v "t"%char || is_char v "T"%char then ZSA_LOG_LEVEL_TRACE
      else if is_char v "i"%char || is_char v "I"%char then ZSA_LOG_LEVEL_INFO
      else if is_char v "w"%char || is_char v "W"%char then ZSA_LOG_LEVEL_WARNING
      else if is_char v "e"%char || is_char v "E"%char then ZSA_LOG_LEVEL_ERROR
      else if is_char v "c"%char || is_char v "C"%char then ZSA_LOG_LEVEL_CRITICAL
      else ZSA_LOG_LEVEL_ERROR
  end.

(** The file logger, the stdout logger, and the level of the one there is. *)
Definition init_file (enable_file_logging : option string) : ML unit :=
  match enable_file_logging with
  | Some v => when (negb (first_char v =? 0)) (log_file ← choose_log_file v; open_log_file log_file)
  | None => mret tt
  end.

Definition init_stdout (enable_stdout_logging : option string) : ML unit :=
  g ← logger_ctx;
  when (bool_decide (lg_env_logger g = None)) (
    when (wants_stdout g enable_stdout_logging) (
      log_emit L_open_stdout;;
      logger_update (fun g => g <| lg_env_logger := Some stdout_logger |>))).

Definition init_level (logging_level : option string) : ML unit :=
  g ← logger_ctx;
  when (bool_decide (lg_env_logger g <> None)) (
    logger_update (fun g => g <| lg_env_log_level := ZSA_LOG_LEVEL_ERROR |>);;
    log_emit (L_set_pattern "[%Y-%m-%d %H:%M:%S.%e] [%^%l%$] [t=%t] %v");;
    log_emit (L_set_level spd_trace);;
    logger_update (fun g => g <| lg_env_log_level := env_level logging_level |>);;
    log_emit (L_flush_on spd_warn)).

Definition logger_init_once : ML unit :=
  logger_update (fun g => g <| lg_lock := rwlock_init (lg_lock g) |> <| lg_env_log_level := ZSA_LOG_LEVEL_OFF |>
    <| lg_user_log_level := ZSA_LOG_LEVEL_OFF |>);;
  init_file (environment_get_variable ZSA_ENV_VAR_LOG_TO_A_FILE);;
  init_stdout (environment_get_variable ZSA_ENABLE_LOG_TO_STDOUT);;
  init_level (environment_get_variable ZSA_LOG_LEVEL).

(** ZSA_DECLARE_GLOBAL(logger_global_context_t, logger_init_once) *)
Definition zeroed_logger : logger_global_context_t := mkLogger RwUnset NULL NULL 0 None false 0.
Definition logger_global_context_t_get : ML unit :=
  o ← gets ls_global;
  match o with
  | Some _ => mret tt
  | None => modify (fun s => s <| ls_global := Some zeroed_logger |>);; logger_init_once
  end.

Definition logger_lock (acquire : zsa_rwlock_t -> option zsa_rwlock_t) : ML unit :=
  g ← logger_ctx;
  l ← need SelfDeadlock (acquire (lg_lock g));
  logger_update (fun g => g <| lg_lock := l |>).
Definition logger_unlock : ML unit := logger_update (fun g => g <| lg_lock := rwlock_release (lg_lock g) |>).

Definition logger_deinit : ML unit :=
  logger_global_context_t_get;;
  logger_lock rwlock_acquire_write;;
  logger_update (fun g => g <| lg_env_logger := None |>);;
  logger_unlock.

Definition logger_is_file_based : ML bool :=
  logger_global_context_t_get;;
  g ← logger_ctx;
  mret (lg_env_logger_is_file_based g).

(** ** Messages *)

Context `{client : LogClient}.

Definition severity_of (level : Z) : spd_level :=
  if level =? ZSA_LOG_LEVEL_CRITICAL then spd_critical
  else if level =? ZSA_LOG_LEVEL_ERROR then spd_error
  else if level =? ZSA_LOG_LEVEL_WARNING then spd_warn
  else if level =? ZSA_LOG_LEVEL_INFO then spd_info
  else spd_trace.

(** [vsnprintf(buffer, sizeof(buffer), ...)] *)
Definition sizeof_log_buffer : nat := 1024.
Definition log_buffer (message : string) : string := String.substring 0 (sizeof_log_buffer - 1) message.

(** [message] is the text that the format and its arguments give. *)
Definition logger_log (level : Z) (file : string) (line : Z) (message : string) : ML unit :=
  logger_global_context_t_get;;
  logger_lock rwlock_acquire_read;;
  g ← logger_ctx;
  if ((level >? lg_env_log_level g) && (level >? lg_user_log_level g))
     || (bool_decide (lg_env_logger g = None) && (lg_user_callback g =? NULL)) then logger_unlock
  else
    let buffer := log_buffer message in
    when ((level <=? lg_user_log_level g) && negb (lg_user_log_level g =? ZSA_LOG_LEVEL_OFF)) (
      when (negb (lg_user_callback g =? NULL)) (
        log_emit (L_user (lg_user_callback g) (lg_user_callback_context g) level file line buffer);;
        log_client (lg_user_callback g) (lg_user_callback_context g) level file line buffer));;
    g ← logger_ctx;
    when ((level <=? lg_env_log_level g) && negb (lg_env_log_level g =? ZSA_LOG_LEVEL_OFF)) (
      match lg_env_logger g with
      | Some logger => log_emit (L_spd logger (severity_of level) file line buffer)
      | None => mret tt
      end);;
    logger_unlock.

(** logging.h *)
Definition TraceError (result : zsa_result_t) (call : string) (file : string) (line : Z) (function : string) : ML zsa_result_t :=
  when (ZSA_FAILED result)
    (logger_log ZSA_LOG_LEVEL_ERROR file line (call +:+ " returned failure in " +:+ function +:+ "()"));;
  mret result.

Definition TraceBufferError (result : zsa_buffer_result_t) (call : string) (file : string) (line : Z) (function : string)
    : ML zsa_buffer_result_t :=
  when (bool_decide (result = ZSA_BUFFER_RESULT_FAILED))
    (logger_log ZSA_LOG_LEVEL_ERROR file line (call +:+ " returned failure in " +:+ function +:+ "()"));;
  mret result.

Definition TraceWaitError (result : zsa_wait_result_t) (call : string) (file : string) (line : Z) (function : string)
    : ML zsa_wait_result_t :=
  when (bool_decide (result = ZSA_WAIT_RESULT_FAILED))
    (logger_log ZSA_LOG_LEVEL_ERROR file line (call +:+ " returned failure in " +:+ function +:+ "()"));;
  mret result.

Definition TraceReturn (result : zsa_result_t) (file : string) (line : Z) (function : string) : ML zsa_result_t :=
  (if ZSA_FAILED result
   then logger_log ZSA_LOG_LEVEL_ERROR file line (function +:+ "() returned failure.")
   else logger_log ZSA_LOG_LEVEL_TRACE file line (function +:+ "() returned success."));;
  mret result.

Definition TraceArg (result : bool) (file : string) (line : Z) (function expression : string) : ML unit :=
  when (negb result)
    (logger_log ZSA_LOG_LEVEL_ERROR file line ("Invalid argument to " +:+ function +:+ "(). " +:+ expression)).

Definition TraceInvalidHandle (result : bool) (file : string) (line : Z) (function handle_type expression : string)
    (handle : Z) : ML unit :=
  when (negb result)
    (logger_log ZSA_LOG_LEVEL_ERROR file line ("Invalid argument to " +:+ function +:+ "(). " +:+ expression +:+ " (" +:+
       pointer_text handle +:+ ") is not a valid handle of type " +:+ handle_type)).

(** LOG_TRACE, LOG_INFO, LOG_WARNING, LOG_ERROR, LOG_CRITICAL and LOG_HANDLE,
    which are the same but for the level. *)
Definition LOG_message (level : Z) (file : string) (line : Z) (function message : string) : ML unit :=
  logger_log level file line (function +:+ "(). " +:+ message).

(** RETURN_VALUE_IF_ARG *)
Definition return_value_if_arg {A} (fail_value : A) (expression : bool) (file : string) (line : Z) (function text : string)
    (rest : ML A) : ML A :=
  if expression then
    TraceArg false file line function text;;
    _ ← TraceReturn ZSA_RESULT_FAILED file line function;
    mret fail_value
  else
    TraceArg true file line function text;;
    rest.

(** The part under the lock. *)
Definition store_callback (message_cb message_cb_context min_level : Z) : ML zsa_result_t :=
  logger_lock rwlock_acquire_write;;
  g ← logger_ctx;
  result ← (if (lg_user_callback g =? NULL) || (message_cb =? NULL) || (lg_user_callback g =? message_cb) then
              logger_update (fun g => g <| lg_user_log_level := min_level |> <| lg_user_callback := message_cb |>
                <| lg_user_callback_context := message_cb_context |>);;
              mret ZSA_RESULT_SUCCEEDED
            else mret ZSA_RESULT_FAILED);
  logger_unlock;;
  mret result.

Definition logger_register_message_callback (message_cb message_cb_context min_level : Z) : ML zsa_result_t :=
  logger_global_context_t_get;;
  let fn : string := "logger_register_message_callback" in
  (* the level is compared as an int *)
  if negb (message_cb =? NULL) then
    return_value_if_arg ZSA_RESULT_FAILED (min_level <? ZSA_LOG_LEVEL_CRITICAL) logging_FILE 98 fn
      "min_level < ZSA_LOG_LEVEL_CRITICAL" (
    return_value_if_arg ZSA_RESULT_FAILED (min_level >? ZSA_LOG_LEVEL_OFF) logging_FILE 99 fn
      "min_level > ZSA_LOG_LEVEL_OFF" (
    store_callback message_cb message_cb_context min_level))
  else store_callback message_cb message_cb_context min_level.
End operations.
Arguments log_buffer : simpl never.
Arguments string_length : simpl never.
Arguments is_char : simpl never.

(** * What the logger promises *)

(** The registered callback with its context and its level, and the logger
    that the environment asked for with its level. *)
Record alogger : Type := mkAlogger {
  al_user : option (Z * Z);
  al_level : Z;
  al_env : option env_logger_t;
  al_env_level : Z;
  al_file_based : bool
}.

#[export] Instance alogger_eta : RecordEta alogger := fun r =>
  mkAlogger (al_user r) (al_level r) (al_env r) (al_env_level r) (al_file_based r).

Definition abs_logger (g : logger_global_context_t) : alogger :=
  mkAlogger (if lg_user_callback g =? NULL then None else Some (lg_user_callback g, lg_user_callback_context g))
    (lg_user_log_level g) (lg_env_logger g) (lg_env_log_level g) (lg_env_logger_is_file_based g).

(** A message of [level] passes a threshold, unless that is OFF. *)
Definition passes (level threshold : Z) : bool := (level <=? threshold) && negb (threshold =? ZSA_LOG_LEVEL_OFF).

Definition alog (a : alogger) (level : Z) (file : string) (line : Z) (message : string) : list log_event :=
  match al_user a with
  | Some (cb, ctx) => if passes level (al_level a) then [L_user cb ctx level file line (log_buffer message)] else []
  | None => []
  end ++
  match al_env a with
  | Some logger => if passes level (al_env_level a) then [L_spd logger (severity_of level) file line (log_buffer message)] else []
  | None => []
  end.

Inductive log_op : Type :=
| OpLog (level : Z) (file : string) (line : Z) (message : string)
| OpRegister (message_cb message_cb_context min_level : Z)
| OpTraceCall (result : zsa_result_t) (call : string) (file : string) (line : Z) (function : string)
| OpTraceBuffer (result : zsa_buffer_result_t) (call : string) (file : string) (line : Z) (function : string)
| OpTraceWait (result : zsa_wait_result_t) (call : string) (file : string) (line : Z) (function : string)
| OpTraceReturn (result : zsa_result_t) (file : string) (line : Z) (function : string)
| OpTraceHandle (result : bool) (file : string) (line : Z) (function handle_type expression : string) (handle : Z)
| OpMacro (level : Z) (file : string) (line : Z) (function message : string)
| OpIsFileBased
| OpDeinit.

Inductive log_result : Set :=
| RVoid | RResult (r : zsa_result_t) | RBuffer (r : zsa_buffer_result_t) | RWait (r : zsa_wait_result_t) | RBool (b : bool).

Section spec.
Context `{platform : LogPlatform}.

(** Somebody else's callback is not replaced. *)
Definition may_register (a : alogger) (message_cb : Z) : bool :=
  match al_user a with Some (cb, _) => (message_cb =? NULL) || (cb =? message_cb) | None => true end.

Definition level_error (min_level : Z) : option (Z * string) :=
  if min_level <? ZSA_LOG_LEVEL_CRITICAL then Some (98, "min_level < ZSA_LOG_LEVEL_CRITICAL"%string)
  else if min_level >? ZSA_LOG_LEVEL_OFF then Some (99, "min_level > ZSA_LOG_LEVEL_OFF"%string)
  else None.

Definition arg_error (a : alogger) (line : Z) (text : string) : list log_event :=
  alog a ZSA_LOG_LEVEL_ERROR logging_FILE line ("Invalid argument to logger_register_message_callback(). " +:+ text) ++
  alog a ZSA_LOG_LEVEL_ERROR logging_FILE line "logger_register_message_callback() returned failure.".

Definition failed_call (a : alogger) (call file : string) (line : Z) (function : string) : list log_event :=
  alog a ZSA_LOG_LEVEL_ERROR file line (call +:+ " returned failure in " +:+ function +:+ "()").

(** The new state, what is emitted, and the result. *)
Definition alog_op (a : alogger) (op : log_op) : alogger * list log_event * log_result :=
  match op with
  | OpLog level file line message => (a, alog a level file line message, RVoid)
  | OpRegister cb ctx level =>
      match (if cb =? NULL then None else level_error level) with
      | Some (line, text) => (a, arg_error a line text, RResult ZSA_RESULT_FAILED)
      | None =>
          if may_register a cb
          then (a <| al_user := if cb =? NULL then None else Some (cb, ctx) |> <| al_level := level |>, [], RResult ZSA_RESULT_SUCCEEDED)
          else (a, [], RResult ZSA_RESULT_FAILED)
      end
  | OpTraceCall result call file line function =>
      (a, if ZSA_FAILED result then failed_call a call file line function else [], RResult result)
  | OpTraceBuffer result call file line function =>
      (a, if bool_decide (result = ZSA_BUFFER_RESULT_FAILED) then failed_call a call file line function else [], RBuffer result)
  | OpTraceWait result call file line function =>
      (a, if bool_decide (result = ZSA_WAIT_RESULT_FAILED) then failed_call a call file line function else [], RWait result)
  | OpTraceReturn result file line function =>
      (a, match result with
          | ZSA_RESULT_SUCCEEDED => alog a ZSA_LOG_LEVEL_TRACE file line (function +:+ "() returned success.")
          | ZSA_RESULT_FAILED => alog a ZSA_LOG_LEVEL_ERROR file line (function +:+ "() returned failure.")
          end, RResult result)
  | OpTraceHandle result file line function handle_type expression handle =>
      (a, if result then []
          else alog a ZSA_LOG_LEVEL_ERROR file line ("Invalid argument to " +:+ function +:+ "(). " +:+ expression +:+ " (" +:+
                 pointer_text handle +:+ ") is not a valid handle of type " +:+ handle_type), RVoid)
  | OpMacro level file line function message => (a, alog a level file line (function +:+ "(). " +:+ message), RVoid)
  | OpIsFileBased => (a, [], RBool (al_file_based a))
  | OpDeinit => (a <| al_env := None |>, [], RVoid)
  end.

Fixpoint alog_ops (a : alogger) (ops : list log_op) : alogger * list log_event * list log_result :=
  match ops with
  | [] => (a, [], [])
  | op :: ops =>
      let '(a1, e1, r1) := alog_op a op in
      let '(a2, e2, r2) := alog_ops a1 ops in
      (a2, e1 ++ e2, r1 :: r2)
  end.

(** The file for a value of ZSA_ENABLE_LOG_TO_A_FILE: the value, if it has a
    stem and ends in ".log", and zsa.log otherwise; none when the code looks for
    the extension in front of the value.  The offset of the extension goes
    through a [char], so that the value is not used from some length on. *)
Definition log_file_of (v : string) : option string :=
  let n := string_length v in
  if n <? 5 then Some ZSA_LOG_FILE_NAME
  else if n - 4 <? (if char_is_signed then 128 else 256) then
    Some (if String.eqb (String.substring (Z.to_nat (n - 4)) 4 v) LOG_FILE_EXTENSION then v else ZSA_LOG_FILE_NAME)
  else if char_is_signed && Z.testbit (n - 4) 7 then None
  else Some ZSA_LOG_FILE_NAME.

Definition level_of (a : Ascii.ascii) : Z :=
  match a with
  | "t" | "T" => ZSA_LOG_LEVEL_TRACE
  | "i" | "I" => ZSA_LOG_LEVEL_INFO
  | "w" | "W" => ZSA_LOG_LEVEL_WARNING
  | "c" | "C" => ZSA_LOG_LEVEL_CRITICAL
  | _ => ZSA_LOG_LEVEL_ERROR
  end%char.

Definition starts_with_0 (v : string) : bool := match v with String a _ => Ascii.eqb a "0" | EmptyString => false end.

(** The logger that the environment asks for, given the file if there is one. *)
Definition logger_of_env (file : option string) : option env_logger_t :=
  match file with
  | Some f => Some (rotating_logger f)
  | None => match environment_get_variable ZSA_ENABLE_LOG_TO_STDOUT with
            | Some v => if starts_with_0 v then None else Some stdout_logger
            | None => Some stdout_logger
            end
  end.

Definition level_of_env : Z :=
  match environment_get_variable ZSA_LOG_LEVEL with Some (String a _) => level_of a | _ => ZSA_LOG_LEVEL_ERROR end.

(** The file that is asked for, if there is one; none at all if the code reads
    outside of the value. *)
Definition asked_file : option (option string) :=
  match environment_get_variable ZSA_ENV_VAR_LOG_TO_A_FILE with
  | None => Some None
  | Some v => if first_char v =? 0 then Some None
              else match log_file_of v with Some f => Some (Some f) | None => None end
  end.

(** The singleton after its set-up, with no callback registered, and what is
    emitted; [asked] is the file that is asked for. *)
Definition ainit (asked : option string) : logger_global_context_t * list log_event :=
  let file := match asked with Some f => if rotating_logger_opens f then Some f else None | None => None end in
  let env := logger_of_env file in
  (mkLogger RwIdle NULL NULL ZSA_LOG_LEVEL_OFF env (if file is Some _ then true else false)
     (if env is Some _ then level_of_env else ZSA_LOG_LEVEL_OFF),
   match asked with
   | Some f => L_open f ZSA_LOG_FILE_50MB_MAX_SIZE LOG_FILE_MAX_FILES (rotating_logger_opens f) ::
       (if rotating_logger_opens f then [L_set_pattern "%v"; L_session_started (rotating_logger f)] else [L_open_failed f])
   | None => []
   end ++
   (if file is Some _ then [] else if env is Some _ then [L_open_stdout] else []) ++
   (if env is Some _ then [L_set_pattern "[%Y-%m-%d %H:%M:%S.%e] [%^%l%$] [t=%t] %v"; L_set_level spd_trace; L_flush_on spd_warn] else [])).

Context `{client : LogClient}.

Definition run_log_op (op : log_op) : ML log_result :=
  match op with
  | OpLog level file line message => logger_log level file line message;; mret RVoid
  | OpRegister cb ctx level => r ← logger_register_message_callback cb ctx level; mret (RResult r)
  | OpTraceCall result call file line function => r ← TraceError result call file line function; mret (RResult r)
  | OpTraceBuffer result call file line function => r ← TraceBufferError result call file line function; mret (RBuffer r)
  | OpTraceWait result call file line function => r ← TraceWaitError result call file line function; mret (RWait r)
  | OpTraceReturn result file line function => r ← TraceReturn result file line function; mret (RResult r)
  | OpTraceHandle result file line function handle_type expression handle =>
      TraceInvalidHandle result file line function handle_type expression handle;; mret RVoid
  | OpMacro level file line function message => LOG_message level file line function message;; mret RVoid
  | OpIsFileBased => b ← logger_is_file_based; mret (RBool b)
  | OpDeinit => logger_deinit;; mret RVoid
  end.

Fixpoint run_log_ops (ops : list log_op) : ML (list log_result) :=
  match ops with
  | [] => mret []
  | op :: ops => r ← run_log_op op; rs ← run_log_ops ops; mret (r :: rs)
  end.
End spec.

(** * The logger as it is used *)

Section use.
Context `{platform : LogPlatform} `{client : LogClient}.
Implicit Types (s : logger_state) (g : logger_global_context_t).

(** The singleton is set up and nobody holds its lock. *)
Definition at_rest s g : Prop := ls_global s = Some g /\ lg_lock g = RwIdle.

(** A callback that leaves the logger alone. *)
Definition quiet_client : Prop := forall cb ctx level file line message s, log_client cb ctx level file line message s = Done tt s.

Lemma at_rest_get s g : at_rest s g -> logger_global_context_t_get s = Done tt s.
Proof. intros [Hg _]. unfold logger_global_context_t_get, mbind, M_bind, gets. by rewrite Hg. Qed.

Lemma ctx_run s g : ls_global s = Some g -> logger_ctx s = Done g s.
Proof. intros Hg. unfold logger_ctx, mbind, M_bind, gets. by rewrite Hg. Qed.

Lemma emit_run e s : log_emit e s = Done tt (s <| ls_out := ls_out s ++ [e] |>).
Proof. done. Qed.

(** Both halves of a message: to the callback, and to the logger. *)
Lemma user_half g level file line message s :
  quiet_client ->
  when ((level <=? lg_user_log_level g) && negb (lg_user_log_level g =? ZSA_LOG_LEVEL_OFF)) (
    when (negb (lg_user_callback g =? NULL)) (
      log_emit (L_user (lg_user_callback g) (lg_user_callback_context g) level file line (log_buffer message));;
      log_client (lg_user_callback g) (lg_user_callback_context g) level file line (log_buffer message))) s =
  Done tt (s <| ls_out := ls_out s ++
    match al_user (abs_logger g) with
    | Some (cb, ctx) => if passes level (al_level (abs_logger g)) then [L_user cb ctx level file line (log_buffer message)] else []
    | None => []
    end |>).
Proof.
  intros Hq. unfold passes. cbn -[ZSA_LOG_LEVEL_OFF].
  destruct (_ && _); destruct (_ =? NULL); unfold when; cbn -[ZSA_LOG_LEVEL_OFF];
    try (rewrite app_nil_r; by destruct s).
  unfold mbind, M_bind. rewrite emit_run. apply Hq.
Qed.

Lemma env_half g level file line message s :
  when ((level <=? lg_env_log_level g) && negb (lg_env_log_level g =? ZSA_LOG_LEVEL_OFF)) (
    match lg_env_logger g with
    | Some logger => log_emit (L_spd logger (severity_of level) file line (log_buffer message))
    | None => mret tt
    end) s =
  Done tt (s <| ls_out := ls_out s ++
    match al_env (abs_logger g) with
    | Some logger => if passes level (al_env_level (abs_logger g)) then [L_spd logger (severity_of level) file line (log_buffer message)] else []
    | None => []
    end |>).
Proof.
  unfold passes. cbn -[ZSA_LOG_LEVEL_OFF].
  destruct (_ && _); destruct (lg_env_logger g); unfold when; cbn -[ZSA_LOG_LEVEL_OFF];
    try done; rewrite app_nil_r; by destruct s.
Qed.

(** The early return leaves out a message that neither of them wants. *)
Lemma quick_exit g level file line message :
  ((level >? lg_env_log_level g) && (level >? lg_user_log_level g))
    || (bool_decide (lg_env_logger g = None) && (lg_user_callback g =? NULL)) = true ->
  alog (abs_logger g) level file line message = [].
Proof.
  unfold alog, passes. cbn -[ZSA_LOG_LEVEL_OFF].
  rewrite orb_true_iff, !andb_true_iff, bool_decide_eq_true, !Z.gtb_lt. intros [[H1 H2] | [-> ->]]; [|done].
  rewrite (proj2 (Z.leb_gt _ _) H1), (proj2 (Z.leb_gt _ _) H2). cbn.
  by destruct (_ =? NULL), (lg_env_logger g).
Qed.

Lemma logger_log_done level file line message s g :
  quiet_client -> at_rest s g ->
  logger_log level file line message s =
  Done tt (s <| ls_out := ls_out s ++ alog (abs_logger g) level file line message |>).
Proof.
  intros Hq Hr. unfold logger_log. rewrite (bind_done _ _ _ _ _ (at_rest_get _ _ Hr)).
  destruct Hr as [Hg Hl]. destruct s as [o out]. cbn in Hg. subst o.
  set (g1 := g <| lg_lock := RwReaders 1 |>).
  rewrite (bind_done _ _ _ tt (mkLoggerState (Some g1) out)).
  2:{ unfold logger_lock, logger_ctx, mbind, M_bind. cbn. rewrite Hl. done. }
  rewrite (bind_done _ _ _ g1 (mkLoggerState (Some g1) out)) by done.
  assert (Hu : forall out', logger_unlock (mkLoggerState (Some g1) out') = Done tt (mkLoggerState (Some g) out')).
  { intros out'. destruct g. cbn in Hl. by subst. }
  destruct (_ || _) eqn:E.
  - rewrite Hu, (quick_exit g1 level file line message E : alog (abs_logger g) level file line message = []).
    unfold update_field. cbn. by rewrite app_nil_r.
  - cbv zeta. rewrite (bind_done _ _ _ _ _ (user_half g1 level file line message _ Hq)).
    erewrite (bind_done logger_ctx); [|by apply (ctx_run _ g1)].
    rewrite (bind_done _ _ _ _ _ (env_half g1 level file line message _)).
    etransitivity; [apply Hu|]. unfold alog. by rewrite app_assoc.
Qed.

(** The outcome of an operation of the specification. *)
Definition op_done {A} (s : logger_state) (a' : alogger) (events : list log_event) (r : A) (o : outcome logger_state A) : Prop :=
  exists g', abs_logger g' = a' /\ lg_lock g' = RwIdle /\ o = Done r (mkLoggerState (Some g') (ls_out s ++ events)).

Lemma at_rest_shape s g : at_rest s g -> s = mkLoggerState (Some g) (ls_out s).
Proof. destruct s as [o out]. by intros [[= ->] _]. Qed.

Lemma op_keep {A} s g events (r : A) :
  at_rest s g -> op_done s (abs_logger g) events r (Done r (s <| ls_out := ls_out s ++ events |>)).
Proof. intros [Hg Hl]. exists g. split; [done|]. split; [done|]. destruct s. cbn in *. by subst. Qed.

Lemma op_none {A} s g (r : A) : at_rest s g -> op_done s (abs_logger g) [] r (Done r s).
Proof. intros Hr. exists g. split; [done|]. split; [apply Hr|]. rewrite app_nil_r. by rewrite <- (at_rest_shape _ _ Hr). Qed.

(** What a message leaves behind is at rest again. *)
Lemma at_rest_emit s g events : at_rest s g -> at_rest (s <| ls_out := ls_out s ++ events |>) g.
Proof. by intros [Hg Hl]. Qed.

(** A function that may log and returns its argument. *)
Lemma log_when_done {A} (b : bool) level file line message (r : A) s g :
  quiet_client -> at_rest s g ->
  op_done s (abs_logger g) (if b then alog (abs_logger g) level file line message else []) r
    ((when b (logger_log level file line message);; mret r) s).
Proof.
  intros Hq Hr. destruct b; cbn [when].
  - rewrite (bind_done _ _ _ _ _ (logger_log_done _ _ _ _ _ _ Hq Hr)). by apply op_keep.
  - by apply op_none.
Qed.

Lemma trace_return_done result file line function s g :
  quiet_client -> at_rest s g ->
  op_done s (abs_logger g) (snd (fst (alog_op (abs_logger g) (OpTraceReturn result file line function)))) result
    (TraceReturn result file line function s).
Proof.
  intros Hq Hr. unfold TraceReturn. destruct result; cbn [ZSA_FAILED ZSA_SUCCEEDED negb alog_op fst snd];
    rewrite (bind_done _ _ _ _ _ (logger_log_done _ _ _ _ _ _ Hq Hr)); by apply op_keep.
Qed.

Lemma arg_failed {A} (fail_value : A) line text rest s g :
  quiet_client -> at_rest s g ->
  op_done s (abs_logger g) (arg_error (abs_logger g) line text) fail_value
    (return_value_if_arg fail_value true logging_FILE line "logger_register_message_callback" text rest s).
Proof.
  intros Hq Hr. unfold return_value_if_arg, TraceArg, TraceReturn. cbn [negb when ZSA_FAILED ZSA_SUCCEEDED].
  rewrite (bind_done _ _ _ _ _ (logger_log_done _ _ _ _ _ _ Hq Hr)). rewrite bind_assoc.
  rewrite (bind_done _ _ _ _ _ (logger_log_done _ _ _ _ _ _ Hq (at_rest_emit _ _ _ Hr))).
  unfold arg_error. unfold update_field; cbn [ls_out]. rewrite <- app_assoc.
  exact (op_keep s g _ fail_value Hr).
Qed.

Lemma store_callback_done cb ctx level s g :
  at_rest s g ->
  let ok := may_register (abs_logger g) cb in
  op_done s (if ok then (abs_logger g) <| al_user := if cb =? NULL then None else Some (cb, ctx) |> <| al_level := level |>
             else abs_logger g) []
    (if ok then ZSA_RESULT_SUCCEEDED else ZSA_RESULT_FAILED) (store_callback cb ctx level s).
Proof.
  intros Hr ok. rewrite (at_rest_shape _ _ Hr). destruct Hr as [_ Hl].
  destruct s as [o out], g as [l ucb uctx ulvl env fb elvl]. cbn in Hl. subst l.
  unfold op_done, ok, may_register, store_callback, logger_lock, logger_unlock, logger_update, logger_ctx, mbind, M_bind,
    abs_logger, update_field. cbn.
  rewrite app_nil_r. destruct (ucb =? NULL) eqn:E1; cbn.
  - eexists (mkLogger _ _ _ _ _ _ _). split; [|split]; [| |reflexivity]; done.
  - destruct (cb =? NULL) eqn:E2, (ucb =? cb) eqn:E3; cbn;
      (eexists (mkLogger _ _ _ _ _ _ _); split; [|split]; [| |reflexivity]; cbn; rewrite ?E1, ?E2; done).
Qed.
Lemma register_done cb ctx level s g :
  quiet_client -> at_rest s g ->
  let '(a', events, r) := alog_op (abs_logger g) (OpRegister cb ctx level) in
  exists result, r = RResult result /\ op_done s a' events result (logger_register_message_callback cb ctx level s).
Proof.
  intros Hq Hr. unfold logger_register_message_callback. rewrite (bind_done _ _ _ _ _ (at_rest_get _ _ Hr)).
  pose proof (store_callback_done cb ctx level s g Hr) as Hs. cbn zeta in Hs. cbn [alog_op].
  destruct (cb =? NULL); cbn [negb].
  { destruct (may_register _ _); eexists; (split; [done|exact Hs]). }
  unfold level_error. unfold return_value_if_arg at 1.
  destruct (level <? ZSA_LOG_LEVEL_CRITICAL).
  { eexists. split; [done|]. by apply (arg_failed ZSA_RESULT_FAILED 98 _ (mret ZSA_RESULT_FAILED)). }
  rewrite (bind_done _ _ _ _ _ (eq_refl : TraceArg true _ _ _ _ s = Done tt s)).
  destruct (level >? ZSA_LOG_LEVEL_OFF).
  { eexists. split; [done|]. by apply arg_failed. }
  unfold return_value_if_arg. rewrite (bind_done _ _ _ _ _ (eq_refl : TraceArg true _ _ _ _ s = Done tt s)).
  destruct (may_register _ _); eexists; (split; [done|exact Hs]).
Qed.

Lemma op_done_map {A B} (f : A -> B) s a events r (m : ML A) :
  op_done s a events r (m s) -> op_done s a events (f r) ((x ← m; mret (f x)) s).
Proof. intros (g' & Ha & Hl & E). exists g'. split; [done|]. split; [done|]. by rewrite (bind_done _ _ _ _ _ E). Qed.

Lemma logger_deinit_done s g :
  at_rest s g -> op_done s ((abs_logger g) <| al_env := None |>) [] tt (logger_deinit s).
Proof.
  intros Hr. unfold logger_deinit. rewrite (bind_done _ _ _ _ _ (at_rest_get _ _ Hr)).
  rewrite (at_rest_shape _ _ Hr). destruct Hr as [_ Hl].
  exists (g <| lg_env_logger := None |>). split; [done|]. split; [done|].
  destruct s, g. cbn in Hl. subst. by rewrite app_nil_r.
Qed.

(** One operation does what the specification says. *)
Lemma log_op_refines op s g :
  quiet_client -> at_rest s g ->
  let '(a', events, r) := alog_op (abs_logger g) op in op_done s a' events r (run_log_op op s).
Proof.
  intros Hq Hr. destruct op as [|cb ctx level|result|result|result|result|result|level file line fn message| |]; cbn [alog_op run_log_op].
  - by apply (log_when_done true).
  - pose proof (register_done cb ctx level s g Hq Hr) as Hg. cbn [alog_op] in Hg.
    destruct (if cb =? NULL then _ else _) as [[line text]|]; [|destruct (may_register _ _)];
      destruct Hg as (? & [= ->] & Hg); exact (op_done_map RResult _ _ _ _ _ Hg).
  - by apply (op_done_map RResult), log_when_done.
  - by apply (op_done_map RBuffer), log_when_done.
  - by apply (op_done_map RWait), log_when_done.
  - by apply (op_done_map RResult), trace_return_done.
  - destruct result; [by apply op_none|by apply (log_when_done true)].
  - by apply (log_when_done true).
  - apply (op_done_map RBool _ _ _ (lg_env_logger_is_file_based g)). unfold logger_is_file_based.
    rewrite (bind_done _ _ _ _ _ (at_rest_get _ _ Hr)). erewrite bind_done by by apply ctx_run; destruct Hr.
    by apply op_none.
  - exact (op_done_map (fun _ => RVoid) _ _ _ _ _ (logger_deinit_done s g Hr)).
Qed.

End use.

(** * The set-up *)

Section setup.
Context `{platform : LogPlatform}.
Implicit Types (s : logger_state) (v : string).

Lemma strncmp_extension t : strncmp_eq t LOG_FILE_EXTENSION 5 = String.eqb t LOG_FILE_EXTENSION.
Proof.
  change (String.eqb (String.substring 0 5 t) ".log" = String.eqb t ".log").
  do 5 (destruct t as [|? t]; [done|]; cbn -[Ascii.eqb]; try (case_match; [|done])). done.
Qed.

Lemma substring_rest_length k m v :
  (k <= String.length v)%nat -> (String.length v <= k + m)%nat -> String.length (String.substring k m v) = (String.length v - k)%nat.
Proof.
  revert k m. induction v as [|a v IH]; intros k m; cbn; [destruct k, m; cbn; lia|].
  destruct k as [|k]; [|intros ??; apply IH; lia].
  destruct m as [|m]; [lia|]. intros _ ?. cbn. rewrite IH; lia.
Qed.

Lemma substring_rest_irrel k m m' v :
  (String.length v <= k + m)%nat -> (String.length v <= k + m')%nat -> String.substring k m v = String.substring k m' v.
Proof.
  revert k m m'. induction v as [|a v IH]; intros k m m'; cbn; [by destruct k, m, m'|].
  destruct k as [|k]; [|intros ??; apply IH; lia].
  destruct m as [|m], m' as [|m']; try lia. intros ??. f_equal. apply IH; lia.
Qed.

Lemma to_char_small x : 0 <= x < (if char_is_signed then 128 else 256) -> to_char x = x.
Proof. unfold to_char. destruct char_is_signed; intros; rewrite Z.mod_small; lia. Qed.

(** A signed [char] is negative if its bit 7 is set. *)
Lemma to_char_cases x :
  (char_is_signed && Z.testbit x 7 = true /\ to_char x < 0) \/
  (char_is_signed && Z.testbit x 7 = false /\ 0 <= to_char x < 256 /\ (char_is_signed = true -> to_char x < 128)).
Proof.
  unfold to_char. destruct char_is_signed; cbn [andb];
    [|right; split; [done|]; split; [by apply Z.mod_pos_bound|done]].
  pose proof (Z.testbit_spec' x 7 ltac:(lia)) as T. change (2 ^ 7) with 128 in T.
  destruct (Z.testbit x 7); cbn in T; [left|right]; (split; [done|]);  Z.to_euclidean_division_equations; lia.
Qed.

Lemma choose_log_file_spec v s :
  string_length v < 2 ^ 32 - 1 ->
  choose_log_file v s = match log_file_of v with Some f => Done f s | None => Fault OutOfBounds end.
Proof.
  intros Hn. assert (Hp : 0 <= string_length v) by apply Zle_0_nat.
  unfold choose_log_file, log_file_of. change (string_length LOG_FILE_EXTENSION + 1) with 5.
  rewrite (u32_id (string_length v)), (u32_id (string_length v + 1)) by lia. set (n := string_length v) in *.
  rewrite Z.gtb_ltb. destruct (Z.ltb_spec n 5) as [H5|H5].
  { by rewrite (proj2 (Z.ltb_ge _ _)) by lia. }
  rewrite (proj2 (Z.ltb_lt 5 (n + 1))), u32_id by lia. replace (n + 1 - 5) with (n - 4) by lia.
  unfold string_at. fold n. destruct (Z.ltb_spec (n - 4) (if char_is_signed then 128 else 256)) as [Hs|Hs].
  - rewrite to_char_small by lia. rewrite (proj2 (Z.ltb_ge _ _)), (proj2 (Z.ltb_ge _ _)) by lia. cbn [orb].
    erewrite (bind_done (mret _)) by reflexivity. rewrite strncmp_extension.
    rewrite (substring_rest_irrel _ (String.length v) 4 v) by (unfold n, string_length in *; lia). by destruct (String.eqb _ _).
  - pose proof (to_char_cases (n - 4)) as [[-> Hc]|[-> [Hc Hc']]].
    { by rewrite (proj2 (Z.ltb_lt _ _) Hc). }
    assert (to_char (n - 4) < n - 4) by (destruct char_is_signed; [specialize (Hc' eq_refl)|]; lia).
    rewrite (proj2 (Z.ltb_ge _ _)), (proj2 (Z.ltb_ge _ _)) by lia. cbn [orb].
    erewrite (bind_done (mret _)) by reflexivity. rewrite strncmp_extension.
    destruct (String.eqb_spec (String.substring (Z.to_nat (to_char (n - 4))) (String.length v) v) LOG_FILE_EXTENSION) as [E|]; [|done].
    apply (f_equal String.length) in E. rewrite substring_rest_length in E by (unfold n, string_length in *; lia).
    cbn in E. unfold n, string_length in *. lia.
Qed.

Lemma env_level_spec : env_level (environment_get_variable ZSA_LOG_LEVEL) = level_of_env.
Proof.
  unfold level_of_env. destruct (environment_get_variable ZSA_LOG_LEVEL) as [[|a v]|]; [done| |done].
  by destruct a as [[] [] [] [] [] [] [] []].
Qed.

Lemma is_char_0 v : is_char v "0"%char = starts_with_0 v.
Proof. destruct v as [|a v]; [done|]. by destruct a as [[] [] [] [] [] [] [] []]. Qed.

(** What each part of the set-up makes of a singleton without a callback. *)
Definition fresh_logger (env : option env_logger_t) (file_based : bool) (level : Z) : logger_global_context_t :=
  mkLogger RwIdle NULL NULL ZSA_LOG_LEVEL_OFF env file_based level.

Lemma init_file_run out :
  (forall v, environment_get_variable ZSA_ENV_VAR_LOG_TO_A_FILE = Some v -> string_length v < 2 ^ 32 - 1) ->
  init_file (environment_get_variable ZSA_ENV_VAR_LOG_TO_A_FILE)
    (mkLoggerState (Some (fresh_logger None false ZSA_LOG_LEVEL_OFF)) out) =
  match asked_file with
  | None => Fault OutOfBounds
  | Some None => Done tt (mkLoggerState (Some (fresh_logger None false ZSA_LOG_LEVEL_OFF)) out)
  | Some (Some f) => open_log_file f (mkLoggerState (Some (fresh_logger None false ZSA_LOG_LEVEL_OFF)) out)
  end.
Proof.
  intros Hn. unfold init_file, asked_file.
  destruct (environment_get_variable ZSA_ENV_VAR_LOG_TO_A_FILE) as [v|]; [|done].
  unfold when. destruct (first_char v =? 0); [done|]. cbn [negb].
  pose proof (choose_log_file_spec v (mkLoggerState (Some (fresh_logger None false ZSA_LOG_LEVEL_OFF)) out) (Hn v eq_refl)) as E.
  destruct (log_file_of v); [by rewrite (bind_done _ _ _ _ _ E)|by rewrite (bind_fault _ _ _ _ E)].
Qed.

Lemma open_log_file_run f out :
  open_log_file f (mkLoggerState (Some (fresh_logger None false ZSA_LOG_LEVEL_OFF)) out) =
  Done tt (if rotating_logger_opens f
    then mkLoggerState (Some (fresh_logger (Some (rotating_logger f)) true ZSA_LOG_LEVEL_OFF))
      (out ++ [L_open f ZSA_LOG_FILE_50MB_MAX_SIZE LOG_FILE_MAX_FILES true; L_set_pattern "%v"; L_session_started (rotating_logger f)])
    else mkLoggerState (Some (fresh_logger None false ZSA_LOG_LEVEL_OFF))
      (out ++ [L_open f ZSA_LOG_FILE_50MB_MAX_SIZE LOG_FILE_MAX_FILES false; L_open_failed f])).
Proof.
  unfold open_log_file, log_emit, logger_update, logger_ctx, mbind, M_bind. cbn -[ZSA_LOG_FILE_50MB_MAX_SIZE].
  destruct (rotating_logger_opens f); unfold modify, update_field; cbn -[ZSA_LOG_FILE_50MB_MAX_SIZE]; by rewrite <- !app_assoc.
Qed.

Lemma init_stdout_run env fb out :
  init_stdout (environment_get_variable ZSA_ENABLE_LOG_TO_STDOUT) (mkLoggerState (Some (fresh_logger env fb ZSA_LOG_LEVEL_OFF)) out) =
  Done tt (match env with
    | Some _ => mkLoggerState (Some (fresh_logger env fb ZSA_LOG_LEVEL_OFF)) out
    | None => mkLoggerState (Some (fresh_logger (logger_of_env None) fb ZSA_LOG_LEVEL_OFF))
        (out ++ if logger_of_env None is Some _ then [L_open_stdout] else [])
    end).
Proof.
  unfold init_stdout. erewrite bind_done by by apply ctx_run.
  destruct env as [l|]; [done|]. cbn [lg_env_logger fresh_logger bool_decide]. unfold logger_of_env, wants_stdout.
  destruct (environment_get_variable ZSA_ENABLE_LOG_TO_STDOUT) as [v|]; [|done].
  rewrite is_char_0. destruct (starts_with_0 v) eqn:E; cbn [negb]; [|done].
  replace (first_char v =? 0) with false; [cbn; by rewrite app_nil_r|].
  rewrite <- is_char_0 in E. unfold is_char in E. apply Z.eqb_eq in E. by rewrite E.
Qed.

Lemma init_level_run env fb out :
  init_level (environment_get_variable ZSA_LOG_LEVEL) (mkLoggerState (Some (fresh_logger env fb ZSA_LOG_LEVEL_OFF)) out) =
  Done tt (if env is Some _ then mkLoggerState (Some (fresh_logger env fb level_of_env))
      (out ++ [L_set_pattern "[%Y-%m-%d %H:%M:%S.%e] [%^%l%$] [t=%t] %v"; L_set_level spd_trace; L_flush_on spd_warn])
    else mkLoggerState (Some (fresh_logger env fb ZSA_LOG_LEVEL_OFF)) out).
Proof.
  unfold init_level. erewrite bind_done by by apply ctx_run. destruct env as [l|]; [|done].
  unfold log_emit, logger_update, logger_ctx, mbind, M_bind. rewrite env_level_spec. unfold modify, update_field, fresh_logger. cbn.
  by rewrite <- !app_assoc.
Qed.

(** C39: the first use of the logger sets it up from the environment as [ainit]
    says.  For any value of the variable that asks for a file: the value is the
    file if it has a stem, ends in ".log" and is short, and zsa.log is the file
    otherwise, "0" included; where [char] is signed, a value of 132 characters
    or more is looked for in front of itself if bit 7 of the offset is set.
    Without a file, stdout is used unless its variable starts with a 0, and the
    level is the one of the first letter of its variable. *)
Theorem logger_init_spec s :
  ls_global s = None ->
  (forall v, environment_get_variable ZSA_ENV_VAR_LOG_TO_A_FILE = Some v -> string_length v < 2 ^ 32 - 1) ->
  logger_global_context_t_get s =
  match asked_file with
  | Some asked => Done tt (mkLoggerState (Some (fst (ainit asked))) (ls_out s ++ snd (ainit asked)))
  | None => Fault OutOfBounds
  end.
Proof.
  intros Hs Hn. destruct s as [o out]. cbn in Hs. subst o.
  change (logger_global_context_t_get (mkLoggerState None out)) with
    ((init_file (environment_get_variable ZSA_ENV_VAR_LOG_TO_A_FILE);;
      init_stdout (environment_get_variable ZSA_ENABLE_LOG_TO_STDOUT);;
      init_level (environment_get_variable ZSA_LOG_LEVEL))
     (mkLoggerState (Some (fresh_logger None false ZSA_LOG_LEVEL_OFF)) out)).
  pose proof (init_file_run out Hn) as E. destruct asked_file as [[f|]|]; [| |by apply bind_fault].
  - rewrite open_log_file_run in E. rewrite (bind_done _ _ _ _ _ E). unfold ainit.
    destruct (rotating_logger_opens f); rewrite (bind_done _ _ _ _ _ (init_stdout_run _ _ _)), init_level_run.
    + cbn. by rewrite <- app_assoc.
    + cbn [logger_of_env]. destruct (environment_get_variable ZSA_ENABLE_LOG_TO_STDOUT); [destruct (starts_with_0 _)|]; cbn; by rewrite <- ?app_assoc, ?app_nil_r.
  - rewrite (bind_done _ _ _ _ _ E), (bind_done _ _ _ _ _ (init_stdout_run _ _ _)), init_level_run. unfold ainit.
    destruct (logger_of_env None); cbn; by rewrite <- ?app_assoc, ?app_nil_r.
Qed.
End setup.

(** * The lock and the callback *)

Section deadlock.
Context `{platform : LogPlatform} `{client : LogClient}.

(** A callback is called under the read lock, so that one that registers or
    clears a callback, as the interface lets any caller do, waits for itself:
    the message that reaches it never returns. *)
Theorem logger_callback_deadlock s g cb' ctx' level' level file line message :
  at_rest s g -> lg_user_callback g <> NULL -> passes level (lg_user_log_level g) = true ->
  (cb' = NULL \/ ZSA_LOG_LEVEL_CRITICAL <= level' <= ZSA_LOG_LEVEL_OFF) ->
  (forall lv f l m s', log_client (lg_user_callback g) (lg_user_callback_context g) lv f l m s' =
     (logger_register_message_callback cb' ctx' level';; mret tt) s') ->
  logger_log level file line message s = Fault SelfDeadlock.
Proof.
  intros Hr Hcb Hp Hv Hc. unfold logger_log. rewrite (bind_done _ _ _ _ _ (at_rest_get _ _ Hr)).
  destruct Hr as [Hg Hl]. destruct s as [o out]. cbn in Hg. subst o.
  set (g1 := g <| lg_lock := RwReaders 1 |>).
  rewrite (bind_done _ _ _ tt (mkLoggerState (Some g1) out))
    by (unfold logger_lock, logger_ctx, mbind, M_bind; cbn; by rewrite Hl).
  erewrite (bind_done logger_ctx); [|by apply (ctx_run _ g1)].
  change (lg_user_callback g1) with (lg_user_callback g). change (lg_user_log_level g1) with (lg_user_log_level g).
  rewrite (proj2 (Z.eqb_neq _ _) Hcb), andb_false_r, orb_false_r.
  replace (level >? lg_user_log_level g) with false
    by (unfold passes in Hp; rewrite andb_true_iff, Z.leb_le in Hp; symmetry; rewrite Z.gtb_ltb; apply Z.ltb_ge; tauto).
  rewrite andb_false_r. cbv zeta. apply bind_fault. unfold passes in Hp. rewrite Hp. cbn [when negb].
  rewrite (bind_done _ _ _ _ _ (emit_run _ _)).
  etransitivity; [apply Hc|]. apply bind_fault. unfold logger_register_message_callback.
  erewrite bind_done by reflexivity.
  assert (Hs : store_callback cb' ctx' level' (mkLoggerState (Some g1) (out ++ [L_user (lg_user_callback g) (lg_user_callback_context g) level file line (log_buffer message)])) = Fault SelfDeadlock) by done.
  destruct (Z.eqb_spec cb' NULL); cbn [negb]; [exact Hs|].
  unfold return_value_if_arg. rewrite (proj2 (Z.ltb_ge _ _)) by tauto.
  erewrite bind_done by reflexivity. rewrite Z.gtb_ltb, (proj2 (Z.ltb_ge _ _)) by tauto.
  erewrite bind_done by reflexivity. exact Hs.
Qed.
End deadlock.

(** * Runs *)

Definition example_platform (file : string) : LogPlatform := {|
  environment_get_variable := fun v =>
    match v with ZSA_ENV_VAR_LOG_TO_A_FILE => Some file | ZSA_ENABLE_LOG_TO_STDOUT => None | ZSA_LOG_LEVEL => Some "warning"%string end;
  char_is_signed := true;
  logging_FILE := "logging.cpp";
  rotating_logger_opens := fun f => String.eqb f "run.log";
  pointer_text := fun p => if p =? NULL then "(nil)" else "0x1"
|}.
Definition idle_callback : LogClient := fun _ _ _ _ _ _ => mret tt.

(** Two callbacks, a wrong level, messages of three levels and the shutdown. *)
Definition example_ops : list log_op :=
  [OpLog ZSA_LOG_LEVEL_WARNING "a.c" 3 "one";
   OpRegister 7 70 ZSA_LOG_LEVEL_INFO;
   OpLog ZSA_LOG_LEVEL_INFO "a.c" 4 "two";
   OpRegister 8 80 ZSA_LOG_LEVEL_TRACE;
   OpRegister 7 70 9;
   OpDeinit;
   OpLog ZSA_LOG_LEVEL_CRITICAL "a.c" 5 "three";
   OpLog ZSA_LOG_LEVEL_TRACE "a.c" 6 "four"].


(** A path of 132 characters. *)
Definition long_path : string := String.concat "" (repeat "0123456789abcdef"%string 8) +:+ ".log".

Lemma logger_init_spec_witness :
  (let P := example_platform "run.log" in
   logger_global_context_t_get (mkLoggerState None []) =
   Done tt (mkLoggerState (Some (fst (ainit (Some "run.log"%string)))) (snd (ainit (Some "run.log"%string))))) /\
  (let P := example_platform "0" in
   exists g, logger_global_context_t_get (mkLoggerState None []) =
   Done tt (mkLoggerState (Some g)
     [L_open "zsa.log" ZSA_LOG_FILE_50MB_MAX_SIZE 3 false; L_open_failed "zsa.log"; L_open_stdout;
      L_set_pattern "[%Y-%m-%d %H:%M:%S.%e] [%^%l%$] [t=%t] %v"; L_set_level spd_trace; L_flush_on spd_warn]) /\
   lg_env_logger g = Some stdout_logger /\ lg_env_log_level g = ZSA_LOG_LEVEL_WARNING) /\
  (let P := example_platform long_path in logger_global_context_t_get (mkLoggerState None []) = Fault OutOfBounds).
Proof.
  split; [|split].
  - intros P. apply (logger_init_spec (platform := P) (mkLoggerState None []) eq_refl). by intros ? [= <-].
  - intros P. eexists. split; [|split].
    + apply (logger_init_spec (platform := P) (mkLoggerState None []) eq_refl). by intros ? [= <-].
    + done.
    + done.
  - intros P. apply (logger_init_spec (platform := P) (mkLoggerState None []) eq_refl). by intros ? [= <-].
Defined.

(** A callback that clears the registration. *)
Definition clearing_callback {P : LogPlatform} : LogClient := fun _ _ _ _ _ _ =>
  logger_register_message_callback (client := idle_callback) NULL NULL ZSA_LOG_LEVEL_OFF;; mret tt.

Lemma logger_callback_deadlock_witness :
  let P := example_platform "run.log" in
  logger_log (client := clearing_callback) ZSA_LOG_LEVEL_ERROR "a.c" 3 "one"
    (mkLoggerState (Some (mkLogger RwIdle 7 70 ZSA_LOG_LEVEL_INFO None false ZSA_LOG_LEVEL_OFF)) []) = Fault SelfDeadlock.
Proof.
  intros P.
  apply (logger_callback_deadlock (client := clearing_callback) _ (mkLogger RwIdle 7 70 ZSA_LOG_LEVEL_INFO None false ZSA_LOG_LEVEL_OFF)
    NULL NULL ZSA_LOG_LEVEL_OFF); [done|done|done|by left|done].
Defined.
