(* ===== verification/Wrapper.v ===== *)
(** include/zsa/zsa.hpp: the C++ classes over the C functions of the SDK.

    The classes image and capture share a counted object, transformation and
    device own theirs; all four hold one handle, and their constructors,
    assignments and destructors are the same text.  A C++ object lives at an
    address of [cx_objects]; a method takes the address [this]; the storage of a
    result is what its constructor allocates.  An exception is a value,
    [inl what], and what is on the stack when one passes is destroyed.

    The header calls C functions that neither zsa.h declares nor a module of the
    SDK defines under these names ([zsa_image_reference] and the like): they are
    the typeclass [ZsaApi].  What the classes rely on in them is [ZsaApiOk]; the
    file WrapperImpl shows that the SDK's own functions satisfy it. *)

From stdpp Require Import strings.
From S2P Require Export State.

(** * clamp_cast *)

(** The arithmetic types of C++ that are integers. *)
Record int_type : Set := mkIntType { is_signed : bool; bits : Z }.
Definition int32_t : int_type := mkIntType true 32.
Definition int64_t : int_type := mkIntType true 64.
Definition uint64_t : int_type := mkIntType false 64.
Definition int_types : list int_type :=
  s ← [true; false]; b ← [8; 16; 32; 64]; [mkIntType s b].

(** [std::numeric_limits<t>] *)
Definition numeric_min (t : int_type) : Z := if is_signed t then - 2 ^ (bits t - 1) else 0.
Definition numeric_max (t : int_type) : Z := if is_signed t then 2 ^ (bits t - 1) - 1 else 2 ^ bits t - 1.
Definition in_type (t : int_type) (x : Z) : Prop := numeric_min t <= x <= numeric_max t.

(** [static_cast<t>(x)]: modulo the width. *)
Definition static_cast (t : int_type) (x : Z) : Z := (x - numeric_min t) mod 2 ^ bits t + numeric_min t.

Definition clamp_cast (output_type input_type : int_type) (input : Z) : Z :=
  let min_value := if is_signed input_type then static_cast input_type (numeric_min output_type) else 0 in
  let max_value := static_cast input_type (numeric_max output_type) in
  let max_value := if max_value <? 0 then numeric_max input_type else max_value in
  let input := Z.min input max_value in
  let input := Z.max input min_value in
  static_cast output_type input.

(** * The C functions *)

(** What a handle refers to. *)
Inductive hkind : Set := HImage | HCapture | HTransformation | HDevice.
#[export] Instance hkind_eq_dec : EqDecision hkind.
Proof. solve_decision. Defined.

(** zsa_calibration_t: the members the classes read, and the rest. *)
Record calibration : Set := mkCalibration {
  color_resolution_width : Z; color_resolution_height : Z;
  depth_resolution_width : Z; depth_resolution_height : Z;
  calibration_rest : list Z
}.

(** zsa_float2_t, zsa_float3_t *)
Abbreviation float_vector := (list spec_float).
(** zsa_imu_sample_t and zsa_hardware_version_t, as their bytes. *)
Abbreviation imu_sample := (list Z).
Abbreviation hardware_version := (list Z).

(** The members of an image with a getter or a setter. *)
Inductive image_member : Set :=
| I_buffer | I_size | I_format | I_width_pixels | I_height_pixels | I_stride_bytes | I_device_timestamp_usec
| I_system_timestamp_nsec | I_exposure_usec | I_white_balance | I_iso_speed.
Inductive capture_slot : Set := S_color | S_depth | S_ir.

(** A function with an output handle returns what is in it afterwards; the
    classes set it to null before. *)
Class ZsaApi (W : Type) : Type := {
  c_image_reference : Z -> M W unit;
  c_image_release : Z -> M W unit;
  c_image_create (format width height stride : Z) : M W (zsa_result_t * Z);
  c_image_create_from_buffer (format width height stride buffer size cb context : Z) : M W (zsa_result_t * Z);
  c_image_get : image_member -> Z -> M W Z;
  c_image_set : image_member -> Z -> Z -> M W unit;
  c_capture_reference : Z -> M W unit;
  c_capture_release : Z -> M W unit;
  c_capture_create : M W (zsa_result_t * Z);
  c_capture_get_image : capture_slot -> Z -> M W Z;
  c_capture_set_image : capture_slot -> Z -> Z -> M W unit;
  c_capture_set_temperature_c : Z -> spec_float -> M W unit;
  c_capture_get_temperature_c : Z -> M W spec_float;
  c_transformation_create : calibration -> M W Z;
  c_transformation_destroy : Z -> M W unit;
  c_depth_image_to_color_camera (handle depth transformed : Z) : M W zsa_result_t;
  c_depth_image_to_color_camera_custom (handle depth custom transformed_depth transformed_custom interpolation invalid : Z) :
    M W zsa_result_t;
  c_color_image_to_depth_camera (handle depth color transformed : Z) : M W zsa_result_t;
  c_depth_image_to_point_cloud (handle depth camera xyz : Z) : M W zsa_result_t;
  c_device_open : Z -> M W (zsa_result_t * Z);
  c_device_close : Z -> M W unit;
  c_device_get_installed_count : M W Z;
  c_device_get_capture (device timeout_ms : Z) : M W (zsa_wait_result_t * Z);
  c_device_start_cameras : Z -> option zsa_device_configuration_t -> M W zsa_result_t;
  c_device_stop_cameras : Z -> M W unit;
  c_device_get_imu_sample (device timeout_ms : Z) : M W (zsa_wait_result_t * imu_sample);
  c_device_start_imu : Z -> M W zsa_result_t;
  c_device_stop_imu : Z -> M W unit;
  c_device_get_color_control (device command : Z) : M W (zsa_result_t * Z * Z);
  c_device_set_color_control (device command mode value : Z) : M W zsa_result_t;
  c_device_get_calibration (device depth_mode color_resolution : Z) : M W (zsa_result_t * calibration);
  c_device_get_sync_jack : Z -> M W (zsa_result_t * bool * bool);
  c_device_get_version : Z -> M W (zsa_result_t * hardware_version);
  c_calibration_3d_to_3d (c : calibration) (point : float_vector) (source target : Z) : M W (zsa_result_t * float_vector);
  c_calibration_2d_to_3d (c : calibration) (point : float_vector) (depth : spec_float) (source target : Z) :
    M W (zsa_result_t * float_vector * Z);
  c_calibration_3d_to_2d (c : calibration) (point : float_vector) (source target : Z) : M W (zsa_result_t * float_vector * Z);
  c_calibration_2d_to_2d (c : calibration) (point : float_vector) (depth : spec_float) (source target : Z) :
    M W (zsa_result_t * float_vector * Z);
  c_calibration_color_2d_to_depth_2d (c : calibration) (point : float_vector) (depth_image : Z) :
    M W (zsa_result_t * float_vector * Z);
  c_calibration_get_from_raw (raw : list Z) (size depth_mode color_resolution : Z) : M W (zsa_result_t * calibration);
  c_device_get_bytes (raw_calibration : bool) (device : Z) (buffer : list Z) (size : Z) :
    M W (zsa_buffer_result_t * list Z * Z)
}.

(** * Objects *)

(** An object of one of the four classes.  A transformation has two resolutions,
    width and height; the constructor from a handle leaves them undetermined. *)
Record object : Set := mkObject {
  o_kind : hkind;
  m_handle : Z;
  m_color_resolution : option (Z * Z);
  m_depth_resolution : option (Z * Z)
}.

Definition with_handle (h : Z) (o : object) : object :=
  mkObject (o_kind o) h (m_color_resolution o) (m_depth_resolution o).

Section operations.
Context {W : Type} `{ZsaApi W}.

Record cxx : Type := mkCxx {
  cx_world : W;                 (** what the C functions work on *)
  cx_objects : gmap Z object;   (** the objects that are alive, by address *)
  cx_next : Z                   (** where the next one is constructed *)
}.

Abbreviation MC := (M cxx).
(** A call that may throw. *)
Abbreviation MX A := (MC (string + A)).

Definition throws {A} (what : string) : MX A := mret (inl what).
Definition returns {A} (a : A) : MX A := mret (inr a).
Definition try_bind {A B} (m : MX A) (f : A -> MX B) : MX B :=
  r ← m; match r with inl what => throws what | inr a => f a end.

Definition api {A} (m : M W A) : MC A := fun s =>
  match m (cx_world s) with
  | Done a w => Done a (mkCxx w (cx_objects s) (cx_next s))
  | Fault f => Fault f
  end.

Definition object_at (this : Z) : MC object := o ← gets (fun s => cx_objects s !! this); need UseAfterFree o.
Definition set_objects (f : gmap Z object -> gmap Z object) : MC unit :=
  modify (fun s => mkCxx (cx_world s) (f (cx_objects s)) (cx_next s)).
Definition store_object (this : Z) (o : object) : MC unit := set_objects <[this := o]>.
Definition set_handle (this h : Z) : MC unit := o ← object_at this; store_object this (with_handle h o).

(** New storage, and the object constructed in it. *)
Definition construct (o : object) : MC Z :=
  this ← gets cx_next;
  modify (fun s => mkCxx (cx_world s) (<[this := o]> (cx_objects s)) (cx_next s + 1));;
  mret this.

(** The C functions that end and that add a reference. *)
Definition release (k : hkind) (h : Z) : M W unit :=
  match k with
  | HImage => c_image_release h
  | HCapture => c_capture_release h
  | HTransformation => c_transformation_destroy h
  | HDevice => c_device_close h
  end.

Definition reference (k : hkind) (h : Z) : M W unit :=
  match k with
  | HImage => c_image_reference h
  | HCapture => c_capture_reference h
  | _ => mret tt
  end.

(** [reset], of a transformation [destroy], of a device [close]. *)
Definition reset (this : Z) : MC unit :=
  o ← object_at this;
  when (negb (m_handle o =? NULL)) (
    api (release (o_kind o) (m_handle o));;
    set_handle this NULL).

(** The constructors: from a handle, of a copy, and of what is moved. *)
Definition of_handle (k : hkind) (handle : Z) : MC Z := construct (mkObject k handle None None).

Definition copy_of (other : Z) : MC Z :=
  o ← object_at other;
  this ← construct o;
  when (negb (m_handle o =? NULL)) (api (reference (o_kind o) (m_handle o)));;
  mret this.

Definition moved_from (other : Z) : MC Z :=
  o ← object_at other;
  this ← construct o;
  set_handle other NULL;;
  mret this.

Definition transformation_of (c : calibration) : MC Z :=
  handle ← api (c_transformation_create c);
  construct (mkObject HTransformation handle (Some (color_resolution_width c, color_resolution_height c))
    (Some (depth_resolution_width c, depth_resolution_height c))).

(** The destructor; the storage is gone with the object. *)
Definition destructor (this : Z) : MC unit := reset this;; set_objects (delete this).

Definition assign_copy (this other : Z) : MC unit :=
  if this =? other then mret tt
  else
    reset this;;
    o ← object_at other;
    set_handle this (m_handle o);;
    o ← object_at this;
    when (negb (m_handle o =? NULL)) (api (reference (o_kind o) (m_handle o))).

(** Of a transformation the resolutions are assigned too. *)
Definition assign_moved (this other : Z) : MC unit :=
  if this =? other then mret tt
  else
    reset this;;
    o ← object_at other;
    store_object this o;;
    set_handle other NULL.

Definition assign_null (this : Z) : MC unit := reset this.

(** [operator==] on two objects, [operator bool], [handle()]. *)
Definition same_handle (this other : Z) : MC bool :=
  o ← object_at this; o' ← object_at other; mret (m_handle o =? m_handle o').
Definition handle (this : Z) : MC Z := o ← object_at this; mret (m_handle o).
Definition is_valid (this : Z) : MC bool := h ← handle this; mret (negb (h =? NULL)).

(** * image *)

Definition make_image (format width_pixels height_pixels stride_bytes : Z) : MX Z :=
  '(result, h) ← api (c_image_create format width_pixels height_pixels stride_bytes);
  if ZSA_FAILED result then throws "Failed to create image!"
  else this ← of_handle HImage h; returns this.

Definition make_image_from_buffer (format width_pixels height_pixels stride_bytes buffer buffer_size cb context : Z) : MX Z :=
  '(result, h) ← api (c_image_create_from_buffer format width_pixels height_pixels stride_bytes buffer buffer_size cb context);
  if ZSA_FAILED result then throws "Failed to create image from buffer"
  else this ← of_handle HImage h; returns this.

Definition get_image_member (member : image_member) (this : Z) : MC Z := h ← handle this; api (c_image_get member h).

(** std::chrono counts in 64 signed bits. *)
Definition get_device_timestamp (this : Z) : MC Z := x ← get_image_member I_device_timestamp_usec this; mret (static_cast int64_t x).
Definition get_system_timestamp (this : Z) : MC Z := x ← get_image_member I_system_timestamp_nsec this; mret (static_cast int64_t x).
Definition get_exposure_time (this : Z) : MC Z := x ← get_image_member I_exposure_usec this; mret (static_cast int64_t x).

Definition set_image_member (member : image_member) (this value : Z) : MC unit := h ← handle this; api (c_image_set member h value).
Definition set_timestamp (this timestamp : Z) : MC unit :=
  set_image_member I_device_timestamp_usec this (clamp_cast uint64_t int64_t timestamp).
Definition set_exposure_time (this exposure : Z) : MC unit :=
  set_image_member I_exposure_usec this (clamp_cast uint64_t int64_t exposure).

(** * capture *)

Definition make_capture : MX Z :=
  '(result, h) ← api c_capture_create;
  if ZSA_FAILED result then throws "Failed to create capture!"
  else this ← of_handle HCapture h; returns this.

Definition get_capture_image (slot : capture_slot) (this : Z) : MC Z :=
  h ← handle this; i ← api (c_capture_get_image slot h); of_handle HImage i.

Definition set_capture_image (slot : capture_slot) (this image : Z) : MC unit :=
  h ← handle this; i ← handle image; api (c_capture_set_image slot h i).

Definition set_temperature_c (this : Z) (temperature_c : spec_float) : MC unit :=
  h ← handle this; api (c_capture_set_temperature_c h temperature_c).
Definition get_temperature_c (this : Z) : MC spec_float := h ← handle this; api (c_capture_get_temperature_c h).

(** * transformation *)

(** A multiplication of ints that must not overflow. *)
Definition int_times (a b : Z) : MC Z :=
  if bool_decide (in_type int32_t (a * b)) then mret (a * b) else throw SignedOverflow.

(** A result the class turns into an exception. *)
Definition check_result (what : string) (m : M W zsa_result_t) : MX unit :=
  result ← api m; if ZSA_FAILED result then throws what else returns tt.

(** A local image, which is returned or, when an exception passes, destroyed. *)
Definition with_local (local : Z) (m : MX unit) : MX Z :=
  r ← m; match r with inl what => destructor local;; throws what | inr _ => returns local end.

Definition depth_image_to_color_camera (this depth_image transformed : Z) : MX unit :=
  h ← handle this; d ← handle depth_image; t ← handle transformed;
  check_result "Failed to convert depth map to color camera geometry!" (c_depth_image_to_color_camera h d t).

Definition new_depth_image_to_color_camera (this depth_image : Z) : MX Z :=
  o ← object_at this;
  '(width, height) ← need Uninitialised (m_color_resolution o);
  stride ← int_times width 2;
  try_bind (make_image ZSA_IMAGE_FORMAT_DEPTH16 width height stride) (fun transformed =>
    with_local transformed (depth_image_to_color_camera this depth_image transformed)).

Definition depth_image_to_color_camera_custom
    (this depth_image custom_image transformed_depth transformed_custom interpolation invalid : Z) : MX unit :=
  h ← handle this; d ← handle depth_image; c ← handle custom_image;
  td ← handle transformed_depth; tc ← handle transformed_custom;
  check_result "Failed to convert depth map and custom image to color camera geometry!"
    (c_depth_image_to_color_camera_custom h d c td tc interpolation invalid).

(** The custom image for the result, from the format of the one given. *)
Definition new_custom_image (o : object) (custom_image : Z) : MX Z :=
  format ← get_image_member I_format custom_image;
  if (format =? ZSA_IMAGE_FORMAT_CUSTOM8) || (format =? ZSA_IMAGE_FORMAT_CUSTOM16) then
    format' ← get_image_member I_format custom_image;
    '(width, height) ← need Uninitialised (m_color_resolution o);
    stride ← int_times width (if format =? ZSA_IMAGE_FORMAT_CUSTOM8 then 1 else 2);
    make_image format' width height stride
  else throws "Failed to support this format of custom image!".

(** The pair that is returned is constructed by moving the two locals. *)
Definition new_depth_image_to_color_camera_custom (this depth_image custom_image interpolation invalid : Z) : MX (Z * Z) :=
  o ← object_at this;
  '(width, height) ← need Uninitialised (m_color_resolution o);
  stride ← int_times width 2;
  try_bind (make_image ZSA_IMAGE_FORMAT_DEPTH16 width height stride) (fun depth =>
    r ← try_bind (new_custom_image o custom_image) (fun custom =>
      with_local custom (depth_image_to_color_camera_custom this depth_image custom_image depth custom interpolation invalid));
    match r with
    | inl what => destructor depth;; throws what
    | inr custom =>
        first ← moved_from depth; second ← moved_from custom;
        destructor custom;; destructor depth;;
        returns (first, second)
    end).

Definition color_image_to_depth_camera (this depth_image color_image transformed : Z) : MX unit :=
  h ← handle this; d ← handle depth_image; c ← handle color_image; t ← handle transformed;
  check_result "Failed to convert color image to depth camera geometry!" (c_color_image_to_depth_camera h d c t).

Definition new_color_image_to_depth_camera (this depth_image color_image : Z) : MX Z :=
  o ← object_at this;
  '(width, height) ← need Uninitialised (m_depth_resolution o);
  stride ← int_times width 4;
  try_bind (make_image ZSA_IMAGE_FORMAT_COLOR_BGRA32 width height stride) (fun transformed =>
    with_local transformed (color_image_to_depth_camera this depth_image color_image transformed)).

Definition depth_image_to_point_cloud (this depth_image camera xyz_image : Z) : MX unit :=
  h ← handle this; d ← handle depth_image; x ← handle xyz_image;
  check_result "Failed to transform depth image to point cloud!" (c_depth_image_to_point_cloud h d camera x).

Definition new_depth_image_to_point_cloud (this depth_image camera : Z) : MX Z :=
  width ← get_image_member I_width_pixels depth_image;
  height ← get_image_member I_height_pixels depth_image;
  width' ← get_image_member I_width_pixels depth_image;
  row ← int_times width' 3;
  stride ← int_times row 2;
  try_bind (make_image ZSA_IMAGE_FORMAT_CUSTOM width height stride) (fun xyz_image =>
    with_local xyz_image (depth_image_to_point_cloud this depth_image camera xyz_image)).

(** * device *)

Definition device_open (index : Z) : MX Z :=
  '(result, h) ← api (c_device_open index);
  if ZSA_FAILED result then throws "Failed to open device!"
  else this ← of_handle HDevice h; returns this.

(** The capture is built in a temporary and moved into [*cap]. *)
Definition device_get_capture (this cap timeout : Z) : MX bool :=
  h ← handle this;
  '(result, capture_handle) ← api (c_device_get_capture h (clamp_cast int32_t int64_t timeout));
  match result with
  | ZSA_WAIT_RESULT_FAILED => throws "Failed to get capture from device!"
  | ZSA_WAIT_RESULT_TIMEOUT => returns false
  | ZSA_WAIT_RESULT_SUCCEEDED =>
      temporary ← of_handle HCapture capture_handle;
      assign_moved cap temporary;;
      destructor temporary;;
      returns true
  end.

Definition device_get_capture_infinite (this cap : Z) : MX bool := device_get_capture this cap ZSA_WAIT_INFINITE.

Definition get_imu_sample (this timeout : Z) : MX (bool * option imu_sample) :=
  h ← handle this;
  '(result, sample) ← api (c_device_get_imu_sample h (clamp_cast int32_t int64_t timeout));
  match result with
  | ZSA_WAIT_RESULT_FAILED => throws "Failed to get IMU sample from device!"
  | ZSA_WAIT_RESULT_TIMEOUT => returns (false, None)
  | ZSA_WAIT_RESULT_SUCCEEDED => returns (true, Some sample)
  end.
Definition get_imu_sample_infinite (this : Z) : MX (bool * option imu_sample) := get_imu_sample this ZSA_WAIT_INFINITE.

Definition start_imu (this : Z) : MX unit :=
  h ← handle this; check_result "Failed to start IMU!" (c_device_start_imu h).
Definition stop_imu (this : Z) : MC unit := h ← handle this; api (c_device_stop_imu h).

Definition start_cameras (this : Z) (configuration : option zsa_device_configuration_t) : MX unit :=
  h ← handle this; check_result "Failed to start cameras!" (c_device_start_cameras h configuration).
Definition stop_cameras (this : Z) : MC unit := h ← handle this; api (c_device_stop_cameras h).
Definition get_installed_count : MC Z := api c_device_get_installed_count.

(** The value that comes with a result. *)
Definition check_value {A} (what : string) (m : M W (zsa_result_t * A)) : MX A :=
  '(result, a) ← api m; if ZSA_FAILED result then throws what else returns a.

(** Mode and value. *)
Definition get_color_control (this command : Z) : MX (Z * Z) :=
  h ← handle this;
  check_value "Failed to read color control!"
    ('(result, mode, value) ← c_device_get_color_control h command; mret (result, (mode, value))).
Definition set_color_control (this command mode value : Z) : MX unit :=
  h ← handle this; check_result "Failed to set color control!" (c_device_set_color_control h command mode value).
Definition get_calibration (this depth_mode color_resolution : Z) : MX calibration :=
  h ← handle this; check_value "Failed to read device calibration!" (c_device_get_calibration h depth_mode color_resolution).
Definition get_sync_jack (this : Z) : MX (bool * bool) :=
  h ← handle this;
  check_value "Failed to read sync jack status!"
    ('(result, sync_in, sync_out) ← c_device_get_sync_jack h; mret (result, (sync_in, sync_out))).
Definition is_sync_in_connected (this : Z) : MX bool := try_bind (get_sync_jack this) (fun jacks => returns (fst jacks)).
Definition is_sync_out_connected (this : Z) : MX bool := try_bind (get_sync_jack this) (fun jacks => returns (snd jacks)).
Definition get_version (this : Z) : MX hardware_version :=
  h ← handle this; check_value "Failed to read device firmware information!" (c_device_get_version h).

(** * calibration *)

Definition invalid_parameters : string := "Calibration contained invalid transformation parameters!".

Definition convert_3d_to_3d (this : calibration) (source_point3d : float_vector) (source_camera target_camera : Z) : MX float_vector :=
  check_value invalid_parameters (c_calibration_3d_to_3d this source_point3d source_camera target_camera).

(** [valid], an int, as a bool, beside the point that was written. *)
Definition check_valid (m : M W (zsa_result_t * float_vector * Z)) : MX (bool * float_vector) :=
  check_value invalid_parameters ('(result, target, valid) ← m; mret (result, (negb (valid =? 0), target))).

Definition convert_2d_to_3d (this : calibration) (source_point2d : float_vector) (source_depth : spec_float)
    (source_camera target_camera : Z) : MX (bool * float_vector) :=
  check_valid (c_calibration_2d_to_3d this source_point2d source_depth source_camera target_camera).
Definition convert_3d_to_2d (this : calibration) (source_point3d : float_vector)
    (source_camera target_camera : Z) : MX (bool * float_vector) :=
  check_valid (c_calibration_3d_to_2d this source_point3d source_camera target_camera).
Definition convert_2d_to_2d (this : calibration) (source_point2d : float_vector) (source_depth : spec_float)
    (source_camera target_camera : Z) : MX (bool * float_vector) :=
  check_valid (c_calibration_2d_to_2d this source_point2d source_depth source_camera target_camera).
Definition convert_color_2d_to_depth_2d (this : calibration) (source_point2d : float_vector) (depth_image : Z) :
    MX (bool * float_vector) :=
  h ← handle depth_image; check_valid (c_calibration_color_2d_to_depth_2d this source_point2d h).

Definition get_from_raw (raw_calibration : list Z) (raw_calibration_size target_depth_mode target_color_resolution : Z) : MX calibration :=
  check_value "Failed to load calibration from raw calibration blob!"
    (c_calibration_get_from_raw raw_calibration raw_calibration_size target_depth_mode target_color_resolution).
Definition get_from_raw_vector (raw_calibration : list Z) (target_depth_mode target_color_resolution : Z) : MX calibration :=
  get_from_raw raw_calibration (Z.of_nat (length raw_calibration)) target_depth_mode target_color_resolution.

(** * Buffers of a size that has to be asked for *)

(** [resize(n)]; the character at [i] of a string, which ends in 0; an element of
    a vector, which has none at its end. *)
Definition resize (n : Z) (l : list Z) : list Z := take (Z.to_nat n) l ++ replicate (Z.to_nat n - length l) 0.
Definition char_at (l : list Z) (i : Z) : option Z :=
  if i <? 0 then None else if i =? Z.of_nat (length l) then Some 0 else l !! Z.to_nat i.
Definition element_at (l : list Z) (i : Z) : option Z := if i <? 0 then None else l !! Z.to_nat i.

Definition succeeded (r : zsa_buffer_result_t) : bool := bool_decide (r = ZSA_BUFFER_RESULT_SUCCEEDED).

(** [&serialnum[0]] of the empty string points at its terminator. *)
Definition get_serialnum (this : Z) : MX (list Z) :=
  h ← handle this;
  '(result, serialnum, buffer) ← api (c_device_get_bytes false h [] 0);
  '(result, serialnum) ←
    (if bool_decide (result = ZSA_BUFFER_RESULT_TOO_SMALL) && (buffer >? 1) then
       '(result, serialnum, buffer) ← api (c_device_get_bytes false h (resize buffer []) buffer);
       if succeeded result then
         c ← need OutOfBounds (char_at serialnum (buffer - 1));
         mret (result, if c =? 0 then resize (buffer - 1) serialnum else serialnum)
       else mret (result, serialnum)
     else mret (result, serialnum));
  if succeeded result then returns serialnum else throws "Failed to read device serial number!".

(** [&calibration[0]] of the empty vector is no element. *)
Definition get_raw_calibration (this : Z) : MX (list Z) :=
  h ← handle this;
  let calibration := [] in
  _ ← need OutOfBounds (element_at calibration 0);
  '(result, calibration, buffer) ← api (c_device_get_bytes true h calibration 0);
  '(result, calibration) ←
    (if bool_decide (result = ZSA_BUFFER_RESULT_TOO_SMALL) && (buffer >? 1) then
       let calibration := resize buffer calibration in
       _ ← need OutOfBounds (element_at calibration 0);
       '(result, calibration, _) ← api (c_device_get_bytes true h calibration buffer);
       mret (result, calibration)
     else mret (result, calibration));
  if succeeded result then returns calibration else throws "Failed to read raw device calibration!".
End operations.

Arguments cxx W : clear implicits.
