(* ===== verification/WrapperOwn.v ===== *)
(** Who owns the handles: what the classes of zsa.hpp rely on in the C
    functions ([ZsaApiOk]), and that every object that is not null holds exactly
    one reference, whatever a client does with the objects.  Then the two other
    things the header gets right by itself: its casts, and strings of a size
    that has to be asked for. *)

From stdpp Require Import strings.
From S2P Require Export Wrapper.

(** * Ledgers of handles *)

Abbreviation href := (hkind * Z)%type.
Abbreviation hledger := (href -> Z).
Definition none_held : hledger := fun _ => 0.
Definition one (x r : href) : Z := if decide (x = r) then 1 else 0.
Definition more (l : hledger) (x : href) : hledger := fun r => l r + one x r.
Definition less (l : hledger) (x : href) : hledger := fun r => l r - one x r.
(** The reference in a handle, if it is not null. *)
Definition one_of (k : hkind) (h : Z) (r : href) : Z := if h =? NULL then 0 else one (k, h) r.
Definition plus (l : hledger) (k : hkind) (h : Z) : hledger := fun r => l r + one_of k h r.

(** A handle that may be passed: null, or with a reference of the caller. *)
Definition usable (l : hledger) (k : hkind) (h : Z) : Prop := h = NULL \/ 0 < l (k, h).
Definition hnonneg (l : hledger) : Prop := forall r, 0 <= l r.

Lemma one_nonneg x r : 0 <= one x r.
Proof. unfold one. case_decide; lia. Qed.
Lemma one_of_nonneg k h r : 0 <= one_of k h r.
Proof. unfold one_of. case_match; [lia|apply one_nonneg]. Qed.
Lemma one_of_self k h : h <> NULL -> one_of k h (k, h) = 1.
Proof. intros Hn. unfold one_of, one. rewrite (proj2 (Z.eqb_neq _ _) Hn). by rewrite decide_True. Qed.
Lemma one_of_null k r : one_of k NULL r = 0.
Proof. done. Qed.

(** The outcome of a function that makes an object. *)
Definition made {W} (inv : hledger -> W -> Prop) (l : hledger) (k : hkind) (out : zsa_result_t * Z) (w : W) : Prop :=
  match out with
  | (ZSA_RESULT_SUCCEEDED, h) => inv (plus l k h) w
  | (ZSA_RESULT_FAILED, _) => inv l w
  end.

Definition copyable (k : hkind) : bool := match k with HImage | HCapture => true | _ => false end.

(** What the classes rely on: the C functions keep books [api_inv] of the
    references that were handed out; [geometry] says for which sizes an image
    may be asked for. *)
Class ZsaApiOk (W : Type) `{ZsaApi W} : Type := {
  api_inv : hledger -> W -> Prop;
  geometry : Z -> Z -> Z -> bool;
  api_ext : forall l l' w, (forall r, l r = l' r) -> api_inv l w -> api_inv l' w;
  api_reference : forall l k h w, api_inv l w -> hnonneg l -> copyable k = true -> h <> NULL -> 0 < l (k, h) ->
    wp (reference k h) (fun _ => api_inv (plus l k h)) w;
  api_release : forall l k h w, api_inv (plus l k h) w -> hnonneg l -> h <> NULL ->
    wp (release k h) (fun _ => api_inv l) w;
  api_image_create : forall l format width height stride w, api_inv l w -> hnonneg l -> geometry width height stride = true ->
    wp (c_image_create format width height stride) (made api_inv l HImage) w;
  api_image_create_from_buffer : forall l format width height stride buffer size cb context w, api_inv l w -> hnonneg l ->
    wp (c_image_create_from_buffer format width height stride buffer size cb context) (made api_inv l HImage) w;
  api_image_get : forall l m h w, api_inv l w -> hnonneg l -> usable l HImage h -> wp (c_image_get m h) (fun _ => api_inv l) w;
  api_image_set : forall l m h v w, api_inv l w -> hnonneg l -> usable l HImage h -> wp (c_image_set m h v) (fun _ => api_inv l) w;
  api_capture_create : forall l w, api_inv l w -> hnonneg l -> wp c_capture_create (made api_inv l HCapture) w;
  api_capture_get_image : forall l slot h w, api_inv l w -> hnonneg l -> usable l HCapture h ->
    wp (c_capture_get_image slot h) (fun i => api_inv (plus l HImage i)) w;
  api_capture_set_image : forall l slot h i w, api_inv l w -> hnonneg l -> usable l HCapture h -> usable l HImage i ->
    wp (c_capture_set_image slot h i) (fun _ => api_inv l) w;
  api_capture_get_temperature_c : forall l h w, api_inv l w -> hnonneg l -> usable l HCapture h ->
    wp (c_capture_get_temperature_c h) (fun _ => api_inv l) w;
  api_capture_set_temperature_c : forall l h t w, api_inv l w -> hnonneg l -> usable l HCapture h ->
    wp (c_capture_set_temperature_c h t) (fun _ => api_inv l) w;
  api_transformation_create : forall l c w, api_inv l w -> hnonneg l ->
    wp (c_transformation_create c) (fun h => api_inv (plus l HTransformation h)) w;
  api_depth_image_to_color_camera : forall l h d t w, api_inv l w -> hnonneg l ->
    usable l HTransformation h -> usable l HImage d -> usable l HImage t ->
    wp (c_depth_image_to_color_camera h d t) (fun _ => api_inv l) w;
  api_depth_image_to_color_camera_custom : forall l h d c td tc i v w, api_inv l w -> hnonneg l ->
    usable l HTransformation h -> usable l HImage d -> usable l HImage c -> usable l HImage td -> usable l HImage tc ->
    wp (c_depth_image_to_color_camera_custom h d c td tc i v) (fun _ => api_inv l) w;
  api_color_image_to_depth_camera : forall l h d c t w, api_inv l w -> hnonneg l ->
    usable l HTransformation h -> usable l HImage d -> usable l HImage c -> usable l HImage t ->
    wp (c_color_image_to_depth_camera h d c t) (fun _ => api_inv l) w;
  api_device_open : forall l index w, api_inv l w -> hnonneg l -> wp (c_device_open index) (made api_inv l HDevice) w;
  api_device_get_capture : forall l h timeout w, api_inv l w -> hnonneg l -> usable l HDevice h ->
    wp (c_device_get_capture h timeout) (fun '(result, c) =>
      match result with ZSA_WAIT_RESULT_SUCCEEDED => api_inv (plus l HCapture c) | _ => api_inv l end) w;
  api_device_start_cameras : forall l h config w, api_inv l w -> hnonneg l -> usable l HDevice h ->
    wp (c_device_start_cameras h config) (fun _ => api_inv l) w;
  api_device_stop_cameras : forall l h w, api_inv l w -> hnonneg l -> usable l HDevice h ->
    wp (c_device_stop_cameras h) (fun _ => api_inv l) w
}.

(** * What the objects hold *)

Definition holds (o : object) : hledger := one_of (o_kind o) (m_handle o).
Definition held (objects : gmap Z object) : hledger := fun r => map_sum (fun o => holds o r) objects.

Lemma holds_nonneg o r : 0 <= holds o r.
Proof. apply one_of_nonneg. Qed.
Lemma held_nonneg objects : hnonneg (held objects).
Proof. intros r. apply map_sum_nonneg. intros. apply holds_nonneg. Qed.
Lemma held_empty r : held ∅ r = 0.
Proof. apply map_sum_empty. Qed.
Lemma held_store objects a o o' r :
  objects !! a = Some o -> held (<[a := o']> objects) r = held objects r - holds o r + holds o' r.
Proof. apply (map_sum_insert (fun o => holds o r)). Qed.
Lemma held_new objects a o r : objects !! a = None -> held (<[a := o]> objects) r = holds o r + held objects r.
Proof. apply (map_sum_insert_new (fun o => holds o r)). Qed.
Lemma held_delete objects a o r : objects !! a = Some o -> held (delete a objects) r = held objects r - holds o r.
Proof. apply (map_sum_delete (fun o => holds o r)). Qed.
Lemma held_ge objects a o r : objects !! a = Some o -> holds o r <= held objects r.
Proof. apply (map_sum_ge (fun o => holds o r)). intros. apply holds_nonneg. Qed.
Lemma holds_null o r : holds (with_handle NULL o) r = 0.
Proof. done. Qed.

Section own.
Context {W : Type} `{ZsaApiOk W}.
Implicit Types (s : cxx W) (o : object) (ext : hledger) (w : W).

(** The books are right: what the C side has handed out is what the objects
    hold, and [ext], which a method holds in its variables. *)
Definition owns ext s : Prop :=
  (forall a o, cx_objects s !! a = Some o -> a < cx_next s) /\
  api_inv (fun r => held (cx_objects s) r + ext r) (cx_world s).

Lemma owns_same ext ext' s : (forall r, ext r = ext' r) -> owns ext s -> owns ext' s.
Proof. intros He [Hb Hi]. split; [done|]. eapply api_ext; [|exact Hi]. intros r. cbn. by rewrite He. Qed.

(** An object's handle may be passed to a C function. *)
Lemma owns_usable ext s a o :
  hnonneg ext -> cx_objects s !! a = Some o ->
  usable (fun r => held (cx_objects s) r + ext r) (o_kind o) (m_handle o).
Proof.
  intros He Ha. destruct (decide (m_handle o = NULL)) as [Hn|Hn]; [by left|right].
  pose proof (held_ge _ _ _ (o_kind o, m_handle o) Ha) as Hg. unfold holds in Hg.
  rewrite one_of_self in Hg by done. specialize (He (o_kind o, m_handle o)). lia.
Qed.

Lemma owns_nonneg ext s : hnonneg ext -> hnonneg (fun r => held (cx_objects s) r + ext r).
Proof. intros He r. pose proof (held_nonneg (cx_objects s) r). specialize (He r). lia. Qed.

(** Two states of the objects with the same books. *)
Lemma owns_objects ext ext' w objects objects' next next' :
  owns ext (mkCxx w objects next) ->
  (forall a o, objects' !! a = Some o -> a < next') ->
  (forall r, held objects' r + ext' r = held objects r + ext r) -> owns ext' (mkCxx w objects' next').
Proof. intros [_ Hi] Hb He. split; [done|]. eapply api_ext; [|exact Hi]. intros r. cbn in *. by rewrite He. Qed.

(** ** The methods every class has *)

Lemma wp_api {A} (m : M W A) Q s :
  wp m (fun a w => Q a (mkCxx w (cx_objects s) (cx_next s))) (cx_world s) -> wp (api m) Q s.
Proof. unfold wp, api. by destruct (m (cx_world s)). Qed.

Lemma wp_object_at this o Q s : cx_objects s !! this = Some o -> Q o s -> wp (object_at this) Q s.
Proof. intros Ho HQ. unfold object_at. apply wp_bind, wp_gets. by eapply wp_need. Qed.

Lemma wp_handle this o Q s : cx_objects s !! this = Some o -> Q (m_handle o) s -> wp (handle this) Q s.
Proof. intros Ho HQ. unfold handle. apply wp_bind. eapply wp_object_at; [done|]. by apply wp_ret. Qed.

Lemma wp_set_handle this h o Q s :
  cx_objects s !! this = Some o ->
  Q tt (mkCxx (cx_world s) (<[this := with_handle h o]> (cx_objects s)) (cx_next s)) -> wp (set_handle this h) Q s.
Proof. intros Ho HQ. unfold set_handle. apply wp_bind. by eapply wp_object_at. Qed.

(** The state with other objects. *)
Definition objects_are ext (objects : gmap Z object) (next : Z) s : Prop :=
  owns ext s /\ cx_objects s = objects /\ cx_next s = next.

Lemma objects_are_intro ext w objects next : owns ext (mkCxx w objects next) -> objects_are ext objects next (mkCxx w objects next).
Proof. done. Qed.

(** Objects below the next address, after a store over one of them. *)
Lemma below_store (objects : gmap Z object) (next a : Z) o o' :
  (forall a o, objects !! a = Some o -> a < next) -> objects !! a = Some o ->
  forall b ob, <[a := o']> objects !! b = Some ob -> b < next.
Proof.
  intros Hb Ha b ob. destruct (decide (b = a)) as [->|Hn]; [intros _; by eapply Hb|].
  rewrite lookup_insert_ne by done. apply Hb.
Qed.

Lemma below_new (objects : gmap Z object) (next : Z) o :
  (forall a o, objects !! a = Some o -> a < next) ->
  forall b ob, <[next := o]> objects !! b = Some ob -> b < next + 1.
Proof.
  intros Hb b ob. destruct (decide (b = next)) as [->|Hn]; [lia|].
  rewrite lookup_insert_ne by done. intros Hx. specialize (Hb _ _ Hx). lia.
Qed.

Lemma below_delete (objects : gmap Z object) (next a : Z) :
  (forall a o, objects !! a = Some o -> a < next) ->
  forall b ob, delete a objects !! b = Some ob -> b < next.
Proof. intros Hb b ob [_ Hx]%lookup_delete_Some. by eapply Hb. Qed.

Lemma next_free ext s : owns ext s -> cx_objects s !! cx_next s = None.
Proof. intros [Hb _]. destruct (cx_objects s !! cx_next s) eqn:E; [|done]. specialize (Hb _ _ E). lia. Qed.

Lemma wp_reset ext s this o :
  owns ext s -> hnonneg ext -> cx_objects s !! this = Some o ->
  wp (reset this) (fun _ => objects_are ext (<[this := with_handle NULL o]> (cx_objects s)) (cx_next s)) s.
Proof.
  intros Ho He Ha. destruct Ho as [Hb Hi]. unfold reset. apply wp_bind. eapply wp_object_at; [done|].
  assert (Hs : forall r, held (cx_objects s) r = held (<[this := with_handle NULL o]> (cx_objects s)) r + holds o r).
  { intros r. rewrite (held_store _ _ _ _ _ Ha), holds_null. lia. }
  apply wp_when.
  - intros Hn%negb_true_iff%Z.eqb_neq. apply wp_bind, wp_api.
    eapply wp_mono; [apply (api_release (fun r => held (<[this := with_handle NULL o]> (cx_objects s)) r + ext r))|].
    + eapply api_ext; [|exact Hi]. intros r. unfold plus. cbn. rewrite Hs. unfold holds. lia.
    + intros r. pose proof (held_nonneg (<[this := with_handle NULL o]> (cx_objects s)) r). specialize (He r). lia.
    + done.
    + intros [] w' Hw. eapply wp_set_handle; [done|]. apply objects_are_intro. split; [|done]. by eapply below_store.
  - intros Hn%negb_false_iff%Z.eqb_eq.
    assert (E : with_handle NULL o = o) by (destruct o; cbn in *; by subst).
    rewrite E, insert_id by done. by repeat split.
Qed.

Lemma wp_destructor ext s this o :
  owns ext s -> hnonneg ext -> cx_objects s !! this = Some o ->
  wp (destructor this) (fun _ => objects_are ext (delete this (cx_objects s)) (cx_next s)) s.
Proof.
  intros Ho He Ha. unfold destructor. apply wp_bind. eapply wp_mono; [by apply (wp_reset ext)|].
  intros [] [w objects next] (Ho' & Eo & En). cbn in Eo, En. subst. apply wp_modify. cbn.
  rewrite delete_insert_eq. apply objects_are_intro. eapply owns_objects; [exact Ho'| |].
  - apply below_delete, Ho.
  - intros r. rewrite (held_delete _ _ _ _ Ha), (held_store _ _ _ _ _ Ha), holds_null. lia.
Qed.

(** Constructing an object uses a loose reference up. *)
Lemma wp_construct ext o s :
  owns (fun r => ext r + holds o r) s ->
  wp (construct o) (fun this s' => this = cx_next s /\
    objects_are ext (<[cx_next s := o]> (cx_objects s)) (cx_next s + 1) s') s.
Proof.
  intros Ho. pose proof (next_free _ _ Ho) as Hf. unfold construct. apply wp_bind, wp_gets, wp_bind, wp_modify, wp_ret.
  split; [done|]. apply objects_are_intro. destruct s as [w objects next]. eapply owns_objects; [exact Ho| |].
  - apply below_new, Ho.
  - intros r. cbn in *. rewrite (held_new _ _ _ _ Hf). lia.
Qed.

Lemma wp_of_handle ext k h s :
  owns (plus ext k h) s ->
  wp (of_handle k h) (fun this s' => this = cx_next s /\
    objects_are ext (<[cx_next s := mkObject k h None None]> (cx_objects s)) (cx_next s + 1) s') s.
Proof. apply (wp_construct ext (mkObject k h None None)). Qed.

Lemma wp_copy_of ext s other o :
  owns ext s -> hnonneg ext -> cx_objects s !! other = Some o -> copyable (o_kind o) = true ->
  wp (copy_of other) (fun this s' => this = cx_next s /\
    objects_are ext (<[cx_next s := o]> (cx_objects s)) (cx_next s + 1) s') s.
Proof.
  intros Ho He Ha Hk. pose proof (next_free _ _ Ho) as Hf. pose proof (owns_usable _ _ _ _ He Ha) as Hu.
  pose proof (owns_nonneg ext s He) as Hn. destruct Ho as [Hb Hi]. unfold copy_of. apply wp_bind. eapply wp_object_at; [done|].
  unfold construct. do 2 apply wp_bind. apply wp_gets, wp_bind, wp_modify, wp_ret, wp_bind.
  apply wp_when.
  - intros Hh%negb_true_iff%Z.eqb_neq. apply wp_api. cbn.
    eapply wp_mono; [apply (api_reference _ _ _ _ Hi Hn Hk Hh)|].
    { by destruct Hu. }
    intros [] w' Hw. apply wp_ret. split; [done|]. apply objects_are_intro. split; [by apply below_new|].
    eapply api_ext; [|exact Hw]. intros r. unfold plus. cbn. rewrite (held_new _ _ _ _ Hf). unfold holds. lia.
  - intros Hh%negb_false_iff%Z.eqb_eq. apply wp_ret. split; [done|]. apply objects_are_intro. split; [by apply below_new|].
    eapply api_ext; [|exact Hi]. intros r. cbn. rewrite (held_new _ _ _ _ Hf). unfold holds. rewrite Hh, one_of_null. lia.
Qed.

(** What is moved away leaves null behind. *)
Lemma wp_moved_from ext s other o :
  owns ext s -> cx_objects s !! other = Some o ->
  wp (moved_from other) (fun this s' => this = cx_next s /\
    objects_are ext (<[other := with_handle NULL o]> (<[cx_next s := o]> (cx_objects s))) (cx_next s + 1) s') s.
Proof.
  intros Ho Ha. pose proof (next_free _ _ Ho) as Hf. unfold moved_from. apply wp_bind. eapply wp_object_at; [done|].
  assert (Hne : other <> cx_next s) by (destruct Ho as [Hb _]; specialize (Hb _ _ Ha); lia).
  unfold construct. do 2 apply wp_bind. apply wp_gets, wp_bind, wp_modify, wp_ret, wp_bind. cbn.
  assert (Ha' : <[cx_next s := o]> (cx_objects s) !! other = Some o) by (by rewrite lookup_insert_ne).
  eapply wp_set_handle; [exact Ha'|]. apply wp_ret. split; [done|]. apply objects_are_intro.
  destruct s as [w objects next]. cbn in *. eapply owns_objects; [exact Ho| |].
  - eapply below_store; [|exact Ha']. apply below_new, Ho.
  - intros r. rewrite (held_store _ _ _ _ _ Ha'), (held_new _ _ _ _ Hf), holds_null. lia.
Qed.

Lemma wp_assign_copy ext s this other o o' :
  owns ext s -> hnonneg ext -> cx_objects s !! this = Some o -> cx_objects s !! other = Some o' ->
  o_kind o = o_kind o' -> copyable (o_kind o) = true -> this <> other ->
  wp (assign_copy this other)
     (fun _ => objects_are ext (<[this := with_handle (m_handle o') o]> (cx_objects s)) (cx_next s)) s.
Proof.
  intros Ho He Ha Hb Hk Hc Hne. unfold assign_copy. rewrite (proj2 (Z.eqb_neq _ _) Hne).
  apply wp_bind. eapply wp_mono; [by apply (wp_reset ext)|]. intros [] s1 (Ho1 & Eo1 & En1).
  assert (Hb1 : cx_objects s1 !! other = Some o') by (by rewrite Eo1, lookup_insert_ne).
  assert (Ha1 : cx_objects s1 !! this = Some (with_handle NULL o)) by (rewrite Eo1; apply lookup_insert_eq).
  pose proof (owns_usable _ _ _ _ He Hb1) as Hu. pose proof (owns_nonneg ext s1 He) as Hn. destruct Ho1 as [Hbl Hi].
  apply wp_bind. eapply wp_object_at; [done|]. apply wp_bind. eapply wp_set_handle; [done|].
  assert (Es : <[this := with_handle (m_handle o') (with_handle NULL o)]> (cx_objects s1) =
    <[this := with_handle (m_handle o') o]> (cx_objects s)) by (by rewrite Eo1, fin_maps.insert_insert_eq).
  apply wp_bind. eapply wp_object_at; [apply lookup_insert_eq|]. cbn [with_handle o_kind m_handle]. rewrite Es.
  assert (Hh : forall r, held (<[this := with_handle (m_handle o') o]> (cx_objects s)) r =
    held (cx_objects s1) r + one_of (o_kind o') (m_handle o') r).
  { intros r. rewrite <- Es, (held_store _ _ _ _ _ Ha1), holds_null. unfold holds. cbn. rewrite Hk. lia. }
  assert (Hbl' : forall a ob, <[this := with_handle (m_handle o') o]> (cx_objects s) !! a = Some ob -> a < cx_next s).
  { rewrite <- Es, <- En1. by eapply below_store. }
  apply wp_when.
  - intros Hnn%negb_true_iff%Z.eqb_neq. apply wp_api. cbn. rewrite Hk.
    eapply wp_mono; [apply (api_reference _ _ _ _ Hi Hn); [by rewrite <- Hk|done|by destruct Hu]|].
    intros [] w' Hw. rewrite En1. apply objects_are_intro. split; [done|].
    eapply api_ext; [|exact Hw]. intros r. unfold plus. cbn. rewrite Hh. lia.
  - intros Hnn%negb_false_iff%Z.eqb_eq. rewrite En1. apply objects_are_intro. split; [done|].
    eapply api_ext; [|exact Hi]. intros r. cbn. rewrite Hh, Hnn, one_of_null. lia.
Qed.

Lemma wp_assign_moved ext s this other o o' :
  owns ext s -> hnonneg ext -> cx_objects s !! this = Some o -> cx_objects s !! other = Some o' -> this <> other ->
  wp (assign_moved this other)
     (fun _ => objects_are ext (<[other := with_handle NULL o']> (<[this := o']> (cx_objects s))) (cx_next s)) s.
Proof.
  intros Ho He Ha Hb Hne. unfold assign_moved. rewrite (proj2 (Z.eqb_neq _ _) Hne).
  apply wp_bind. eapply wp_mono; [by apply (wp_reset ext)|]. intros [] [w objects next] (Ho1 & Eo1 & En1).
  cbn in Eo1, En1. subst objects next.
  assert (Hb1 : <[this := with_handle NULL o]> (cx_objects s) !! other = Some o') by (by rewrite lookup_insert_ne).
  apply wp_bind. eapply wp_object_at; [done|]. apply wp_bind, wp_modify. cbn. rewrite fin_maps.insert_insert_eq.
  assert (Hb2 : <[this := o']> (cx_objects s) !! other = Some o') by (by rewrite lookup_insert_ne).
  eapply wp_set_handle; [exact Hb2|]. cbn. apply objects_are_intro. eapply owns_objects; [exact Ho1| |].
  - eapply below_store; [|exact Hb2]. eapply below_store; [|exact Ha]. apply Ho.
  - intros r. rewrite (held_store _ _ _ _ _ Hb2), (held_store _ _ _ _ _ Ha), (held_store _ _ _ _ _ Ha), !holds_null. lia.
Qed.

(** ** Methods that make an object, and calls that keep them all *)

(** Nothing became of the objects when it throws. *)
Definition thrown_or {A} ext s (Q : A -> cxx W -> Prop) (r : string + A) s' : Prop :=
  match r with
  | inl _ => objects_are ext (cx_objects s) (cx_next s) s'
  | inr a => Q a s'
  end.

Definition new_object ext k s this s' : Prop :=
  this = cx_next s /\
  exists h, objects_are ext (<[cx_next s := mkObject k h None None]> (cx_objects s)) (cx_next s + 1) s'.

Lemma wp_make ext k what (m : M W (zsa_result_t * Z)) s :
  owns ext s ->
  wp m (made api_inv (fun r => held (cx_objects s) r + ext r) k) (cx_world s) ->
  wp ('(result, h) ← api m; if ZSA_FAILED result then throws what else this ← of_handle k h; returns this)
     (thrown_or ext s (new_object ext k s)) s.
Proof.
  intros [Hb _] Hm. apply wp_bind, wp_api. eapply wp_mono; [exact Hm|]. intros [[] h] w; cbn; intros Hw.
  - apply wp_bind. eapply wp_mono; [apply (wp_of_handle ext)|].
    + split; [exact Hb|]. eapply api_ext; [|exact Hw]. intros r. unfold plus. cbn. lia.
    + intros this s' [-> Hs]. apply wp_ret. split; [done|]. by exists h.
  - apply wp_ret. by repeat split.
Qed.

Lemma wp_check_result ext what (m : M W zsa_result_t) s :
  owns ext s -> wp m (fun _ => api_inv (fun r => held (cx_objects s) r + ext r)) (cx_world s) ->
  wp (check_result what m) (thrown_or ext s (fun _ => objects_are ext (cx_objects s) (cx_next s))) s.
Proof.
  intros [Hb _] Hm. unfold check_result. apply wp_bind, wp_api. eapply wp_mono; [exact Hm|].
  intros [] w Hw; apply wp_ret; by repeat split.
Qed.

Lemma wp_keep {A} ext (m : M W A) s :
  owns ext s -> wp m (fun _ => api_inv (fun r => held (cx_objects s) r + ext r)) (cx_world s) ->
  wp (api m) (fun _ => objects_are ext (cx_objects s) (cx_next s)) s.
Proof. intros [Hb _] Hm. apply wp_api. eapply wp_mono; [exact Hm|]. intros a w Hw. by repeat split. Qed.

(** A local image is gone when an exception passes. *)
Lemma wp_with_local ext s local o (m : M (cxx W) (string + unit)) :
  hnonneg ext -> cx_objects s !! local = Some o ->
  wp m (fun _ => objects_are ext (cx_objects s) (cx_next s)) s ->
  wp (with_local local m) (fun r s' =>
    match r with
    | inl _ => objects_are ext (delete local (cx_objects s)) (cx_next s) s'
    | inr a => a = local /\ objects_are ext (cx_objects s) (cx_next s) s'
    end) s.
Proof.
  intros He Ha Hm. unfold with_local. apply wp_bind. eapply wp_mono; [exact Hm|]. intros [what|[]] s1 (Ho & Eo & En).
  - rewrite <- Eo in Ha. apply wp_bind. eapply wp_mono; [by apply (wp_destructor ext s1 local o)|].
    intros [] s2 Hs2. apply wp_ret. by rewrite <- Eo, <- En.
  - apply wp_ret. exact (conj eq_refl (conj Ho (conj Eo En))).
Qed.

(** ** Clients *)

(** What a client does with objects, which it names by their addresses. *)
Inductive client_op : Type :=
| Op_null (k : hkind) | Op_copy (a : Z) | Op_move (a : Z) | Op_destroy (a : Z)
| Op_assign (this other : Z) | Op_assign_moved (this other : Z) | Op_assign_null (this : Z)
| Op_image (format width height stride : Z)
| Op_image_from_buffer (format width height stride buffer size cb context : Z)
| Op_image_get (m : image_member) (a : Z) | Op_image_set (m : image_member) (a value : Z)
| Op_set_timestamp (a timestamp : Z)
| Op_capture | Op_capture_image (slot : capture_slot) (a : Z) | Op_set_capture_image (slot : capture_slot) (a image : Z)
| Op_temperature (a : Z) | Op_set_temperature (a : Z) (t : spec_float)
| Op_transformation (c : calibration)
| Op_depth_to_color (t depth : Z) | Op_depth_to_color_custom (t depth custom interpolation invalid : Z)
| Op_color_to_depth (t depth color : Z)
| Op_device (index : Z) | Op_get_capture (d cap timeout : Z)
| Op_start (d : Z) (config : option zsa_device_configuration_t) | Op_stop (d : Z).

(** Whatever a method returns. *)
Definition quiet {A} (m : M (cxx W) A) : M (cxx W) (string + unit) := m;; returns tt.
Definition loud {A} (m : M (cxx W) (string + A)) : M (cxx W) (string + unit) :=
  r ← m; match r with inl what => throws what | inr _ => returns tt end.

Definition run_op (op : client_op) : M (cxx W) (string + unit) :=
  match op with
  | Op_null k => quiet (of_handle k NULL)
  | Op_copy a => quiet (copy_of a)
  | Op_move a => quiet (moved_from a)
  | Op_destroy a => quiet (destructor a)
  | Op_assign this other => quiet (assign_copy this other)
  | Op_assign_moved this other => quiet (assign_moved this other)
  | Op_assign_null this => quiet (assign_null this)
  | Op_image format width height stride => loud (make_image format width height stride)
  | Op_image_from_buffer format width height stride buffer size cb context =>
      loud (make_image_from_buffer format width height stride buffer size cb context)
  | Op_image_get m a => quiet (get_image_member m a)
  | Op_image_set m a value => quiet (set_image_member m a value)
  | Op_set_timestamp a timestamp => quiet (set_timestamp a timestamp)
  | Op_capture => loud make_capture
  | Op_capture_image slot a => quiet (get_capture_image slot a)
  | Op_set_capture_image slot a image => quiet (set_capture_image slot a image)
  | Op_temperature a => quiet (get_temperature_c a)
  | Op_set_temperature a t => quiet (set_temperature_c a t)
  | Op_transformation c => quiet (transformation_of c)
  | Op_depth_to_color t depth => loud (new_depth_image_to_color_camera t depth)
  | Op_depth_to_color_custom t depth custom interpolation invalid =>
      loud (new_depth_image_to_color_camera_custom t depth custom interpolation invalid)
  | Op_color_to_depth t depth color => loud (new_color_image_to_depth_camera t depth color)
  | Op_device index => loud (device_open index)
  | Op_get_capture d cap timeout => loud (device_get_capture d cap timeout)
  | Op_start d config => loud (start_cameras d config)
  | Op_stop d => quiet (stop_cameras d)
  end.

(** The objects a call names are alive and of the classes its signature says. *)
Definition is_a (k : hkind) (a : Z) (objects : gmap Z object) : bool :=
  match objects !! a with Some o => bool_decide (o_kind o = k) | None => false end.
Definition alive (a : Z) (objects : gmap Z object) : bool := bool_decide (is_Some (objects !! a)).
Definition same_class (a b : Z) (objects : gmap Z object) : bool :=
  match objects !! a, objects !! b with Some o, Some o' => bool_decide (o_kind o = o_kind o') | _, _ => false end.
Definition can_copy (a : Z) (objects : gmap Z object) : bool :=
  match objects !! a with Some o => copyable (o_kind o) | None => false end.

(** A transformation that was made from a calibration whose images have a size
    that fits an int and the C functions. *)
Definition resolution_fits (resolution : object -> option (Z * Z)) (pixel : Z) (t : Z) (objects : gmap Z object) : bool :=
  match objects !! t with
  | Some o =>
      match resolution o with
      | Some (width, height) => bool_decide (in_type int32_t (width * pixel)) && geometry width height (width * pixel)
      | None => false
      end
  | None => false
  end.

Definition op_ok (op : client_op) (m : gmap Z object) : bool :=
  match op with
  | Op_null _ | Op_image_from_buffer _ _ _ _ _ _ _ _ | Op_capture | Op_transformation _ | Op_device _ => true
  | Op_image _ width height stride => geometry width height stride
  | Op_move a | Op_destroy a | Op_assign_null a => alive a m
  | Op_copy a => can_copy a m
  | Op_assign this other => same_class this other m && can_copy this m
  | Op_assign_moved this other => same_class this other m
  | Op_image_get _ a | Op_image_set _ a _ | Op_set_timestamp a _ => is_a HImage a m
  | Op_capture_image _ a | Op_temperature a | Op_set_temperature a _ => is_a HCapture a m
  | Op_set_capture_image _ a image => is_a HCapture a m && is_a HImage image m
  | Op_depth_to_color t depth =>
      is_a HTransformation t m && is_a HImage depth m && resolution_fits m_color_resolution 2 t m
  | Op_depth_to_color_custom t depth custom _ _ =>
      is_a HTransformation t m && is_a HImage depth m && is_a HImage custom m &&
      resolution_fits m_color_resolution 2 t m && resolution_fits m_color_resolution 1 t m
  | Op_color_to_depth t depth color =>
      is_a HTransformation t m && is_a HImage depth m && is_a HImage color m && resolution_fits m_depth_resolution 4 t m
  | Op_get_capture d cap _ => is_a HDevice d m && is_a HCapture cap m
  | Op_start d _ | Op_stop d => is_a HDevice d m
  end.

(** Between the calls no reference is loose. *)
Definition at_rest s : Prop := owns none_held s.

Lemma is_a_lookup k a objects : is_a k a objects = true -> exists o, objects !! a = Some o /\ o_kind o = k.
Proof.
  unfold is_a. destruct (objects !! a) as [o|]; [|done]. intros Hk%bool_decide_eq_true. by exists o.
Qed.

Lemma alive_lookup a objects : alive a objects = true -> exists o, objects !! a = Some o.
Proof. intros [o Ho]%bool_decide_eq_true. by exists o. Qed.

Lemma fits_lookup resolution pixel t objects :
  resolution_fits resolution pixel t objects = true ->
  exists o width height, objects !! t = Some o /\ resolution o = Some (width, height) /\
    in_type int32_t (width * pixel) /\ geometry width height (width * pixel) = true.
Proof.
  unfold resolution_fits. destruct (objects !! t) as [o|]; [|done]. destruct (resolution o) as [[w h]|] eqn:E; [|done].
  intros [Hi%bool_decide_eq_true Hg]%andb_true_iff. by exists o, w, h.
Qed.

Lemma wp_quiet {A} (m : M (cxx W) A) (P : A -> cxx W -> Prop) (Q : string + unit -> cxx W -> Prop) s :
  wp m P s -> (forall a s', P a s' -> Q (inr tt) s') -> wp (quiet m) Q s.
Proof. intros Hm HQ. apply wp_bind. eapply wp_mono; [exact Hm|]. intros a s' Ha. apply wp_ret. by eapply HQ. Qed.

Lemma wp_loud {A} (m : M (cxx W) (string + A)) ext (P : A -> cxx W -> Prop) (Q : string + unit -> cxx W -> Prop) s :
  wp m (thrown_or ext s P) s ->
  (forall what s', objects_are ext (cx_objects s) (cx_next s) s' -> Q (inl what) s') ->
  (forall a s', P a s' -> Q (inr tt) s') -> wp (loud m) Q s.
Proof.
  intros Hm Ht HQ. apply wp_bind. eapply wp_mono; [exact Hm|]. intros [what|a] s' Ha; apply wp_ret; [by apply Ht|by eapply HQ].
Qed.

(** ** The methods, one by one *)

Definition made_post ext k s : string + Z -> cxx W -> Prop := thrown_or ext s (new_object ext k s).

Lemma wp_make_image ext format width height stride s :
  owns ext s -> hnonneg ext -> geometry width height stride = true ->
  wp (make_image format width height stride) (made_post ext HImage s) s.
Proof. intros Ho He Hg. apply wp_make; [done|]. apply api_image_create; [apply Ho|by apply owns_nonneg|done]. Qed.

Lemma new_keeps ext k s this s' a o :
  owns ext s -> new_object ext k s this s' -> cx_objects s !! a = Some o -> cx_objects s' !! a = Some o.
Proof.
  intros Ho [-> (h & _ & -> & _)] Ha. rewrite lookup_insert_ne; [done|]. destruct Ho as [Hb _]. specialize (Hb _ _ Ha). lia.
Qed.

Lemma new_there ext k s this s' : new_object ext k s this s' -> exists o, cx_objects s' !! this = Some o /\ o_kind o = k.
Proof. intros [-> (h & _ & -> & _)]. eexists. split; [apply lookup_insert_eq|done]. Qed.

(** A new image is filled in, or destroyed. *)
Lemma wp_make_local ext s (mk : M (cxx W) (string + Z)) (fill : Z -> M (cxx W) (string + unit)) :
  owns ext s -> hnonneg ext -> wp mk (made_post ext HImage s) s ->
  (forall this s1, new_object ext HImage s this s1 -> owns ext s1 ->
     wp (fill this) (fun _ => objects_are ext (cx_objects s1) (cx_next s1)) s1) ->
  wp (try_bind mk (fun local => with_local local (fill local))) (fun r s' =>
    match r with
    | inl _ => owns ext s' /\ cx_objects s' = cx_objects s
    | inr this => new_object ext HImage s this s'
    end) s.
Proof.
  intros Ho He Hmk Hf. pose proof (next_free _ _ Ho) as Hfree. unfold try_bind. apply wp_bind.
  eapply wp_mono; [exact Hmk|]. intros [what|this] s1 H1.
  { apply wp_ret. by destruct H1 as (? & ? & ?). }
  destruct (new_there _ _ _ _ _ H1) as (o & Hl & _). pose proof H1 as [-> (h & Ho1 & Eo1 & En1)].
  eapply wp_mono; [eapply (wp_with_local ext s1 _ o); [exact He|exact Hl|by apply Hf]|].
  intros [what|a] s2 H2.
  - destruct H2 as (Ho2 & Eo2 & _). split; [done|]. by rewrite Eo2, Eo1, delete_insert_id.
  - destruct H2 as (-> & Ho2 & Eo2 & En2). split; [done|]. exists h. split_and!; [done|by rewrite Eo2|by rewrite En2].
Qed.

Lemma int_times_ok a b Q s : in_type int32_t (a * b) -> Q (a * b) s -> wp (int_times a b) Q s.
Proof. intros Hi HQ. unfold int_times. by rewrite bool_decide_eq_true_2. Qed.

(** What a call that names these objects may rely on. *)
Lemma owns_usable_at ext s a o k :
  hnonneg ext -> cx_objects s !! a = Some o -> o_kind o = k ->
  usable (fun r => held (cx_objects s) r + ext r) k (m_handle o).
Proof. intros He Ha <-. by apply (owns_usable ext s a). Qed.

Lemma thrown_quiet {A} ext s (P : A -> cxx W -> Prop) r s' :
  thrown_or ext s P r s' -> (forall a s'', P a s'' -> objects_are ext (cx_objects s) (cx_next s) s'') ->
  objects_are ext (cx_objects s) (cx_next s) s'.
Proof. destruct r as [what|a]; [done|]. intros Ha HP. by eapply HP. Qed.

Section transformation.
Context (ext : hledger) (s : cxx W) (t d : Z) (ot od : object).
Context (Ho : owns ext s) (He : hnonneg ext).
Context (Ht : cx_objects s !! t = Some ot) (Kt : o_kind ot = HTransformation).
Context (Hd : cx_objects s !! d = Some od) (Kd : o_kind od = HImage).

Lemma wp_depth_fill x ox :
  cx_objects s !! x = Some ox -> o_kind ox = HImage ->
  wp (depth_image_to_color_camera t d x) (fun _ => objects_are ext (cx_objects s) (cx_next s)) s.
Proof.
  intros Hx Kx. unfold depth_image_to_color_camera.
  do 3 (apply wp_bind; eapply wp_handle; [eassumption|]).
  eapply wp_mono; [apply (wp_check_result ext); [done|]|].
  - apply api_depth_image_to_color_camera; [apply Ho|by apply owns_nonneg|by eapply owns_usable_at..].
  - intros r s' Hr. by eapply thrown_quiet.
Qed.

Lemma wp_color_fill c oc x ox :
  cx_objects s !! c = Some oc -> o_kind oc = HImage -> cx_objects s !! x = Some ox -> o_kind ox = HImage ->
  wp (color_image_to_depth_camera t d c x) (fun _ => objects_are ext (cx_objects s) (cx_next s)) s.
Proof.
  intros Hc Kc Hx Kx. unfold color_image_to_depth_camera.
  do 4 (apply wp_bind; eapply wp_handle; [eassumption|]).
  eapply wp_mono; [apply (wp_check_result ext); [done|]|].
  - apply api_color_image_to_depth_camera; [apply Ho|by apply owns_nonneg|by eapply owns_usable_at..].
  - intros r s' Hr. by eapply thrown_quiet.
Qed.

Lemma wp_custom_fill c oc x ox y oy i v :
  cx_objects s !! c = Some oc -> o_kind oc = HImage -> cx_objects s !! x = Some ox -> o_kind ox = HImage ->
  cx_objects s !! y = Some oy -> o_kind oy = HImage ->
  wp (depth_image_to_color_camera_custom t d c x y i v) (fun _ => objects_are ext (cx_objects s) (cx_next s)) s.
Proof.
  intros Hc Kc Hx Kx Hy Ky. unfold depth_image_to_color_camera_custom.
  do 5 (apply wp_bind; eapply wp_handle; [eassumption|]).
  eapply wp_mono; [apply (wp_check_result ext); [done|]|].
  - apply api_depth_image_to_color_camera_custom; [apply Ho|by apply owns_nonneg|by eapply owns_usable_at..].
  - intros r s' Hr. by eapply thrown_quiet.
Qed.
End transformation.

Section conversions.
Context (ext : hledger) (s : cxx W) (t d : Z) (ot od : object).
Context (Ho : owns ext s) (He : hnonneg ext).
Context (Ht : cx_objects s !! t = Some ot) (Kt : o_kind ot = HTransformation).
Context (Hd : cx_objects s !! d = Some od) (Kd : o_kind od = HImage).

(** A conversion into a new image: the image, or everything as before. *)
Definition converted (r : string + Z) (s' : cxx W) : Prop :=
  match r with
  | inl _ => owns ext s' /\ cx_objects s' = cx_objects s
  | inr this => new_object ext HImage s this s'
  end.

Lemma wp_depth_to_color :
  resolution_fits m_color_resolution 2 t (cx_objects s) = true ->
  wp (new_depth_image_to_color_camera t d) converted s.
Proof.
  intros (o & width & height & Ht' & Hr & Hi & Hg)%fits_lookup. simplify_eq. unfold new_depth_image_to_color_camera.
  apply wp_bind. eapply wp_object_at; [done|]. apply wp_bind. eapply wp_need; [done|]. apply wp_bind, int_times_ok; [done|].
  apply (wp_make_local ext); [done|done|by apply wp_make_image|].
  intros this s1 H1 Ho1. destruct (new_there _ _ _ _ _ H1) as (ox & Hx & Kx).
  pose proof (fun a o => new_keeps _ _ _ _ _ a o Ho H1) as Hkeep.
  eapply wp_depth_fill; [done|done|by apply Hkeep|done|by apply Hkeep|done|exact Hx|done].
Qed.

Lemma wp_color_to_depth c oc :
  cx_objects s !! c = Some oc -> o_kind oc = HImage ->
  resolution_fits m_depth_resolution 4 t (cx_objects s) = true ->
  wp (new_color_image_to_depth_camera t d c) converted s.
Proof.
  intros Hc Kc (o & width & height & Ht' & Hr & Hi & Hg)%fits_lookup. simplify_eq. unfold new_color_image_to_depth_camera.
  apply wp_bind. eapply wp_object_at; [done|]. apply wp_bind. eapply wp_need; [done|]. apply wp_bind, int_times_ok; [done|].
  apply (wp_make_local ext); [done|done|by apply wp_make_image|].
  intros this s1 H1 Ho1. destruct (new_there _ _ _ _ _ H1) as (ox & Hx & Kx).
  pose proof (fun a o => new_keeps _ _ _ _ _ a o Ho H1) as Hkeep.
  eapply wp_color_fill; [done|done|by apply Hkeep|done|by apply Hkeep|done|by apply Hkeep|done|exact Hx|done].
Qed.
End conversions.

Lemma wp_image_query ext s c oc m Q :
  owns ext s -> hnonneg ext -> cx_objects s !! c = Some oc -> o_kind oc = HImage ->
  (forall a s', objects_are ext (cx_objects s) (cx_next s) s' -> Q a s') -> wp (get_image_member m c) Q s.
Proof.
  intros Ho He Hc Kc HQ. unfold get_image_member. apply wp_bind. eapply wp_handle; [done|].
  eapply wp_mono; [eapply (wp_keep ext); [done|]|exact HQ].
  apply api_image_get; [apply Ho|by apply owns_nonneg|by eapply owns_usable_at].
Qed.

(** The second image of a conversion with a custom image. *)
Lemma wp_new_custom_image ext s t c ot oc :
  owns ext s -> hnonneg ext -> cx_objects s !! t = Some ot -> cx_objects s !! c = Some oc -> o_kind oc = HImage ->
  resolution_fits m_color_resolution 1 t (cx_objects s) = true ->
  resolution_fits m_color_resolution 2 t (cx_objects s) = true ->
  wp (new_custom_image ot c) (made_post ext HImage s) s.
Proof.
  intros Ho He Ht Hc Kc (o1 & width & height & Ht1 & Hr1 & Hi1 & Hg1)%fits_lookup
    (o2 & width2 & height2 & Ht2 & Hr2 & Hi2 & Hg2)%fits_lookup. simplify_eq. unfold new_custom_image.
  apply wp_bind. eapply wp_image_query; [done..|]. intros format s1 (Ho1 & Eo1 & En1).
  destruct (_ || _) eqn:Hf.
  - apply wp_bind. eapply wp_image_query; [done|done|by rewrite Eo1|done|].
    intros format' s2 (Ho2 & Eo2 & En2). rewrite Eo1 in Eo2. rewrite En1 in En2.
    apply wp_bind. eapply wp_need; [done|].
    apply wp_bind, int_times_ok; [by destruct (format =? _)|].
    eapply wp_mono; [apply (wp_make_image ext); [done|done|by destruct (format =? _)]|].
    unfold made_post, thrown_or, new_object. by rewrite Eo2, En2.
  - apply wp_ret. exact (conj Ho1 (conj Eo1 En1)).
Qed.

(** The pair of new images takes over what the locals held. *)
Lemma wp_move_pair ext s first second o1 o2 :
  owns ext s -> hnonneg ext -> cx_objects s !! first = Some o1 -> cx_objects s !! second = Some o2 -> first <> second ->
  wp (a ← moved_from first; b ← moved_from second; destructor second;; destructor first;; returns (a, b))
     (fun r s' => owns ext s' /\ (exists p, r = inr p) /\
        forall a o, a <> first -> a <> second -> cx_objects s !! a = Some o -> cx_objects s' !! a = Some o) s.
Proof.
  intros Ho He H1 H2 Hne. pose proof Ho as [Hb _]. pose proof (Hb _ _ H1). pose proof (Hb _ _ H2).
  apply wp_bind. eapply wp_mono; [by apply (wp_moved_from ext)|]. intros a sa (-> & Ho1 & E1 & N1).
  assert (H2a : cx_objects sa !! second = Some o2) by (rewrite E1, !lookup_insert_ne by lia; done).
  apply wp_bind. eapply wp_mono; [by apply (wp_moved_from ext)|]. intros b sb (-> & Ho2 & E2 & N2).
  apply wp_bind. eapply wp_mono.
  { eapply (wp_destructor ext sb second); [done|done|]. rewrite E2. apply lookup_insert_eq. }
  intros [] sc (Ho3 & E3 & N3). apply wp_bind. eapply wp_mono.
  { eapply (wp_destructor ext sc first (with_handle NULL o1)); [done|done|].
    rewrite E3, E2, lookup_delete_ne, lookup_insert_ne, lookup_insert_ne, E1 by lia. apply lookup_insert_eq. }
  intros [] sd (Ho4 & E4 & _). apply wp_ret. split_and!; [done|by eexists|].
  intros a o Ha1 Ha2 Ha. specialize (Hb _ _ Ha).
  by rewrite E4, E3, !lookup_delete_ne, E2, !lookup_insert_ne, E1, !lookup_insert_ne by lia.
Qed.

Lemma wp_depth_to_color_custom ext s t d c ot od oc i v :
  owns ext s -> hnonneg ext ->
  cx_objects s !! t = Some ot -> o_kind ot = HTransformation -> cx_objects s !! d = Some od -> o_kind od = HImage ->
  cx_objects s !! c = Some oc -> o_kind oc = HImage ->
  resolution_fits m_color_resolution 2 t (cx_objects s) = true ->
  resolution_fits m_color_resolution 1 t (cx_objects s) = true ->
  wp (new_depth_image_to_color_camera_custom t d c i v) (fun r s' =>
    owns ext s' /\
    match r with
    | inl _ => cx_objects s' = cx_objects s
    | inr _ => forall a o, cx_objects s !! a = Some o -> cx_objects s' !! a = Some o
    end) s.
Proof.
  intros Ho He Ht Kt Hd Kd Hc Kc Hf2 Hf1. pose proof (next_free _ _ Ho) as Hfree.
  pose proof (fits_lookup _ _ _ _ Hf2) as (o & width & height & Ht' & Hr & Hi & Hg). simplify_eq.
  unfold new_depth_image_to_color_camera_custom.
  apply wp_bind. eapply wp_object_at; [done|]. apply wp_bind. eapply wp_need; [done|]. apply wp_bind, int_times_ok; [done|].
  unfold try_bind at 1. apply wp_bind. eapply wp_mono; [by apply (wp_make_image ext)|]. intros [what|depth] s1 H1.
  { apply wp_ret. by destruct H1 as (? & ? & ?). }
  destruct (new_there _ _ _ _ _ H1) as (ox & Hx & Kx). pose proof H1 as [-> (h & Ho1 & Eo1 & En1)].
  pose proof (fun a o => new_keeps _ _ _ _ _ a o Ho H1) as Hkeep.
  assert (Hfit : forall r p, resolution_fits r p t (cx_objects s1) = resolution_fits r p t (cx_objects s)).
  { intros r p. unfold resolution_fits. by rewrite (Hkeep _ _ Ht), Ht. }
  apply wp_bind. eapply wp_mono; [apply (wp_make_local ext s1); [done|done| |]|].
  - eapply wp_new_custom_image; [done|done|by apply Hkeep|by apply Hkeep|done|by rewrite Hfit..].
  - intros this s2 H2 Ho2. destruct (new_there _ _ _ _ _ H2) as (oy & Hy & Ky).
    pose proof (fun a o => new_keeps _ _ _ _ _ a o Ho1 H2) as Hkeep2.
    eapply wp_custom_fill; [done|done|by apply Hkeep2, Hkeep|done|by apply Hkeep2, Hkeep|done|by apply Hkeep2, Hkeep|done
      |by apply Hkeep2|done|exact Hy|done].
  - intros [what|custom] s2 H2.
    + destruct H2 as [Ho2 Eo2]. apply wp_bind. rewrite <- Eo2 in Hx.
      eapply wp_mono; [by eapply (wp_destructor ext)|]. intros [] s3 (Ho3 & Eo3 & _). apply wp_ret. split; [done|].
      by rewrite Eo3, Eo2, Eo1, delete_insert_id.
    + destruct (new_there _ _ _ _ _ H2) as (oy & Hy & _). pose proof (new_keeps _ _ _ _ _ _ _ Ho1 H2 Hx) as Hx2.
      pose proof H2 as Hn2. destruct H2 as [-> (h2 & Ho2 & _ & _)].
      eapply wp_mono; [eapply (wp_move_pair ext s2); [done|done|exact Hx2|exact Hy|lia]|].
      intros r s' (Ho' & [p ->] & Hs'). split; [done|]. intros a ob Ha. pose proof (proj1 Ho _ _ Ha). pose proof (proj1 Ho1 _ _ (Hkeep _ _ Ha)).
      apply Hs'; [lia|lia|by apply (new_keeps _ _ _ _ _ _ _ Ho1 Hn2), Hkeep].
Qed.

(** The temporary's capture goes to [cap]. *)
Lemma wp_device_get_capture ext s d cap od oc timeout :
  owns ext s -> hnonneg ext -> cx_objects s !! d = Some od -> o_kind od = HDevice ->
  cx_objects s !! cap = Some oc -> o_kind oc = HCapture ->
  wp (device_get_capture d cap timeout) (fun r s' =>
    owns ext s' /\ match r with
      | inr true => exists h, cx_objects s' = <[cap := mkObject HCapture h None None]> (cx_objects s)
      | _ => cx_objects s' = cx_objects s
      end) s.
Proof.
  intros Ho He Hd Kd Hc Kc. pose proof Ho as [Hb Hi]. pose proof (next_free _ _ Ho) as Hfree. pose proof (Hb _ _ Hc).
  unfold device_get_capture. apply wp_bind. eapply wp_handle; [done|]. apply wp_bind, wp_api.
  eapply wp_mono; [apply (api_device_get_capture _ _ _ _ Hi); [by apply owns_nonneg|by eapply owns_usable_at]|].
  intros [[] h] w Hw; [|by apply wp_ret..].
  apply wp_bind. eapply wp_mono; [apply (wp_of_handle ext)|].
  { split; [exact Hb|]. eapply api_ext; [|exact Hw]. intros r. unfold plus. cbn. lia. }
  cbn [cx_objects cx_next]. intros tmp s1 (-> & Ho1 & E1 & N1).
  apply wp_bind. eapply wp_mono.
  { eapply (wp_assign_moved ext s1 cap (cx_next s)); [done|done| | |lia].
    - rewrite E1, lookup_insert_ne by lia. exact Hc.
    - rewrite E1. apply lookup_insert_eq. }
  intros [] s2 (Ho2 & E2 & N2). apply wp_bind. eapply wp_mono.
  { eapply (wp_destructor ext s2); [done|done|]. rewrite E2. apply lookup_insert_eq. }
  intros [] s3 (Ho3 & E3 & _). apply wp_ret. split; [done|]. exists h.
  rewrite E3, E2, E1, delete_insert_eq, (insert_insert_ne _ cap (cx_next s)), delete_insert_eq by lia.
  apply delete_id. by rewrite lookup_insert_ne by lia.
Qed.

Lemma wp_transformation_of ext s c :
  owns ext s -> hnonneg ext -> wp (transformation_of c) (fun _ s' =>
    exists o, objects_are ext (<[cx_next s := o]> (cx_objects s)) (cx_next s + 1) s') s.
Proof.
  intros [Hb Hi] He. unfold transformation_of. apply wp_bind, wp_api.
  eapply wp_mono; [apply (api_transformation_create _ c _ Hi); by apply (owns_nonneg ext)|].
  intros h w Hw. eapply wp_mono; [apply (wp_construct ext)|by intros this s' [_ Hs']; eexists].
  split; [exact Hb|]. eapply api_ext; [|exact Hw]. intros r. unfold plus, holds. cbn. lia.
Qed.

Lemma wp_get_capture_image ext s slot a o :
  owns ext s -> hnonneg ext -> cx_objects s !! a = Some o -> o_kind o = HCapture ->
  wp (get_capture_image slot a) (new_object ext HImage s) s.
Proof.
  intros [Hb Hi] He Ha Ka. unfold get_capture_image. apply wp_bind. eapply wp_handle; [done|]. apply wp_bind, wp_api.
  eapply wp_mono; [apply (api_capture_get_image _ slot _ _ Hi); [by apply (owns_nonneg ext)|by eapply owns_usable_at]|].
  intros i w Hw. eapply wp_mono; [apply (wp_of_handle ext)|].
  - split; [exact Hb|]. eapply api_ext; [|exact Hw]. intros r. unfold plus. cbn. lia.
  - intros this s' [-> Hs]. split; [done|]. by exists i.
Qed.

(** ** One operation *)

(** The objects an operation may change. *)
Definition touched (op : client_op) : list Z :=
  match op with
  | Op_move a | Op_destroy a | Op_assign_null a => [a]
  | Op_assign this _ => [this]
  | Op_assign_moved this other => [this; other]
  | Op_get_capture _ cap _ => [cap]
  | _ => []
  end.

Definition step_post (op : client_op) s (r : string + unit) s' : Prop :=
  at_rest s' /\
  match r with
  | inl _ => cx_objects s' = cx_objects s
  | inr _ => forall a o, a ∉ touched op -> cx_objects s !! a = Some o -> cx_objects s' !! a = Some o
  end.

Lemma step_same op s r n s' : objects_are none_held (cx_objects s) n s' -> step_post op s r s'.
Proof. intros (Ho & E & _). split; [done|]. destruct r; [done|]. by rewrite E. Qed.

Lemma step_new op s o n s' :
  at_rest s -> objects_are none_held (<[cx_next s := o]> (cx_objects s)) n s' -> step_post op s (inr tt) s'.
Proof.
  intros [Hb _] (Ho & E & _). split; [done|]. intros a ob _ Ha. rewrite E, lookup_insert_ne; [done|].
  specialize (Hb _ _ Ha). lia.
Qed.

Lemma step_made op k s this s' : at_rest s -> new_object none_held k s this s' -> step_post op s (inr tt) s'.
Proof. intros Hs [_ (h & Hn)]. by eapply step_new. Qed.

Lemma step_at op s objects n s' :
  objects_are none_held objects n s' -> (forall a, a ∉ touched op -> objects !! a = cx_objects s !! a) -> step_post op s (inr tt) s'.
Proof. intros (Ho & E & _) Ha. split; [done|]. intros a o Hn Hl. by rewrite E, Ha. Qed.

Lemma none_nonneg : hnonneg none_held.
Proof. by intros r. Qed.
#[local] Hint Resolve none_nonneg owns_nonneg : core.

(** Calls that leave the objects alone. *)
Lemma step_quiet {A} op s (m : M (cxx W) A) :
  wp m (fun _ => objects_are none_held (cx_objects s) (cx_next s)) s -> wp (quiet m) (step_post op s) s.
Proof. intros Hm. eapply wp_quiet; [exact Hm|]. intros a s'. apply step_same. Qed.

Lemma step_loud_made op k s (m : M (cxx W) (string + Z)) :
  at_rest s -> wp m (made_post none_held k s) s -> wp (loud m) (step_post op s) s.
Proof.
  intros Hs Hm. eapply wp_loud; [exact Hm| |].
  - intros what s'. apply step_same.
  - intros this s'. by apply step_made.
Qed.

Lemma step_loud_converted op s (m : M (cxx W) (string + Z)) :
  at_rest s -> wp m (converted none_held s) s -> wp (loud m) (step_post op s) s.
Proof.
  intros Hs Hm. apply wp_bind. eapply wp_mono; [exact Hm|]. intros [what|this] s' Hr; apply wp_ret.
  - by destruct Hr.
  - by eapply step_made.
Qed.

(** A method that passes one handle on. *)
Lemma step_with_handle {A} op s k a (f : Z -> M W A) :
  at_rest s -> is_a k a (cx_objects s) = true ->
  (forall h, usable (fun r => held (cx_objects s) r + none_held r) k h ->
     wp (f h) (fun _ => api_inv (fun r => held (cx_objects s) r + none_held r)) (cx_world s)) ->
  wp (quiet (h ← handle a; api (f h))) (step_post op s) s.
Proof.
  intros Hs (o & Ha & Ka)%is_a_lookup Hf. apply step_quiet. apply wp_bind. eapply wp_handle; [done|].
  apply wp_keep; [done|]. apply Hf. by eapply owns_usable_at.
Qed.

(** Constructors, assignments and destructors. *)
Lemma step_objects op s :
  at_rest s -> op_ok op (cx_objects s) = true ->
  match op with
  | Op_null _ | Op_copy _ | Op_move _ | Op_destroy _ | Op_assign _ _ | Op_assign_moved _ _ | Op_assign_null _ => True
  | _ => False
  end -> wp (run_op op) (step_post op s) s.
Proof.
  intros Hs Hok Hop. destruct op; try done; cbn [run_op op_ok] in *.
  - eapply wp_quiet; [apply (wp_of_handle none_held)|intros a s' [_ Hn]; by eapply step_new].
    eapply owns_same; [|exact Hs]. intros r. unfold plus. rewrite one_of_null. lia.
  - unfold can_copy in Hok. destruct (cx_objects s !! a) as [o|] eqn:Ha; [|done].
    eapply wp_quiet; [by apply (wp_copy_of none_held)|]. intros this s' [_ Hn]. by eapply step_new.
  - apply alive_lookup in Hok as [o Ha]. pose proof (next_free _ _ Hs) as Hf.
    eapply wp_quiet; [by apply (wp_moved_from none_held)|]. intros this s' [_ (Ho & E & _)].
    split; [done|]. intros b ob Hb Hl. rewrite E, !lookup_insert_ne; [done| |set_solver]. intros <-. congruence.
  - apply alive_lookup in Hok as [o Ha]. eapply wp_quiet; [by apply (wp_destructor none_held s a o)|].
    intros [] s' Hn. eapply step_at; [exact Hn|]. intros b Hb. apply lookup_delete_ne. set_solver.
  - apply andb_true_iff in Hok as [Hc Hk]. unfold same_class, can_copy in *.
    destruct (cx_objects s !! this) as [o|] eqn:Ha; [|done]. destruct (cx_objects s !! other) as [o'|] eqn:Hb; [|done].
    apply bool_decide_eq_true in Hc. destruct (decide (this = other)) as [<-|Hne].
    + apply step_quiet. unfold assign_copy. rewrite Z.eqb_refl. by apply wp_ret.
    + eapply wp_quiet; [by apply (wp_assign_copy none_held s this other o o')|].
      intros [] s' Hn. eapply step_at; [exact Hn|]. intros b Hx. apply lookup_insert_ne. set_solver.
  - unfold same_class in Hok.
    destruct (cx_objects s !! this) as [o|] eqn:Ha; [|done]. destruct (cx_objects s !! other) as [o'|] eqn:Hb; [|done].
    destruct (decide (this = other)) as [<-|Hne].
    + apply step_quiet. unfold assign_moved. rewrite Z.eqb_refl. by apply wp_ret.
    + eapply wp_quiet; [by apply (wp_assign_moved none_held s this other o o')|].
      intros [] s' Hn. eapply step_at; [exact Hn|]. intros b Hx. rewrite !lookup_insert_ne; set_solver.
  - apply alive_lookup in Hok as [o Ha]. eapply wp_quiet; [by apply (wp_reset none_held s this o)|].
    intros [] s' Hn. eapply step_at; [exact Hn|]. intros b Hb. apply lookup_insert_ne. set_solver.
Qed.

#[local] Ltac the_objects :=
  repeat match goal with H : is_a _ _ _ = true |- _ => apply is_a_lookup in H; destruct H as (? & ? & ?) end.

(** The methods of the classes. *)
Lemma step_methods op s :
  at_rest s -> op_ok op (cx_objects s) = true ->
  match op with
  | Op_null _ | Op_copy _ | Op_move _ | Op_destroy _ | Op_assign _ _ | Op_assign_moved _ _ | Op_assign_null _ => False
  | _ => True
  end -> wp (run_op op) (step_post op s) s.
Proof.
  intros Hs Hok Hop. pose proof Hs as [Hb Hi]. pose proof (owns_nonneg none_held s none_nonneg) as Hn.
  destruct op; try done; cbn [run_op op_ok] in *;
    repeat match goal with H : _ && _ = true |- _ => apply andb_true_iff in H as [? ?] end.
  - by apply (step_loud_made _ HImage), wp_make_image.
  - by apply (step_loud_made _ HImage), wp_make, api_image_create_from_buffer.
  - eapply step_with_handle; [done..|]. intros h Hu. by apply api_image_get.
  - eapply step_with_handle; [done..|]. intros h Hu. by apply api_image_set.
  - eapply step_with_handle; [done..|]. intros h Hu. by apply api_image_set.
  - by apply (step_loud_made _ HCapture), wp_make, api_capture_create.
  - apply is_a_lookup in Hok as (o & Ha & Ka). eapply wp_quiet; [by apply (wp_get_capture_image none_held _ slot a o)|].
    intros this s'. by apply step_made.
  - the_objects. apply step_quiet. unfold set_capture_image. do 2 (apply wp_bind; eapply wp_handle; [done|]).
    apply wp_keep, api_capture_set_image; [done|done|done|by eapply owns_usable_at..].
  - eapply step_with_handle; [done..|]. intros h Hu. by apply api_capture_get_temperature_c.
  - eapply step_with_handle; [done..|]. intros h Hu. by apply api_capture_set_temperature_c.
  - eapply wp_quiet; [by apply (wp_transformation_of none_held)|]. intros this s' [o Ho]. by eapply step_new.
  - the_objects. apply step_loud_converted; [done|]. by eapply wp_depth_to_color.
  - the_objects. apply wp_bind. eapply wp_mono; [by eapply (wp_depth_to_color_custom none_held)|].
    intros [what|p] s' [Ho' Hs']; apply wp_ret; (split; [done|]); [done|]. intros a o _. apply Hs'.
  - the_objects. apply step_loud_converted; [done|]. by eapply wp_color_to_depth.
  - by apply (step_loud_made _ HDevice), wp_make, api_device_open.
  - the_objects. apply wp_bind. eapply wp_mono; [by eapply (wp_device_get_capture none_held)|].
    intros [what|[]] s' [Ho' Hs']; apply wp_ret; (split; [done|]); [done| |].
    + destruct Hs' as [h ->]. intros a o Hne Ha. rewrite lookup_insert_ne; [done|set_solver].
    + by intros a o _ ; rewrite Hs'.
  - the_objects. unfold start_cameras. apply wp_bind, wp_bind. eapply wp_handle; [done|].
    eapply wp_mono; [apply (wp_check_result none_held); [done|]|].
    + apply api_device_start_cameras; [done|done|by eapply owns_usable_at].
    + intros [what|[]] s' Hr; apply wp_ret; by eapply step_same.
  - eapply step_with_handle; [done..|]. intros h Hu. by apply api_device_stop_cameras.
Qed.

Lemma step_all op s : at_rest s -> op_ok op (cx_objects s) = true -> wp (run_op op) (step_post op s) s.
Proof. intros Hs Hok. destruct op; (by apply step_objects) || (by apply step_methods). Qed.

(** ** Programs *)

(** A client that calls what it may, and catches what is thrown. *)
Fixpoint run_client (ops : list client_op) : M (cxx W) unit :=
  match ops with
  | [] => mret tt
  | op :: ops =>
      objects ← gets cx_objects;
      (if op_ok op objects then _ ← run_op op; mret tt else mret tt);;
      run_client ops
  end.

(** The end of every scope. *)
Definition destroy_all : M (cxx W) unit :=
  objects ← gets cx_objects; for_each (elements (dom objects)) destructor.

Lemma wp_run_client ops s : at_rest s -> wp (run_client ops) (fun _ s' => at_rest s') s.
Proof.
  revert s. induction ops as [|op ops IH]; intros s Hs; [by apply wp_ret|]. cbn. apply wp_bind, wp_gets, wp_bind.
  destruct (op_ok op (cx_objects s)) eqn:Hok; [|by apply wp_ret, IH].
  apply wp_bind. eapply wp_mono; [by apply step_all|]. intros r s' [Hs' _]. by apply wp_ret, IH.
Qed.

Lemma wp_destroy_each (l : list Z) s :
  NoDup l -> at_rest s -> (forall a, a ∈ l <-> is_Some (cx_objects s !! a)) ->
  wp (for_each l destructor) (fun _ s' => at_rest s' /\ cx_objects s' = ∅) s.
Proof.
  revert s. induction l as [|a l IH]; intros s Hnd Hs Hl; cbn.
  - apply wp_ret. split; [done|]. apply map_empty. intros a. destruct (cx_objects s !! a) as [o|] eqn:E; [|done].
    assert (Hin : a ∈ []) by (by apply Hl). by apply not_elem_of_nil in Hin.
  - apply NoDup_cons in Hnd as [Hni Hnd]. destruct (proj1 (Hl a)) as [o Ha]; [set_solver|].
    apply wp_bind. eapply wp_mono; [by apply (wp_destructor none_held s a o)|]. intros [] s' (Ho & E & _).
    apply IH; [done|done|]. intros b. rewrite E, lookup_delete_is_Some, <- Hl. set_solver.
Qed.
End own.

(** * Casts *)

Lemma static_cast_id t x : 0 < bits t -> in_type t x -> static_cast t x = x.
Proof.
  intros Hb Hx. unfold static_cast, in_type, numeric_min, numeric_max in *.
  assert (2 * 2 ^ (bits t - 1) = 2 ^ bits t) by (rewrite <- Z.pow_succ_r by lia; f_equal; lia).
  destruct (is_signed t); rewrite Z.mod_small by lia; lia.
Qed.

(** Both bounds of a clamp, evaluated. *)
#[local] Ltac by_bounds :=
  lazymatch goal with
  | |- static_cast ?t (Z.max (Z.min ?x ?mx) ?mn) = _ =>
      let mx' := eval vm_compute in mx in let mn' := eval vm_compute in mn in
      change mx with mx'; change mn with mn'
  end;
  rewrite static_cast_id; [cbn in *; lia|cbn; lia|unfold in_type; cbn in *; lia].

(** C40: clamp_cast is the nearest value of the output type, over the integers,
    for every two integer types, but for one combination: from a signed type to
    a wider signed one it turns every negative value into 0.  The header itself
    casts from 64 signed bits only, so its time-outs and timestamps are right. *)
Theorem clamp_cast_exact (output input : int_type) (x : Z)
  (Ho : output ∈ int_types) (Hi : input ∈ int_types) (Hx : in_type input x) :
  clamp_cast output input x =
    if is_signed output && is_signed input && (bits input <? bits output) then Z.max 0 x
    else Z.max (numeric_min output) (Z.min (numeric_max output) x).
Proof.
  cbn in Ho, Hi. unfold in_type in Hx.
  repeat (apply elem_of_cons in Ho as [->|Ho]; [|]); try by apply elem_of_nil in Ho.
  all: repeat (apply elem_of_cons in Hi as [->|Hi]; [|]); try by apply elem_of_nil in Hi.
  all: unfold clamp_cast; cbv zeta; by_bounds.
Qed.

Lemma clamp_cast_exact_witness :
  clamp_cast int32_t int64_t (2 ^ 40) = 2147483647 /\ clamp_cast uint64_t int64_t (-5) = 0 /\
  clamp_cast int64_t int32_t (-5) = 0.
Proof.
  assert (H32 : int32_t ∈ int_types) by (cbn; set_solver). assert (H64 : int64_t ∈ int_types) by (cbn; set_solver).
  assert (Hu : uint64_t ∈ int_types) by (cbn; set_solver).
  split_and!.
  - rewrite (clamp_cast_exact int32_t int64_t (2 ^ 40) H32 H64); [reflexivity|unfold in_type; cbn; lia].
  - rewrite (clamp_cast_exact uint64_t int64_t (-5) Hu H64); [reflexivity|unfold in_type; cbn; lia].
  - rewrite (clamp_cast_exact int64_t int32_t (-5) H64 H32); [reflexivity|unfold in_type; cbn; lia].
Defined.

(** A timestamp that is set is the one that is read, if it is not negative. *)
Lemma timestamp_round_trip (t : Z) :
  in_type int64_t t -> static_cast int64_t (clamp_cast uint64_t int64_t t) = Z.max 0 t.
Proof.
  intros Ht. unfold in_type in Ht. cbn in Ht. unfold clamp_cast. cbv zeta.
  change (static_cast int64_t (numeric_max uint64_t)) with (-1). cbn [Z.ltb Z.compare is_signed int64_t].
  change (static_cast int64_t (numeric_min uint64_t)) with 0. change (numeric_max int64_t) with (2 ^ 63 - 1).
  rewrite (static_cast_id uint64_t), static_cast_id; unfold in_type; cbn; lia.
Qed.

(** * Strings of a size that has to be asked for *)

Section buffers.
Context {W : Type} `{ZsaApi W}.

(** The C function tells the size of [serial] with its terminator, and then
    writes it. *)
Definition serves (device : Z) (serial : list Z) : Prop :=
  let size := Z.of_nat (length serial) + 1 in
  forall w, (exists w', c_device_get_bytes false device [] 0 w = Done (ZSA_BUFFER_RESULT_TOO_SMALL, [], size) w') /\
    exists w', c_device_get_bytes false device (resize size []) size w = Done (ZSA_BUFFER_RESULT_SUCCEEDED, serial ++ [0], size) w'.

(** The serial number is what the device has, without the terminator; an empty
    one makes it throw, since a size of 1 is not asked for. *)
Theorem get_serialnum_spec (this : Z) (o : object) (serial : list Z) (s : cxx W) :
  cx_objects s !! this = Some o -> serves (m_handle o) serial ->
  wp (get_serialnum this) (fun r s' => cx_objects s' = cx_objects s /\
    r = if bool_decide (serial = []) then inl "Failed to read device serial number!"%string else inr serial) s.
Proof.
  intros Ho Hs. unfold get_serialnum, handle. do 2 apply wp_bind. unfold object_at. apply wp_bind, wp_gets.
  eapply wp_need; [done|]. apply wp_ret, wp_bind. destruct (proj1 (Hs (cx_world s))) as [w1 E1].
  unfold wp at 1, api. rewrite E1. apply wp_bind. cbn [bool_decide]. rewrite bool_decide_eq_true_2 by done. cbn [andb].
  destruct serial as [|c cs].
  { cbn. apply wp_ret. cbn. by apply wp_ret. }
  rewrite (proj2 (Z.gtb_lt _ 1)) by (cbn [length]; lia). set (serial := c :: cs) in *.
  apply wp_bind. destruct (proj2 (Hs w1)) as [w2 E2]. unfold wp at 1, api. cbn [cx_world]. rewrite E2.
  unfold succeeded. rewrite bool_decide_eq_true_2 by done. apply wp_bind.
  assert (Ec : char_at (serial ++ [0]) (Z.of_nat (length serial) + 1 - 1) = Some 0).
  { unfold char_at. rewrite Z.add_simpl_r, (proj2 (Z.ltb_ge _ 0)) by lia. rewrite length_app. cbn [length].
    rewrite (proj2 (Z.eqb_neq _ _)) by lia. rewrite Nat2Z.id, lookup_app_r, Nat.sub_diag by lia. done. }
  eapply wp_need; [exact Ec|]. apply wp_ret. cbn [Z.eqb]. rewrite bool_decide_eq_true_2 by done. apply wp_ret.
  split; [done|]. rewrite bool_decide_eq_false_2 by done. f_equal.
  unfold resize. rewrite Z.add_simpl_r, Nat2Z.id, take_app_length, length_app. cbn [length].
  replace (length serial - (length serial + 1))%nat with O by lia. by rewrite app_nil_r.
Qed.

(** Reading the raw calibration takes the address of the first element of an
    empty vector: it has no defined execution, whatever the C side answers. *)
Theorem get_raw_calibration_undefined (this : Z) (o : object) (s : cxx W) :
  cx_objects s !! this = Some o -> get_raw_calibration this s = Fault OutOfBounds.
Proof. intros Ho. unfold get_raw_calibration, handle, object_at, mbind, M_bind, gets. by rewrite Ho. Qed.
End buffers.
