(* ===== verification/WrapperSdk.v ===== *)
(** The SDK's own functions behind the classes of zsa.hpp: images and captures of
    image.c and allocator.c, devices of zsa.c.  The book that [ZsaApiOk] asks for
    is the invariant of Refs.v, with the ledger of what the C++ objects hold. *)

From stdpp Require Import strings.
From S2P Require Export Device WrapperOwn.

Section sdk.
Context `{Platform} `{Usb} `{StreamClient} `{CameraReader} `{!UsbOk}.
Implicit Types (w : world) (l : hledger) (ext : ledger).

Definition uninitialised_serial : list Z := replicate 25 0.

(** A member without a setter is not set. *)
Definition sdk_image_get (m : image_member) : Z -> Mw Z :=
  match m with
  | I_buffer => image_get_buffer
  | I_size => image_get_size
  | I_format => image_get_format
  | I_width_pixels => image_get_width_pixels
  | I_height_pixels => image_get_height_pixels
  | I_stride_bytes => image_get_stride_bytes
  | I_device_timestamp_usec => image_get_device_timestamp_usec
  | I_system_timestamp_nsec => image_get_system_timestamp_nsec
  | I_exposure_usec => image_get_exposure_usec
  | I_white_balance => image_get_white_balance
  | I_iso_speed => image_get_iso_speed
  end.

Definition sdk_image_set (m : image_member) (h v : Z) : Mw unit :=
  match m with
  | I_device_timestamp_usec => image_set_device_timestamp_usec h v
  | I_system_timestamp_nsec => image_set_system_timestamp_nsec h v
  | I_exposure_usec => image_set_exposure_usec h v
  | I_white_balance => image_set_white_balance h v
  | I_iso_speed => image_set_iso_speed h v
  | _ => mret tt
  end.

(** An output handle, which is null before the call. *)
Definition with_out (m : Mw (zsa_result_t * option Z)) : Mw (zsa_result_t * Z) :=
  '(result, out) ← m; mret (result, default NULL out).

(** What the SDK has no function for answers failure. *)
#[export] Instance sdk_api : ZsaApi world := {
  c_image_reference := image_inc_ref;
  c_image_release := image_dec_ref;
  c_image_create format width height stride :=
    with_out (Image.image_create format width height stride ALLOCATION_SOURCE_USER true);
  c_image_create_from_buffer format width height stride buffer size cb context :=
    with_out (image_create_from_buffer format width height stride buffer size
      (if cb =? NULL then image_cb_null else image_cb_user cb) context true);
  c_image_get := sdk_image_get;
  c_image_set := sdk_image_set;
  c_capture_reference := capture_inc_ref;
  c_capture_release := capture_dec_ref;
  c_capture_create := with_out (capture_create true);
  c_capture_get_image slot :=
    match slot with
    | S_color => capture_get_color_image | S_depth => capture_get_depth_image | S_ir => capture_get_ir_image
    end;
  c_capture_set_image slot :=
    match slot with
    | S_color => capture_set_color_image | S_depth => capture_set_depth_image | S_ir => capture_set_ir_image
    end;
  c_capture_set_temperature_c := capture_set_temperature_c;
  c_capture_get_temperature_c := capture_get_temperature_c;
  c_transformation_create _ := mret NULL;
  c_transformation_destroy _ := mret tt;
  c_depth_image_to_color_camera _ _ _ := mret ZSA_RESULT_FAILED;
  c_depth_image_to_color_camera_custom _ _ _ _ _ _ _ := mret ZSA_RESULT_FAILED;
  c_color_image_to_depth_camera _ _ _ _ := mret ZSA_RESULT_FAILED;
  c_depth_image_to_point_cloud _ _ _ _ := mret ZSA_RESULT_FAILED;
  c_device_open index := with_out (zsa_device_open uninitialised_serial index true);
  c_device_close := zsa_device_close;
  c_device_get_installed_count := mret zsa_device_get_installed_count;
  c_device_get_capture _ _ := mret (ZSA_WAIT_RESULT_FAILED, NULL);
  c_device_start_cameras := zsa_device_start_cameras;
  c_device_stop_cameras := zsa_device_stop_cameras;
  c_device_get_imu_sample _ _ := mret (ZSA_WAIT_RESULT_FAILED, []);
  c_device_start_imu _ := mret ZSA_RESULT_FAILED;
  c_device_stop_imu _ := mret tt;
  c_device_get_color_control _ _ := mret (ZSA_RESULT_FAILED, 0, 0);
  c_device_set_color_control _ _ _ _ := mret ZSA_RESULT_FAILED;
  c_device_get_calibration _ _ _ := mret (ZSA_RESULT_FAILED, mkCalibration 0 0 0 0 []);
  c_device_get_sync_jack _ := mret (ZSA_RESULT_FAILED, false, false);
  c_device_get_version _ := mret (ZSA_RESULT_FAILED, []);
  c_calibration_3d_to_3d _ _ _ _ := mret (ZSA_RESULT_FAILED, []);
  c_calibration_2d_to_3d _ _ _ _ _ := mret (ZSA_RESULT_FAILED, [], 0);
  c_calibration_3d_to_2d _ _ _ _ := mret (ZSA_RESULT_FAILED, [], 0);
  c_calibration_2d_to_2d _ _ _ _ _ := mret (ZSA_RESULT_FAILED, [], 0);
  c_calibration_color_2d_to_depth_2d _ _ _ := mret (ZSA_RESULT_FAILED, [], 0);
  c_calibration_get_from_raw _ _ _ _ := mret (ZSA_RESULT_FAILED, mkCalibration 0 0 0 0 []);
  c_device_get_bytes _ _ buffer size := mret (ZSA_BUFFER_RESULT_FAILED, buffer, size)
}.

(** * The books *)

(** The references of the C++ objects, as the invariant counts them. *)
Definition sdk_ledger l : ledger := fun r =>
  match r with
  | (KImage, h) => l (HImage, h)
  | (KCapture, h) => l (HCapture, h)
  | _ => 0
  end.

(** No device can be opened and no transformation created. *)
Definition sdk_inv l w : Prop :=
  Inv ∅ (sdk_ledger l) w /\ forall h, l (HTransformation, h) = 0 /\ l (HDevice, h) = 0.

(** A size the SDK's memory may have: zsa_image_create with more loses a context
    ([image_create_spec]), or writes out of bounds. *)
Definition sdk_geometry (width height stride : Z) : bool :=
  (0 <? stride) && (3 * height * stride <=? 2 * (INT32_MAX - sizeof_allocation_context_t)).

(** Memory and locks last. *)
Definition memory : Prop :=
  (forall n, calloc_ok n = true) /\ (forall n, Lock_Init_ok n = true) /\ forall n id size, fst (user_alloc n id size) = true.

Lemma sdk_nonneg l : hnonneg l -> nonneg (sdk_ledger l).
Proof. intros Hl k h Hk. destruct k; try done; apply Hl. Qed.

Lemma sdk_parts l : hnonneg l -> parts_nonneg (sdk_ledger l).
Proof. intros Hl. by apply nonneg_parts, sdk_nonneg. Qed.

Lemma sdk_plus l h r : h <> NULL -> sdk_ledger (plus l HImage h) r = gain (sdk_ledger l) (KImage, h) r.
Proof.
  intros Hn. unfold gain, plus, one_of, one. destruct r as [[] x]; cbn; rewrite ?(proj2 (Z.eqb_neq _ _) Hn);
    repeat case_decide; simplify_eq; lia.
Qed.

Lemma sdk_plus_capture l h r : h <> NULL -> sdk_ledger (plus l HCapture h) r = gain (sdk_ledger l) (KCapture, h) r.
Proof.
  intros Hn. unfold gain, plus, one_of, one. destruct r as [[] x]; cbn; rewrite ?(proj2 (Z.eqb_neq _ _) Hn);
    repeat case_decide; simplify_eq; lia.
Qed.

(** Books of images and captures say nothing of the other classes. *)
Lemma sdk_inv_plus l k h w :
  (k = HImage \/ k = HCapture) -> h <> NULL -> sdk_inv l w -> 
  forall w', Inv ∅ (gain (sdk_ledger l) (if decide (k = HImage) then KImage else KCapture, h)) w' -> sdk_inv (plus l k h) w'.
Proof.
  intros Hk Hn [_ Hl] w' HI. split.
  - eapply inv_ext; [exact HI|]. intros r. destruct Hk as [-> | ->]; [by rewrite sdk_plus|by rewrite sdk_plus_capture].
  - intros x. destruct (Hl x) as [Ht Hd]. unfold plus, one_of, one.
    destruct Hk as [-> | ->]; destruct (h =? NULL); repeat case_decide; simplify_eq; lia.
Qed.

(** An object behind a handle that is held. *)
Lemma sdk_image l h w : Inv ∅ (sdk_ledger l) w -> 0 < l (HImage, h) -> exists i : image_context_t, has w h i.
Proof.
  intros HI Hl. destruct (inv_live ∅ (sdk_ledger l) w KImage h HI) as (Hn & o & Ho & Hk); [done| |].
  - pose proof (slots_nonneg (heap w) (KImage, h)). cbn. lia.
  - destruct o as [|i| | | |]; try done. by exists i.
Qed.

Lemma sdk_capture l h w : Inv ∅ (sdk_ledger l) w -> 0 < l (HCapture, h) -> exists c : capture_context_t, has w h c.
Proof.
  intros HI Hl. destruct (inv_live ∅ (sdk_ledger l) w KCapture h HI) as (Hn & o & Ho & Hk); [done| |].
  - pose proof (slots_nonneg (heap w) (KCapture, h)). cbn. lia.
  - destruct o as [| |c| | |]; try done. by exists c.
Qed.

Lemma sdk_ext l l' w : (forall r, l r = l' r) -> sdk_inv l w -> sdk_inv l' w.
Proof.
  intros He [HI Hl]. split; [|intros h; by rewrite <- !He]. eapply inv_ext; [exact HI|]. by intros [[] x]; cbn.
Qed.

Lemma sdk_null l k w : sdk_inv l w -> sdk_inv (plus l k NULL) w.
Proof. apply sdk_ext. intros r. unfold plus. rewrite one_of_null. lia. Qed.

(** ** The functions of images *)

Lemma usable_image l h w : Inv ∅ (sdk_ledger l) w -> usable l HImage h -> h = NULL \/ exists i : image_context_t, has w h i.
Proof. intros HI [->|Hl]; [by left|right]. by eapply sdk_image. Qed.

Lemma usable_capture l h w : Inv ∅ (sdk_ledger l) w -> usable l HCapture h -> h = NULL \/ exists c : capture_context_t, has w h c.
Proof. intros HI [->|Hl]; [by left|right]. by eapply sdk_capture. Qed.

Lemma sdk_get_keeps {A} l (v : A) f h w :
  sdk_inv l w -> usable l HImage h -> wp (image_get v f h) (fun _ => sdk_inv l) w.
Proof.
  intros Hi Hu. destruct (usable_image _ _ _ (proj1 Hi) Hu) as [->|[i Hh]].
  - by apply wp_if_handle_null.
  - eapply wp_if_handle_valid; [done|]. apply wp_bind. eapply wp_load; [done|]. by apply wp_ret.
Qed.

(** Storing what carries no reference. *)
Lemma sdk_set_keeps l f h w :
  sdk_inv l w -> usable l HImage h ->
  (forall i, obj_refs (OImage (f i)) = obj_refs (OImage i) /\ img_ref_count (f i) = img_ref_count i /\ img_lock (f i) = img_lock i) ->
  wp (image_set f h) (fun _ => sdk_inv l) w.
Proof.
  intros [HI Hl] Hu Hf. destruct (usable_image _ _ _ HI Hu) as [->|[i Hh]]; [by apply wp_if_handle_null|].
  eapply wp_if_handle_valid; [done|]. eapply wp_update; [done|]. destruct Hh as [Hn Hh]. destruct (Hf i) as (Hr & Hc & Hk).
  split; [|done]. pose proof (inv_pos _ _ _ HI _ _ Hh ltac:(done) eq_refl). pose proof (inv_idle _ _ _ HI _ _ Hh ltac:(done)).
  eapply inv_store; [exact HI|exact Hh|done| | | |done|done].
  - intros r. change (to_obj (f i)) with (OImage (f i)). change (to_obj i) with (OImage i). rewrite Hr. cbn [obj_rc]. rewrite Hc. case_decide; lia.
  - intros _ _. cbn in *. by rewrite Hc.
  - intros _. cbn in *. by rewrite Hk.
Qed.

Lemma created_empty busy ext size w :
  memory -> Inv busy ext w -> fresh w ∉ busy -> 0 < size -> size + sizeof_allocation_context_t <= INT32_MAX ->
  wp (image_create_empty_image ALLOCATION_SOURCE_USER size true) (fun r _ => fst r = ZSA_RESULT_SUCCEEDED) w.
Proof.
  intros (Hc & Hl & Hu) HI Hb Hs Hm. pose proof (inv_fresh _ _ _ HI) as Hf. assert (Hn : fresh w <> NULL) by (unfold NULL; lia).
  unfold image_create_empty_image. rewrite (proj2 (Z.eqb_neq size 0)) by lia. cbn [negb bad_source].
  apply wp_bind, wp_handle_create_ok; [apply Hc|]. rewrite (proj2 (Z.eqb_neq (fresh w) NULL)) by done.
  pose proof (inv_created busy ext w (S (tick w)) (OImage zeroed) HI eq_refl eq_refl ltac:(done)) as HI1.
  set (w1 := _ <| fresh := _ |>) in *. apply wp_bind, wp_bind.
  assert (Hm1 : memory_lasts w1) by (split; [done|by right]).
  eapply wp_mono; [apply (wp_and_if True); [by apply (wp_allocator_alloc _ _ _ _ _ HI1)|
    intros _; eapply wp_alloc_ok; [exact Hm1|exact HI1|done|done|done]]|].
  intros p w2 [[(-> & _)|(_ & _ & _ & _ & ctx & Eh)] Hp]; [by destruct (Hp I)|]. specialize (Hp I).
  assert (Hh2 : heap w2 !! fresh w = Some (OImage zeroed)).
  { rewrite Eh, lookup_insert_ne by (cbn; lia). apply lookup_insert_eq. }
  apply wp_bind. eapply wp_update; [by split|]. rewrite (proj2 (Z.eqb_neq p NULL) Hp). apply wp_ret. cbn -[image_dec_ref Lock_Init update].
  apply wp_bind, wp_bind. eapply wp_update; [split; [exact Hn|apply lookup_insert_eq]|].
  apply wp_bind. unfold wp at 1, Lock_Init, ask, mbind at 1, M_bind at 1. rewrite Hl.
  apply wp_bind. eapply wp_update; [split; [exact Hn|apply lookup_insert_eq]|]. apply wp_ret. by apply wp_ret.
Qed.

(** Under the geometry the size fits an allocation, whatever the format. *)
Lemma sdk_size format width height stride size :
  sdk_geometry width height stride = true -> 0 < height < 20000 ->
  image_buffer_size format width height stride = Some size -> 0 < size <= INT32_MAX - sizeof_allocation_context_t.
Proof.
  unfold sdk_geometry. intros [Hs%Z.ltb_lt Hm%Z.leb_le]%andb_true_iff Hh.
  assert (Hb : 0 < height * stride <= INT32_MAX) by (unfold INT32_MAX, sizeof_allocation_context_t in *; nia).
  assert (Hst : stride <= INT32_MAX) by (unfold INT32_MAX in *; nia). unfold INT32_MAX in Hb, Hst.
  unfold image_buffer_size. rewrite (u64_id height), (u64_id stride), (u64_id (3 * height)), !u64_id by nia.
  intros E. assert (size = height * stride \/ size = 3 * height * stride / 2 /\ Z.rem height 2 = 0) as [-> | [-> He]].
  { repeat case_match; simplify_eq; auto. right. split; [done|].
    match goal with H : negb _ = false |- _ => apply negb_false_iff, Z.eqb_eq in H; exact H end. }
  - unfold INT32_MAX, sizeof_allocation_context_t in *. nia.
  - split; [apply Z.div_str_pos; nia|]. apply Z.div_le_upper_bound; [lia|]. lia.
Qed.

Lemma sdk_image_create l format width height stride w :
  memory -> sdk_inv l w -> hnonneg l -> sdk_geometry width height stride = true ->
  wp (with_out (Image.image_create format width height stride ALLOCATION_SOURCE_USER true)) (made sdk_inv l HImage) w.
Proof.
  intros Hm Hi Hn Hg. unfold with_out, Image.image_create. cbn [negb]. apply wp_bind.
  destruct (bad_format format); [by do 2 apply wp_ret|].
  destruct ((width >? 0) && (width <? 20000)); cbn [negb]; [|by do 2 apply wp_ret].
  destruct ((height >? 0) && (height <? 20000)) eqn:Hh; cbn [negb]; [|by do 2 apply wp_ret].
  apply andb_true_iff in Hh as [Hh1%Z.gtb_lt Hh2%Z.ltb_lt].
  destruct (image_buffer_size format width height stride) as [size|] eqn:Hs; [|by do 2 apply wp_ret].
  pose proof (sdk_size _ _ _ _ _ Hg ltac:(lia) Hs) as [Hs0 Hs1]. pose proof Hi as [HI _]. apply wp_bind.
  eapply wp_mono; [apply (wp_and_if True); [apply (wp_image_create_empty_image ∅ (sdk_ledger l)); [done| |done|done|done|lia]|
    intros _; eapply created_empty; [done|exact HI|done|done|lia]]|].
  { by apply parts_blocks, sdk_parts. }
  intros [r out] w1 [Hp Hr]. specialize (Hr I). cbn in Hr. subst r. destruct Hp as (h & b & ctx & -> & Hh & _ & _ & _ & HI1).
  cbn -[handle_get_context]. apply wp_bind. eapply wp_get_context; [exact Hh|]. apply wp_bind. eapply wp_update; [exact Hh|].
  apply wp_ret, wp_ret. destruct Hh as [Hne Hh]. cbn. apply (sdk_inv_plus l HImage h w); [by left|done|done|].
  eapply inv_store; [exact HI1|exact Hh|done| |done|done|set_solver|done]. cbn. ledger.
Qed.

Lemma sdk_from_buffer l format width height stride buffer size cb context w :
  sdk_inv l w -> hnonneg l ->
  wp (with_out (image_create_from_buffer format width height stride buffer size
        (if cb =? NULL then image_cb_null else image_cb_user cb) context true)) (made sdk_inv l HImage) w.
Proof.
  intros Hi Hn. unfold with_out. apply wp_bind.
  assert (Hargs : buffer_args_ok format width height buffer size \/
    forall cb context, image_create_from_buffer format width height stride buffer size cb context true w = Done (ZSA_RESULT_FAILED, None) w).
  { unfold image_create_from_buffer, buffer_args_ok. cbn [negb]. destruct (bad_format format); [by right|].
    destruct (Z.leb_spec width 0); [by right|]. rewrite Z.gtb_ltb. destruct (Z.ltb_spec 20000 width); [by right|].
    destruct (Z.leb_spec height 0); [by right|]. rewrite Z.gtb_ltb. destruct (Z.ltb_spec 20000 height); [by right|].
    destruct (Z.eqb_spec buffer NULL); [by right|]. destruct (Z.eqb_spec size 0); [by right|]. left. split_and!; try done; lia. }
  destruct Hargs as [Ha|E]; [|by unfold wp; rewrite E]. pose proof Hi as [HI Hl].
  eapply wp_mono; [apply (wp_image_create_from_buffer ∅ (sdk_ledger l)); [done|done|by destruct (cb =? NULL)]|].
  pose proof (inv_fresh _ _ _ HI). assert (Hf : fresh w <> NULL) by (unfold NULL; lia).
  intros [[] out] w1 (_ & _ & Hout); apply wp_ret; cbn.
  - destruct Hout as (-> & _ & HI1). by apply (sdk_inv_plus l HImage (fresh w) w); [left| | |].
  - by destruct Hout as (_ & _ & HI1).
Qed.

Lemma sdk_capture_create l w : sdk_inv l w -> wp (with_out (capture_create true)) (made sdk_inv l HCapture) w.
Proof.
  intros Hi. unfold with_out. apply wp_bind. pose proof Hi as [HI Hl].
  eapply wp_mono; [by apply (wp_capture_create ∅ (sdk_ledger l))|].
  pose proof (inv_fresh _ _ _ HI). assert (Hf : fresh w <> NULL) by (unfold NULL; lia).
  intros [[] out] w1 (_ & Hout); apply wp_ret; cbn.
  - destruct Hout as (-> & _ & _ & HI1). by apply (sdk_inv_plus l HCapture (fresh w) w); [right| | |].
  - by destruct Hout as (_ & _ & HI1).
Qed.

Lemma sdk_reference l k h w :
  sdk_inv l w -> copyable k = true -> h <> NULL -> 0 < l (k, h) -> wp (reference k h) (fun _ => sdk_inv (plus l k h)) w.
Proof.
  intros Hi Hk Hn Hl. pose proof Hi as [HI _]. destruct k; try done; cbn.
  - destruct (sdk_image l h w HI Hl) as [i Hh]. eapply wp_image_inc_ref; [exact HI|exact Hh|].
    intros w' _ HI'. by apply (sdk_inv_plus l HImage h w); [left| | |].
  - destruct (sdk_capture l h w HI Hl) as [c Hh]. eapply wp_capture_inc_ref; [exact HI|exact Hh|].
    intros w' _ HI'. by apply (sdk_inv_plus l HCapture h w); [right| | |].
Qed.

Lemma sdk_release l k h w :
  sdk_inv (plus l k h) w -> hnonneg l -> h <> NULL -> wp (release k h) (fun _ => sdk_inv l) w.
Proof.
  intros [HI Hl] Hn Hh. assert (Hself : 0 < plus l k h (k, h)).
  { unfold plus. rewrite one_of_self by done. specialize (Hn (k, h)). lia. }
  assert (Hnp : hnonneg (plus l k h)).
  { intros r. unfold plus. specialize (Hn r). pose proof (one_of_nonneg k h r). lia. }
  assert (Hrest : forall x, l (HTransformation, x) = 0 /\ l (HDevice, x) = 0).
  { intros x. destruct (Hl x) as [Ht Hd]. unfold plus in Ht, Hd. pose proof (one_of_nonneg k h (HTransformation, x)).
    pose proof (one_of_nonneg k h (HDevice, x)). pose proof (Hn (HTransformation, x)). pose proof (Hn (HDevice, x)). lia. }
  destruct k; cbn [release].
  - destruct (sdk_image _ _ _ HI Hself) as [i Hi].
    eapply wp_mono; [apply (wp_image_dec_ref ∅ _ h i w HI); [by apply parts_blocks, sdk_parts|done|done]|].
    intros [] w' [HI' _]. split; [|done]. eapply inv_ext; [exact HI'|]. intros r. unfold lose.
    rewrite (sdk_plus l h r Hh). unfold gain. case_decide; lia.
  - destruct (sdk_capture _ _ _ HI Hself) as [c Hc].
    eapply wp_mono; [apply (wp_capture_dec_ref ∅ _ h c w HI); [by apply sdk_parts|apply unbusy_empty|done|done]|].
    intros [] w' [HI' _]. split; [|done]. eapply inv_ext; [exact HI'|]. intros r. unfold lose.
    rewrite (sdk_plus_capture l h r Hh). unfold gain. case_decide; lia.
  - destruct (Hl h) as [Ht _]. lia.
  - destruct (Hl h) as [_ Hd]. lia.
Qed.

(** ** The functions of captures *)

Lemma sdk_get_slot (slot : capture_context_t -> Z) `{ImageSlot slot} l h w :
  sdk_inv l w -> hnonneg l -> usable l HCapture h -> wp (capture_get_image slot h) (fun i => sdk_inv (plus l HImage i)) w.
Proof.
  intros Hi Hn Hu. pose proof Hi as [HI Hl].
  assert (Hnull : forall w', Inv ∅ (sdk_ledger l) w' -> sdk_inv (plus l HImage NULL) w').
  { intros w' HI'. by apply sdk_null. }
  destruct (usable_capture _ _ _ HI Hu) as [->|[c Hc]]; [by apply wp_if_handle_null, Hnull|].
  eapply wp_mono; [apply (wp_capture_get_image slot ∅ _ h c w HI); [by apply sdk_parts|done|done]|].
  intros i w' (-> & HI' & _). unfold gain_nonnull in HI'. destruct (Z.eqb_spec (slot c) NULL) as [E|E].
  - rewrite E. by apply Hnull.
  - by apply (sdk_inv_plus l HImage (slot c) w); [left| | |].
Qed.

Lemma sdk_set_slot (slot : capture_context_t -> Z) `{ImageSlot slot} l h i w :
  sdk_inv l w -> hnonneg l -> usable l HCapture h -> usable l HImage i ->
  wp (capture_set_image slot h i) (fun _ => sdk_inv l) w.
Proof.
  intros [HI Hl] Hn Hu Hui. destruct (usable_capture _ _ _ HI Hu) as [->|[c Hc]]; [by apply wp_if_handle_null|].
  eapply wp_mono; [apply (wp_capture_set_image slot ∅ (sdk_ledger l) h c i w HI); [by apply sdk_parts|apply unbusy_empty|done|done|]|].
  - by destruct Hui.
  - by intros [] w' (HI' & _).
Qed.

Lemma sdk_get_temperature l h w :
  sdk_inv l w -> usable l HCapture h -> wp (capture_get_temperature_c h) (fun _ => sdk_inv l) w.
Proof.
  intros Hi Hu. destruct (usable_capture _ _ _ (proj1 Hi) Hu) as [->|[c Hc]]; [by apply wp_if_handle_null|].
  eapply wp_if_handle_valid; [done|]. apply wp_bind. eapply wp_load; [done|]. by apply wp_ret.
Qed.

Lemma sdk_set_temperature l h t w :
  sdk_inv l w -> usable l HCapture h -> wp (capture_set_temperature_c h t) (fun _ => sdk_inv l) w.
Proof.
  intros [HI Hl] Hu. destruct (usable_capture _ _ _ HI Hu) as [->|[c Hc]]; [by apply wp_if_handle_null|].
  eapply wp_if_handle_valid; [done|]. destruct (isnan t); [by apply wp_ret|]. eapply wp_update; [done|].
  destruct Hc as [Hn Hc]. pose proof (inv_pos _ _ _ HI _ _ Hc ltac:(done) eq_refl). pose proof (inv_idle _ _ _ HI _ _ Hc ltac:(done)).
  split; [|done]. eapply inv_store; [exact HI|exact Hc|done| |done|done|done|done]. destruct c. cbn. ledger.
Qed.

(** ** The functions of devices *)

Lemma sdk_device_open l index w :
  memory -> sdk_inv l w ->
  wp (with_out (zsa_device_open uninitialised_serial index true)) (fun r w' => fst r = ZSA_RESULT_FAILED /\ sdk_inv l w') w.
Proof.
  intros Hm [HI Hl]. unfold with_out. apply wp_bind. pose proof (wp_zsa_device_open ∅ _ w uninitialised_serial index HI) as Hw.
  unfold wp, wp_or in *. destruct (zsa_device_open uninitialised_serial index true w) as [r w'|f].
  - destruct Hw as (-> & Eh & Hr & Hf & Ec & Ea & Es). split; [done|]. split; [|done]. by eapply inv_restored.
  - destruct Hw as [_ [t Ht]]. destruct Hm as [Hc _]. by rewrite Hc in Ht.
Qed.

(** No device is held. *)
Lemma usable_device l h w : sdk_inv l w -> usable l HDevice h -> h = NULL.
Proof. intros [_ Hl] [->|Hd]; [done|]. destruct (Hl h). lia. Qed.
End sdk.

Section laws.
Context `{Platform} `{Usb} `{StreamClient} `{CameraReader} `{!UsbOk}.
Context (Hmemory : memory).

(** The SDK keeps the promises the classes rely on, while memory lasts. *)
Program Definition sdk_ok : ZsaApiOk world := {| api_inv := sdk_inv; geometry := sdk_geometry |}.
Next Obligation. intros. by eapply sdk_ext. Qed.
Next Obligation. intros. by apply sdk_reference. Qed.
Next Obligation. intros. by apply sdk_release. Qed.
Next Obligation. intros. by apply sdk_image_create. Qed.
Next Obligation. intros. by apply sdk_from_buffer. Qed.
Next Obligation. intros l m h w Hi Hn Hu. by destruct m; apply sdk_get_keeps. Qed.
Next Obligation.
  intros l m h v w Hi Hn Hu. destruct m; try (by apply wp_ret);
    (apply sdk_set_keeps; [exact Hi|exact Hu|intros i; split_and!; reflexivity]).
Qed.
Next Obligation. intros. by apply sdk_capture_create. Qed.
Next Obligation. intros l slot h w Hi Hn Hu. destruct slot; [by apply (sdk_get_slot cap_color)|by apply (sdk_get_slot cap_depth)|by apply (sdk_get_slot cap_ir)]. Qed.
Next Obligation. 
  intros l slot h i w Hi Hn Hu Hui. destruct slot;
    [exact (sdk_set_slot cap_color l h i w Hi Hn Hu Hui)|exact (sdk_set_slot cap_depth l h i w Hi Hn Hu Hui)
    |exact (sdk_set_slot cap_ir l h i w Hi Hn Hu Hui)].
 Qed.
Next Obligation. intros. by apply sdk_get_temperature. Qed.
Next Obligation. intros. by apply sdk_set_temperature. Qed.
Next Obligation. intros l c w Hi Hn. by apply wp_ret, sdk_null. Qed.
Next Obligation. intros. by apply wp_ret. Qed.
Next Obligation. intros. by apply wp_ret. Qed.
Next Obligation. intros. by apply wp_ret. Qed.
Next Obligation.
  intros l index w Hi Hn. eapply wp_mono; [by apply (sdk_device_open l)|]. by intros [[] h] w' [Hr Hi'].
Qed.
Next Obligation. intros. by apply wp_ret. Qed.
Next Obligation.
  intros l h config w Hi Hn Hu. rewrite (usable_device _ _ _ Hi Hu). by destruct config.
Qed.
Next Obligation. intros l h w Hi Hn Hu. by rewrite (usable_device _ _ _ Hi Hu). Qed.
End laws.

(** * Properties *)


(** With the SDK as it is, a device is never opened: zsa_device_open fails, and
    the class throws. *)
Theorem device_open_throws `{Platform} `{Usb} `{StreamClient} `{CameraReader} `{!UsbOk} l index (s : cxx world) :
  memory -> sdk_inv l (cx_world s) ->
  wp (device_open index) (fun r s' => r = inl "Failed to open device!"%string /\ cx_objects s' = cx_objects s) s.
Proof.
  intros Hm Hi. unfold device_open. apply wp_bind, wp_api. eapply wp_mono; [by apply (sdk_device_open l)|].
  intros [r h] w [Hr _]. cbn in Hr. subst r. by apply wp_ret.
Qed.

(** * Witnesses *)

Lemma good_memory : memory (H := good_platform).
Proof. done. Qed.

(** An image, a copy of it, a capture that keeps it, and the image the capture
    gives back; then the first image goes. *)
Definition sample_client : list client_op :=
  [Op_image ZSA_IMAGE_FORMAT_DEPTH16 640 576 1280; Op_copy 1; Op_capture; Op_set_capture_image S_depth 3 1;
   Op_destroy 1; Op_capture_image S_depth 3; Op_assign 2 4; Op_device 0].

Definition good_sdk : ZsaApiOk world := sdk_ok good_memory.

Lemma sdk_inv_init : sdk_inv none_held init_world.
Proof. split; [|done]. eapply inv_ext; [exact inv_init|]. by intros [[] x]. Qed.

